(* ===== verification/_CoqProject ===== *)
-Q . S2P
Prelude.v
Bitops.v
Crc16.v
Murmur.v
Mem.v
Thread.v
Log.v
Quotearg.v
Client.v
Stream.v
Query.v
Connect.v
Cli.v
Chain.v
Atomic.v
Object.v
Dict.v
DictRehash.v
DictSpec.v
DictSections.v
DictOps.v
DictIter.v
DictThread.v
Jobs.v
Database.v
DictWorked.v
DictCalls.v
Skiplist.v
SkiplistSpec.v
SkiplistRuns.v
KeyIndex.v
SetMap.v
CList.v
CString.v
Disk.v
MiniSql.v
Dump.v
DiskSpec.v
Bio.v
BioSpec.v
Worker.v
Shutdown.v
Waiting.v
Life.v
Container.v
ContainerSpec.v
Engine.v
EngineSpec.v
EngineStrings.v
EngineLists.v
EngineIndex.v
EngineMaps.v
EngineKeys.v
EngineRun.v
EnginePersist.v
EngineLoad.v
EngineStore.v
EngineThreads.v
EngineTheorems.v
EngineWitness.v
EngineShared.v
EngineWorked.v
RbObjects.v
RbLog.v
RbSpec.v
RbRuns.v
RbLifetimes.v
RbServer.v
RbEach.v
RbDisk.v
RbRestart.v
RbTheorems.v
RbWitness.v
