(* ===== verification/Prelude.v ===== *)
(** * XFireDB: a verification library for the storage engine

    XFireDB is a database server.  Its engine, [libxfiredbengine], keeps strings,
    lists, hash maps and sets in memory under text keys and writes every change to an
    SQLite table in the background.  The server is a Ruby program that uses the engine
    through an extension in C; clients talk to it.  This library models the engine, the
    extension and the client in C, and proves what their parts promise each other, up to
    the engine's own operations, the objects of the Ruby program and a restart from the
    table.

    ** The program and its files

    The engine ([src/libxfiredbengine/xfiredb.c]) looks a key up in the database
    ([storage/database.c]), which is a dictionary ([storage/dict.c]) of pointers to
    containers ([storage/container.c]).  A container is a string ([storage/string.c]),
    a list ([storage/list.c]), a hash map ([storage/hashmap.c]) or a set
    ([storage/set.c]); the last two are a skip list ([storage/skiplist.c]) and a counter
    ([os/atomic.c]).  Each change is queued ([storage/bio.c]) for a worker thread
    ([os/bg.c]), which sends one SQL statement per change ([storage/disk.c]).

    - [Prelude]: fixed-width integers, the [outcome] of code that can fault
      ([Done], [Stuck] for undefined behaviour, [OutOfFuel]), bytes and C strings,
      counting lemmas.  [Chain]: linked structures read through a partial function.
      [Mem]: regions of memory ([os/mem.c]).  [Thread]: recursive mutexes and thread
      structures ([os/pthread.c]).
    - [Bitops], [Atomic], [Object], [Crc16], [Murmur], [Quotearg]: the leaf modules
      [bitops.c], [bitops-atomic.c], [os/atomic.c], [storage/object.c], [os/time.c],
      [crc16.c], the hash of [dict.c] and [skiplist.c], [quotearg.c] and its copy in
      [clients/c/client.c].  [Log]: the log's streams, files and formats ([log.c]).
    - [Client]: the client's side of a reply ([clients/c/split.c] and [result.c]).
      [Stream]: connections, with the socket and SSL calls as the operations of a class.
      [Query]: sending a query and reading the reply ([clients/c/query.c]).  [Connect]:
      connecting, authenticating and disconnecting ([clients/c/connect.c]), with the
      resources to give back; the network is a class.  [Cli]: the command line client
      ([clients/cli/cli.c]) over all of these.
    - [Dict], [DictIter]: the dictionary, bucket by bucket, with incremental rehashing
      and iterators.  [DictThread]: the rehash worker's thread and [dict_free].
      [Jobs]: the table of background jobs ([os/bg.c]).  [DictRehash], [DictSpec], [DictSections], [DictOps]: rehashing
      keeps the entries and ends; every operation, and every interleaving of the
      critical sections of threads, acts on the finite map [dict_abs].
    - [Database]: [db_alloc] and its operations over the class [KVStore], which is
      what a database asks of its store; the dictionary is an instance.  [DictWorked]:
      the dictionary with the rehash worker between the sections of each operation is
      another.  [DictCalls]: sequences of calls of the dictionary's interface.
    - [Skiplist], [SkiplistSpec], [SkiplistRuns]: the skip list in a heap of nodes, its
      operations against a finite map, colliding keys.
    - [KeyIndex]: what sets and hash maps ask of an index of nodes; the skip list is an
      instance.  [SetMap]: sets and hash maps over it.
    - [CList], [CString], [Container], [ContainerSpec]: lists in a heap, strings, the
      tagged union, and how operations on nodes change the value of a container.
    - [Disk]: the statements; [sqlite3_exec] is a parameter and [SqliteTable] states
      what the code relies on.  [MiniSql]: a table that keeps these promises.
      [DiskSpec]: the effect of each function on the rows.  [Dump]: the tool that prints
      a table ([scripts/dump.c]).
    - [Bio], [BioSpec]: the queue, strings owned by its nodes, the worker.  [Worker]:
      the engine's and the worker's threads as a step relation.  [Shutdown]: the
      schedules on which [xfiredb_se_exit] returns.  [Waiting]: the worker, by a
      schedule of its steps, while [bio_sync] and the join wait for it.  [Life]: starting and stopping the
      engine, with its log, jobs, queue and disk, from the settings of the Ruby program
      ([xfiredb.c], [ext/xfiredb-serv/storage_engine.c]).
    - [Engine]: the operations of [xfiredb.c] as computations on the database, the
      containers by address, the queue and the next unused address.  [EngineSpec]: the
      representation [eng_rep] of a map of values by such a state, and the primitives.
      [EngineStrings], [EngineLists], [EngineIndex], [EngineMaps], [EngineKeys]: what
      each operation does.  [EngineRun]: sequences of calls and their specification.
      [EnginePersist]: what the queued changes do to the table.  [EngineLoad]: loading
      the table.  [EngineStore]: storing a whole container and loading it again.
      [EngineThreads]: calls interleaved with the worker, and what a restart finds after
      a shutdown or a crash.  [EngineTheorems], [EngineWitness]: the theorems and runs of
      them over the program's own dictionary and skip list.  [EngineShared]: the string that
      [xfiredb_key_delete] queues more than once.  [EngineWorked]: the engine over a
      dictionary with a busy worker and over one without, call by call.
    - [RbObjects]: the objects of the Ruby extension ([ext/xfiredb-serv/database.c],
      [list.c], [hashmap.c], [set.c]): containers that live as long as the database or
      an object needs them.  [RbSpec]: what each method promises, on a [world] of values
      by key and by object.  [RbRuns]: what each operation does to one container.
      [RbLifetimes]: the invariant [ok] between a server and a world.  [RbServer]: every
      call keeps its promise, and so do sequences.  [RbEach]: blocks over hash maps and
      sets, with the iterator that holds a node and reads what the block left of it.  [RbDisk]: what the calls queue, as
      rows.  [RbRestart]: stopping and loading ([lib/xfiredb-serv/engine.rb]).
      [RbTheorems], [RbWitness]: the theorems, and runs of them.  [RbLog]: the messages of
      the server ([ext/xfiredb-serv/log.c], [lib/xfiredb-serv/log.rb]).

    ** What is shown

    - Refinement: the engine behaves as a map of values ([engine_refines_map], for calls
      that keep to [cmds_ok]: the theorems below say what the others do); a
      database as a finite map ([database_refines_map]); interleaved dictionary
      operations as atomic ones ([dict_sections_refine]); the worker turns the rows of
      the table into the rows after the queued changes ([bio_worker_rows]); the command
      line client sends the lines it reads and prints what the replies say
      ([cli_session]).  The objects of a Ruby program behave as values
      ([ruby_refines]), except that [clear] leaves the size of a hash map or a set.  The
      rehash worker cannot be observed, whatever is called, faults included
      ([engine_beside_rehash]).
    - Well-formedness: no sequence of calls on a well-formed dictionary that keeps to
      its documentation faults ([calls_well_formed]).  Resources: connecting and disconnecting are balanced
      ([connect_resources]), starting and stopping the engine are, whenever the stop returns ([engine_life]),
      what the command line client takes is given back but for one buffer for every 1022
      characters of a line of sizes ([cli_session]), and
      the objects of a Ruby program are all freed ([ruby_exit_frees]).
    - Round trips: calls, worker, table and load give the same map back, whatever the
      interleaving, after a shutdown ([exit_restores]), and the map after some of the
      calls after a crash ([crash_restores]); storing and loading a container
      ([container_roundtrip]); the Ruby program finds its database again
      ([ruby_restart]); the client reads the reply that the server wrote
      ([query_reply]); escaping and unescaping.
    - Invariants and interleavings: first in, first out, under every interleaving
      ([interleaving_fifo]), nothing lost at a shutdown, which can always be completed
      ([shutdown_possible]); rehashing keeps the map; a dictionary at rest can be freed
      ([dict_free_returns]), and the jobs of the table are stopped, each once
      ([bg_processes_exit_stops_all]).
    - Functional correctness of the skip list, lists by position, sets and hash maps,
      dictionary operations and iterators, object expiry, checksums, the log
      ([log_files]) and the dump of a table ([dump_prints_table]).
    - Termination: rehashing by the worker ends; fuel that is enough is part of the
      statements ([S (length l)] for a loop over a list, the number of queued changes
      for the worker).
    - What the code does against its purpose: each such theorem states the fault, the
      wrong code or the lost change (a dangling container after [xfiredb_list_clear], a
      string released twice after [xfiredb_key_delete], lost signals, colliding keys
      ([skiplist_collisions]),
      unescaped statements, a name from the network used as a format
      ([auth_fail_formats]), a container of the extension written to after it was freed
      ([collected_delete_faults]), a block that deletes under its iterator ([ruby_each]),
      and others).

    ** Bounds and assumptions

    A loop over a linked structure takes fuel; the theorems give an amount that is
    enough.  Sizes are bounded where the code counts in an [int] (2^31) or doubles a
    table (2^30 entries).  Keys of one hash map must have different hashes
    ([ki_good]), and keys and texts that go into statements no quote ([quote_free]):
    the code needs both, and theorems show what happens otherwise.  The allocator
    never returns a live address; changes are kept on disk, at a level below 3, from which
    [bio_queue_add] drops them; the coin of the skip list, the bytes [realloc] adds
    and the clock are arguments.  In the extension the keys of a hash map or a set do not
    collide, the objects of the Ruby program are numbered and a number is not used again,
    and [order] is the order in which a skip list is met, any permutation of its keys;
    a program keeps to [allowed] calls, and theorems show what the others do.

    ** Not modelled

    Running out of memory, which aborts, SQLite itself, the Ruby interpreter and its C interface, the Windows parts of
    the client, and the options of the terminal.  Of the extension: [each] of the database
    with a block that stores, enumerators, subclasses of its classes, and the methods that
    only pass a text to [quotearg.c] or [crc16.c].  The start of the debugging build ([xfiredb_init],
    [xfiredb_exit]) and the test drivers are left out.  The rest of the server, its
    commands and its cluster, is Ruby.

    ** What is left

    [each] of the database while its block stores, which moves the entries of the
    dictionary under a safe iterator, and the commands of the server over the objects of
    the extension. *)
From stdpp Require Export base tactics numbers list gmap strings option.
From stdpp Require Import pretty.

(** ** Fixed-width integers

    A [w]-bit C integer is a [Z]; [uwrap w] is the conversion to the unsigned
    type of that width and [swrap w] the conversion to the signed one. *)
Section Widths.
Local Open Scope Z_scope.

Definition uwrap (w z : Z) : Z := z mod 2 ^ w.
Definition swrap (w z : Z) : Z := (z + 2 ^ (w - 1)) mod 2 ^ w - 2 ^ (w - 1).
Definition u8 : Z → Z := uwrap 8.
Definition u16 : Z → Z := uwrap 16.
Definition u32 : Z → Z := uwrap 32.
Definition u64 : Z → Z := uwrap 64.
Definition s8 : Z → Z := swrap 8.
Definition s32 : Z → Z := swrap 32.
Definition s64 : Z → Z := swrap 64.

Lemma uwrap_range w z : 0 ≤ w → 0 ≤ uwrap w z < 2 ^ w.
Proof. intros ?. unfold uwrap. apply Z.mod_pos_bound. by apply Z.pow_pos_nonneg. Qed.

Lemma uwrap_small w z : 0 ≤ z < 2 ^ w → uwrap w z = z.
Proof. intros ?. by apply Z.mod_small. Qed.

Lemma uwrap_idemp w z : uwrap w (uwrap w z) = uwrap w z.
Proof. unfold uwrap. apply Zmod_mod. Qed.

Lemma swrap_range w z : 0 < w → - 2 ^ (w - 1) ≤ swrap w z < 2 ^ (w - 1).
Proof.
  intros ?. unfold swrap.
  assert (0 < 2 ^ w) by (apply Z.pow_pos_nonneg; lia).
  assert (2 ^ w = 2 * 2 ^ (w - 1)) as Hw.
  { rewrite <-Z.pow_succ_r by lia. f_equal. lia. }
  pose proof (Z.mod_pos_bound (z + 2 ^ (w - 1)) (2 ^ w)). lia.
Qed.

Lemma swrap_small w z : 0 < w → - 2 ^ (w - 1) ≤ z < 2 ^ (w - 1) → swrap w z = z.
Proof.
  intros ? ?. unfold swrap.
  assert (2 ^ w = 2 * 2 ^ (w - 1)) as Hw.
  { rewrite <-Z.pow_succ_r by lia. f_equal. lia. }
  rewrite Z.mod_small by lia. lia.
Qed.

Lemma u32_range z : 0 ≤ u32 z < 2 ^ 32.
Proof. by apply uwrap_range. Qed.
Lemma u32_small z : 0 ≤ z < 2 ^ 32 → u32 z = z.
Proof. apply uwrap_small. Qed.
Lemma u64_small z : 0 ≤ z < 2 ^ 64 → u64 z = z.
Proof. apply uwrap_small. Qed.
Lemma s32_small z : - 2 ^ 31 ≤ z < 2 ^ 31 → s32 z = z.
Proof. intros ?. by apply (swrap_small 32). Qed.
Lemma s32_add n m : s32 (s32 n + m) = s32 (n + m).
Proof.
  unfold s32, swrap. f_equal. set (k := 2 ^ (32 - 1)).
  replace ((n + k) mod 2 ^ 32 - k + m + k) with ((n + k) mod 2 ^ 32 + m) by lia.
  rewrite Zplus_mod_idemp_l. f_equal. lia.
Qed.
Lemma s64_small z : - 2 ^ 63 ≤ z < 2 ^ 63 → s64 z = z.
Proof. intros ?. by apply (swrap_small 64). Qed.
End Widths.

Create HintDb cint.
#[export] Hint Resolve u32_range : cint.

(** ** Error codes

    [include/xfiredb/error.h]; every function returns [-XFIREDB_OK] or
    [-XFIREDB_ERR], which are 0 and -1. *)
Definition XFIREDB_OK : Z := 0.
Definition XFIREDB_ERR : Z := 1.

(** ** Computations that can fault

    [Stuck] is undefined behaviour of the C code (a read or write outside the
    object, a NULL dereference, an operation on released memory), [OutOfFuel] a
    loop that did not end within the fuel it was given, and [Done] a normal
    return.  The two are kept apart so that "does not fault" and "terminates"
    are separate statements. *)
Inductive outcome (A : Type) : Type :=
  | Done (a : A)
  | Stuck
  | OutOfFuel.
Arguments Done {A} a.
Arguments Stuck {A}.
Arguments OutOfFuel {A}.

#[export] Instance outcome_ret : MRet outcome := @Done.
#[export] Instance outcome_bind : MBind outcome := λ A B f m,
  match m with Done a => f a | Stuck => Stuck | OutOfFuel => OutOfFuel end.
#[export] Instance outcome_eq_dec `{EqDecision A} : EqDecision (outcome A).
Proof. solve_decision. Defined.

(** The value of a read that faults when there is nothing to read. *)
Definition deref {A} (o : option A) : outcome A :=
  match o with Some a => Done a | None => Stuck end.

Lemma outcome_bind_Done {A B} (f : A → outcome B) m b :
  m ≫= f = Done b ↔ ∃ a, m = Done a ∧ f a = Done b.
Proof.
  split.
  - destruct m; simpl; [eauto|done..].
  - by intros (a & -> & ?).
Qed.

Lemma bind_Done {A B} (a : A) (f : A → outcome B) : Done a ≫= f = f a.
Proof. done. Qed.

Lemma deref_Done {A} (o : option A) a : deref o = Done a ↔ o = Some a.
Proof. destruct o; simpl; split; congruence. Qed.

(** [outcome_inv H] takes a completed sequence of steps apart. *)
Ltac outcome_inv H :=
  repeat first
    [ apply (proj1 (outcome_bind_Done _ _ _)) in H; destruct H as (? & ? & H)
    | apply (proj1 (deref_Done _ _)) in H ].

(** [decide_by_compute]: a decidable statement about concrete data. *)
Ltac decide_by_compute := refine (bool_decide_unpack _ _); vm_compute; exact I.

(** ** Strings

    A C string is the [string] of the characters before its terminator; [bytes]
    are their codes, 0 to 255, and a plain [char] is signed ([s8]). *)
Fixpoint bytes (s : string) : list Z :=
  match s with
  | EmptyString => []
  | String a s' => Z.of_N (Ascii.N_of_ascii a) :: bytes s'
  end.

Definition strlen (s : string) : Z := Z.of_nat (String.length s).
Definition strcmp_eq (a b : string) : bool := bool_decide (a = b).

(** No NUL character: what a C string is. *)
Definition nul_free (s : string) : Prop := Forall (λ b, b ≠ 0%Z) (bytes s).

Lemma length_bytes s : length (bytes s) = String.length s.
Proof. induction s; simpl; congruence. Qed.

Lemma bytes_app s t : bytes (s +:+ t) = bytes s ++ bytes t.
Proof.
  induction s as [|a s IH]; [done|].
  change (String a s +:+ t) with (String a (s +:+ t)). simpl. by rewrite IH.
Qed.

Lemma bytes_range s : Forall (λ b, 0 ≤ b < 256)%Z (bytes s).
Proof.
  induction s as [|a s IH]; simpl; constructor; [|done].
  pose proof (Ascii.N_ascii_bounded a). lia.
Qed.

Lemma bytes_inj s t : bytes s = bytes t → s = t.
Proof.
  revert t. induction s as [|a s IH]; intros [|b t]; simpl; try done.
  intros [= Hab ?]. f_equal; [|auto].
  rewrite <-(Ascii.ascii_N_embedding a), <-(Ascii.ascii_N_embedding b).
  f_equal. lia.
Qed.

Lemma strcmp_eq_true a b : strcmp_eq a b = true ↔ a = b.
Proof. apply bool_decide_eq_true. Qed.
Lemma strcmp_eq_false a b : strcmp_eq a b = false ↔ a ≠ b.
Proof. apply bool_decide_eq_false. Qed.
Lemma strcmp_eq_refl a : strcmp_eq a a = true.
Proof. by apply strcmp_eq_true. Qed.

(** ** Lists of lists: an array of buckets *)
Section Concat.
Context {A : Type}.
Implicit Types (ls : list (list A)) (l : list A).

Lemma concat_split ls i l :
  ls !! i = Some l → concat ls = concat (take i ls) ++ l ++ concat (drop (S i) ls).
Proof.
  intros H. rewrite <-(take_drop_middle ls i l H) at 1. by rewrite concat_app.
Qed.

Lemma concat_insert ls i l l' :
  ls !! i = Some l →
  concat (<[i := l']> ls) = concat (take i ls) ++ l' ++ concat (drop (S i) ls).
Proof.
  intros H. assert (i < length ls) by (by eapply lookup_lt_Some).
  rewrite (concat_split _ i l') by (by apply list_lookup_insert_eq).
  by rewrite take_insert_ge, drop_insert_lt by lia.
Qed.

Lemma elem_of_concat ls x : x ∈ concat ls ↔ ∃ i l, ls !! i = Some l ∧ x ∈ l.
Proof.
  split.
  - induction ls as [|l ls IH]; simpl; [by intros ?%not_elem_of_nil|].
    intros [Hx|Hx]%elem_of_app; [by exists 0%nat, l|].
    destruct (IH Hx) as (i & l' & ? & ?). by exists (S i), l'.
  - intros (i & l & H & Hx). rewrite (concat_split ls i l H). set_solver.
Qed.

Lemma concat_replicate_nil n : concat (replicate n []) = (@nil A).
Proof. induction n; simpl; [done|by rewrite IHn]. Qed.

Lemma concat_nil_lookup ls i l : concat ls = [] → ls !! i = Some l → l = [].
Proof.
  intros Hc Hi. rewrite (concat_split ls i l Hi) in Hc.
  by apply app_nil in Hc as [_ [? _]%app_nil].
Qed.
End Concat.

Lemma concat_fmap {A B} (f : A → B) (ls : list (list A)) :
  concat ((λ l : list A, f <$> l) <$> ls) = f <$> concat ls.
Proof. symmetry. apply concat_map. Qed.

(** ** Sizes of maps *)
Section Sizes.
Context {A : Type}.

Lemma size_insert_le (m : gmap string A) k v : (size (<[k := v]> m) ≤ S (size m))%nat.
Proof. rewrite map_size_insert. destruct (m !! k); simpl; lia. Qed.

Lemma size_delete_le (m : gmap string A) k : (size (delete k m) ≤ size m)%nat.
Proof. rewrite map_size_delete. destruct (m !! k); simpl; lia. Qed.
End Sizes.

(** ** Addresses *)
Abbreviation loc := Z.
Definition NULL : loc := 0%Z.
