(* ===== verification/Bitops.v ===== *)
(** * Bit registers: [bitops.c] and [bitops-atomic.c]

    A register is an array of [unsigned long] words.  [__BITS_PER_LONG] is
    [sizeof(long)], which is 8 and not 64, so bit [nr] is bit [nr % 8] of word
    [nr / 7]: the model keeps exactly that addressing, and an access to a word
    the register does not have is [Stuck].  The atomic variants of
    [bitops-atomic.c] perform the same accesses on the one-word [flags] field of
    an [atomic_flags_t], under its spin lock. *)
From S2P Require Import Prelude.
Local Open Scope Z_scope.

(** [include/asm/bitsperlong.h]: the size of a long in bytes. *)
Definition BITS_PER_LONG : Z := 8.

(** The word and the bit that a bit number selects.  Both are computed in
    [size_t], so a negative number selects a word far outside. *)
Definition bit_word (nr : Z) : Z := u64 nr / (BITS_PER_LONG - 1).
Definition bit_index (nr : Z) : Z := u64 nr mod BITS_PER_LONG.

Abbreviation register := (list Z).

Definition read_word (p : Z) (r : register) : outcome Z :=
  if decide (0 ≤ p) then deref (r !! Z.to_nat p) else Stuck.
Definition write_word (p v : Z) (r : register) : outcome register :=
  if decide (0 ≤ p < Z.of_nat (length r)) then Done (<[Z.to_nat p := v]> r) else Stuck.

Definition raw_test_bit (bit word : Z) : Z := Z.land (Z.shiftr word bit) 1.
Definition word_set (bit word : Z) : Z := Z.lor word (Z.shiftl 1 bit).
Definition word_clear (bit word : Z) : Z := u64 (Z.land word (Z.lnot (Z.shiftl 1 bit))).

(** ** [bitops.c] *)
Definition __test_bit (nr : Z) (addr : register) : outcome Z :=
  w ← read_word (bit_word nr) addr;
  Done (raw_test_bit (bit_index nr) w).

Definition __set_bit (nr : Z) (addr : register) : outcome register :=
  w ← read_word (bit_word nr) addr;
  write_word (bit_word nr) (word_set (bit_index nr) w) addr.

Definition __clear_bit (nr : Z) (addr : register) : outcome register :=
  w ← read_word (bit_word nr) addr;
  write_word (bit_word nr) (word_clear (bit_index nr) w) addr.

Definition __test_and_clear_bit (nr : Z) (addr : register) : outcome (register * bool) :=
  w ← read_word (bit_word nr) addr;
  let old := raw_test_bit (bit_index nr) w in
  r ← write_word (bit_word nr) (word_clear (bit_index nr) w) addr;
  Done (r, negb (old =? 0)).

Definition __test_and_set_bit (nr : Z) (addr : register) : outcome (register * bool) :=
  w ← read_word (bit_word nr) addr;
  let old := raw_test_bit (bit_index nr) w in
  r ← write_word (bit_word nr) (word_set (bit_index nr) w) addr;
  Done (r, negb (old =? 0)).

(** The three exclusive-or assignments of [raw_swap_bit]; [bit] is a mask. *)
Definition raw_swap_bit (bit w1 w2 : Z) : Z * Z :=
  let w1 := Z.lxor w1 (Z.land w2 bit) in
  let w2 := Z.lxor w2 (Z.land w1 bit) in
  let w1 := Z.lxor w1 (Z.land w2 bit) in
  (w1, w2).

(** The two registers are distinct objects. *)
Definition __swap_bit (nr : Z) (addr1 addr2 : register) : outcome (register * register) :=
  let bit := Z.shiftl 1 (bit_index nr) in
  w1 ← read_word (bit_word nr) addr1;
  w2 ← read_word (bit_word nr) addr2;
  let '(w1', w2') := raw_swap_bit bit w1 w2 in
  r1 ← write_word (bit_word nr) w1' addr1;
  r2 ← write_word (bit_word nr) w2' addr2;
  Done (r1, r2).

(** ** [bitops-atomic.c]

    [atomic_flags_t] has one flag word; what follows it in memory is the spin
    lock, so word 1 is outside the object. *)
Record atomic_flags_t := AtomicFlags { flags : Z }.

Definition flags_register (a : atomic_flags_t) : register := [flags a].
Definition register_flags (r : register) : outcome atomic_flags_t :=
  match r with [w] => Done (AtomicFlags w) | _ => Stuck end.

Definition atomic_flags_init : atomic_flags_t := AtomicFlags 0.
Definition atomic_flags_destroy (a : atomic_flags_t) : atomic_flags_t := AtomicFlags 0.
Definition atomic_flags_copy (dst src : atomic_flags_t) : atomic_flags_t :=
  AtomicFlags (flags src).

Definition test_bit (nr : Z) (a : atomic_flags_t) : outcome Z :=
  __test_bit nr (flags_register a).
Definition set_bit (nr : Z) (a : atomic_flags_t) : outcome atomic_flags_t :=
  __set_bit nr (flags_register a) ≫= register_flags.
Definition clear_bit (nr : Z) (a : atomic_flags_t) : outcome atomic_flags_t :=
  __clear_bit nr (flags_register a) ≫= register_flags.

Definition test_and_clear_bit (nr : Z) (a : atomic_flags_t) : outcome (atomic_flags_t * bool) :=
  '(r, old) ← __test_and_clear_bit nr (flags_register a);
  a' ← register_flags r;
  Done (a', old).
Definition test_and_set_bit (nr : Z) (a : atomic_flags_t) : outcome (atomic_flags_t * bool) :=
  '(r, old) ← __test_and_set_bit nr (flags_register a);
  a' ← register_flags r;
  Done (a', old).

Definition swap_bit (nr : Z) (a1 a2 : atomic_flags_t) : outcome (atomic_flags_t * atomic_flags_t) :=
  '(r1, r2) ← __swap_bit nr (flags_register a1) (flags_register a2);
  a1' ← register_flags r1;
  a2' ← register_flags r2;
  Done (a1', a2').

Definition test_and_swap_bit (nr : Z) (a1 a2 : atomic_flags_t)
    : outcome (atomic_flags_t * atomic_flags_t * bool) :=
  old ← test_bit nr a1;
  '(a1', a2') ← swap_bit nr a1 a2;
  Done (a1', a2', negb (old =? 0)).

#[global] Arguments raw_swap_bit : simpl never.
#[global] Arguments raw_test_bit : simpl never.

(** ** Facts *)

(** Words are 64-bit. *)
Definition register_ok (r : register) : Prop := Forall (λ w, 0 ≤ w < 2 ^ 64) r.

(** Bit [nr] is inside the register. *)
Definition bit_in (nr : Z) (r : register) : Prop :=
  0 ≤ nr < 2 ^ 31 ∧ bit_word nr < Z.of_nat (length r).

(** The value of bit [nr], as a pure function of the register. *)
Definition bit_val (nr : Z) (r : register) : bool :=
  Z.testbit (r !!! Z.to_nat (bit_word nr)) (bit_index nr).

Lemma bit_index_range nr : 0 ≤ bit_index nr < 8.
Proof. apply Z.mod_pos_bound. done. Qed.

Lemma bit_word_nonneg nr : 0 ≤ bit_word nr.
Proof. apply Z.div_pos; [|done]. by apply uwrap_range. Qed.

Lemma bit_select_inj n m :
  0 ≤ n < 2 ^ 31 → 0 ≤ m < 2 ^ 31 →
  bit_word n = bit_word m → bit_index n = bit_index m → n = m.
Proof.
  intros ? ?. unfold bit_word, bit_index, BITS_PER_LONG.
  rewrite !u64_small by lia. change (8 - 1) with 7. intros Hw Hi.
  Z.to_euclidean_division_equations; lia.
Qed.

Lemma read_word_in nr r :
  bit_in nr r → read_word (bit_word nr) r = Done (r !!! Z.to_nat (bit_word nr)).
Proof.
  intros [_ ?]. unfold read_word. pose proof (bit_word_nonneg nr).
  rewrite decide_True by done.
  destruct (lookup_lt_is_Some_2 r (Z.to_nat (bit_word nr))) as [w Hw]; [lia|].
  by rewrite (list_lookup_total_correct _ _ _ Hw), Hw.
Qed.

Lemma write_word_in nr v r :
  bit_in nr r → write_word (bit_word nr) v r = Done (<[Z.to_nat (bit_word nr) := v]> r).
Proof.
  intros [_ ?]. unfold write_word. pose proof (bit_word_nonneg nr).
  by rewrite decide_True by lia.
Qed.

Lemma raw_test_bit_spec bit w : raw_test_bit bit w = Z.b2z (Z.testbit w bit).
Proof. unfold raw_test_bit. rewrite Z.land_ones with (n := 1) by done.
  by rewrite <-Z.bit0_mod, Z.shiftr_spec by done. Qed.

Lemma word_set_spec bit w i :
  0 ≤ bit → 0 ≤ i → Z.testbit (word_set bit w) i = (Z.testbit w i || (i =? bit)).
Proof.
  intros. unfold word_set. rewrite Z.lor_spec, Z.shiftl_1_l, Z.pow2_bits_eqb by done.
  f_equal. apply Z.eqb_sym.
Qed.

Lemma word_clear_spec bit w i :
  0 ≤ bit → 0 ≤ i < 64 →
  Z.testbit (word_clear bit w) i = (Z.testbit w i && negb (i =? bit)).
Proof.
  intros. unfold word_clear, u64, uwrap. rewrite Z.mod_pow2_bits_low by lia.
  rewrite Z.land_spec, Z.lnot_spec, Z.shiftl_1_l, Z.pow2_bits_eqb by lia.
  do 2 f_equal. apply Z.eqb_sym.
Qed.

Lemma raw_swap_bit_spec bit w1 w2 :
  raw_swap_bit bit w1 w2 =
    (Z.lor (Z.land w1 (Z.lnot bit)) (Z.land w2 bit),
     Z.lor (Z.land w2 (Z.lnot bit)) (Z.land w1 bit)).
Proof.
  unfold raw_swap_bit. f_equal; apply Z.bits_inj'; intros n Hn;
    rewrite ?Z.lxor_spec, ?Z.land_spec, ?Z.lor_spec, ?Z.lxor_spec,
      ?Z.land_spec, ?Z.lnot_spec, ?Z.lxor_spec, ?Z.land_spec by done;
    destruct (Z.testbit w1 n), (Z.testbit w2 n), (Z.testbit bit n); done.
Qed.

(** A write of bit [nr] leaves every other bit number alone. *)
Lemma bit_val_insert nr m v r :
  bit_in nr r → 0 ≤ m < 2 ^ 31 →
  (∀ i, 0 ≤ i < 8 → i ≠ bit_index nr →
     Z.testbit v i = Z.testbit (r !!! Z.to_nat (bit_word nr)) i) →
  m ≠ nr →
  bit_val m (<[Z.to_nat (bit_word nr) := v]> r) = bit_val m r.
Proof.
  intros [Hr Hin] Hm Hv Hne. unfold bit_val.
  pose proof (bit_word_nonneg nr). pose proof (bit_word_nonneg m).
  destruct (decide (bit_word m = bit_word nr)) as [Heq|Hneq].
  - rewrite Heq, list_lookup_total_insert_eq by lia. apply Hv; [apply bit_index_range|].
    intros Hi. apply Hne. by apply bit_select_inj.
  - rewrite list_lookup_total_insert_ne; [done|]. lia.
Qed.

Lemma bit_val_insert_same nr v r :
  bit_in nr r →
  bit_val nr (<[Z.to_nat (bit_word nr) := v]> r) = Z.testbit v (bit_index nr).
Proof.
  intros [_ ?]. unfold bit_val. pose proof (bit_word_nonneg nr).
  rewrite list_lookup_total_insert_eq by lia. done.
Qed.

Create HintDb bitops.
#[export] Hint Resolve bit_index_range bit_word_nonneg : bitops.

(** ** Properties *)

(** What a bit operation does to the register: bit [nr] gets the value [b] and
    every other bit number keeps its own. *)
Definition bit_updated (nr : Z) (b : bool) (r r' : register) : Prop :=
  length r' = length r ∧ bit_val nr r' = b ∧
  ∀ m, 0 ≤ m < 2 ^ 31 → m ≠ nr → bit_val m r' = bit_val m r.

Lemma word_set_updated nr r :
  bit_in nr r →
  bit_updated nr true r
    (<[Z.to_nat (bit_word nr) := word_set (bit_index nr) (r !!! Z.to_nat (bit_word nr))]> r).
Proof.
  intros Hin. pose proof (bit_index_range nr).
  split_and!; [apply length_insert| |].
  - rewrite bit_val_insert_same, word_set_spec by (done || lia).
    rewrite Z.eqb_refl. apply orb_true_r.
  - intros m Hm Hne. apply bit_val_insert; try done. intros i Hi Hne'.
    rewrite word_set_spec by lia. rewrite (proj2 (Z.eqb_neq _ _) Hne'). apply orb_false_r.
Qed.

Lemma word_clear_updated nr r :
  bit_in nr r →
  bit_updated nr false r
    (<[Z.to_nat (bit_word nr) := word_clear (bit_index nr) (r !!! Z.to_nat (bit_word nr))]> r).
Proof.
  intros Hin. pose proof (bit_index_range nr).
  split_and!; [apply length_insert| |].
  - rewrite bit_val_insert_same, word_clear_spec by (done || lia).
    rewrite Z.eqb_refl. apply andb_false_r.
  - intros m Hm Hne. apply bit_val_insert; try done. intros i Hi Hne'.
    rewrite word_clear_spec by lia. rewrite (proj2 (Z.eqb_neq _ _) Hne'). apply andb_true_r.
Qed.

Lemma old_bit_spec nr r :
  negb (raw_test_bit (bit_index nr) (r !!! Z.to_nat (bit_word nr)) =? 0) = bit_val nr r.
Proof. rewrite raw_test_bit_spec. unfold bit_val. by destruct (Z.testbit _ _). Qed.

Lemma __test_bit_in nr r : bit_in nr r → __test_bit nr r = Done (Z.b2z (bit_val nr r)).
Proof.
  intros Hin. unfold __test_bit. rewrite (read_word_in nr r Hin). simpl.
  by rewrite raw_test_bit_spec.
Qed.

Lemma __set_bit_in nr r :
  bit_in nr r → ∃ r', __set_bit nr r = Done r' ∧ bit_updated nr true r r'.
Proof.
  intros Hin. unfold __set_bit. rewrite (read_word_in nr r Hin). simpl.
  rewrite (write_word_in nr _ r Hin). eauto using word_set_updated.
Qed.

Lemma __clear_bit_in nr r :
  bit_in nr r → ∃ r', __clear_bit nr r = Done r' ∧ bit_updated nr false r r'.
Proof.
  intros Hin. unfold __clear_bit. rewrite (read_word_in nr r Hin). simpl.
  rewrite (write_word_in nr _ r Hin). eauto using word_clear_updated.
Qed.

(** On a bit number that lies inside the register, [__test_bit] reads that
    bit, [__set_bit], [__clear_bit] and the two test-and-modify operations write
    it, return its old value where they return one, and change no other bit
    number, although consecutive numbers are not consecutive bits of a word. *)
Lemma bitops_correct nr r :
  bit_in nr r →
  __test_bit nr r = Done (Z.b2z (bit_val nr r)) ∧
  (∃ r', __set_bit nr r = Done r' ∧ bit_updated nr true r r') ∧
  (∃ r', __clear_bit nr r = Done r' ∧ bit_updated nr false r r') ∧
  (∃ r', __test_and_set_bit nr r = Done (r', bit_val nr r) ∧ bit_updated nr true r r') ∧
  (∃ r', __test_and_clear_bit nr r = Done (r', bit_val nr r) ∧ bit_updated nr false r r').
Proof.
  intros Hin. split_and!;
    [by apply __test_bit_in|by apply __set_bit_in|by apply __clear_bit_in|..].
  all: unfold __test_and_set_bit, __test_and_clear_bit; rewrite (read_word_in nr r Hin); simpl;
    rewrite (write_word_in nr _ r Hin), old_bit_spec; simpl;
    eauto using word_set_updated, word_clear_updated.
Qed.

Lemma bitops_correct_witness :
  bit_in 9 [5; 0] ∧
  (∃ r', __set_bit 9 [5; 0] = Done r' ∧ bit_updated 9 true [5; 0] r').
Proof.
  assert (bit_in 9 [5; 0]) as H by (split; vm_compute; intuition discriminate).
  split; [exact H|]. exact (proj1 (proj2 (bitops_correct 9 [5; 0] H))).
Defined.

(** [swap_bit] exchanges one bit of two registers: each register gets the
    other's value of the bit and nothing else changes. *)
Lemma swap_bit_exchanges nr r1 r2 :
  bit_in nr r1 → bit_in nr r2 →
  ∃ r1' r2', __swap_bit nr r1 r2 = Done (r1', r2') ∧
    bit_updated nr (bit_val nr r2) r1 r1' ∧ bit_updated nr (bit_val nr r1) r2 r2'.
Proof.
  intros H1 H2. unfold __swap_bit.
  rewrite (read_word_in nr r1 H1), (read_word_in nr r2 H2), !bind_Done.
  rewrite raw_swap_bit_spec.
  rewrite (write_word_in nr _ r1 H1), (write_word_in nr _ r2 H2). simpl.
  do 2 eexists. split; [done|]. pose proof (bit_index_range nr).
  split; (split_and!; [apply length_insert| |]).
  all: try (intros m Hm Hne; apply bit_val_insert; try done; intros i Hi Hne').
  all: rewrite ?bit_val_insert_same by done; unfold bit_val.
  all: rewrite Z.lor_spec, !Z.land_spec, Z.lnot_spec, Z.shiftl_1_l, Z.pow2_bits_eqb by lia.
  all: rewrite ?Z.eqb_refl, ?(proj2 (Z.eqb_neq (bit_index nr) i)) by lia;
    rewrite ?andb_false_r, ?andb_true_r, ?orb_false_r, ?orb_false_l; done.
Qed.

Lemma swap_bit_exchanges_witness :
  bit_in 1 [9] ∧ bit_in 1 [14] ∧
  ∃ r1' r2', __swap_bit 1 [9] [14] = Done (r1', r2') ∧
    bit_updated 1 (bit_val 1 [14]) [9] r1' ∧ bit_updated 1 (bit_val 1 [9]) [14] r2'.
Proof.
  assert (bit_in 1 [9]) as H1 by (split; vm_compute; intuition discriminate).
  assert (bit_in 1 [14]) as H2 by (split; vm_compute; intuition discriminate).
  split_and!; [exact H1|exact H2|]. exact (swap_bit_exchanges 1 [9] [14] H1 H2).
Defined.

(** The flag operations on an [atomic_flags_t] are defined exactly on the
    bit numbers 0 to 6: number 7 already addresses the word after [flags],
    because the word is selected with the size of a long in bytes. *)
Lemma atomic_flags_bits nr a :
  0 ≤ nr < 2 ^ 31 →
  (nr < 7 → ∃ a', set_bit nr a = Done a' ∧ test_bit nr a' = Done 1) ∧
  (7 ≤ nr → set_bit nr a = Stuck ∧ test_bit nr a = Stuck ∧ clear_bit nr a = Stuck).
Proof.
  intros Hnr. unfold set_bit, test_bit, clear_bit, flags_register. split; intros H7.
  - assert (bit_word nr = 0) as Hw.
    { unfold bit_word. rewrite u64_small by lia. apply Z.div_small. unfold BITS_PER_LONG. lia. }
    assert (∀ w, bit_in nr [w]) as Hin by (intros w; split; [lia|rewrite Hw; done]).
    destruct (__set_bit_in nr [flags a] (Hin _)) as (r' & -> & Hl & Hb & _). simpl.
    destruct r' as [|w [|??]]; try done. exists (AtomicFlags w). split; [done|].
    simpl. rewrite __test_bit_in by apply Hin. by rewrite Hb.
  - assert (1 ≤ bit_word nr) as Hw.
    { unfold bit_word, BITS_PER_LONG. rewrite u64_small by lia.
      apply Z.div_le_lower_bound; lia. }
    assert (read_word (bit_word nr) [flags a] = Stuck) as Hr.
    { unfold read_word. rewrite decide_True by lia. by rewrite lookup_ge_None_2 by (simpl; lia). }
    unfold __set_bit, __test_bit, __clear_bit. by rewrite Hr.
Qed.

Lemma atomic_flags_bits_witness :
  0 ≤ 7 < 2 ^ 31 ∧ set_bit 7 (AtomicFlags 0) = Stuck.
Proof.
  assert (0 ≤ 7 < 2 ^ 31) as H by (vm_compute; intuition discriminate).
  split; [exact H|].
  apply (proj1 (proj2 (atomic_flags_bits 7 (AtomicFlags 0) H) ltac:(vm_compute; discriminate))).
Defined.
