(* ===== verification/Crc16.v ===== *)
(** * The key hash of the cluster: [crc16.c]

    The table-driven CRC that assigns a key to a shard, its bit-by-bit
    reference, and what the checksum guarantees. *)
From Stdlib Require Import Ascii.
From S2P Require Import Prelude.
Local Open Scope Z_scope.

Definition crc16tab : list Z :=
  [
     0x0000; 0x1021; 0x2042; 0x3063; 0x4084; 0x50a5; 0x60c6; 0x70e7;
     0x8108; 0x9129; 0xa14a; 0xb16b; 0xc18c; 0xd1ad; 0xe1ce; 0xf1ef;
     0x1231; 0x0210; 0x3273; 0x2252; 0x52b5; 0x4294; 0x72f7; 0x62d6;
     0x9339; 0x8318; 0xb37b; 0xa35a; 0xd3bd; 0xc39c; 0xf3ff; 0xe3de;
     0x2462; 0x3443; 0x0420; 0x1401; 0x64e6; 0x74c7; 0x44a4; 0x5485;
     0xa56a; 0xb54b; 0x8528; 0x9509; 0xe5ee; 0xf5cf; 0xc5ac; 0xd58d;
     0x3653; 0x2672; 0x1611; 0x0630; 0x76d7; 0x66f6; 0x5695; 0x46b4;
     0xb75b; 0xa77a; 0x9719; 0x8738; 0xf7df; 0xe7fe; 0xd79d; 0xc7bc;
     0x48c4; 0x58e5; 0x6886; 0x78a7; 0x0840; 0x1861; 0x2802; 0x3823;
     0xc9cc; 0xd9ed; 0xe98e; 0xf9af; 0x8948; 0x9969; 0xa90a; 0xb92b;
     0x5af5; 0x4ad4; 0x7ab7; 0x6a96; 0x1a71; 0x0a50; 0x3a33; 0x2a12;
     0xdbfd; 0xcbdc; 0xfbbf; 0xeb9e; 0x9b79; 0x8b58; 0xbb3b; 0xab1a;
     0x6ca6; 0x7c87; 0x4ce4; 0x5cc5; 0x2c22; 0x3c03; 0x0c60; 0x1c41;
     0xedae; 0xfd8f; 0xcdec; 0xddcd; 0xad2a; 0xbd0b; 0x8d68; 0x9d49;
     0x7e97; 0x6eb6; 0x5ed5; 0x4ef4; 0x3e13; 0x2e32; 0x1e51; 0x0e70;
     0xff9f; 0xefbe; 0xdfdd; 0xcffc; 0xbf1b; 0xaf3a; 0x9f59; 0x8f78;
     0x9188; 0x81a9; 0xb1ca; 0xa1eb; 0xd10c; 0xc12d; 0xf14e; 0xe16f;
     0x1080; 0x00a1; 0x30c2; 0x20e3; 0x5004; 0x4025; 0x7046; 0x6067;
     0x83b9; 0x9398; 0xa3fb; 0xb3da; 0xc33d; 0xd31c; 0xe37f; 0xf35e;
     0x02b1; 0x1290; 0x22f3; 0x32d2; 0x4235; 0x5214; 0x6277; 0x7256;
     0xb5ea; 0xa5cb; 0x95a8; 0x8589; 0xf56e; 0xe54f; 0xd52c; 0xc50d;
     0x34e2; 0x24c3; 0x14a0; 0x0481; 0x7466; 0x6447; 0x5424; 0x4405;
     0xa7db; 0xb7fa; 0x8799; 0x97b8; 0xe75f; 0xf77e; 0xc71d; 0xd73c;
     0x26d3; 0x36f2; 0x0691; 0x16b0; 0x6657; 0x7676; 0x4615; 0x5634;
     0xd94c; 0xc96d; 0xf90e; 0xe92f; 0x99c8; 0x89e9; 0xb98a; 0xa9ab;
     0x5844; 0x4865; 0x7806; 0x6827; 0x18c0; 0x08e1; 0x3882; 0x28a3;
     0xcb7d; 0xdb5c; 0xeb3f; 0xfb1e; 0x8bf9; 0x9bd8; 0xabbb; 0xbb9a;
     0x4a75; 0x5a54; 0x6a37; 0x7a16; 0x0af1; 0x1ad0; 0x2ab3; 0x3a92;
     0xfd2e; 0xed0f; 0xdd6c; 0xcd4d; 0xbdaa; 0xad8b; 0x9de8; 0x8dc9;
     0x7c26; 0x6c07; 0x5c64; 0x4c45; 0x3ca2; 0x2c83; 0x1ce0; 0x0cc1;
     0xef1f; 0xff3e; 0xcf5d; 0xdf7c; 0xaf9b; 0xbfba; 0x8fd9; 0x9ff8;
     0x6e17; 0x7e36; 0x4e55; 0x5e74; 0x2e93; 0x3eb2; 0x0ed1; 0x1ef0].

(** One iteration of the loop: [crc] is a [u16], the byte a signed [char]; both
    are promoted to [int] and the result is truncated on assignment. *)
Definition crc16_step (crc : Z) (c : Z) : Z :=
  u16 (Z.lxor (Z.shiftl crc 8)
         (crc16tab !!! Z.to_nat (Z.land (Z.lxor (Z.shiftr crc 8) (s8 c)) 255))).

(** The loop runs over [len] characters; [len] is an [int]. *)
Definition xfiredb_crc16 (str : string) : Z :=
  let len := s32 (strlen str) in
  foldl crc16_step 0 (take (Z.to_nat len) (bytes str)).

(** ** The reference: CRC-16/XMODEM, one bit at a time

    Polynomial 0x1021, initial value 0, most significant bit first. *)
Definition crc_bit (x : Z) : Z :=
  Z.lxor (u16 (2 * x)) (if Z.testbit x 15 then 4129 else 0).
Definition crc_byte (x : Z) : Z := Nat.iter 8 crc_bit x.
Definition crc_ref_step (crc b : Z) : Z := crc_byte (Z.lxor crc (Z.shiftl b 8)).
Definition crc_ref (l : list Z) : Z := foldl crc_ref_step 0 l.

(** ** Bit-level facts *)

Lemma u16_testbit x i : 0 ≤ i → Z.testbit (u16 x) i = (Z.testbit x i && (i <? 16)).
Proof.
  intros ?. unfold u16, uwrap. destruct (Z.ltb_spec i 16).
  - rewrite Z.mod_pow2_bits_low by lia. by rewrite andb_true_r.
  - rewrite Z.mod_pow2_bits_high by lia. by rewrite andb_false_r.
Qed.

Lemma u16_lxor x y : u16 (Z.lxor x y) = Z.lxor (u16 x) (u16 y).
Proof.
  apply Z.bits_inj'; intros n Hn.
  rewrite Z.lxor_spec, !u16_testbit, Z.lxor_spec by done.
  by destruct (Z.testbit x n), (Z.testbit y n), (n <? 16).
Qed.

Lemma double_lxor x y : 2 * Z.lxor x y = Z.lxor (2 * x) (2 * y).
Proof.
  rewrite <-!(Z.mul_comm _ 2). change 2 with (2 ^ 1).
  by rewrite <-!Z.shiftl_mul_pow2, Z.shiftl_lxor by done.
Qed.

(** The bit step, and with it the byte step, is linear over exclusive or. *)
Lemma crc_bit_lxor x y : crc_bit (Z.lxor x y) = Z.lxor (crc_bit x) (crc_bit y).
Proof.
  unfold crc_bit. rewrite double_lxor, u16_lxor, Z.lxor_spec.
  generalize (u16 (2 * x)), (u16 (2 * y)). intros a b.
  destruct (Z.testbit x 15), (Z.testbit y 15); simpl; rewrite ?Z.lxor_0_r.
  - rewrite <-(Z.lxor_assoc (Z.lxor a 4129)), (Z.lxor_assoc a 4129 b),
      (Z.lxor_comm 4129 b), <-Z.lxor_assoc, Z.lxor_assoc, Z.lxor_nilpotent. by rewrite Z.lxor_0_r.
  - by rewrite !Z.lxor_assoc, (Z.lxor_comm b).
  - by rewrite Z.lxor_assoc.
  - done.
Qed.

Lemma crc_byte_lxor x y : crc_byte (Z.lxor x y) = Z.lxor (crc_byte x) (crc_byte y).
Proof.
  unfold crc_byte. generalize 8%nat. intros n. induction n as [|n IH]; simpl; [done|].
  by rewrite IH, crc_bit_lxor.
Qed.

Definition byte_range : list Z := seqZ 0 256.

Lemma byte_range_in b : 0 ≤ b < 256 → b ∈ byte_range.
Proof. intros. apply elem_of_seqZ. lia. Qed.

(** The table is the byte step of each high byte ... *)
Lemma crc16tab_byte b : 0 ≤ b < 256 → crc16tab !!! Z.to_nat b = crc_byte (Z.shiftl b 8).
Proof.
  intros Hb. apply byte_range_in in Hb. revert b Hb. apply (proj1 (list.Forall_forall _ _)).
  decide_by_compute.
Qed.

(** ... and a low byte just moves up. *)
Lemma crc_byte_low b : 0 ≤ b < 256 → crc_byte b = Z.shiftl b 8.
Proof.
  intros Hb. apply byte_range_in in Hb. revert b Hb. apply (proj1 (list.Forall_forall _ _)).
  decide_by_compute.
Qed.

Lemma s8_land_255 a c : 0 ≤ c < 256 → Z.land (Z.lxor a (s8 c)) 255 = Z.land (Z.lxor a c) 255.
Proof.
  intros Hc. change 255 with (Z.ones 8). rewrite !Z.land_ones by done.
  assert (s8 c mod 2 ^ 8 = c mod 2 ^ 8) as Hs.
  { unfold s8, swrap. change (2 ^ (8 - 1)) with 128. change (2 ^ 8) with 256.
    Z.to_euclidean_division_equations; lia. }
  apply Z.bits_inj'; intros n Hn. destruct (Z.lt_ge_cases n 8).
  - rewrite !Z.mod_pow2_bits_low, !Z.lxor_spec by done. f_equal.
    rewrite <-(Z.mod_pow2_bits_low (s8 c) 8 n), Hs, Z.mod_pow2_bits_low by done. done.
  - by rewrite !Z.mod_pow2_bits_high by done.
Qed.

Lemma split_high_low x : 0 ≤ x → x = Z.lxor (Z.shiftl (Z.shiftr x 8) 8) (x mod 256).
Proof.
  intros ?. apply Z.bits_inj'; intros n Hn.
  rewrite Z.lxor_spec, Z.shiftl_spec by done. change 256 with (2 ^ 8).
  destruct (Z.lt_ge_cases n 8).
  - rewrite Z.mod_pow2_bits_low, (Z.testbit_neg_r _ (n - 8)) by lia.
    by rewrite xorb_false_l.
  - rewrite Z.mod_pow2_bits_high, Z.shiftr_spec by lia. rewrite xorb_false_r.
    f_equal. lia.
Qed.

Lemma lt_256_testbit x n : 0 ≤ x < 256 → 8 ≤ n → Z.testbit x n = false.
Proof.
  intros Hx ?. destruct (decide (x = 0)) as [->|]; [apply Z.testbit_0_l|].
  apply Z.bits_above_log2; [lia|]. assert (Z.log2 x < 8); [|lia].
  apply Z.log2_lt_pow2; lia.
Qed.

Lemma shiftr_8_range x : 0 ≤ x < 2 ^ 16 → 0 ≤ Z.shiftr x 8 < 256.
Proof.
  intros. rewrite Z.shiftr_div_pow2 by done. change (2 ^ 8) with 256.
  change (2 ^ 16) with 65536 in *. Z.to_euclidean_division_equations; lia.
Qed.

Lemma lxor_byte_range a b : 0 ≤ a < 256 → 0 ≤ b < 256 → 0 ≤ Z.lxor a b < 256.
Proof.
  intros Ha Hb. split; [apply Z.lxor_nonneg; lia|].
  destruct (decide (Z.lxor a b = 0)) as [->|Hne]; [done|].
  assert (0 ≤ Z.lxor a b) by (apply Z.lxor_nonneg; lia).
  change 256 with (2 ^ 8). apply Z.log2_lt_pow2; [lia|].
  destruct (Z.lt_ge_cases (Z.log2 (Z.lxor a b)) 8) as [|Hge]; [done|exfalso].
  pose proof (Z.bit_log2 (Z.lxor a b) ltac:(lia)) as Hbit.
  rewrite Z.lxor_spec, !lt_256_testbit in Hbit by done. done.
Qed.

Lemma crc_bit_range x : 0 ≤ crc_bit x < 2 ^ 16.
Proof.
  unfold crc_bit.
  assert (∀ k, 0 ≤ k < 2 ^ 16 → 0 ≤ Z.lxor (u16 (2 * x)) k < 2 ^ 16) as Haux.
  { intros k Hk. assert (Z.lxor (u16 (2 * x)) k = u16 (Z.lxor (2 * x) k)) as ->.
    - rewrite u16_lxor. f_equal. symmetry. by apply uwrap_small.
    - by apply uwrap_range. }
  destruct (Z.testbit x 15); apply Haux; done.
Qed.

(** One table step is one byte of the bit-by-bit reference. *)
Lemma crc16_step_ref crc c :
  0 ≤ crc < 2 ^ 16 → 0 ≤ c < 256 → crc16_step crc c = crc_ref_step crc c.
Proof.
  intros Hcrc Hc. unfold crc16_step, crc_ref_step.
  rewrite s8_land_255 by done.
  set (h := Z.lxor (Z.shiftr crc 8) c). set (l := crc mod 256).
  assert (0 ≤ h < 256) as Hh by (apply lxor_byte_range; [by apply shiftr_8_range|done]).
  assert (0 ≤ l < 256) as Hl by (by apply Z.mod_pos_bound).
  assert (Z.lxor crc (Z.shiftl c 8) = Z.lxor (Z.shiftl h 8) l) as ->.
  { rewrite (split_high_low crc) at 1 by lia. unfold h. rewrite Z.shiftl_lxor.
    rewrite !Z.lxor_assoc. f_equal. apply Z.lxor_comm. }
  change 255 with (Z.ones 8). rewrite Z.land_ones, (Z.mod_small h) by done.
  rewrite crc_byte_lxor, (crc_byte_low l), <-crc16tab_byte by done.
  rewrite u16_lxor, Z.lxor_comm. f_equal.
  - rewrite crc16tab_byte by done. apply Z.mod_small, crc_bit_range.
  - unfold u16, uwrap, l. rewrite !Z.shiftl_mul_pow2 by done.
    change (2 ^ 16) with (256 * 2 ^ 8). by rewrite Z.mul_mod_distr_r by done.
Qed.

Lemma crc_ref_step_range x b : 0 ≤ crc_ref_step x b < 2 ^ 16.
Proof. apply crc_bit_range. Qed.

Lemma foldl_crc_ref l crc :
  0 ≤ crc < 2 ^ 16 → Forall (λ b, 0 ≤ b < 256) l →
  foldl crc16_step crc l = foldl crc_ref_step crc l ∧
  0 ≤ foldl crc_ref_step crc l < 2 ^ 16.
Proof.
  revert crc. induction l as [|b l IH]; intros crc Hcrc Hl; simpl; [done|].
  apply list.Forall_cons in Hl as [Hb Hl]. rewrite crc16_step_ref by done.
  apply IH; [apply (crc_ref_step_range crc b)|done].
Qed.

(** The bit step is injective, because the polynomial is odd. *)
Lemma crc_bit_0_inv x : 0 ≤ x < 2 ^ 16 → crc_bit x = 0 → x = 0.
Proof.
  intros Hx. unfold crc_bit. intros H%Z.lxor_eq.
  assert (Z.testbit (u16 (2 * x)) 0 = false) as H0.
  { rewrite u16_testbit by done. by rewrite Z.testbit_even_0. }
  destruct (Z.testbit x 15) eqn:Htop; [rewrite H in H0; done|].
  apply Z.bits_inj'; intros n Hn. rewrite Z.bits_0.
  destruct (Z.lt_ge_cases n 15) as [Hlt|Hge].
  - assert (Z.testbit (u16 (2 * x)) (Z.succ n) = false) as Hs by (rewrite H; apply Z.bits_0).
    rewrite u16_testbit, Z.testbit_even_succ in Hs by lia.
    rewrite (proj2 (Z.ltb_lt _ _)), andb_true_r in Hs by lia. done.
  - destruct (decide (n = 15)) as [->|]; [done|].
    destruct (decide (x = 0)) as [->|]; [apply Z.bits_0|].
    apply Z.bits_above_log2; [lia|]. assert (Z.log2 x < 16) by (apply Z.log2_lt_pow2; lia). lia.
Qed.

Lemma lxor_range_16 a b : 0 ≤ a < 2 ^ 16 → 0 ≤ b < 2 ^ 16 → 0 ≤ Z.lxor a b < 2 ^ 16.
Proof.
  intros. replace (Z.lxor a b) with (u16 (Z.lxor a b)).
  - by apply uwrap_range.
  - rewrite u16_lxor. unfold u16. by rewrite (uwrap_small 16 a), (uwrap_small 16 b) by done.
Qed.

Lemma crc_byte_0_inv x : 0 ≤ x < 2 ^ 16 → crc_byte x = 0 → x = 0.
Proof.
  intros Hx. unfold crc_byte. generalize 8%nat. intros n.
  induction n as [|n IH]; simpl; [done|]. intros H. apply IH.
  apply crc_bit_0_inv; [|done]. destruct n; simpl; [done|apply crc_bit_range].
Qed.

Opaque crc_byte.

Lemma crc_ref_step_inj x y b c :
  0 ≤ x < 2 ^ 16 → 0 ≤ y < 2 ^ 16 → 0 ≤ b < 256 → 0 ≤ c < 256 →
  crc_ref_step x b = crc_ref_step y c → Z.lxor x y = Z.shiftl (Z.lxor b c) 8.
Proof.
  intros Hx Hy Hb Hc H. unfold crc_ref_step in H. apply Z.lxor_eq.
  apply crc_byte_0_inv.
  - apply lxor_range_16; [by apply lxor_range_16|].
    pose proof (lxor_byte_range b c Hb Hc). rewrite Z.shiftl_mul_pow2 by done.
    change (2 ^ 16) with 65536. change (2 ^ 8) with 256. lia.
  - assert (Z.lxor (Z.lxor x y) (Z.shiftl (Z.lxor b c) 8) =
      Z.lxor (Z.lxor x (Z.shiftl b 8)) (Z.lxor y (Z.shiftl c 8))) as ->.
    { rewrite Z.shiftl_lxor, !Z.lxor_assoc. f_equal.
      rewrite <-!Z.lxor_assoc. f_equal. apply Z.lxor_comm. }
    rewrite crc_byte_lxor, H. apply Z.lxor_nilpotent.
Qed.

Lemma foldl_crc_ref_inj l x y :
  0 ≤ x < 2 ^ 16 → 0 ≤ y < 2 ^ 16 → Forall (λ b, 0 ≤ b < 256) l →
  foldl crc_ref_step x l = foldl crc_ref_step y l → x = y.
Proof.
  revert x y. induction l as [|b l IH]; intros x y Hx Hy Hl H; simpl in *; [done|].
  apply list.Forall_cons in Hl as [Hb Hl].
  apply IH in H; [|apply crc_ref_step_range..|done].
  apply crc_ref_step_inj in H; [|done..].
  rewrite Z.lxor_nilpotent in H. by apply Z.lxor_eq.
Qed.

Lemma xfiredb_crc16_is_ref str :
  xfiredb_crc16 str = crc_ref (take (Z.to_nat (s32 (strlen str))) (bytes str)) ∧ 0 ≤ xfiredb_crc16 str < 2 ^ 16.
Proof.
  unfold xfiredb_crc16, crc_ref.
  destruct (foldl_crc_ref (take (Z.to_nat (s32 (strlen str))) (bytes str)) 0 ltac:(lia)) as [-> ?]; [|done].
  apply Forall_take, bytes_range.
Qed.

Lemma crc16_whole str : strlen str < 2 ^ 31 → xfiredb_crc16 str = crc_ref (bytes str).
Proof.
  intros Hs. rewrite (proj1 (xfiredb_crc16_is_ref str)). f_equal. unfold strlen in *.
  rewrite s32_small by lia. apply firstn_all2. rewrite length_bytes. lia.
Qed.

(** ** Properties *)

(** C40: the table-driven [xfiredb_crc16] computes CRC-16/XMODEM (polynomial 0x1021,
    initial value 0) of the bytes of the key that its [int] length counts: all of them
    when there are fewer than 2^31, and none or a prefix otherwise.  Its result is a
    [u16]. *)
Theorem xfiredb_crc16_ref str :
  xfiredb_crc16 str = crc_ref (take (Z.to_nat (s32 (strlen str))) (bytes str)) ∧
  0 ≤ xfiredb_crc16 str < 2 ^ 16 ∧ (strlen str < 2 ^ 31 → xfiredb_crc16 str = crc_ref (bytes str)).
Proof. destruct (xfiredb_crc16_is_ref str). split; [done|]. split; [done|apply crc16_whole]. Qed.

Lemma xfiredb_crc16_ref_witness : xfiredb_crc16 "123456789" = crc_ref (bytes "123456789").
Proof. apply (proj2 (proj2 (xfiredb_crc16_ref "123456789"))). vm_compute. reflexivity. Defined.

(** Two keys that differ in exactly one character never get the same
    checksum, whatever surrounds it. *)
Lemma xfiredb_crc16_single_byte s t a b :
  strlen (s +:+ String a t) < 2 ^ 31 → a ≠ b →
  xfiredb_crc16 (s +:+ String a t) ≠ xfiredb_crc16 (s +:+ String b t).
Proof.
  intros Hs Hab Heq. apply Hab.
  assert (strlen (s +:+ String b t) = strlen (s +:+ String a t)) as Hl.
  { unfold strlen. rewrite <-!length_bytes, !bytes_app, !length_app. cbn [bytes length]. lia. }
  rewrite !crc16_whole in Heq by congruence. unfold crc_ref in Heq.
  rewrite !bytes_app, !foldl_app in Heq. simpl in Heq.
  apply foldl_crc_ref_inj in Heq; [|apply crc_ref_step_range..|apply bytes_range].
  pose proof (Ascii.N_ascii_bounded a). pose proof (Ascii.N_ascii_bounded b).
  apply crc_ref_step_inj in Heq; [|apply foldl_crc_ref; [lia|apply bytes_range]..|lia|lia].
  rewrite Z.lxor_nilpotent in Heq. symmetry in Heq.
  rewrite Z.shiftl_eq_0_iff in Heq by done. apply Z.lxor_eq in Heq.
  rewrite <-(Ascii.ascii_N_embedding a), <-(Ascii.ascii_N_embedding b). f_equal. lia.
Qed.

Lemma xfiredb_crc16_single_byte_witness :
  ("1" ≠ "2")%char ∧
  xfiredb_crc16 ("key" +:+ String "1" "x") ≠ xfiredb_crc16 ("key" +:+ String "2" "x").
Proof.
  assert ("1" ≠ "2")%char as H by discriminate.
  split; [exact H|exact (xfiredb_crc16_single_byte "key" "x" "1" "2" eq_refl H)].
Defined.

(** The published check value of CRC-16/XMODEM. *)
Example xfiredb_crc16_check_value : xfiredb_crc16 "123456789" = 12739 (* 0x31C3 *).
Proof. vm_compute. reflexivity. Qed.
