(* ===== verification/Murmur.v ===== *)
(** * The key hash of the containers: [dict_hash_key] and [skiplist_hash_key]

    [dict.c] and [skiplist.c] each hold a copy of the same hash, which their
    comments call MurmurHash3.  The model keeps the 32-bit unsigned arithmetic,
    the little-endian block reads and the signed tail characters of the code on
    x86-64; [murmur3_x86_32] is the published algorithm for comparison. *)
From S2P Require Import Prelude.
Local Open Scope Z_scope.

Definition MURMUR_C1 : Z := 0xcc9e2d51.
Definition MURMUR_C2 : Z := 0x1b873593.
Definition MURMUR_R1 : Z := 15.
Definition MURMUR_R2 : Z := 13.
Definition MURMUR_MIX1 : Z := 5.
Definition MURMUR_MIX2 : Z := 0xe6546b64.

(** [(x << l) | (x >> r)] on [u32]. *)
Definition shift_or (x l r : Z) : Z := Z.lor (u32 (Z.shiftl x l)) (Z.shiftr x r).

(** [blocks[i]]: four bytes of the key, read as a little-endian [u32]. *)
Definition read_block (b0 b1 b2 b3 : Z) : Z :=
  b0 + Z.shiftl b1 8 + Z.shiftl b2 16 + Z.shiftl b3 24.

(** The body of the block loop. *)
Definition mix_block (hash k1 : Z) : Z :=
  let k1 := u32 (k1 * MURMUR_C1) in
  let k1 := shift_or k1 MURMUR_R1 (32 - MURMUR_R1) in
  let k1 := u32 (k1 * MURMUR_C2) in
  let hash := Z.lxor hash k1 in
  u32 (shift_or hash MURMUR_R2 (32 - MURMUR_R2) * MURMUR_MIX1 + MURMUR_MIX2).

(** The block loop; what is left when fewer than four bytes remain is [tail]. *)
Fixpoint hash_blocks (hash : Z) (l : list Z) : Z * list Z :=
  match l with
  | b0 :: b1 :: b2 :: b3 :: l' => hash_blocks (mix_block hash (read_block b0 b1 b2 b3)) l'
  | _ => (hash, l)
  end.

(** [k2 ^= tail[i] << s]: the character is sign-extended before the shift. *)
Definition tail_byte (k2 b s : Z) : Z := Z.lxor k2 (u32 (Z.shiftl (s8 b) s)).

(** The [switch(len & 3)] with its fall-through cases. *)
Definition hash_tail (hash : Z) (tail : list Z) : Z :=
  let finish k2 :=
    let k2 := u32 (k2 * MURMUR_C1) in
    let k2 := shift_or k2 MURMUR_R2 (32 - MURMUR_R1) in
    let k2 := u32 (k2 * MURMUR_C2) in
    Z.lxor hash k2 in
  match tail with
  | [t0; t1; t2] => finish (tail_byte (tail_byte (tail_byte 0 t2 16) t1 8) t0 0)
  | [t0; t1] => finish (tail_byte (tail_byte 0 t1 8) t0 0)
  | [t0] => finish (tail_byte 0 t0 0)
  | _ => hash
  end.

(** The final avalanche, from [hash ^= (hash >> 16)] on. *)
Definition fmix (hash : Z) : Z :=
  let hash := Z.lxor hash (Z.shiftr hash 16) in
  let hash := u32 (hash * 0x85ebca6b) in
  let hash := Z.lxor hash (Z.shiftr hash 13) in
  let hash := u32 (hash * 0xc2b2ae35) in
  Z.lxor hash (Z.shiftr hash 16).

Definition hash_key (key : string) (seed : Z) : Z :=
  let len := u32 (strlen key) in
  let '(hash, tail) := hash_blocks seed (bytes key) in
  fmix (Z.lxor (hash_tail hash tail) len).

Definition DICT_SEED : Z := 0x8FE3C9A1.
Definition SKIPLIST_SEED : Z := 0x8FE3C9A1.

Definition dict_hash_key (key : string) (seed : Z) : Z := hash_key key seed.
Definition skiplist_hash_key (key : string) (seed : Z) : Z := hash_key key seed.

(** ** The published algorithm (MurmurHash3_x86_32)

    Differs in the tail: unsigned bytes, and a rotation by 15. *)
Definition murmur3_tail (hash : Z) (tail : list Z) : Z :=
  match tail with
  | [] => hash
  | _ =>
      let k1 := foldr (λ b k, b + Z.shiftl k 8) 0 tail in
      let k1 := shift_or (u32 (k1 * MURMUR_C1)) 15 17 in
      Z.lxor hash (u32 (k1 * MURMUR_C2))
  end.
Definition murmur3_x86_32 (key : string) (seed : Z) : Z :=
  let '(hash, tail) := hash_blocks seed (bytes key) in
  fmix (Z.lxor (murmur3_tail hash tail) (u32 (strlen key))).

(** ** Facts on 32-bit words *)

Definition word (x : Z) : Prop := 0 ≤ x < 2 ^ 32.

Lemma word_u32 x : word (u32 x).
Proof. apply u32_range. Qed.

Lemma word_bits_high x n : word x → 32 ≤ n → Z.testbit x n = false.
Proof.
  intros Hx ?. rewrite <-(u32_small x) by done. unfold u32, uwrap.
  apply Z.mod_pow2_bits_high. lia.
Qed.

Lemma word_of_bits x : 0 ≤ x → (∀ n, 32 ≤ n → Z.testbit x n = false) → word x.
Proof.
  intros Hx Hn. rewrite <-(Z.mod_small x (2 ^ 32)) at 1.
  - apply word_u32.
  - split; [done|]. destruct (Z.lt_ge_cases x (2 ^ 32)) as [|Hge]; [done|exfalso].
    assert (0 < x) by (change (2 ^ 32) with 4294967296 in Hge; lia).
    apply Z.log2_le_pow2 in Hge; [|done].
    pose proof (Z.bit_log2 x ltac:(done)) as Hb. by rewrite Hn in Hb.
Qed.

Lemma word_lxor x y : word x → word y → word (Z.lxor x y).
Proof.
  intros Hx Hy. apply word_of_bits; [destruct Hx, Hy; apply Z.lxor_nonneg; lia|].
  intros n ?. by rewrite Z.lxor_spec, !word_bits_high.
Qed.

Lemma word_shiftr x k : 0 ≤ k → word x → word (Z.shiftr x k).
Proof.
  intros Hk Hx. apply word_of_bits; [destruct Hx; by apply Z.shiftr_nonneg|].
  intros n ?. rewrite Z.shiftr_spec by lia. apply word_bits_high; [done|lia].
Qed.

Lemma u32_bits x n : 0 ≤ n → Z.testbit (u32 x) n = (Z.testbit x n && (n <? 32)).
Proof.
  intros ?. unfold u32, uwrap. destruct (Z.ltb_spec n 32).
  - rewrite Z.mod_pow2_bits_low by lia. by rewrite andb_true_r.
  - rewrite Z.mod_pow2_bits_high by lia. by rewrite andb_false_r.
Qed.

Lemma word_shift_or x l r : 0 ≤ l → 0 ≤ r → word x → word (shift_or x l r).
Proof.
  intros Hl Hr Hx. unfold shift_or. apply word_of_bits.
  - apply Z.lor_nonneg. split; [apply word_u32|]. destruct Hx. by apply Z.shiftr_nonneg.
  - intros n ?. rewrite Z.lor_spec. rewrite u32_bits by lia.
    rewrite (proj2 (Z.ltb_ge _ _)), andb_false_r by lia.
    by apply word_bits_high; [apply word_shiftr|].
Qed.

Create HintDb word.
#[export] Hint Resolve word_u32 word_lxor word_shiftr word_shift_or : word.

(** Each step of the hash can be undone. *)
Lemma xorshift_inj k x y :
  0 < k → word x → word y →
  Z.lxor x (Z.shiftr x k) = Z.lxor y (Z.shiftr y k) → x = y.
Proof.
  intros Hk Hx Hy H. apply Z.lxor_eq.
  set (z := Z.lxor x y).
  assert (0 ≤ z) as Hz by (destruct (word_lxor x y); done).
  assert (Z.shiftr z k = z) as Hs.
  { symmetry. apply Z.lxor_eq. unfold z. rewrite Z.shiftr_lxor.
    rewrite Z.lxor_assoc, <-(Z.lxor_assoc y), (Z.lxor_comm y), Z.lxor_assoc, <-Z.lxor_assoc.
    rewrite H. apply Z.lxor_nilpotent. }
  rewrite Z.shiftr_div_pow2 in Hs by lia.
  assert (2 ≤ 2 ^ k) by (apply (Z.pow_le_mono_r 2 1 k); lia).
  destruct (decide (z = 0)); [done|].
  pose proof (Z.div_lt z (2 ^ k)). lia.
Qed.

Lemma mul_odd_inj c cinv x y :
  u32 (c * cinv) = 1 → word x → word y → u32 (x * c) = u32 (y * c) → x = y.
Proof.
  intros Hc Hx Hy H. rewrite <-(u32_small x), <-(u32_small y) by done.
  unfold u32, uwrap in *.
  assert (∀ a, a mod 2 ^ 32 = (a * c mod 2 ^ 32 * cinv) mod 2 ^ 32) as Haux.
  { intros a. rewrite Zmult_mod_idemp_l, <-Z.mul_assoc, <-Zmult_mod_idemp_r, Hc.
    by rewrite Z.mul_1_r. }
  by rewrite (Haux x), (Haux y), H.
Qed.

Lemma rotl_bits x r n :
  0 < r < 32 → word x → 0 ≤ n < 32 →
  Z.testbit (shift_or x r (32 - r)) n = Z.testbit x (if n <? r then n + 32 - r else n - r).
Proof.
  intros Hr Hx Hn. unfold shift_or.
  rewrite Z.lor_spec, u32_bits, (proj2 (Z.ltb_lt n 32)), andb_true_r by lia.
  rewrite Z.shiftl_spec, Z.shiftr_spec by lia.
  destruct (Z.ltb_spec n r).
  - rewrite (Z.testbit_neg_r _ (n - r)) by lia. simpl. f_equal. lia.
  - rewrite (word_bits_high x (n + (32 - r))) by (done || lia). apply orb_false_r.
Qed.

Lemma rotl_inj x y r :
  0 < r < 32 → word x → word y →
  shift_or x r (32 - r) = shift_or y r (32 - r) → x = y.
Proof.
  intros Hr Hx Hy H. apply Z.bits_inj'; intros n Hn.
  destruct (Z.lt_ge_cases n 32); [|by rewrite !word_bits_high].
  destruct (Z.lt_ge_cases n (32 - r)).
  - pose proof (rotl_bits x r (n + r) Hr Hx ltac:(lia)) as HA.
    pose proof (rotl_bits y r (n + r) Hr Hy ltac:(lia)) as HB.
    rewrite H, HB in HA. rewrite (proj2 (Z.ltb_ge _ _)) in HA by lia.
    by replace (n + r - r) with n in HA by lia.
  - pose proof (rotl_bits x r (n + r - 32) Hr Hx ltac:(lia)) as HA.
    pose proof (rotl_bits y r (n + r - 32) Hr Hy ltac:(lia)) as HB.
    rewrite H, HB in HA. rewrite (proj2 (Z.ltb_lt _ _)) in HA by lia.
    by replace (n + r - 32 + 32 - r) with n in HA by lia.
Qed.

Lemma lxor_inj_r a x y : Z.lxor x a = Z.lxor y a → x = y.
Proof.
  intros H. rewrite <-(Z.lxor_0_r x), <-(Z.lxor_0_r y), <-(Z.lxor_nilpotent a).
  by rewrite <-!Z.lxor_assoc, H.
Qed.

Lemma lxor_inj_l a x y : Z.lxor a x = Z.lxor a y → x = y.
Proof. rewrite !(Z.lxor_comm a). apply lxor_inj_r. Qed.

Lemma fmix_inj x y : word x → word y → fmix x = fmix y → x = y.
Proof.
  intros Hx Hy H. unfold fmix in H.
  apply xorshift_inj in H; [|done|auto with word..].
  apply (mul_odd_inj _ 0x7ed1b41d) in H;
    [|reflexivity|apply word_lxor, word_shiftr; auto with word; done..].
  apply xorshift_inj in H; [|done|auto with word..].
  apply (mul_odd_inj _ 0xa5cb9243) in H;
    [|reflexivity|apply word_lxor, word_shiftr; auto with word; done..].
  by apply xorshift_inj in H.
Qed.

Lemma fmix_word x : word (fmix x).
Proof. unfold fmix. apply word_lxor, word_shiftr; auto with word; done. Qed.

(** ** The block loop *)

Lemma mix_block_word hash k : word (mix_block hash k).
Proof. apply word_u32. Qed.

Definition scramble (k : Z) : Z :=
  u32 (shift_or (u32 (k * MURMUR_C1)) MURMUR_R1 (32 - MURMUR_R1) * MURMUR_C2).

Lemma scramble_word k : word (scramble k).
Proof. apply word_u32. Qed.

Lemma scramble_inj j k : word j → word k → scramble j = scramble k → j = k.
Proof.
  intros Hj Hk H. unfold scramble in H.
  apply (mul_odd_inj _ 0x56ed309b) in H;
    [|reflexivity|apply word_shift_or; auto with word; done..].
  apply rotl_inj in H; [|done|apply word_u32..].
  by apply (mul_odd_inj _ 0xdee13bb1) in H.
Qed.

Lemma add_const_inj c x y : word x → word y → u32 (x + c) = u32 (y + c) → x = y.
Proof.
  intros Hx Hy H. rewrite <-(u32_small x), <-(u32_small y) by done.
  unfold u32, uwrap in *. replace x with (x + c - c) by lia. replace y with (y + c - c) by lia.
  rewrite <-(Zminus_mod_idemp_l (x + c)), <-(Zminus_mod_idemp_l (y + c)). by rewrite H.
Qed.

Lemma mix_block_inj h h' k k' :
  word h → word h' → mix_block h k = mix_block h' k' →
  Z.lxor h (scramble k) = Z.lxor h' (scramble k').
Proof.
  intros Hh Hh' H. unfold mix_block in H. cbv zeta in H.
  change (u32 (shift_or (u32 (k * MURMUR_C1)) MURMUR_R1 (32 - MURMUR_R1) * MURMUR_C2))
    with (scramble k) in H.
  change (u32 (shift_or (u32 (k' * MURMUR_C1)) MURMUR_R1 (32 - MURMUR_R1) * MURMUR_C2))
    with (scramble k') in H.
  assert (∀ a, u32 (a * MURMUR_MIX1 + MURMUR_MIX2) = u32 (u32 (a * MURMUR_MIX1) + MURMUR_MIX2)) as Haux.
  { intros a. unfold u32, uwrap. by rewrite Zplus_mod_idemp_l. }
  rewrite !Haux in H. apply add_const_inj in H; [|apply word_u32..].
  pose proof (word_lxor _ _ Hh (scramble_word k)).
  pose proof (word_lxor _ _ Hh' (scramble_word k')).
  apply (mul_odd_inj _ 0xcccccccd) in H; [|reflexivity|by apply word_shift_or..].
  by apply rotl_inj in H.
Qed.

Lemma hash_blocks_word h l : word h → word (hash_blocks h l).1.
Proof.
  revert l h. fix IH 1. intros [|b0 [|b1 [|b2 [|b3 l]]]] h Hh; simpl; try done.
  apply IH, mix_block_word.
Qed.

Lemma hash_blocks_inj l h h' :
  word h → word h' →
  (hash_blocks h l).2 = (hash_blocks h' l).2 ∧
  ((hash_blocks h l).1 = (hash_blocks h' l).1 → h = h').
Proof.
  revert l h h'. fix IH 1. intros [|b0 [|b1 [|b2 [|b3 l]]]] h h' Hh Hh'; simpl; try done.
  destruct (IH l (mix_block h (read_block b0 b1 b2 b3)) (mix_block h' (read_block b0 b1 b2 b3)))
    as [IH1 IH2]; [apply mix_block_word..|].
  split; [done|]. intros Heq. apply IH2, mix_block_inj in Heq; [|done..].
  by apply lxor_inj_r in Heq.
Qed.

Lemma hash_blocks_app k l m h :
  length l = (4 * k)%nat →
  hash_blocks h (l ++ m) = hash_blocks (hash_blocks h l).1 m.
Proof.
  revert l h. induction k as [|k IH]; intros l h Hl.
  - destruct l; [done|simpl in Hl; lia].
  - destruct l as [|b0 [|b1 [|b2 [|b3 l]]]]; simpl in Hl; try lia.
    simpl. apply IH. lia.
Qed.

Lemma hash_tail_inj h h' t : hash_tail h t = hash_tail h' t → h = h'.
Proof.
  destruct t as [|? [|? [|? [|? t]]]]; simpl; try done; apply lxor_inj_r.
Qed.

Lemma hash_tail_word h t : word h → word (hash_tail h t).
Proof.
  intros Hh. destruct t as [|? [|? [|? [|? t]]]]; simpl; auto with word.
Qed.

Lemma read_block_word b0 b1 b2 b3 :
  0 ≤ b0 < 256 → 0 ≤ b1 < 256 → 0 ≤ b2 < 256 → 0 ≤ b3 < 256 → word (read_block b0 b1 b2 b3).
Proof.
  intros. unfold read_block, word. rewrite !Z.shiftl_mul_pow2 by done.
  change (2 ^ 8) with 256. change (2 ^ 16) with 65536. change (2 ^ 24) with 16777216.
  change (2 ^ 32) with 4294967296. lia.
Qed.

Lemma read_block_inj a0 a1 a2 a3 b0 b1 b2 b3 :
  Forall (λ b, 0 ≤ b < 256) [a0; a1; a2; a3] → Forall (λ b, 0 ≤ b < 256) [b0; b1; b2; b3] →
  read_block a0 a1 a2 a3 = read_block b0 b1 b2 b3 → [a0; a1; a2; a3] = [b0; b1; b2; b3].
Proof.
  rewrite !list.Forall_cons. unfold read_block. rewrite !Z.shiftl_mul_pow2 by done.
  change (2 ^ 8) with 256. change (2 ^ 16) with 65536. change (2 ^ 24) with 16777216.
  intros (? & ? & ? & ? & _) (? & ? & ? & ? & _) ?. repeat f_equal; lia.
Qed.

Lemma hash_key_word key seed : word (hash_key key seed).
Proof. unfold hash_key. destruct (hash_blocks _ _). apply fmix_word. Qed.

Lemma hash_key_range key seed : 0 ≤ hash_key key seed < 2 ^ 32.
Proof. apply hash_key_word. Qed.

#[global] Arguments hash_key : simpl never.
#[export] Hint Resolve hash_key_range : cint.

Lemma app_length_string s t : String.length (s +:+ t) = (String.length s + String.length t)%nat.
Proof. by rewrite <-!length_bytes, bytes_app, length_app. Qed.

(** ** Properties *)

(** The hash never confuses two keys that differ only inside one aligned
    four-byte block: with equal lengths and equal surroundings, different blocks
    give different hashes, in both containers. *)
Lemma hash_key_block_distinct seed k s a b t :
  word seed → String.length s = (4 * k)%nat →
  String.length a = 4%nat → String.length b = 4%nat → a ≠ b →
  dict_hash_key (s +:+ a +:+ t) seed ≠ dict_hash_key (s +:+ b +:+ t) seed ∧
  skiplist_hash_key (s +:+ a +:+ t) seed ≠ skiplist_hash_key (s +:+ b +:+ t) seed.
Proof.
  intros Hseed Hs Ha Hb Hne.
  enough (hash_key (s +:+ a +:+ t) seed ≠ hash_key (s +:+ b +:+ t) seed) by done.
  intros Heq. apply Hne. unfold hash_key, strlen in Heq.
  rewrite !app_length_string, Ha, Hb, !bytes_app in Heq.
  rewrite !(hash_blocks_app k (bytes s)) in Heq by by rewrite length_bytes.
  set (h := (hash_blocks seed (bytes s)).1) in Heq.
  assert (word h) as Hh by by apply hash_blocks_word.
  pose proof (bytes_range a) as Hra. pose proof (bytes_range b) as Hrb.
  rewrite <-length_bytes in Ha, Hb. apply bytes_inj.
  destruct (bytes a) as [|a0 [|a1 [|a2 [|a3 [|]]]]]; try done.
  destruct (bytes b) as [|b0 [|b1 [|b2 [|b3 [|]]]]]; try done.
  simpl in Heq. set (ha := mix_block _ _) in Heq. set (hb := mix_block _ (read_block b0 _ _ _)) in Heq.
  assert (word ha ∧ word hb) as [Hwa Hwb] by (split; apply mix_block_word).
  destruct (hash_blocks_inj (bytes t) ha hb Hwa Hwb) as [Htail Hinj].
  pose proof (hash_blocks_word ha (bytes t) Hwa). pose proof (hash_blocks_word hb (bytes t) Hwb).
  destruct (hash_blocks ha (bytes t)) as [ra ta], (hash_blocks hb (bytes t)) as [rb tb].
  simpl in *. subst tb. apply fmix_inj in Heq;
    [|apply word_lxor; [by apply hash_tail_word|apply word_u32]..].
  apply lxor_inj_r, hash_tail_inj, Hinj, mix_block_inj, lxor_inj_l, scramble_inj in Heq; [|try done..].
  - by apply read_block_inj.
  - rewrite !list.Forall_cons in Hra. destruct_and! Hra. by apply read_block_word.
  - rewrite !list.Forall_cons in Hrb. destruct_and! Hrb. by apply read_block_word.
Qed.

Lemma hash_key_block_distinct_witness :
  dict_hash_key "user:001:x" DICT_SEED ≠ dict_hash_key "user:002:x" DICT_SEED.
Proof.
  apply (hash_key_block_distinct DICT_SEED 1 "user" ":001" ":002" ":x").
  - split; vm_compute; [intros H; discriminate H|reflexivity].
  - reflexivity.
  - reflexivity.
  - reflexivity.
  - discriminate.
Defined.

(** The hash is a 32-bit word; on keys whose length is a multiple of four
    it is MurmurHash3_x86_32, as the comment says, but the tail is hashed
    differently, so it is not that algorithm on all keys. *)
Lemma hash_key_murmur3 seed :
  (∀ key, 0 ≤ dict_hash_key key seed < 2 ^ 32) ∧
  (∀ key k, String.length key = (4 * k)%nat →
     dict_hash_key key seed = murmur3_x86_32 key seed) ∧
  ∃ key, dict_hash_key key DICT_SEED ≠ murmur3_x86_32 key DICT_SEED.
Proof.
  split_and!; [intros; apply hash_key_range| |exists "a"; vm_compute; discriminate].
  intros key k Hk. unfold dict_hash_key, hash_key, murmur3_x86_32.
  rewrite <-(app_nil_r (bytes key)), (hash_blocks_app k) by by rewrite length_bytes.
  simpl. done.
Qed.
