(* ===== verification/Mem.v ===== *)
(** * Memory regions: [os/mem.c] and the C string functions on them

    A region is the list of its bytes; its length is its size, and any access
    outside it is [Stuck].  [xfiredb_alloc(0)] returns NULL, which is the empty
    region: nothing can be read from or written to it either. *)
From S2P Require Import Prelude.
Local Open Scope Z_scope.

Abbreviation region := (list Z).

(** [malloc]: the bytes are unspecified ([junk]); the allocator aborts the process when
    memory runs out, so a return always has the region. *)
Definition xfiredb_alloc (junk len : Z) : region := replicate (Z.to_nat len) junk.

(** [xfiredb_alloc] followed by [memset(region, 0, len)]. *)
Definition xfiredb_zalloc (len : Z) : region := replicate (Z.to_nat len) 0.

(** [calloc] gives NULL when the product does not fit in a [size_t], which [memset] is
    then given together with the wrapped product. *)
Definition xfiredb_calloc (num size : Z) : outcome region :=
  if num * size <? 2 ^ 64 then Done (replicate (Z.to_nat (num * size)) 0)
  else if u64 (num * size) =? 0 then Done [] else Stuck.

(** [realloc]: keeps the first bytes; bytes gained are unspecified ([junk]). *)
Definition xfiredb_realloc (junk : Z) (r : region) (size : Z) : region :=
  take (Z.to_nat size) r ++ replicate (Z.to_nat size - length r) junk.

(** [*dst = c] *)
Definition store (r : region) (dst : nat) (c : Z) : outcome region :=
  if decide (dst < length r)%nat then Done (<[dst := c]> r) else Stuck.

(** [strlen] on a region: the offset of the first NUL. *)
Fixpoint region_strlen (r : region) : outcome Z :=
  match r with
  | [] => Stuck
  | c :: r' => if c =? 0 then Done 0 else n ← region_strlen r'; Done (n + 1)
  end.

(** The bytes of the C string that starts at the beginning of a region. *)
Fixpoint region_cstr (r : region) : outcome (list Z) :=
  match r with
  | [] => Stuck
  | c :: r' => if c =? 0 then Done [] else l ← region_cstr r'; Done (c :: l)
  end.

(** [memcpy] of the first [n] bytes of [src] to the start of [dst]. *)
Definition memcpy (dst src : region) (n : Z) : outcome region :=
  if decide (n ≤ Z.of_nat (length dst) ∧ n ≤ Z.of_nat (length src)) then
    Done (take (Z.to_nat n) src ++ drop (Z.to_nat n) dst)
  else Stuck.

(** The object a string literal or a [char *] argument points to. *)
Definition cstr_region (s : string) : region := bytes s ++ [0].

(** Below 2^64 bytes [xfiredb_calloc] is [xfiredb_zalloc] of the product. *)
Lemma xfiredb_calloc_zalloc num size : num * size < 2 ^ 64 → xfiredb_calloc num size = Done (xfiredb_zalloc (num * size)).
Proof. intros H. unfold xfiredb_calloc. by rewrite (proj2 (Z.ltb_lt _ _) H). Qed.
Lemma xfiredb_zalloc_zero len : xfiredb_zalloc len = xfiredb_alloc 0 len.
Proof. done. Qed.

Lemma store_app out c n x :
  store (out ++ replicate (S n) x) (length out) c = Done ((out ++ [c]) ++ replicate n x).
Proof.
  unfold store. rewrite decide_True by (rewrite length_app; simpl; lia).
  rewrite insert_app_r_alt by lia. rewrite Nat.sub_diag. simpl.
  by rewrite <-app_assoc.
Qed.

Lemma store_full out c : store out (length out) c = Stuck.
Proof. unfold store. by rewrite decide_False by lia. Qed.

Lemma region_strlen_app l r :
  Forall (λ c, c ≠ 0) l → region_strlen (l ++ 0 :: r) = Done (Z.of_nat (length l)).
Proof.
  induction 1 as [|c l Hc Hl IH]; simpl; [done|].
  rewrite (proj2 (Z.eqb_neq _ _) Hc), IH. simpl. f_equal. lia.
Qed.

Lemma region_cstr_app l r :
  Forall (λ c, c ≠ 0) l → region_cstr (l ++ 0 :: r) = Done l.
Proof.
  induction 1 as [|c l Hc Hl IH]; simpl; [done|].
  by rewrite (proj2 (Z.eqb_neq _ _) Hc), IH.
Qed.

(** A region without a NUL byte is no C string: reading it runs off its end. *)
Lemma region_cstr_unterminated l : Forall (λ c, c ≠ 0) l → region_cstr l = Stuck.
Proof.
  induction 1 as [|c l Hc Hl IH]; simpl; [done|].
  by rewrite (proj2 (Z.eqb_neq _ _) Hc), IH.
Qed.

Lemma xfiredb_realloc_shrink junk r size :
  (Z.to_nat size ≤ length r)%nat → xfiredb_realloc junk r size = take (Z.to_nat size) r.
Proof.
  intros. unfold xfiredb_realloc. replace (Z.to_nat size - length r)%nat with 0%nat by lia.
  apply app_nil_r.
Qed.

Lemma memcpy_all dst src :
  length dst = length src → memcpy dst src (Z.of_nat (length src)) = Done src.
Proof.
  intros H. unfold memcpy. rewrite decide_True by lia.
  rewrite Nat2Z.id, drop_ge, app_nil_r, firstn_all by lia. done.
Qed.
