(* ===== verification/Thread.v ===== *)
(** * Threads and mutexes: [os/pthread.c], [include/xfiredb/os.h]

    A mutex is recursive: its owner may lock it again and has to unlock it as often.  The
    POSIX functions are not code of this repository: [pthread_create] gives the thread it
    starts, or nothing.  [DictThread], [Worker] and [Jobs] use mutexes as critical sections,
    which is what the first part shows them to be. *)
From S2P Require Import Prelude.
Local Open Scope Z_scope.

(** ** Mutexes *)

(** Unlocked, or locked by a thread, once more than the number says. *)
Inductive xfiredb_mutex_t := Unlocked | Locked (owner : Z) (again : nat).
#[export] Instance mutex_eq_dec : EqDecision xfiredb_mutex_t.
Proof. solve_decision. Defined.

Definition xfiredb_mutex_init : xfiredb_mutex_t := Unlocked.

(** [None]: the thread waits. *)
Definition xfiredb_mutex_lock (t : Z) (m : xfiredb_mutex_t) : option xfiredb_mutex_t :=
  match m with
  | Unlocked => Some (Locked t 0)
  | Locked o n => if decide (o = t) then Some (Locked o (S n)) else None
  end.

(** The error of a thread that does not own the mutex is ignored. *)
Definition xfiredb_mutex_unlock (t : Z) (m : xfiredb_mutex_t) : xfiredb_mutex_t :=
  match m with
  | Locked o n => if decide (o = t) then match n with O => Unlocked | S n => Locked o n end else m
  | Unlocked => m
  end.

(** A locked mutex must not be destroyed. *)
Definition xfiredb_mutex_destroy (m : xfiredb_mutex_t) : outcome () :=
  match m with Unlocked => Done () | Locked _ _ => Stuck end.

(** ** Critical sections *)

(** Threads that share a mutex; [depth] counts the sections each is in. *)
Record sharing := Sharing { sh_mutex : xfiredb_mutex_t; sh_depth : gmap Z nat }.
Definition depth (s : sharing) (t : Z) : nat := default 0%nat (sh_depth s !! t).
Definition set_depth (t : Z) (n : nat) (s : sharing) : gmap Z nat := <[t := n]> (sh_depth s).

(** A thread enters a section, when it gets the mutex, or leaves the last one it entered. *)
Inductive section_step (s : sharing) : sharing → Prop :=
  | section_enter t m : xfiredb_mutex_lock t (sh_mutex s) = Some m →
      section_step s (Sharing m (set_depth t (S (depth s t)) s))
  | section_leave t n : depth s t = S n →
      section_step s (Sharing (xfiredb_mutex_unlock t (sh_mutex s)) (set_depth t n s)).

(** The mutex knows who is in a section, and how deep; nobody else is. *)
Definition agrees (s : sharing) : Prop :=
  match sh_mutex s with
  | Unlocked => ∀ t, depth s t = 0%nat
  | Locked o n => depth s o = S n ∧ ∀ t, t ≠ o → depth s t = 0%nat
  end.

Lemma depth_set s m t n u : depth (Sharing m (set_depth t n s)) u = if decide (u = t) then n else depth s u.
Proof.
  unfold depth, set_depth. cbn. case_decide; [subst; by rewrite lookup_insert_eq|by rewrite lookup_insert_ne].
Qed.

Lemma section_step_agrees s s' : section_step s s' → agrees s → agrees s'.
Proof.
  intros [t m Hm|t n Hn]; unfold agrees; cbn [sh_mutex].
  - destruct (sh_mutex s) as [|o k]; cbn in Hm.
    + intros H. injection Hm as <-. rewrite depth_set, decide_True by done. split; [by rewrite H|].
      intros u Hu. rewrite depth_set, decide_False by done. apply H.
    + case_decide as Ho; [|done]. injection Hm as <-. subst t. intros [H1 H2]. rewrite depth_set, decide_True by done.
      split; [by rewrite H1|]. intros u Hu. rewrite depth_set, decide_False by done. by apply H2.
  - destruct (sh_mutex s) as [|o k]; cbn; [intros H; by rewrite H in Hn|]. intros [H1 H2].
    destruct (decide (t = o)) as [->|Hne]; [|by rewrite H2 in Hn]. rewrite decide_True by done. rewrite H1 in Hn. injection Hn as <-.
    destruct k as [|k].
    + intros u. rewrite depth_set. case_decide; [done|by apply H2].
    + rewrite depth_set, decide_True by done. split; [done|]. intros u Hu. rewrite depth_set, decide_False by done. by apply H2.
Qed.

(** Sections of different threads exclude each other, a thread is never kept out by its
    own section, and when all sections are left the mutex can be destroyed. *)
Lemma mutex_sections s :
  rtc section_step (Sharing xfiredb_mutex_init ∅) s →
  (∀ t u, (0 < depth s t)%nat → (0 < depth s u)%nat → t = u) ∧
  (∀ t, (0 < depth s t)%nat → is_Some (xfiredb_mutex_lock t (sh_mutex s))) ∧
  ((∀ t, depth s t = 0%nat) → xfiredb_mutex_destroy (sh_mutex s) = Done ()).
Proof.
  intros Hr. assert (agrees s) as H.
  { refine (rtc_ind_r (λ s, agrees s) _ _ _ s Hr); [done|]. intros s1 s2 _ Hs H. by eapply section_step_agrees. }
  unfold agrees in H. destruct (sh_mutex s) as [|o n].
  - split_and!; [intros t u Ht; by rewrite H in Ht; apply Nat.nlt_0_r in Ht|intros t Ht; by rewrite H in Ht; apply Nat.nlt_0_r in Ht|done].
  - destruct H as [H1 H2]. assert (∀ t, (0 < depth s t)%nat → t = o) as Ho.
    { intros t Ht. destruct (decide (t = o)) as [|Hne]; [done|]. rewrite H2 in Ht by done. lia. }
    split_and!.
    + intros t u Ht Hu. by rewrite (Ho t Ht), (Ho u Hu).
    + intros t Ht. cbn. rewrite decide_True by (by rewrite (Ho t Ht)). by eexists.
    + intros Hz. by rewrite Hz in H1.
Qed.

(** ** Thread structures *)

(** The structures by address with the address of their name, the names, the threads that
    were started and not joined, and the next unused address. *)
Record threads := Threads { ts_tps : gmap loc (Z * loc); ts_names : gmap loc string; ts_running : gset Z; ts_brk : loc }.

(** [thread]: what [pthread_create] starts. *)
Definition __xfiredb_create_thread (name : string) (thread : option Z) (s : threads) : threads * loc :=
  let tp := ts_brk s in
  match thread with
  | None => (Threads (ts_tps s) (ts_names s) (ts_running s) (ts_brk s + 1), NULL)
  | Some t =>
      (Threads (<[tp := (t, tp + 1)]> (ts_tps s)) (<[tp + 1 := name]> (ts_names s)) ({[t]} ∪ ts_running s) (ts_brk s + 2), tp)
  end.
Definition xfiredb_create_thread : string → option Z → threads → threads * loc := __xfiredb_create_thread.

(** A thread can be joined once. *)
Definition xfiredb_thread_join (tp : loc) (s : threads) : outcome threads :=
  '(t, _) ← deref (ts_tps s !! tp);
  if decide (t ∈ ts_running s) then Done (Threads (ts_tps s) (ts_names s) (ts_running s ∖ {[t]}) (ts_brk s)) else Stuck.

Definition xfiredb_destroy_thread (tp : loc) (s : threads) : outcome (threads * Z) :=
  '(_, name) ← deref (ts_tps s !! tp);
  _ ← deref (ts_names s !! name);
  Done (Threads (delete tp (ts_tps s)) (delete name (ts_names s)) (ts_running s) (ts_brk s), - XFIREDB_OK).

(** A thread that is joined and destroyed leaves nothing behind; nor does one that could
    not be started. *)
Lemma thread_life name s :
  (∀ a, ts_brk s ≤ a → ts_tps s !! a = None ∧ ts_names s !! a = None) →
  (∃ k, __xfiredb_create_thread name None s = (Threads (ts_tps s) (ts_names s) (ts_running s) k, NULL)) ∧
  ∀ t, t ∉ ts_running s →
    let '(s1, tp) := __xfiredb_create_thread name (Some t) s in
    ∃ s2 k, xfiredb_thread_join tp s1 = Done s2 ∧
      xfiredb_destroy_thread tp s2 = Done (Threads (ts_tps s) (ts_names s) (ts_running s) k, - XFIREDB_OK).
Proof.
  intros Hfresh. split; [by eexists|]. intros t Ht. unfold __xfiredb_create_thread, xfiredb_thread_join, xfiredb_destroy_thread.
  cbn [ts_tps ts_names ts_running]. rewrite !lookup_insert_eq. cbn [deref mbind outcome_bind]. rewrite decide_True by set_solver.
  eexists _, _. split; [done|]. cbn [ts_tps ts_names ts_running]. rewrite !lookup_insert_eq. cbn [deref mbind outcome_bind].
  rewrite lookup_insert_eq. cbn [deref mbind outcome_bind].
  rewrite !delete_insert_id by (apply Hfresh; lia). assert (({[t]} ∪ ts_running s) ∖ {[t]} = ts_running s) as -> by set_solver. done.
Qed.
