(* ===== verification/Log.v ===== *)
(** * Logging: [log.c]

    Two streams take the messages of the engine; some also go to the console.  A stream is
    an address, with the name of its file, its position in it and the text that was not
    written yet; the files are the texts by name, and the console is the device behind
    [stdout].  The buffer is as large as it has to be; [fprintf] to [stderr] is written at
    once. *)
From Stdlib Require Import Ascii.
From S2P Require Import Prelude.
Local Open Scope Z_scope.

(** ** Formats *)

(** [printf] with strings as arguments.  A conversion that finds no argument, or none of
    its kind, and a [%] at the end are undefined. *)
Fixpoint printf (fmt : string) (args : list string) : outcome string :=
  match fmt with
  | EmptyString => Done EmptyString
  | String "%"%char fmt =>
      match fmt, args with
      | String "%"%char fmt, _ => t ← printf fmt args; Done (String "%"%char t)
      | String "s"%char fmt, a :: args => t ← printf fmt args; Done (a +:+ t)
      | _, _ => Stuck
      end
  | String c fmt => t ← printf fmt args; Done (String c t)
  end.

Lemma printf_total fmt args : printf fmt args ≠ OutOfFuel.
Proof.
  enough (∀ n fmt, (String.length fmt ≤ n)%nat → ∀ args, printf fmt args ≠ OutOfFuel) by eauto.
  clear. induction n as [|n IH]; intros [|c fmt] Hn args; cbn in Hn; try done; [lia|].
  assert (∀ f args, (String.length f ≤ n)%nat → printf f args ≠ OutOfFuel) as H by (intros; by apply IH).
  cbn [printf]. destruct c as [[] [] [] [] [] [] [] []]; try (pose proof (H fmt args ltac:(lia)); by destruct (printf fmt args)).
  destruct fmt as [|[[] [] [] [] [] [] [] []] fmt]; try done; cbn in Hn.
  - destruct args as [|a args]; [done|]. pose proof (H fmt args ltac:(lia)). by destruct (printf fmt args).
  - pose proof (H fmt args ltac:(lia)). by destruct (printf fmt args).
Qed.

(** ** Streams *)

Record FILE := File { f_name : string; f_pos : nat; f_buf : string }.

(** [xfiredb_stdout], [xfiredb_stderr], the open streams, the texts of the files and the
    next unused address. *)
Record logger := Logger {
  lg_out : loc;
  lg_err : loc;
  lg_files : gmap loc FILE;
  lg_disk : gmap string string;
  lg_next : loc }.

Definition put_file (f : loc) (x : FILE) (s : logger) : logger :=
  Logger (lg_out s) (lg_err s) (<[f := x]> (lg_files s)) (lg_disk s) (lg_next s).
Definition put_disk (name text : string) (s : logger) : logger :=
  Logger (lg_out s) (lg_err s) (lg_files s) (<[name := text]> (lg_disk s)) (lg_next s).
Definition put_out (f : loc) (s : logger) : logger := Logger f (lg_err s) (lg_files s) (lg_disk s) (lg_next s).
Definition put_err (f : loc) (s : logger) : logger := Logger (lg_out s) f (lg_files s) (lg_disk s) (lg_next s).

Definition STDOUT : loc := 1.
Definition STDERR : loc := 2.
Definition CONSOLE : string := "/dev/stdout".
Definition CONSOLE_ERR : string := "/dev/stderr".

(** The process at its start, with the files there are. *)
Definition log_start (disk : gmap string string) : logger :=
  Logger NULL NULL {[STDOUT := File CONSOLE 0 ""; STDERR := File CONSOLE_ERR 0 ""]}
    (<[CONSOLE := EmptyString]> (<[CONSOLE_ERR := EmptyString]> disk)) 3.

(** The text [t] written over [old] from [pos] on. *)
Definition overwrite (old : string) (pos : nat) (t : string) : string :=
  String.substring 0 pos old +:+ t +:+ String.substring (pos + String.length t) (String.length old) old.

Definition fflush (f : loc) (s : logger) : outcome logger :=
  x ← deref (lg_files s !! f);
  let old := default "" (lg_disk s !! f_name x) in
  let s := put_disk (f_name x) (overwrite old (f_pos x) (f_buf x)) s in
  Done (put_file f (File (f_name x) (f_pos x + String.length (f_buf x)) "") s).

Definition fprintf (f : loc) (fmt : string) (args : list string) (s : logger) : outcome logger :=
  x ← deref (lg_files s !! f);
  t ← printf fmt args;
  let s := put_file f (File (f_name x) (f_pos x) (f_buf x +:+ t)) s in
  if f =? STDERR then fflush f s else Done s.

Definition fclose (f : loc) (s : logger) : outcome logger :=
  s ← fflush f s;
  Done (Logger (lg_out s) (lg_err s) (delete f (lg_files s)) (lg_disk s) (lg_next s)).

(** ** The module *)

Section Log.
(** The files that can be opened. *)
Context (can_open : string → bool).

(** [fopen(name, "w+")] empties the file; a name that is [NULL] is undefined. *)
Definition fopen (name : option string) (s : logger) : outcome (logger * loc) :=
  name ← deref name;
  if can_open name then
    let s := put_disk name "" s in
    let s := put_file (lg_next s) (File name 0 "") s in
    Done (Logger (lg_out s) (lg_err s) (lg_files s) (lg_disk s) (lg_next s + 1), lg_next s)
  else Done (s, NULL).

Definition xfiredb_log_init (out err : option string) (s : logger) : outcome logger :=
  s ← match out with
      | Some _ => '(s, f) ← fopen err s; Done (put_err f s)
      | None => Done (put_err STDERR s)
      end;
  match err with
  | Some _ => '(s, f) ← fopen out s; Done (put_out f s)
  | None => Done (put_out STDOUT s)
  end.

Definition vfxfiredb_log (src fmt : string) (args : list string) (s : logger) : outcome logger :=
  s ← fprintf (lg_out s) "[%s]: " [src] s;
  s ← fprintf (lg_out s) fmt args s;
  fflush (lg_out s) s.

Definition xfiredb_log_console (src fmt : string) (args : list string) (s : logger) : outcome logger :=
  s ← vfxfiredb_log src fmt args s;
  if negb (lg_out s =? STDOUT) then
    s ← fprintf STDOUT "[%s]: " [src] s;
    fprintf STDOUT fmt args s
  else Done s.

Definition raw_xfiredb_log_err (msg : string) (s : logger) : outcome logger :=
  s ← fprintf (lg_err s) msg [] s;
  fflush (lg_err s) s.

Definition raw_xfiredb_log (msg : string) (s : logger) : outcome logger :=
  s ← fprintf (lg_out s) msg [] s;
  fflush (lg_out s) s.

Definition raw_xfiredb_log_console (msg : string) (s : logger) : outcome logger :=
  s ← (if negb (lg_out s =? STDOUT) then fprintf STDOUT msg [] s else Done s);
  raw_xfiredb_log msg s.

Definition xfiredb_log (src msg : string) (args : list string) (s : logger) : outcome logger :=
  vfxfiredb_log src msg args s.

Definition xfiredb_log_err (src msg : string) (args : list string) (s : logger) : outcome logger :=
  s ← fprintf (lg_err s) "[%s]: " [src] s;
  fprintf (lg_err s) msg args s.

Definition newline : string := String (ascii_of_nat 10) "".

Definition xfiredb_log_exit (s : logger) : outcome logger :=
  s ← raw_xfiredb_log ("[exit]: XFIRE logger stopped." +:+ newline) s;
  s ← fclose (lg_err s) s;
  fclose (lg_out s) s.

(** ** Calls *)

Inductive log_call :=
  | Log (src fmt : string) (args : list string)
  | LogConsole (src fmt : string) (args : list string)
  | LogErr (src fmt : string) (args : list string)
  | RawLog (msg : string)
  | RawConsole (msg : string)
  | RawErr (msg : string).

Definition log_step (c : log_call) : logger → outcome logger :=
  match c with
  | Log src fmt args => xfiredb_log src fmt args
  | LogConsole src fmt args => xfiredb_log_console src fmt args
  | LogErr src fmt args => xfiredb_log_err src fmt args
  | RawLog msg => raw_xfiredb_log msg
  | RawConsole msg => raw_xfiredb_log_console msg
  | RawErr msg => raw_xfiredb_log_err msg
  end.
Fixpoint log_steps (cs : list log_call) (s : logger) : outcome logger :=
  match cs with [] => Done s | c :: cs => s ← log_step c s; log_steps cs s end.

(** What a call is to write, if its format can be printed, and where. *)
Definition line (c : log_call) : outcome string :=
  match c with
  | Log src fmt args | LogConsole src fmt args | LogErr src fmt args =>
      t ← printf fmt args; Done ("[" +:+ src +:+ "]: " +:+ t)
  | RawLog msg | RawConsole msg | RawErr msg => printf msg []
  end.
Definition to_out (c : log_call) : bool := match c with LogErr _ _ _ | RawErr _ => false | _ => true end.
Definition to_console (c : log_call) : bool := match c with LogConsole _ _ _ | RawConsole _ => true | _ => false end.

(** The lines of the calls that [p] selects, one after the other. *)
Fixpoint lines (p : log_call → bool) (cs : list log_call) : string :=
  match cs with
  | [] => ""
  | c :: cs => (if p c then match line c with Done t => t | _ => "" end else "") +:+ lines p cs
  end.
End Log.

(** ** What a stream holds *)

Lemma substring_all (s : string) : String.substring 0 (String.length s) s = s.
Proof. induction s as [|c s IH]; [done|]. cbn. by rewrite IH. Qed.
Lemma substring_end (s : string) n m : (String.length s ≤ n)%nat → String.substring n m s = "".
Proof.
  revert n. induction s as [|c s IH]; intros [|n] Hn; cbn in *; try done; [by destruct m|lia|]. apply IH. lia.
Qed.
Lemma string_app_nil (s : string) : s +:+ "" = s.
Proof. apply bytes_inj. by rewrite bytes_app, app_nil_r. Qed.
Lemma string_nil_app (s : string) : "" +:+ s = s.
Proof. done. Qed.
Lemma string_app_assoc (a b c : string) : (a +:+ b) +:+ c = a +:+ (b +:+ c).
Proof. apply bytes_inj. by rewrite !bytes_app, app_assoc. Qed.
Lemma string_length_app (a b : string) : String.length (a +:+ b) = (String.length a + String.length b)%nat.
Proof. by rewrite <-!length_bytes, bytes_app, length_app. Qed.

(** Writing at the end appends. *)
Lemma overwrite_end old t : overwrite old (String.length old) t = old +:+ t.
Proof. unfold overwrite. rewrite substring_all, substring_end by lia. by rewrite string_app_nil. Qed.

(** The stream at [f] writes to the end of the file [name]; with what waits in its buffer
    the file holds [t].  [d] is what it holds now. *)
Definition stream_at (f : loc) (name t d : string) (s : logger) : Prop :=
  ∃ b, lg_files s !! f = Some (File name (String.length d) b) ∧ lg_disk s !! name = Some d ∧ d +:+ b = t.

Lemma start_out disk : stream_at STDOUT CONSOLE "" "" (log_start disk).
Proof. exists "". unfold log_start, lg_files, lg_disk. by rewrite !lookup_insert_eq. Qed.

(** Nothing but the stream at [f] and the file [name] changed. *)
Record only_at (f : loc) (name : string) (s s' : logger) : Prop := {
  oa_out : lg_out s' = lg_out s;
  oa_err : lg_err s' = lg_err s;
  oa_next : lg_next s ≤ lg_next s';
  oa_files : ∀ g, g ≠ f → lg_files s' !! g = lg_files s !! g;
  oa_disk : ∀ n, n ≠ name → lg_disk s' !! n = lg_disk s !! n }.

Lemma only_at_trans f name s1 s2 s3 : only_at f name s1 s2 → only_at f name s2 s3 → only_at f name s1 s3.
Proof. intros [A B N C D] [A' B' N' C' D']. split; [congruence..|lia| |]; intros; [rewrite C', C|rewrite D', D]; done. Qed.

Lemma only_at_stream f name s s' g n t d :
  only_at f name s s' → g ≠ f → n ≠ name → stream_at g n t d s → stream_at g n t d s'.
Proof. intros [_ _ _ A B] Hg Hn (b & Hf & Hd & Ht). exists b. by rewrite A, B. Qed.

Lemma fflush_at f name t d s : stream_at f name t d s →
  ∃ s', fflush f s = Done s' ∧ stream_at f name t t s' ∧ only_at f name s s'.
Proof.
  intros (b & Hf & Hd & Ht). unfold fflush. rewrite Hf. cbn. rewrite Hd. cbn. rewrite overwrite_end, Ht.
  eexists. split; [done|]. split.
  - exists "". cbn. rewrite !lookup_insert_eq, string_app_nil. split_and!; [|done..].
    by rewrite <-Ht, string_length_app.
  - split; [done..| |]; intros; cbn; by rewrite lookup_insert_ne.
Qed.

Lemma fprintf_at f name t d s fmt args u :
  stream_at f name t d s → f ≠ STDERR → printf fmt args = Done u →
  ∃ s', fprintf f fmt args s = Done s' ∧ stream_at f name (t +:+ u) d s' ∧ only_at f name s s'.
Proof.
  intros (b & Hf & Hd & Ht) Hne Hu. unfold fprintf. rewrite Hf. cbn. rewrite Hu. cbn. rewrite (proj2 (Z.eqb_neq _ _) Hne).
  eexists. split; [done|]. split.
  - exists (b +:+ u). cbn. rewrite lookup_insert_eq. split_and!; [done..|]. by rewrite <-Ht, string_app_assoc.
  - split; [done..| |done]. intros; cbn; by rewrite lookup_insert_ne.
Qed.

(** ** Operations on streams *)

Section Writes.
(** [xfiredb_stdout] and [xfiredb_stderr]. *)
Context (o e : loc).

(** [m] appends [u] to the stream at [f], and writes everything out if [all] is set. *)
Definition writes (f : loc) (name u : string) (all : bool) (m : logger → outcome logger) : Prop :=
  ∀ s t d, lg_out s = o → lg_err s = e → stream_at f name t d s →
  ∃ s' d', m s = Done s' ∧ stream_at f name (t +:+ u) d' s' ∧ only_at f name s s' ∧ (all = true → d' = t +:+ u).

Lemma writes_fprintf f name fmt args u :
  f ≠ STDERR → printf fmt args = Done u → writes f name u false (fprintf f fmt args).
Proof.
  intros Hf Hu s t d _ _ H. destruct (fprintf_at f name t d s fmt args u H Hf Hu) as (s' & E & H' & Ho). by exists s', d.
Qed.

Lemma writes_fflush f name : writes f name "" true (fflush f).
Proof.
  intros s t d _ _ H. destruct (fflush_at f name t d s H) as (s' & E & H' & Ho). exists s', t. by rewrite string_app_nil.
Qed.

Lemma writes_seq f name u1 u2 b1 b2 m1 m2 :
  writes f name u1 b1 m1 → writes f name u2 b2 m2 → writes f name (u1 +:+ u2) b2 (λ s, s ← m1 s; m2 s).
Proof.
  intros H1 H2 s t d Ho He H. destruct (H1 s t d Ho He H) as (s1 & d1 & E1 & Hs1 & Ho1 & _).
  destruct (H2 s1 (t +:+ u1) d1) as (s2 & d2 & E2 & Hs2 & Ho2 & Hall); [by rewrite (oa_out _ _ _ _ Ho1)|by rewrite (oa_err _ _ _ _ Ho1)|done|].
  exists s2, d2. rewrite <-string_app_assoc. split_and!; [by rewrite E1|done|by eapply only_at_trans|done].
Qed.

(** The stream may be named by a pointer of the module. *)
Lemma writes_out f name u b m : f = o → writes f name u b (m o) → writes f name u b (λ s, m (lg_out s) s).
Proof. intros -> H s t d Ho He Hs. rewrite Ho. by apply (H s t d). Qed.
Lemma writes_err f name u b m : f = e → writes f name u b (m e) → writes f name u b (λ s, m (lg_err s) s).
Proof. intros -> H s t d Ho He Hs. rewrite He. by apply (H s t d). Qed.

(** A prefix with the source, then the message. *)
Lemma prefix_app (src u : string) : "[" +:+ (src +:+ ("]: " +:+ u)) = ("[" +:+ (src +:+ "]: ")) +:+ u.
Proof. by rewrite !string_app_assoc. Qed.
End Writes.

(** ** The module at work *)

Section Logging.
Context (out err : string) (o e : loc).

(** The messages so far: those to the file [out], which has them all, those to the file
    [err] and those to the console. *)
Record logging (s : logger) (to te tc : string) : Prop := {
  lo_o : lg_out s = o;
  lo_e : lg_err s = e;
  lo_out : stream_at o out to to s;
  lo_err : ∃ d, stream_at e err te d s;
  lo_con : ∃ d, stream_at STDOUT CONSOLE tc d s;
  lo_next : 2 < lg_next s }.

Context (Hstd : o ≠ STDOUT ∧ o ≠ STDERR ∧ e ≠ STDOUT ∧ e ≠ STDERR ∧ o ≠ e).
Context (Hnames : NoDup [out; err; CONSOLE]).

Lemma names_apart : out ≠ err ∧ out ≠ CONSOLE ∧ err ≠ CONSOLE.
Proof. clear Hstd. rewrite !list.NoDup_cons in Hnames. set_solver. Qed.

Lemma logging_out m u s to te tc :
  writes o e o out u true m → logging s to te tc → ∃ s', m s = Done s' ∧ logging s' (to +:+ u) te tc.
Proof.
  intros Hm [Ho He Hto [d Hte] [d' Htc] Hn]. destruct names_apart as (? & ? & ?), Hstd as (? & ? & ? & ? & ?).
  destruct (Hm s to to Ho He Hto) as (s' & d1 & E & Hs & Hon & Hd). rewrite Hd in Hs by done. exists s'. split; [done|]. split.
  - by rewrite (oa_out _ _ _ _ Hon).
  - by rewrite (oa_err _ _ _ _ Hon).
  - done.
  - exists d. by eapply only_at_stream.
  - exists d'. by eapply only_at_stream.
  - pose proof (oa_next _ _ _ _ Hon). lia.
Qed.

Lemma logging_err m u b s to te tc :
  writes o e e err u b m → logging s to te tc → ∃ s', m s = Done s' ∧ logging s' to (te +:+ u) tc.
Proof.
  intros Hm [Ho He Hto [d Hte] [d' Htc] Hn]. destruct names_apart as (? & ? & ?), Hstd as (? & ? & ? & ? & ?).
  destruct (Hm s te d Ho He Hte) as (s' & d1 & E & Hs & Hon & _). exists s'. split; [done|]. split.
  - by rewrite (oa_out _ _ _ _ Hon).
  - by rewrite (oa_err _ _ _ _ Hon).
  - by eapply only_at_stream.
  - by exists d1.
  - exists d'. by eapply only_at_stream.
  - pose proof (oa_next _ _ _ _ Hon). lia.
Qed.

Lemma logging_con m u b s to te tc :
  writes o e STDOUT CONSOLE u b m → logging s to te tc → ∃ s', m s = Done s' ∧ logging s' to te (tc +:+ u).
Proof.
  intros Hm [Ho He Hto [d Hte] [d' Htc] Hn]. destruct names_apart as (? & ? & ?), Hstd as (? & ? & ? & ? & ?).
  destruct (Hm s tc d' Ho He Htc) as (s' & d1 & E & Hs & Hon & _). exists s'. split; [done|]. split.
  - by rewrite (oa_out _ _ _ _ Hon).
  - by rewrite (oa_err _ _ _ _ Hon).
  - by eapply only_at_stream.
  - exists d. by eapply only_at_stream.
  - by exists d1.
  - pose proof (oa_next _ _ _ _ Hon). lia.
Qed.

Lemma lines_app p cs1 cs2 : lines p (cs1 ++ cs2) = lines p cs1 +:+ lines p cs2.
Proof. induction cs1 as [|c cs1 IH]; cbn [app lines]; [done|]. by rewrite IH, string_app_assoc. Qed.

(** *** The functions *)

Lemma out_prints fmt args u : printf fmt args = Done u → writes o e o out u false (λ s, fprintf (lg_out s) fmt args s).
Proof. intros Hu. apply (writes_out o e o out u false (λ f, fprintf f fmt args)); [done|]. apply writes_fprintf; [apply Hstd|done]. Qed.
Lemma err_prints fmt args u : printf fmt args = Done u → writes o e e err u false (λ s, fprintf (lg_err s) fmt args s).
Proof. intros Hu. apply (writes_err o e e err u false (λ f, fprintf f fmt args)); [done|]. apply writes_fprintf; [apply Hstd|done]. Qed.
Lemma out_flushes : writes o e o out "" true (λ s, fflush (lg_out s) s).
Proof. apply (writes_out o e o out "" true fflush); [done|]. apply writes_fflush. Qed.
Lemma err_flushes : writes o e e err "" true (λ s, fflush (lg_err s) s).
Proof. apply (writes_err o e e err "" true fflush); [done|]. apply writes_fflush. Qed.
Lemma con_prints fmt args u : printf fmt args = Done u → writes o e STDOUT CONSOLE u false (fprintf STDOUT fmt args).
Proof. intros Hu. by apply writes_fprintf. Qed.

Lemma raw_xfiredb_log_writes msg u : printf msg [] = Done u → writes o e o out u true (raw_xfiredb_log msg).
Proof.
  intros Hu. rewrite <-(string_app_nil u). exact (writes_seq _ _ _ _ _ _ _ _ _ _ (out_prints _ _ _ Hu) out_flushes).
Qed.
Lemma raw_xfiredb_log_err_writes msg u : printf msg [] = Done u → writes o e e err u true (raw_xfiredb_log_err msg).
Proof.
  intros Hu. rewrite <-(string_app_nil u). exact (writes_seq _ _ _ _ _ _ _ _ _ _ (err_prints _ _ _ Hu) err_flushes).
Qed.
Lemma vfxfiredb_log_writes src fmt args u : printf fmt args = Done u →
  writes o e o out ("[" +:+ (src +:+ ("]: " +:+ u))) true (vfxfiredb_log src fmt args).
Proof.
  intros Hu. rewrite prefix_app, <-(string_app_nil u).
  exact (writes_seq _ _ _ _ _ _ _ _ _ _ (out_prints "[%s]: " [src] _ eq_refl) (writes_seq _ _ _ _ _ _ _ _ _ _ (out_prints _ _ _ Hu) out_flushes)).
Qed.
Lemma xfiredb_log_err_writes src fmt args u : printf fmt args = Done u →
  writes o e e err ("[" +:+ (src +:+ ("]: " +:+ u))) false (xfiredb_log_err src fmt args).
Proof.
  intros Hu. rewrite prefix_app. exact (writes_seq _ _ _ _ _ _ _ _ _ _ (err_prints "[%s]: " [src] _ eq_refl) (err_prints _ _ _ Hu)).
Qed.
Lemma console_writes src fmt args u : printf fmt args = Done u →
  writes o e STDOUT CONSOLE ("[" +:+ (src +:+ ("]: " +:+ u))) false (λ s, s ← fprintf STDOUT "[%s]: " [src] s; fprintf STDOUT fmt args s).
Proof.
  intros Hu. rewrite prefix_app. exact (writes_seq _ _ _ _ _ _ _ _ _ _ (con_prints "[%s]: " [src] _ eq_refl) (con_prints _ _ _ Hu)).
Qed.

(** A call whose message can be printed writes it where it is to be written. *)
Lemma log_step_run c u s to te tc :
  logging s to te tc → line c = Done u →
  ∃ s', log_step c s = Done s' ∧
    logging s' (to +:+ (if to_out c then u else "")) (te +:+ (if to_out c then "" else u)) (tc +:+ (if to_console c then u else "")).
Proof.
  intros Hl Hu. assert (o =? STDOUT = false) as Hne by (apply Z.eqb_neq, Hstd).
  destruct c as [src fmt args|src fmt args|src fmt args|msg|msg|msg]; cbn [line to_out to_console log_step] in *; rewrite ?string_app_nil;
    try (apply outcome_bind_Done in Hu as (t & Ht & [= <-])).
  - eapply logging_out; [by apply vfxfiredb_log_writes|done].
  - destruct (logging_out _ _ s to te tc (vfxfiredb_log_writes src fmt args t Ht) Hl) as (s1 & E1 & H1).
    destruct (logging_con _ _ _ s1 _ _ _ (console_writes src fmt args t Ht) H1) as (s2 & E2 & H2).
    exists s2. split; [|done]. unfold xfiredb_log_console. rewrite E1. cbn [mbind outcome_bind]. rewrite (lo_o _ _ _ _ H1), Hne. exact E2.
  - eapply logging_err; [by apply xfiredb_log_err_writes|done].
  - eapply logging_out; [by apply raw_xfiredb_log_writes|done].
  - destruct (logging_con _ _ _ s to te tc (con_prints msg [] u Hu) Hl) as (s1 & E1 & H1).
    destruct (logging_out _ _ s1 _ _ _ (raw_xfiredb_log_writes msg u Hu) H1) as (s2 & E2 & H2).
    exists s2. split; [|done]. unfold raw_xfiredb_log_console. rewrite (lo_o _ _ _ _ Hl), Hne. cbn [negb]. by rewrite E1.
  - eapply logging_err; [by apply raw_xfiredb_log_err_writes|done].
Qed.

Lemma log_steps_run cs s to te tc :
  logging s to te tc → Forall (λ c, ∃ u, line c = Done u) cs →
  ∃ s', log_steps cs s = Done s' ∧
    logging s' (to +:+ lines to_out cs) (te +:+ lines (negb ∘ to_out) cs) (tc +:+ lines to_console cs).
Proof.
  intros Hl Hcs. revert s to te tc Hl. induction Hcs as [|c cs [u Hu] _ IH]; intros s to te tc Hl; cbn [log_steps lines].
  - exists s. by rewrite !string_app_nil.
  - destruct (log_step_run c u s to te tc Hl Hu) as (s1 & -> & H1). destruct (IH s1 _ _ _ H1) as (s2 & E2 & H2).
    exists s2. split; [done|]. rewrite !string_app_assoc in H2. rewrite Hu. cbn. by destruct (to_out c), (to_console c).
Qed.
End Logging.

(** ** From the start to the end *)

Section Files.
Context (can_open : string → bool) (out err : string).
Context (Hout : can_open out = true) (Herr : can_open err = true) (Hnames : NoDup [out; err; CONSOLE]).

(** The two streams are new; the console is as it was. *)
Lemma log_init_run tc d s : stream_at STDOUT CONSOLE tc d s → 2 < lg_next s →
  ∃ s', xfiredb_log_init can_open (Some out) (Some err) s = Done s' ∧ logging out err (lg_next s + 1) (lg_next s) s' "" "" tc.
Proof.
  intros (b & Hf & Hd & Ht) Hn. destruct (names_apart out err Hnames) as (? & ? & ?). unfold xfiredb_log_init, fopen.
  cbn [deref mbind outcome_bind]. rewrite Herr. cbn [mbind outcome_bind]. rewrite Hout. cbn [mbind outcome_bind].
  eexists. split; [done|]. split; [done..| | | |cbn; lia].
  - exists "". cbn. by rewrite !lookup_insert_eq.
  - exists "", "". cbn. split_and!; [|by rewrite lookup_insert_ne, lookup_insert_eq|done].
    by rewrite lookup_insert_ne, lookup_insert_eq by lia.
  - exists d, b. cbn. unfold STDOUT in *. split_and!; [|by rewrite !lookup_insert_ne|done]. by rewrite !lookup_insert_ne by lia.
Qed.

Lemma fclose_at f name t d s : stream_at f name t d s → ∃ s', fclose f s = Done s' ∧
  lg_files s' !! f = None ∧ lg_disk s' !! name = Some t ∧ only_at f name s s'.
Proof.
  intros H. destruct (fflush_at f name t d s H) as (s1 & E & (b & Hf & Hd & Hb) & [A B N C D]). unfold fclose. rewrite E.
  eexists. split; [done|]. split_and!; [by apply lookup_delete_eq|done|]. split; [done..| |done].
  intros g Hg. cbn. by rewrite lookup_delete_ne, C.
Qed.

Lemma log_exit_run o e s to te tc :
  o ≠ STDOUT ∧ o ≠ STDERR ∧ e ≠ STDOUT ∧ e ≠ STDERR ∧ o ≠ e → logging out err o e s to te tc →
  ∃ s', xfiredb_log_exit s = Done s' ∧
    lg_disk s' !! out = Some (to +:+ ("[exit]: XFIRE logger stopped." +:+ newline)) ∧ lg_disk s' !! err = Some te ∧
    (∃ d, stream_at STDOUT CONSOLE tc d s') ∧ lg_files s' !! lg_out s' = None ∧ lg_files s' !! lg_err s' = None ∧ 2 < lg_next s'.
Proof.
  intros Hstd Hl. destruct (names_apart out err Hnames) as (? & ? & ?). pose proof Hstd as (? & ? & ? & ? & ?).
  assert (∀ bye, bye = "[exit]: XFIRE logger stopped." +:+ newline → printf bye [] = Done bye) as Hbye by (by intros ? ->).
  destruct (logging_out out err o e Hstd Hnames _ _ s to te tc (raw_xfiredb_log_writes out o e Hstd _ _ (Hbye _ eq_refl)) Hl) as (s1 & E1 & [Ho He Hto [d Hte] [d' Htc] Hn]).
  destruct (fclose_at _ _ _ _ _ Hte) as (s2 & E2 & Hf2 & Hd2 & Hon2).
  destruct (fclose_at _ _ _ _ _ (only_at_stream _ _ _ _ o out _ _ Hon2 ltac:(done) ltac:(done) Hto)) as (s3 & E3 & Hf3 & Hd3 & Hon3).
  exists s3. split_and!; [|done| | | | |].
  - unfold xfiredb_log_exit. rewrite E1. cbn [mbind outcome_bind]. rewrite He, E2. cbn [mbind outcome_bind]. by rewrite (oa_out _ _ _ _ Hon2), Ho.
  - by rewrite (oa_disk _ _ _ _ Hon3), Hd2.
  - exists d'. eapply only_at_stream; [exact Hon3|done..|]. by eapply only_at_stream; [exact Hon2|..].
  - by rewrite (oa_out _ _ _ _ Hon3), (oa_out _ _ _ _ Hon2), Ho.
  - by rewrite (oa_err _ _ _ _ Hon3), (oa_err _ _ _ _ Hon2), He, (oa_files _ _ _ _ Hon3).
  - pose proof (oa_next _ _ _ _ Hon2). pose proof (oa_next _ _ _ _ Hon3). lia.
Qed.

(** C37: the messages are where they belong.  When the two files can be opened and are not
    the same, every sequence of messages that can be printed is logged without a fault:
    the log file has every message to it, each in full and in order, at once; after the
    exit the file of errors has every error, the console had every message that also
    goes there, and both files are closed. *)
Theorem log_files disk cs :
  Forall (λ c, ∃ u, line c = Done u) cs →
  ∃ s0 s1 s2, xfiredb_log_init can_open (Some out) (Some err) (log_start disk) = Done s0 ∧
    log_steps cs s0 = Done s1 ∧ lg_disk s1 !! out = Some (lines to_out cs) ∧
    xfiredb_log_exit s1 = Done s2 ∧
    lg_disk s2 !! out = Some (lines to_out cs +:+ ("[exit]: XFIRE logger stopped." +:+ newline)) ∧
    lg_disk s2 !! err = Some (lines (negb ∘ to_out) cs) ∧
    (∃ d, stream_at STDOUT CONSOLE (lines to_console cs) d s2) ∧
    lg_files s2 !! lg_out s2 = None ∧ lg_files s2 !! lg_err s2 = None.
Proof.
  intros Hcs. destruct (log_init_run "" "" (log_start disk)) as (s0 & E0 & H0); [apply start_out|done|].
  destruct (log_steps_run out err 4 3 ltac:(done) Hnames cs s0 _ _ _ H0 Hcs) as (s1 & E1 & H1).
  destruct (log_exit_run 4 3 s1 _ _ _ ltac:(done) H1) as (s2 & E2 & Ho & He & Hc & Hfo & Hfe & _).
  destruct (lo_out _ _ _ _ _ _ _ _ H1) as (b & _ & Hd & _). exists s0, s1, s2. rewrite !string_nil_app in *. by split_and!.
Qed.
End Files.

(** ** Faults *)

(** A name that is missing is opened all the same, and a file that cannot be opened is
    written to. *)
Lemma log_init_one_name can_open name s :
  xfiredb_log_init can_open (Some name) None s = Stuck ∧ xfiredb_log_init can_open None (Some name) s = Stuck.
Proof. done. Qed.

Lemma fprintf_closed f fmt args s : lg_files s !! f = None → fprintf f fmt args s = Stuck.
Proof. intros H. unfold fprintf. by rewrite H. Qed.

Lemma log_unopened can_open out err disk msg :
  can_open out = false → ∃ s, xfiredb_log_init can_open (Some out) (Some err) (log_start disk) = Done s ∧ raw_xfiredb_log msg s = Stuck.
Proof.
  intros Hout. unfold xfiredb_log_init, fopen. cbn [deref mbind outcome_bind]. rewrite Hout.
  destruct (can_open err); (eexists; split; [done|]); unfold raw_xfiredb_log; by rewrite fprintf_closed.
Qed.

(** Logging after the exit uses a stream that was closed. *)
Lemma log_closed c s : lg_files s !! lg_out s = None → lg_files s !! lg_err s = None → log_step c s = Stuck.
Proof.
  intros Ho He. destruct c; cbn [log_step]; unfold xfiredb_log, xfiredb_log_console, xfiredb_log_err, vfxfiredb_log, raw_xfiredb_log,
    raw_xfiredb_log_err; rewrite ?fprintf_closed by done; try done.
  unfold raw_xfiredb_log_console. destruct (Z.eqb_spec (lg_out s) STDOUT) as [|Hne]; cbn [negb mbind outcome_bind].
  - unfold raw_xfiredb_log. by rewrite fprintf_closed.
  - unfold fprintf at 1. destruct (lg_files s !! STDOUT) as [x|]; [|done]. cbn [deref mbind outcome_bind].
    pose proof (printf_total msg []) as Ht. destruct (printf msg []) as [t| |]; try done. cbn [mbind outcome_bind].
    change (STDOUT =? STDERR) with false. cbn [mbind outcome_bind].
    unfold raw_xfiredb_log. rewrite fprintf_closed; [done|]. cbn. by rewrite lookup_insert_ne.
Qed.

Definition demo_calls : list log_call :=
  [LogConsole "init" ("Initialising storage engine" +:+ newline) []; LogErr "disk" "Disk clear failed: %s" ["near *"]; RawLog "100%% done"].

Lemma log_files_witness :
  let out := "xfiredb.stdout" in let err := "xfiredb.stderr" in
  ∃ s0 s1 s2, xfiredb_log_init (λ _, true) (Some out) (Some err) (log_start ∅) = Done s0 ∧
    log_steps demo_calls s0 = Done s1 ∧
    lg_disk s1 !! out = Some ("[init]: Initialising storage engine" +:+ newline +:+ "100% done") ∧
    xfiredb_log_exit s1 = Done s2 ∧ lg_disk s2 !! err = Some "[disk]: Disk clear failed: near *".
Proof.
  destruct (log_files (λ _, true) "xfiredb.stdout" "xfiredb.stderr" eq_refl eq_refl ltac:(decide_by_compute) ∅ demo_calls) as (s0 & s1 & s2 & E0 & E1 & H1 & E2 & _ & H2 & _).
  - repeat (constructor; [by eexists|]). constructor.
  - exists s0, s1, s2. split_and!; assumption.
Defined.
