(* ===== verification/Quotearg.v ===== *)
(** * Escaping: [quotearg.c] and its copy in [clients/c/client.c]

    Both functions write into a buffer sized from the source string; the model
    writes byte by byte into that buffer, so a write past its end is [Stuck].
    The two copies differ only in the size of the final [realloc]: the engine
    drops the terminator, the client keeps it. *)
From S2P Require Import Prelude Mem.
Local Open Scope Z_scope.

Definition BACKSLASH : Z := 92.

(** The letter after the backslash, for a character that is escaped. *)
Definition escape_code (c : Z) : option Z :=
  if c =? 7 then Some 97          (* \a *)
  else if c =? 8 then Some 98     (* \b *)
  else if c =? 12 then Some 102   (* \f *)
  else if c =? 10 then Some 110   (* \n *)
  else if c =? 13 then Some 114   (* \r *)
  else if c =? 9 then Some 116    (* \t *)
  else if c =? 11 then Some 118   (* \v *)
  else if c =? 92 then Some 92    (* backslash *)
  else if c =? 34 then Some 34    (* double quote *)
  else if c =? 39 then Some 39    (* single quote *)
  else None.

(** [xfiredb_unescape_char] *)
Definition xfiredb_unescape_char (c : Z) : Z :=
  if c =? 97 then 7
  else if c =? 98 then 8
  else if c =? 102 then 12
  else if c =? 110 then 10
  else if c =? 114 then 13
  else if c =? 116 then 9
  else if c =? 118 then 11
  else c.

(** The loop of [xfiredb_escape_string] over the characters before the NUL. *)
Fixpoint escape_loop (src : list Z) (buf : region) (dst : nat) : outcome (region * nat) :=
  match src with
  | [] => Done (buf, dst)
  | c :: src' =>
      match escape_code c with
      | Some e =>
          buf ← store buf dst BACKSLASH;
          buf ← store buf (dst + 1) e;
          escape_loop src' buf (dst + 2)
      | None =>
          buf ← store buf dst c;
          escape_loop src' buf (dst + 1)
      end
  end.

(** The loop of [xfiredb_unescape_string]; [src] includes the terminator, and
    what follows it is not part of the object. *)
Fixpoint unescape_loop (src : list Z) (buf : region) (dst : nat) : outcome (region * nat) :=
  match src with
  | [] => Stuck
  | c :: src' =>
      if c =? 0 then Done (buf, dst)
      else if c =? BACKSLASH then
        match src' with
        | [] => Stuck
        | e :: src'' =>
            buf ← store buf dst (xfiredb_unescape_char e);
            unescape_loop src'' buf (dst + 1)
        end
      else
        buf ← store buf dst c;
        unescape_loop src' buf (dst + 1)
  end.

(** What both functions do after the loop; [extra] is what is added to the
    length before the [realloc]. *)
Definition finish_string (extra : Z) (buf : region) (dst : nat) : outcome region :=
  buf ← store buf dst 0;
  len ← region_strlen buf;
  Done (xfiredb_realloc 0 buf (len + extra)).

Definition escape_string_with (extra : Z) (src : string) : outcome region :=
  let orig := xfiredb_zalloc (u64 (s32 (s32 (strlen src) * 2))) in
  '(buf, dst) ← escape_loop (bytes src) orig 0;
  finish_string extra buf dst.

Definition unescape_string_with (extra : Z) (src : string) : outcome region :=
  let orig := xfiredb_zalloc (u64 (s32 (strlen src))) in
  '(buf, dst) ← unescape_loop (cstr_region src) orig 0;
  finish_string extra buf dst.

(** [quotearg.c] *)
Definition xfiredb_escape_string : string → outcome region := escape_string_with 0.
Definition xfiredb_unescape_string : string → outcome region := unescape_string_with 0.

(** [clients/c/client.c] *)
Definition client_escape_string : string → outcome region := escape_string_with 1.
Definition client_unescape_string : string → outcome region := unescape_string_with 1.

(** ** The pure functions *)
Definition escape1 (c : Z) : list Z :=
  match escape_code c with Some e => [BACKSLASH; e] | None => [c] end.
Definition escape (l : list Z) : list Z := concat (escape1 <$> l).

(** [None]: the string ends in a lone backslash, or the buffer's NUL would be
    read as an escaped character. *)
Fixpoint unescape (l : list Z) : option (list Z) :=
  match l with
  | [] => Some []
  | c :: l' =>
      if c =? BACKSLASH then
        match l' with
        | [] => None
        | e :: l'' => cons (xfiredb_unescape_char e) <$> unescape l''
        end
      else cons c <$> unescape l'
  end.

(** Number of characters that need no escape, and of backslash pairs. *)
Definition plain (c : Z) : bool := bool_decide (escape_code c = None).

(** ** Facts *)

Lemma escape_cons c l : escape (c :: l) = escape1 c ++ escape l.
Proof. done. Qed.
Lemma escape_nil : escape [] = [].
Proof. done. Qed.
#[global] Opaque escape.

Lemma escape_code_unescape c e :
  escape_code c = Some e → xfiredb_unescape_char e = c ∧ e ≠ 0.
Proof.
  unfold escape_code. intros H.
  repeat (case_match eqn:Hc; [apply Z.eqb_eq in Hc; subst; injection H as <-; done|]; clear Hc).
  done.
Qed.

Lemma escape_code_backslash : escape_code BACKSLASH = Some BACKSLASH.
Proof. done. Qed.

Lemma unescape_escape l : unescape (escape l) = Some l.
Proof.
  induction l as [|c l IH]; [reflexivity|].
  rewrite escape_cons. unfold escape1.
  destruct (escape_code c) as [e|] eqn:He; simpl.
  - rewrite IH. simpl. by destruct (escape_code_unescape c e He) as [-> _].
  - destruct (Z.eqb_spec c BACKSLASH) as [->|_]; [done|]. by rewrite IH.
Qed.

Lemma escape_nonzero l : Forall (λ c, c ≠ 0) l → Forall (λ c, c ≠ 0) (escape l).
Proof.
  induction 1 as [|c l Hc Hl IH]; [constructor|].
  rewrite escape_cons. apply list.Forall_app. split; [|done]. unfold escape1.
  destruct (escape_code c) as [e|] eqn:He.
  - destruct (escape_code_unescape c e He) as [_ ?]. by repeat constructor.
  - by repeat constructor.
Qed.

Lemma length_escape_bound l :
  (length (escape l) + length (filter plain l) = 2 * length l)%nat.
Proof.
  induction l as [|c l IH]; [reflexivity|].
  rewrite escape_cons, length_app. unfold escape1.
  destruct (escape_code c) as [e|] eqn:He.
  - rewrite filter_cons_False by (unfold plain; rewrite bool_decide_spec; congruence).
    simpl. lia.
  - rewrite filter_cons_True by (unfold plain; rewrite bool_decide_spec; congruence).
    simpl. lia.
Qed.

(** No room left in the buffer. *)
Ltac no_room := first [done | case_decide; [simpl in *; lia|done]].

(** The loop on a buffer whose first bytes are written already. *)
Lemma escape_loop_spec l out n :
  escape_loop l (out ++ replicate n 0) (length out) =
    if decide (length (escape l) ≤ n)%nat
    then Done (out ++ escape l ++ replicate (n - length (escape l)) 0,
               (length out + length (escape l))%nat)
    else Stuck.
Proof.
  revert out n. induction l as [|c l IH]; intros out n.
  { rewrite escape_nil, decide_True by (simpl; lia). simpl.
    by rewrite Nat.sub_0_r, Nat.add_0_r. }
  rewrite escape_cons. unfold escape1. simpl.
  destruct (escape_code c) as [e|] eqn:He; simpl.
  - destruct n as [|n]; [rewrite app_nil_r, store_full; no_room|].
    rewrite store_app, bind_Done.
    replace (length out + 1)%nat with (length (out ++ [BACKSLASH])) by (rewrite length_app; done).
    destruct n as [|n]; [rewrite app_nil_r, store_full; no_room|].
    rewrite store_app, bind_Done.
    replace (length out + 2)%nat with (length ((out ++ [BACKSLASH]) ++ [e]))
      by (rewrite !length_app; simpl; lia).
    rewrite IH. case_decide; [rewrite decide_True by lia|no_room].
    rewrite !length_app. simpl. f_equal. f_equal; [by rewrite <-!app_assoc|lia].
  - destruct n as [|n]; [rewrite app_nil_r, store_full; no_room|].
    rewrite store_app, bind_Done.
    replace (length out + 1)%nat with (length (out ++ [c])) by (rewrite length_app; done).
    rewrite IH. case_decide; [rewrite decide_True by lia|no_room].
    rewrite !length_app. simpl. f_equal. f_equal; [by rewrite <-!app_assoc|lia].
Qed.

Lemma finish_string_spec extra l n :
  0 ≤ extra ≤ 1 → Forall (λ c, c ≠ 0) l →
  finish_string extra (l ++ replicate n 0) (length l) =
    if decide (0 < n)%nat then Done (l ++ replicate (Z.to_nat extra) 0) else Stuck.
Proof.
  intros Hextra Hl. unfold finish_string. destruct n as [|n].
  { by rewrite app_nil_r, store_full. }
  rewrite store_app, bind_Done, decide_True by lia.
  rewrite <-app_assoc. simpl. rewrite region_strlen_app by done. rewrite bind_Done.
  rewrite xfiredb_realloc_shrink by (rewrite length_app; simpl; lia).
  f_equal. rewrite take_app_ge by lia. f_equal.
  replace (Z.to_nat (Z.of_nat (length l) + extra) - length l)%nat with (Z.to_nat extra) by lia.
  assert (extra = 0 ∨ extra = 1) as [-> | ->] by lia; done.
Qed.

(** The unescape loop, as long as the buffer has room. *)
Lemma unescape_loop_spec l m out n :
  Forall (λ c, c ≠ 0) l → unescape l = Some m → (length m ≤ n)%nat →
  unescape_loop (l ++ [0]) (out ++ replicate n 0) (length out) =
    Done (out ++ m ++ replicate (n - length m) 0, (length out + length m)%nat).
Proof.
  remember (length l) as k eqn:Hk. assert (length l ≤ k)%nat as Hle by lia. clear Hk.
  revert l m out n Hle. induction k as [|k IH]; intros l m out n Hle Hl Hm Hn.
  { destruct l; [|simpl in Hle; lia]. injection Hm as <-. simpl.
    by rewrite Nat.sub_0_r, Nat.add_0_r. }
  destruct l as [|c l].
  { injection Hm as <-. simpl. by rewrite Nat.sub_0_r, Nat.add_0_r. }
  apply list.Forall_cons in Hl as [Hc Hl]. simpl in Hle, Hm |- *.
  rewrite (proj2 (Z.eqb_neq _ _) Hc). destruct (Z.eqb_spec c BACKSLASH) as [->|Hb].
  - destruct l as [|e l]; [done|]. simpl in Hle |- *.
    apply list.Forall_cons in Hl as [He Hl].
    apply fmap_Some in Hm as (m' & Hm' & ->). destruct n as [|n]; [simpl in Hn; lia|].
    rewrite store_app, bind_Done.
    replace (length out + 1)%nat with (length (out ++ [xfiredb_unescape_char e]))
      by (rewrite length_app; done).
    simpl in Hn. rewrite (IH l m') by (done || lia).
    rewrite length_app. simpl. f_equal. f_equal; [by rewrite <-!app_assoc|lia].
  - apply fmap_Some in Hm as (m' & Hm' & ->). destruct n as [|n]; [simpl in Hn; lia|].
    rewrite store_app, bind_Done.
    replace (length out + 1)%nat with (length (out ++ [c])) by (rewrite length_app; done).
    simpl in Hn. rewrite (IH l m') by (done || lia).
    rewrite length_app. simpl. f_equal. f_equal; [by rewrite <-!app_assoc|lia].
Qed.

Lemma unescape_length l m :
  unescape l = Some m →
  (length m ≤ length l)%nat ∧
  (BACKSLASH ∈ l → (length m < length l)%nat) ∧ (BACKSLASH ∉ l → m = l).
Proof.
  remember (length l) as k eqn:Hk. assert (length l ≤ k)%nat as Hle by lia.
  rewrite Hk. clear Hk. revert l m Hle.
  induction k as [|k IH]; intros l m Hle Hm.
  { destruct l; [|simpl in Hle; lia]. injection Hm as <-. set_solver. }
  destruct l as [|c l]; [injection Hm as <-; set_solver|]. simpl in Hle, Hm |- *.
  destruct (Z.eqb_spec c BACKSLASH) as [->|Hb].
  - destruct l as [|e l]; [done|]. simpl in Hle |- *.
    apply fmap_Some in Hm as (m' & Hm' & ->). simpl.
    destruct (IH l m') as (? & _ & _); [lia|done|]. split_and!; [lia|lia|set_solver].
  - apply fmap_Some in Hm as (m' & Hm' & ->). simpl.
    destruct (IH l m') as (? & H2 & H3); [lia|done|]. split_and!; [lia| |].
    + intros [|]%elem_of_cons; [done|]. intuition lia.
    + intros Hn. rewrite H3; [done|set_solver].
Qed.

Lemma zalloc_small n : 0 ≤ n < 2 ^ 31 → xfiredb_zalloc (u64 (s32 n)) = replicate (Z.to_nat n) 0.
Proof.
  intros ?. unfold xfiredb_zalloc. rewrite s32_small by lia.
  rewrite u64_small; [done|]. change (2 ^ 64) with 18446744073709551616.
  change (2 ^ 31) with 2147483648 in *. lia.
Qed.

Lemma plain_count l : Exists (λ c, plain c) l ↔ (0 < length (filter plain l))%nat.
Proof.
  rewrite list.Exists_exists. split.
  - intros (c & Hc & Hp).
    assert (c ∈ filter plain l) as Hin by (by apply list_elem_of_filter).
    destruct (filter plain l); [by apply not_elem_of_nil in Hin|simpl; lia].
  - destruct (filter plain l) as [|c l'] eqn:Hf; [simpl; lia|]. intros _.
    exists c. assert (c ∈ filter plain l) as Hin by (rewrite Hf; by left).
    apply list_elem_of_filter in Hin as [? ?]. done.
Qed.

Lemma unescape_nonzero l m :
  unescape l = Some m → Forall (λ c, c ≠ 0) l → Forall (λ c, c ≠ 0) m.
Proof.
  remember (length l) as k eqn:Hk. assert (length l ≤ k)%nat as Hle by lia. clear Hk.
  revert l m Hle. induction k as [|k IH]; intros l m Hle Hm Hl.
  { destruct l; [by injection Hm as <-|simpl in Hle; lia]. }
  destruct l as [|c l]; [by injection Hm as <-|]. simpl in Hle, Hm.
  apply list.Forall_cons in Hl as [Hc Hl]. case_match.
  - destruct l as [|e l]; [done|]. apply fmap_Some in Hm as (m' & Hm' & ->).
    apply list.Forall_cons in Hl as [He Hl]. simpl in Hle.
    constructor; [|apply (IH l); [lia|done..]].
    unfold xfiredb_unescape_char. repeat case_match; done.
  - apply fmap_Some in Hm as (m' & Hm' & ->). constructor; [done|apply (IH l); [lia|done..]].
Qed.

(** The engine's and the client's function on every input of a sane size. *)
Lemma escape_string_with_spec extra s :
  0 ≤ extra ≤ 1 → nul_free s → strlen s < 2 ^ 30 →
  escape_string_with extra s =
    if decide (Exists (λ c, plain c) (bytes s))
    then Done (escape (bytes s) ++ replicate (Z.to_nat extra) 0) else Stuck.
Proof.
  intros Hextra Hnul Hlen. unfold escape_string_with.
  assert (0 ≤ strlen s) by (unfold strlen; lia).
  rewrite (s32_small (strlen s)), zalloc_small by lia.
  pose proof (length_escape_bound (bytes s)) as Hb. rewrite length_bytes in Hb.
  assert (Z.to_nat (strlen s * 2) = (2 * String.length s)%nat) as -> by (unfold strlen; lia).
  pose proof (escape_loop_spec (bytes s) [] (2 * String.length s)) as Hloop.
  rewrite decide_True in Hloop by lia. cbn [app length Nat.add] in Hloop.
  rewrite Hloop, bind_Done.
  rewrite finish_string_spec by (done || by apply escape_nonzero).
  destruct (plain_count (bytes s)) as [Hc1 Hc2].
  case_decide as Hroom; case_decide as Hd; try done; exfalso.
  - apply Hd, Hc2. lia.
  - specialize (Hc1 ltac:(assumption)). lia.
Qed.

Lemma unescape_string_with_spec extra s m :
  0 ≤ extra ≤ 1 → nul_free s → strlen s < 2 ^ 30 → unescape (bytes s) = Some m →
  unescape_string_with extra s =
    if decide (BACKSLASH ∈ bytes s)
    then Done (m ++ replicate (Z.to_nat extra) 0) else Stuck.
Proof.
  intros Hextra Hnul Hlen Hm. unfold unescape_string_with, cstr_region.
  assert (0 ≤ strlen s) by (unfold strlen; lia).
  rewrite zalloc_small by lia.
  assert (Z.to_nat (strlen s) = length (bytes s)) as -> by (rewrite length_bytes; unfold strlen; lia).
  destruct (unescape_length (bytes s) m Hm) as (Hle & Hin & Hnotin).
  pose proof (unescape_loop_spec (bytes s) m [] (length (bytes s)) Hnul Hm Hle) as Hloop.
  cbn [app length Nat.add] in Hloop. rewrite Hloop, bind_Done.
  rewrite finish_string_spec by (done || by eapply unescape_nonzero).
  case_decide as Hroom; case_decide as Hd; try done; exfalso.
  - rewrite Hnotin in * by done. lia.
  - specialize (Hin ltac:(assumption)). lia.
Qed.

(** The string a byte list spells. *)
Fixpoint of_bytes (l : list Z) : string :=
  match l with
  | [] => EmptyString
  | c :: l' => String (Ascii.ascii_of_N (Z.to_N c)) (of_bytes l')
  end.

Lemma bytes_of_bytes l : Forall (λ c, 0 ≤ c < 256) l → bytes (of_bytes l) = l.
Proof.
  induction 1 as [|c l Hc Hl IH]; simpl; [done|].
  rewrite Ascii.N_ascii_embedding by lia. rewrite IH. f_equal. lia.
Qed.

Lemma escape_range l : Forall (λ c, 0 ≤ c < 256) l → Forall (λ c, 0 ≤ c < 256) (escape l).
Proof.
  induction 1 as [|c l Hc Hl IH]; [constructor|].
  rewrite escape_cons. apply list.Forall_app. split; [|done]. unfold escape1.
  destruct (escape_code c) as [e|] eqn:He; repeat constructor; try done; try lia.
  all: unfold escape_code in He; repeat (case_match; [injection He as <-; done|]); done.
Qed.

Lemma escape_backslash l c : c ∈ l → escape_code c ≠ None → BACKSLASH ∈ escape l.
Proof.
  induction l as [|d l IH]; [by intros ?%not_elem_of_nil|].
  rewrite escape_cons. intros [->|Hin]%elem_of_cons Hc; apply elem_of_app.
  - left. unfold escape1. destruct (escape_code d); [by left|done].
  - right. by apply IH.
Qed.

(** ** Properties *)

(** Escaping round-trips: the client library's unescape, applied to the
    string its escape returns, gives back the original, for every string that
    has a character to escape and one that needs no escape. *)
Lemma client_escape_roundtrip s c d :
  nul_free s → strlen s < 2 ^ 29 →
  c ∈ bytes s → escape_code c ≠ None → d ∈ bytes s → escape_code d = None →
  ∃ r e r', client_escape_string s = Done r ∧ region_cstr r = Done (bytes e) ∧
    client_unescape_string e = Done r' ∧ region_cstr r' = Done (bytes s).
Proof.
  intros Hnul Hlen Hc Hcc Hd Hdc.
  pose proof (escape_range (bytes s) (bytes_range s)) as Hrange.
  pose proof (escape_nonzero (bytes s) Hnul) as Hnz.
  set (e := of_bytes (escape (bytes s))).
  assert (bytes e = escape (bytes s)) as He by by apply bytes_of_bytes.
  assert (strlen e < 2 ^ 30).
  { unfold strlen in *. rewrite <-length_bytes, He. rewrite <-length_bytes in Hlen.
    pose proof (length_escape_bound (bytes s)). change (2 ^ 30) with (2 * 2 ^ 29). lia. }
  exists (escape (bytes s) ++ [0]), e, (bytes s ++ [0]). split_and!.
  - unfold client_escape_string. rewrite escape_string_with_spec by (done || lia).
    rewrite decide_True; [done|]. apply list.Exists_exists. exists d. split; [done|].
    unfold plain. by apply bool_decide_pack.
  - rewrite He. by apply region_cstr_app.
  - unfold client_unescape_string.
    rewrite (unescape_string_with_spec 1 e (bytes s)); [|done|by unfold nul_free; rewrite He|done|].
    + rewrite decide_True; [done|]. rewrite He. exact (escape_backslash _ c Hc Hcc).
    + rewrite He. apply unescape_escape.
  - by apply region_cstr_app.
Qed.

Lemma client_escape_roundtrip_witness :
  ∃ r e r', client_escape_string "I'm" = Done r ∧ region_cstr r = Done (bytes e) ∧
    client_unescape_string e = Done r' ∧ region_cstr r' = Done (bytes "I'm").
Proof.
  apply (client_escape_roundtrip "I'm" 39 73).
  - repeat constructor; discriminate.
  - reflexivity.
  - right. left.
  - discriminate.
  - left.
  - reflexivity.
Defined.

(** C39: memory safety of [xfiredb_escape_string], in the engine and in the
    client: the buffer of twice the length is overrun, by the terminator, exactly
    when every character is escaped, the empty string included. *)
Theorem escape_string_safe s :
  nul_free s → strlen s < 2 ^ 30 →
  (xfiredb_escape_string s = Stuck ↔ Forall (λ c, escape_code c ≠ None) (bytes s)) ∧
  (client_escape_string s = Stuck ↔ Forall (λ c, escape_code c ≠ None) (bytes s)).
Proof.
  intros Hnul Hlen. unfold xfiredb_escape_string, client_escape_string.
  rewrite !escape_string_with_spec by (done || lia).
  assert (Forall (λ c, escape_code c ≠ None) (bytes s) ↔ ¬ Exists (λ c, plain c) (bytes s)) as ->.
  { rewrite <-Forall_Exists_neg, !list.Forall_forall. unfold plain.
    setoid_rewrite bool_decide_spec. done. }
  case_decide; split; split; done.
Qed.

Lemma escape_string_safe_witness : xfiredb_escape_string "'" = Stuck.
Proof.
  apply (escape_string_safe "'"); [repeat constructor; discriminate|reflexivity|].
  repeat constructor; discriminate.
Defined.

(** The region the engine's [xfiredb_escape_string] returns has no
    terminator: the final [realloc] keeps [strlen] bytes, so it holds the escaped
    text but is not a C string, where the client's copy of the function keeps
    one byte more and is. *)
Lemma escape_string_terminator s :
  nul_free s → strlen s < 2 ^ 30 → Exists (λ c, plain c) (bytes s) →
  (∃ r, xfiredb_escape_string s = Done r ∧ r = escape (bytes s) ∧ region_cstr r = Stuck) ∧
  (∃ r, client_escape_string s = Done r ∧ region_cstr r = Done (escape (bytes s))).
Proof.
  intros Hnul Hlen Hp. unfold xfiredb_escape_string, client_escape_string.
  rewrite !escape_string_with_spec by (done || lia). rewrite !decide_True by done.
  pose proof (escape_nonzero (bytes s) Hnul). split; eexists; (split; [done|]).
  - split; [apply app_nil_r|]. rewrite app_nil_r. by apply region_cstr_unterminated.
  - by apply region_cstr_app.
Qed.

Lemma escape_string_terminator_witness :
  Exists (λ c, plain c) (bytes "ab") ∧ ∃ r, xfiredb_escape_string "ab" = Done r ∧
    r = escape (bytes "ab") ∧ region_cstr r = Stuck.
Proof.
  assert (Exists (λ c, plain c) (bytes "ab")) as H by (apply Exists_cons_hd; exact I).
  split; [exact H|].
  apply (escape_string_terminator "ab"); [repeat constructor; discriminate|reflexivity|exact H].
Defined.

(** [xfiredb_unescape_string] on a well-formed escaped string: it returns
    the unescaped text when there is a backslash in it, and overruns its buffer
    by one byte when there is none. *)
Lemma unescape_string_safe s m :
  nul_free s → strlen s < 2 ^ 30 → unescape (bytes s) = Some m →
  (BACKSLASH ∈ bytes s → xfiredb_unescape_string s = Done m) ∧
  (BACKSLASH ∉ bytes s → xfiredb_unescape_string s = Stuck ∧ client_unescape_string s = Stuck).
Proof.
  intros Hnul Hlen Hm. unfold xfiredb_unescape_string, client_unescape_string.
  rewrite !(unescape_string_with_spec _ s m) by (done || lia).
  split; intros Hb; [rewrite !decide_True by done|rewrite !decide_False by done].
  - by rewrite app_nil_r.
  - done.
Qed.

Lemma unescape_string_safe_witness :
  unescape (bytes "plain") = Some (bytes "plain") ∧ xfiredb_unescape_string "plain" = Stuck.
Proof.
  assert (unescape (bytes "plain") = Some (bytes "plain")) as H by reflexivity.
  split; [exact H|].
  apply (proj2 (unescape_string_safe "plain" (bytes "plain")
    ltac:(repeat constructor; discriminate) ltac:(reflexivity) H)).
  apply (bool_decide_unpack _). vm_compute. exact I.
Defined.
