(* ===== verification/Client.v ===== *)
(** * The client's side of a reply: [clients/c/split.c] and [result.c]

    A reply is a line of sizes and one text per size.  [str_split] takes the line
    apart and [xfiredb_result_parse] turns the texts into results; the texts live in a
    heap of regions.  A failed [assert] ends the process and is [Stuck] here.  [Query]
    reads the reply from the connection. *)
From S2P Require Import Prelude Mem.
Local Open Scope Z_scope.

(** ** Splitting a string *)

(** [count] and the address of the last delimiter, as an offset ([None] is 0). *)
Fixpoint count_delims (delim : Z) (l : list Z) (pos count : Z) (last_comma : option Z) : Z * option Z :=
  match l with
  | [] => (count, last_comma)
  | c :: l =>
      if delim =? c then count_delims delim l (pos + 1) (count + 1) (Some pos)
      else count_delims delim l (pos + 1) count last_comma
  end.

(** [strtok]: the next token and what is left of the string. *)
Fixpoint skip_delims (delim : Z) (l : list Z) : list Z :=
  match l with
  | c :: l' => if c =? delim then skip_delims delim l' else l
  | [] => []
  end.
Fixpoint token (delim : Z) (l : list Z) : list Z * list Z :=
  match l with
  | [] => ([], [])
  | c :: l => if c =? delim then ([], l) else let '(t, rest) := token delim l in (c :: t, rest)
  end.
Definition strtok (delim : Z) (l : list Z) : option (list Z * list Z) :=
  match skip_delims delim l with [] => None | l => Some (token delim l) end.

(** A cell of the result: not assigned, NULL or a string. *)
Inductive cell := Unset | Null | Str (s : list Z).

Fixpoint split_loop (fuel : nat) (delim : Z) (rest : list Z) (result : list cell) (idx : nat)
    : outcome (list cell * nat) :=
  match fuel with
  | O => OutOfFuel
  | S fuel' =>
      match strtok delim rest with
      | None => Done (result, idx)
      | Some (t, rest) =>
          if (idx <? length result)%nat then split_loop fuel' delim rest (<[idx := Str t]> result) (S idx) else Stuck
      end
  end.

Definition str_split (a_str : list Z) (a_delim : Z) : outcome (list cell) :=
  let '(count, last_comma) := count_delims a_delim a_str 0 0 None in
  let trailing := match last_comma with None => true | Some p => p <? Z.of_nat (length a_str) - 1 end in
  let count := count + (if trailing then 1 else 0) + 1 in
  let result := replicate (Z.to_nat count) Unset in
  '(result, idx) ← split_loop (S (length a_str)) a_delim a_str result 0;
  if (Z.of_nat idx =? count - 1) then Done (<[idx := Null]> result) else Stuck.

(** [while( *str++) if( *str == x) rv++;]: the first character is not looked at. *)
Fixpoint count_from (l : list Z) (x rv : Z) : Z :=
  match l with
  | [] => rv
  | c :: l => count_from l x (if c =? x then s32 (rv + 1) else rv)
  end.
Definition str_count_occurences (str : list Z) (x : Z) : Z :=
  match str with [] => 0 | _ :: str => count_from str x 0 end.

(** ** Results *)

Inductive xfiredb_result_type_t := XFIREDB_STRING | XFIREDB_FIXNUM | XFIREDB_STATUS | XFIREDB_BOOL.
#[export] Instance result_type_eq_dec : EqDecision xfiredb_result_type_t.
Proof. solve_decision. Defined.

(** [data] is the union, as a word: an address, a numeral or a boolean. *)
Record xfiredb_result := XResult { x_data : Z; x_type : xfiredb_result_type_t; x_status : Z }.

Definition XFIREDB_RESULT_NIL : Z := 1.
Definition XFIREDB_RESULT_OK : Z := 2.
Definition XFIREDB_RESULT_MSG : Z := 4.
Definition XFIREDB_RESULT_SUCCESS : Z := 8.

(** The memory of the client: the texts of results, by address, and the addresses of
    everything else it has allocated (structures, arrays, buffers). *)
Record cheap := CHeap { c_strs : gmap loc region; c_blocks : gset loc; c_brk : loc }.

Definition alloc_block (h : cheap) : cheap * loc :=
  (CHeap (c_strs h) ({[c_brk h]} ∪ c_blocks h) (c_brk h + 1), c_brk h).
Definition free_block (a : loc) (h : cheap) : outcome cheap :=
  if decide (a ∈ c_blocks h) then Done (CHeap (c_strs h) (c_blocks h ∖ {[a]}) (c_brk h)) else Stuck.
(** [realloc], which may move. *)
Definition realloc_block (a : loc) (h : cheap) : outcome (cheap * loc) :=
  h ← free_block a h; Done (alloc_block h).
Fixpoint alloc_blocks (n : nat) (h : cheap) : cheap * list loc :=
  match n with
  | O => (h, [])
  | S n => let '(h, a) := alloc_block h in let '(h, l) := alloc_blocks n h in (h, a :: l)
  end.

(** What [xfiredb_query] returns: the address of the array that ends with NULL, the
    addresses in it and the structures at them. *)
Record xfiredb_results := Results { rp_array : loc; rp_cells : list loc; rp_results : list xfiredb_result }.

(** Cleared structures. *)
Definition xfiredb_result_alloc (num : Z) (h : cheap) : cheap * xfiredb_results :=
  let '(h, ary) := alloc_block h in
  let '(h, cells) := alloc_blocks (Z.to_nat num) h in
  (h, Results ary cells (replicate (Z.to_nat num) (XResult 0 XFIREDB_STRING 0))).

(** The accessors of [xfiredb.h]. *)
Definition xfiredb_result_status (r : xfiredb_result) : Z :=
  Z.land (x_status r) (Z.lor (Z.lor XFIREDB_RESULT_NIL XFIREDB_RESULT_OK) XFIREDB_RESULT_MSG).
Definition xfiredb_result_success (r : xfiredb_result) : bool :=
  negb (Z.land (x_status r) XFIREDB_RESULT_SUCCESS =? 0).
Definition xfiredb_result_to_bool (r : xfiredb_result) : Z := u8 (x_data r).
Definition xfiredb_result_to_int (r : xfiredb_result) : Z := s64 (x_data r).

Definition is_space (c : Z) : bool := (c =? 32) || ((9 <=? c) && (c <=? 13)).
Definition is_digit (c : Z) : bool := (48 <=? c) && (c <=? 57).
Fixpoint skip_space (l : list Z) : list Z :=
  match l with c :: l' => if is_space c then skip_space l' else l | [] => [] end.
Fixpoint digits (l : list Z) (acc : Z) : Z :=
  match l with c :: l => if is_digit c then digits l (10 * acc + (c - 48)) else acc | [] => acc end.
(** [atoi]: a value that is not an [int] is undefined. *)
Definition atoi (l : list Z) : outcome Z :=
  let v := match skip_space l with
           | c :: l' => if c =? 45 then - digits l' 0 else if c =? 43 then digits l' 0 else digits (c :: l') 0
           | [] => 0
           end in
  if (- 2 ^ 31 <=? v) && (v <? 2 ^ 31) then Done v else Stuck.

Definition c_free (a : loc) (h : cheap) : outcome cheap :=
  match c_strs h !! a with Some _ => Done (CHeap (delete a (c_strs h)) (c_blocks h) (c_brk h)) | None => Stuck end.
Definition c_strdup (l : list Z) (h : cheap) : cheap * loc :=
  (CHeap (<[c_brk h := l ++ [0]]> (c_strs h)) (c_blocks h) (c_brk h + 1), c_brk h).

(** The loop body of [xfiredb_result_parse]. *)
Definition parse_result (h : cheap) (r : xfiredb_result) : outcome (cheap * xfiredb_result) :=
  ptr ← deref (c_strs h !! x_data r);
  c ← deref (head ptr);
  if c =? 43 then
    l ← region_cstr (tail ptr);
    let '(h, tmp) := c_strdup l h in
    h ← c_free (x_data r) h;
    Done (h, XResult tmp XFIREDB_STRING XFIREDB_RESULT_SUCCESS)
  else if c =? 38 then
    l ← region_cstr ptr;
    let numeral := if decide (l = bytes "&true") then 1 else 0 in
    h ← c_free (x_data r) h;
    Done (h, XResult numeral XFIREDB_BOOL XFIREDB_RESULT_SUCCESS)
  else if c =? 37 then
    l ← region_cstr (tail ptr);
    numeral ← atoi l;
    h ← c_free (x_data r) h;
    Done (h, XResult numeral XFIREDB_FIXNUM XFIREDB_RESULT_SUCCESS)
  else
    l ← region_cstr (if c =? 45 then tail ptr else ptr);
    if decide (l = bytes "OK") then
      h ← c_free (x_data r) h;
      Done (h, XResult 0 XFIREDB_STATUS (Z.lor XFIREDB_RESULT_OK XFIREDB_RESULT_SUCCESS))
    else if decide (l = bytes "nil") then
      h ← c_free (x_data r) h;
      Done (h, XResult 0 XFIREDB_STATUS XFIREDB_RESULT_NIL)
    else Done (h, XResult (x_data r) XFIREDB_STATUS XFIREDB_RESULT_MSG).

Fixpoint parse_results (h : cheap) (rp : list xfiredb_result) : outcome (cheap * list xfiredb_result) :=
  match rp with
  | [] => Done (h, [])
  | r :: rp =>
      '(h, r) ← parse_result h r;
      '(h, rp) ← parse_results h rp;
      Done (h, r :: rp)
  end.
Definition xfiredb_result_parse (h : cheap) (rp : xfiredb_results) : outcome (cheap * xfiredb_results) :=
  '(h, rs) ← parse_results h (rp_results rp); Done (h, Results (rp_array rp) (rp_cells rp) rs).

(** Whether [xfiredb_result_free] releases the text of a result. *)
Definition owns_text (r : xfiredb_result) : bool :=
  negb (x_data r =? 0) && ((x_status r =? XFIREDB_RESULT_MSG) || bool_decide (x_type r = XFIREDB_STRING)).
(** Its loop: the text of each result, and its structure; then the array. *)
Fixpoint free_results (h : cheap) (cells : list loc) (p : list xfiredb_result) : outcome cheap :=
  match p with
  | [] => Done h
  | r :: p =>
      a ← deref (head cells);
      h ← (if owns_text r then c_free (x_data r) h else Done h);
      h ← free_block a h;
      free_results h (tail cells) p
  end.
Definition xfiredb_result_free (h : cheap) (p : xfiredb_results) : outcome cheap :=
  h ← free_results h (rp_cells p) (rp_results p); free_block (rp_array p) h.

(** ** The line of sizes *)

Definition join (delim : Z) (toks : list (list Z)) : list Z :=
  match toks with [] => [] | t :: toks => t ++ concat ((λ t, delim :: t) <$> toks) end.
Definition tok_ok (delim : Z) (t : list Z) : Prop := t ≠ [] ∧ delim ∉ t.

Lemma join_cons delim t t' ts : join delim (t :: t' :: ts) = t ++ delim :: join delim (t' :: ts).
Proof. done. Qed.

Lemma count_delims_tok delim t l pos count lc :
  delim ∉ t → count_delims delim (t ++ l) pos count lc = count_delims delim l (pos + Z.of_nat (length t)) count lc.
Proof.
  revert pos. induction t as [|c t IH]; intros pos Ht; cbn [app count_delims length]; [by rewrite Z.add_0_r|].
  apply not_elem_of_cons in Ht as [Hc Ht]. rewrite (proj2 (Z.eqb_neq _ _)) by done. rewrite IH by done. f_equal. lia.
Qed.

Lemma count_delims_join delim toks pos count lc :
  toks ≠ [] → Forall (tok_ok delim) toks →
  ∃ last, count_delims delim (join delim toks) pos count lc = (count + Z.of_nat (length toks) - 1, last) ∧
    ((last = lc ∧ length toks = 1%nat) ∨ ∃ p, last = Some p ∧ p < pos + Z.of_nat (length (join delim toks)) - 1).
Proof.
  intros Hne Hok. revert pos count lc Hne. induction Hok as [|t ts [Ht Hd] Hok IH]; intros pos count lc Hne; [done|].
  destruct ts as [|t' ts].
  - exists lc. cbn [join concat fmap list_fmap length]. rewrite count_delims_tok by done. split; [cbn; f_equal; lia|by left].
  - rewrite join_cons, count_delims_tok by done. cbn [count_delims]. rewrite Z.eqb_refl.
    destruct (IH (pos + Z.of_nat (length t) + 1) (count + 1) (Some (pos + Z.of_nat (length t))) ltac:(done)) as (last & -> & Hlast).
    exists last. split; [f_equal; cbn [length]; lia|]. right. rewrite length_app. cbn [length].
    destruct Hlast as [[-> _]|(p & -> & Hp)]; eexists; (split; [done|]); [|lia].
    assert (length (join delim (t' :: ts)) ≠ 0%nat); [|lia].
    apply list.Forall_cons in Hok as [[Ht' _] _]. cbn [join]. rewrite length_app. destruct t'; [done|simpl; lia].
Qed.

Lemma token_tok delim t l : delim ∉ t → token delim (t ++ delim :: l) = (t, l) ∧ token delim t = (t, []).
Proof.
  induction t as [|c t IH]; intros Ht; cbn [app token]; [by rewrite Z.eqb_refl|].
  apply not_elem_of_cons in Ht as [Hc Ht]. rewrite (proj2 (Z.eqb_neq _ _)) by done. by destruct (IH Ht) as [-> ->].
Qed.

Lemma strtok_join delim t ts :
  tok_ok delim t → strtok delim (join delim (t :: ts)) = Some (t, join delim ts).
Proof.
  intros [Ht Hd]. unfold strtok.
  assert (skip_delims delim (join delim (t :: ts)) = join delim (t :: ts)) as ->.
  { destruct t as [|c t]; [done|]. apply not_elem_of_cons in Hd as [Hc _]. cbn [join app skip_delims].
    by rewrite (proj2 (Z.eqb_neq _ _)). }
  destruct t as [|c t]; [done|]. transitivity (Some (token delim (join delim ((c :: t) :: ts)))); [done|].
  destruct ts as [|t' ts].
  - cbn [join concat fmap list_fmap]. rewrite app_nil_r. by rewrite (proj2 (token_tok delim (c :: t) [] Hd)).
  - rewrite join_cons. rewrite (proj1 (token_tok delim (c :: t) (join delim (t' :: ts)) Hd)). done.
Qed.

Lemma split_loop_join delim toks done fuel :
  Forall (tok_ok delim) toks → (length toks < fuel)%nat →
  split_loop fuel delim (join delim toks) (done ++ replicate (length toks + 1) Unset) (length done) =
    Done (done ++ (Str <$> toks) ++ [Unset], length done + length toks)%nat.
Proof.
  intros Hok. revert done fuel. induction Hok as [|t ts Ht Hok IH]; intros don fuel Hf; (destruct fuel as [|fuel]; [simpl in Hf; lia|]).
  - cbn. by rewrite Nat.add_0_r.
  - change (length (t :: ts) + 1)%nat with (S (length ts + 1)). cbn [split_loop replicate].
    rewrite strtok_join by done. simpl in Hf.
    rewrite (proj2 (Nat.ltb_lt _ _)) by (rewrite length_app; simpl; lia).
    rewrite insert_app_r_alt by lia. rewrite Nat.sub_diag. cbn [insert list_insert].
    specialize (IH (don ++ [Str t]) fuel ltac:(lia)). rewrite <-!app_assoc, length_app in IH. cbn [app length] in IH.
    rewrite <-(Nat.add_1_r (length don)), IH. cbn [fmap list_fmap app]. f_equal. f_equal. cbn [length]. lia.
Qed.

Lemma join_length delim toks : Forall (tok_ok delim) toks → (length toks ≤ length (join delim toks))%nat.
Proof.
  induction 1 as [|t ts [Ht _] _ IH]; [done|]. destruct t as [|c t]; [done|]. destruct ts as [|t' ts]; [simpl; lia|].
  rewrite join_cons, length_app. cbn [length] in *. lia.
Qed.

Lemma count_from_tok delim t l rv : delim ∉ t → count_from (t ++ l) delim rv = count_from l delim rv.
Proof.
  induction t as [|c t IH]; intros Ht; [done|]. apply not_elem_of_cons in Ht as [Hc Ht]. cbn [app count_from].
  rewrite (proj2 (Z.eqb_neq _ _)) by done. by apply IH.
Qed.

Lemma count_from_join delim toks n :
  toks ≠ [] → Forall (tok_ok delim) toks → 0 ≤ n → n + Z.of_nat (length toks) ≤ 2 ^ 31 →
  count_from (join delim toks) delim n = n + Z.of_nat (length toks) - 1.
Proof.
  intros Hne Hok. revert n Hne. induction Hok as [|t ts [Ht Hd] Hok IH]; intros n Hne Hn Hl; [done|].
  destruct ts as [|t' ts]; [cbn [join concat fmap list_fmap length]; rewrite count_from_tok by done; cbn; lia|].
  rewrite join_cons, count_from_tok by done. cbn [count_from]. rewrite Z.eqb_refl.
  cbn [length] in *. rewrite s32_small by lia. rewrite IH by (done || lia). lia.
Qed.

(** The client takes the line of sizes of a reply apart as the server put it
    together.  For tokens that are not empty and do not contain the delimiter,
    [str_split] of the joined line returns exactly these tokens, in order, ended by
    NULL, none of its assertions fails and no cell is written out of bounds; and
    [str_count_occurences] plus one, which is the number of results the client
    allocates, is the number of tokens. *)
Lemma client_split_sizes delim toks :
  toks ≠ [] → Forall (tok_ok delim) toks → Z.of_nat (length toks) ≤ 2 ^ 31 →
  str_split (join delim toks) delim = Done ((Str <$> toks) ++ [Null]) ∧
  str_count_occurences (join delim toks) delim + 1 = Z.of_nat (length toks).
Proof.
  intros Hne Hok Hlen. split.
  - unfold str_split. destruct (count_delims_join delim toks 0 0 None Hne Hok) as (last & -> & Hlast).
    assert ((match last with None => true | Some p => p <? Z.of_nat (length (join delim toks)) - 1 end) = true) as ->.
    { destruct Hlast as [[-> _]|(p & -> & Hp)]; [done|]. apply Z.ltb_lt. lia. }
    replace (0 + Z.of_nat (length toks) - 1 + 1 + 1) with (Z.of_nat (length toks + 1)) by lia. rewrite Nat2Z.id.
    pose proof (split_loop_join delim toks [] (S (length (join delim toks))) Hok) as Hloop. cbn [app length] in Hloop.
    rewrite Hloop by (pose proof (join_length delim toks Hok); lia). rewrite bind_Done. cbn [Nat.add].
    rewrite (proj2 (Z.eqb_eq _ _)) by lia. rewrite insert_app_r_alt by (rewrite length_fmap; lia).
    by rewrite length_fmap, Nat.sub_diag.
  - destruct toks as [|t toks]; [done|]. apply list.Forall_cons in Hok as [[Ht Hd] Hok]. destruct t as [|c t]; [done|].
    cbn [join app str_count_occurences]. apply not_elem_of_cons in Hd as [_ Hd].
    assert (∀ ts, Forall (tok_ok delim) ts → Z.of_nat (length ts) < 2 ^ 31 →
      count_from (concat ((λ t, delim :: t) <$> ts)) delim 0 = Z.of_nat (length ts)) as Hrest.
    { intros [|t' ts] Hts Hl; [done|]. change (count_from (delim :: join delim (t' :: ts)) delim 0 = Z.of_nat (length (t' :: ts))).
      cbn [count_from]. rewrite Z.eqb_refl, s32_small by lia. rewrite count_from_join by (done || (cbn [length] in *; lia)). lia. }
    rewrite count_from_tok by done. rewrite Hrest by (done || (cbn [length] in *; lia)). cbn [length]. lia.
Qed.

Definition no_nul (l : list Z) : Prop := Forall (λ c, c ≠ 0) l.

(** ** Results *)

(** What a text of a reply says: the type and status of the result, and its value, a
    word or a text. *)
Definition decode (l : list Z) : xfiredb_result_type_t * Z * (Z + list Z) :=
  match l with
  | [] => (XFIREDB_STATUS, XFIREDB_RESULT_MSG, inr l)
  | c :: t =>
      if c =? 43 then (XFIREDB_STRING, XFIREDB_RESULT_SUCCESS, inr t)
      else if c =? 38 then (XFIREDB_BOOL, XFIREDB_RESULT_SUCCESS, inl (if decide (l = bytes "&true") then 1 else 0))
      else if c =? 37 then (XFIREDB_FIXNUM, XFIREDB_RESULT_SUCCESS, inl match atoi t with Done n => n | _ => 0 end)
      else
        let t := if c =? 45 then t else l in
        if decide (t = bytes "OK") then (XFIREDB_STATUS, 10, inl 0)
        else if decide (t = bytes "nil") then (XFIREDB_STATUS, XFIREDB_RESULT_NIL, inl 0)
        else (XFIREDB_STATUS, XFIREDB_RESULT_MSG, inr l)
  end.

(** Results that point to texts, as they are before parsing. *)
Definition with_texts (addrs : list loc) : list xfiredb_result := (λ a, XResult a XFIREDB_STRING 0) <$> addrs.

(** The results show the texts [ls], in the strings [K], one for each text result. *)
Inductive shown : list xfiredb_result → list (list Z) → gmap loc region → Prop :=
  | shown_nil : shown [] [] ∅
  | shown_word r rs l ls K :
      decode l = (x_type r, x_status r, inl (x_data r)) → shown rs ls K → shown (r :: rs) (l :: ls) K
  | shown_text r rs l ls K t x :
      decode l = (x_type r, x_status r, inr t) → x_data r ≠ 0 → K !! x_data r = None → shown rs ls K →
      shown (r :: rs) (l :: ls) (<[x_data r := t ++ 0 :: x]> K).

(** The texts the client can read: C strings that are not empty, with an [int] after
    a per cent sign. *)
Definition text_ok (l : list Z) : Prop := l ≠ [] ∧ no_nul l ∧ ∀ t, l = 37 :: t → ∃ n, atoi t = Done n.

Definition below (h : cheap) : Prop :=
  0 < c_brk h ∧ (∀ a, is_Some (c_strs h !! a) → a < c_brk h) ∧ ∀ a, a ∈ c_blocks h → a < c_brk h.

(** Between [h] and [h'] the blocks [X] were allocated and not released. *)
Record kept (h h' : cheap) (X : gset loc) : Prop := {
  kp_blocks : c_blocks h' = X ∪ c_blocks h;
  kp_new : ∀ a, a ∈ X → c_brk h ≤ a;
  kp_brk : c_brk h ≤ c_brk h' }.

Lemma kept_refl h : kept h h ∅.
Proof. split; [by rewrite union_empty_l_L|set_solver|done]. Qed.

Lemma kept_old h h' X a : below h → kept h h' X → a ∈ X → a ∉ c_blocks h.
Proof. intros (_ & _ & Hb) Hk Ha Hin. pose proof (kp_new _ _ _ Hk a Ha). specialize (Hb a Hin). lia. Qed.

Lemma kept_trans h h1 h2 X Y : below h1 → kept h h1 X → kept h1 h2 Y → kept h h2 (Y ∪ X) ∧ X ## Y.
Proof.
  intros Hb K1 K2. pose proof K1 as [H1 H2 H3]. pose proof K2 as [H4 H5 H6]. split.
  - split; [rewrite H4, H1; set_solver|intros a [Ha|Ha]%elem_of_union|lia].
    + specialize (H5 a Ha). lia.
    + by apply H2.
  - intros a Ha Ha'. destruct (kept_old h1 h2 Y a Hb K2 Ha'). rewrite H1. set_solver.
Qed.

(** Steps that change neither the blocks nor the next address downwards. *)
Lemma kept_same h h1 h2 X : kept h h1 X → c_blocks h2 = c_blocks h1 → c_brk h1 ≤ c_brk h2 → kept h h2 X.
Proof. intros [H1 H2 H3] Hb Hk. split; [congruence|done|lia]. Qed.

Lemma alloc_block_run h : below h →
  ∃ h' a, alloc_block h = (h', a) ∧ below h' ∧ c_strs h' = c_strs h ∧ kept h h' {[a]} ∧ a = c_brk h.
Proof.
  intros (H0 & H1 & H2). eexists _, _. split; [done|]. split_and!; [|done| |done].
  - split; [cbn; lia|]. split; cbn; [intros a Ha; specialize (H1 a Ha); lia|].
    intros a [->%elem_of_singleton|Ha]%elem_of_union; [lia|specialize (H2 a Ha); lia].
  - split; cbn; [done|set_solver by lia|lia].
Qed.

Lemma free_block_run h h1 X a : below h → below h1 → kept h h1 X → a ∈ X →
  ∃ h2, free_block a h1 = Done h2 ∧ below h2 ∧ c_strs h2 = c_strs h1 ∧ kept h h2 (X ∖ {[a]}) ∧ c_brk h2 = c_brk h1.
Proof.
  intros Hb (H0 & H1 & H2) Hk Ha. pose proof (kept_old _ _ _ a Hb Hk Ha) as Hold. destruct Hk as [K1 K2 K3].
  unfold free_block. rewrite decide_True by (rewrite K1; set_solver). eexists. split; [done|]. split_and!; [|done| |done].
  - split; [done|]. split; [done|]. cbn. set_solver.
  - split; cbn; [rewrite K1; set_solver|set_solver|done].
Qed.

Lemma alloc_blocks_run n h : below h →
  ∃ h' l, alloc_blocks n h = (h', l) ∧ below h' ∧ c_strs h' = c_strs h ∧ kept h h' (list_to_set l) ∧ NoDup l ∧ length l = n.
Proof.
  revert h. induction n as [|n IH]; intros h Hb.
  - exists h, []. split_and!; [done..|apply kept_refl|constructor|done].
  - cbn [alloc_blocks]. destruct (alloc_block_run h Hb) as (h1 & a & -> & Hb1 & Hs1 & K1 & Ha).
    destruct (IH h1 Hb1) as (h2 & l & -> & Hb2 & Hs2 & K2 & Hnd & Hl). exists h2, (a :: l).
    destruct (kept_trans _ _ _ _ _ Hb1 K1 K2) as [K3 Hd]. split_and!; [done|done|congruence| | |cbn; lia].
    + cbn. by rewrite union_comm_L.
    + apply list.NoDup_cons. split; [|done]. intros Hin. apply (Hd a); [by apply elem_of_singleton|by apply elem_of_list_to_set].
Qed.

Lemma c_free_run a h reg :
  c_strs h !! a = Some reg → c_free a h = Done (CHeap (delete a (c_strs h)) (c_blocks h) (c_brk h)).
Proof. intros Ha. unfold c_free. by rewrite Ha. Qed.

(** One result: its text stays, is replaced by a copy without its first character, or
    goes. *)
Lemma parse_result_run h a ty st l x :
  c_strs h !! a = Some (l ++ 0 :: x) → a ≠ 0 → below h → text_ok l →
  ∃ h' r, parse_result h (XResult a ty st) = Done (h', r) ∧ below h' ∧ c_blocks h' = c_blocks h ∧ c_brk h ≤ c_brk h' ∧
    match (decode l).2 with
    | inl z => decode l = (x_type r, x_status r, inl (x_data r)) ∧ c_strs h' = delete a (c_strs h)
    | inr t => decode l = (x_type r, x_status r, inr t) ∧ x_data r ≠ 0 ∧ (x_data r = a ∨ c_strs h !! x_data r = None) ∧
        ∃ y, c_strs h' = <[x_data r := t ++ 0 :: y]> (delete a (c_strs h))
    end.
Proof.
  intros Ha Hnz (Hb & Hbelow & Hblocks) (Hne & Hn & Hint). unfold parse_result. cbn [x_data]. rewrite Ha. cbn [deref]. rewrite bind_Done.
  destruct l as [|c t]; [done|]. cbn [app head tail deref]. rewrite bind_Done. pose proof Hn as [Hc Ht]%list.Forall_cons.
  assert (∀ h1, c_strs h1 = delete a (c_strs h) → c_blocks h1 = c_blocks h → c_brk h1 = c_brk h → below h1) as Hdel.
  { intros h1 H1 H2 H3. split; [by rewrite H3|]. split; [|by rewrite H2, H3].
    rewrite H1, H3. intros z [y [_ Hz]%lookup_delete_Some]. apply Hbelow. by eexists. }
  assert (region_cstr (c :: t ++ 0 :: x) = Done (c :: t)) as Hall by exact (region_cstr_app (c :: t) x Hn).
  pose proof (region_cstr_app t x Ht) as Htl. pose proof (c_free_run _ _ _ Ha) as Hfree.
  cbn [decode]. destruct (Z.eqb_spec c 43) as [->|H43]; [|destruct (Z.eqb_spec c 38) as [->|H38]; [|destruct (Z.eqb_spec c 37) as [->|H37]]].
  - rewrite Htl, bind_Done. cbn [c_strdup]. assert (a < c_brk h) as Hlt by (apply Hbelow; by eexists).
    erewrite c_free_run by (cbn [c_strs]; rewrite lookup_insert_ne by lia; exact Ha). rewrite bind_Done.
    eexists _, _. split; [done|]. cbn [snd x_type x_status x_data c_strs c_brk]. split; [|split_and!; [done|lia|done|lia| |]].
    + split; cbn [c_strs c_brk c_blocks]; [lia|]. split; [|intros z Hz; specialize (Hblocks z Hz); lia]. intros z [y [_ [[<- _]|[_ Hz]]%lookup_insert_Some]%lookup_delete_Some]; [lia|].
      assert (z < c_brk h) by (apply Hbelow; by eexists). lia.
    + right. destruct (c_strs h !! c_brk h) eqn:E; [|done]. assert (c_brk h < c_brk h) by (apply Hbelow; by eexists). lia.
    + exists []. by rewrite delete_insert_ne by lia.
  - rewrite Hall, bind_Done, Hfree, bind_Done. eexists _, _. split; [done|]. by split; [apply Hdel|split_and!].
  - destruct (Hint t eq_refl) as [n En]. rewrite Htl, bind_Done, En, bind_Done, Hfree, bind_Done. eexists _, _. split; [done|].
    by split; [apply Hdel|split_and!].
  - assert (region_cstr (if c =? 45 then t ++ 0 :: x else c :: t ++ 0 :: x) = Done (if c =? 45 then t else c :: t)) as ->
      by by destruct (c =? 45).
    rewrite bind_Done. destruct (decide (_ = bytes "OK")); [|destruct (decide (_ = bytes "nil"))].
    + rewrite Hfree, bind_Done. eexists _, _. split; [done|]. by split; [apply Hdel|split_and!].
    + rewrite Hfree, bind_Done. eexists _, _. split; [done|]. by split; [apply Hdel|split_and!].
    + eexists _, _. split; [done|]. split; [done|]. cbn [snd x_type x_status x_data]. split_and!; [done|done|done|done|by left|].
      exists x. by rewrite insert_delete_eq, insert_id.
Qed.

Lemma decode_owns r l v :
  decode l = (x_type r, x_status r, v) → owns_text r = negb (x_data r =? 0) && match v with inl _ => false | inr _ => true end.
Proof.
  unfold owns_text, decode. destruct r as [d ty st]. cbn [x_data x_type x_status]. intros H. f_equal.
  destruct l as [|c t]; [by injection H as <- <- <-|].
  repeat (case_match; try (by injection H as <- <- <-)).
Qed.

Lemma parse_results_run (h : cheap) K addrs ls :
  Forall2 (λ a l, (∃ x, K !! a = Some (l ++ 0 :: x)) ∧ a ≠ 0) addrs ls → NoDup addrs → below h → Forall text_ok ls →
  ∀ K0, c_strs h = K0 ∪ K → K0 ##ₘ K → dom K = list_to_set addrs →
  ∃ h' rs K', parse_results h (with_texts addrs) = Done (h', rs) ∧ shown rs ls K' ∧
    K0 ##ₘ K' ∧ c_strs h' = K0 ∪ K' ∧ below h' ∧ c_blocks h' = c_blocks h ∧ c_brk h ≤ c_brk h'.
Proof.
  intros Hall Hnd Hb Hok. revert h K Hall Hb. revert addrs Hnd. induction Hok as [|l ls Hl Hok IH]; intros addrs Hnd h K Hall Hb K0 Hh Hd Hdom.
  - apply Forall2_nil_inv_r in Hall as ->. exists h, [], ∅. split; [done|]. split; [constructor|].
    assert (K = ∅) as -> by (apply dom_empty_inv_L; by rewrite Hdom). split_and!; [apply map_disjoint_empty_r|done..].
  - apply Forall2_cons_inv_r in Hall as (a & addrs' & [[x Ha] Hnz] & Hall & ->). apply list.NoDup_cons in Hnd as [Hna Hnd].
    assert (K0 !! a = None) as Ha0 by (by eapply map_disjoint_Some_r).
    assert (c_strs h !! a = Some (l ++ 0 :: x)) as Hha by (rewrite Hh; by rewrite lookup_union_r).
    cbn [with_texts fmap list_fmap parse_results].
    destruct (parse_result_run h a XFIREDB_STRING 0 l x Hha Hnz Hb Hl) as (h1 & r & -> & Hb1 & Hbl1 & Hbk1 & Hcase). rewrite bind_Done.
    assert (delete a (K0 ∪ K) = K0 ∪ delete a K) as Hdel by (rewrite delete_union; f_equal; by apply delete_id).
    assert (Forall2 (λ z l, (∃ y, delete a K !! z = Some (l ++ 0 :: y)) ∧ z ≠ 0) addrs' ls) as Hall'.
    { apply Forall2_same_length_lookup_2; [by eapply list.Forall2_length|]. intros i z y Hx Hy.
      destruct (Forall2_lookup_lr _ _ _ _ _ _ Hall Hx Hy) as [[w ?] ?]. rewrite lookup_delete_ne; [split; [by exists w|done]|].
      intros <-. apply Hna. by eapply list_elem_of_lookup_2. }
    assert (dom (delete a K) = list_to_set addrs') as Hdom'.
    { rewrite dom_delete_L, Hdom. cbn [list_to_set]. set_solver. }
    destruct (decode l) as [[ty st] [z|t]] eqn:Hdec; cbn [snd] in Hcase.
    + destruct Hcase as [Heq Hh1]. rewrite Hh, Hdel in Hh1.
      destruct (IH addrs' Hnd h1 (delete a K) Hall' Hb1 K0 Hh1) as (h2 & rs & K' & E & Hs & Hd' & Hh2 & Hb2 & Hbl2 & Hbk2); [by apply map_disjoint_delete_r|done|].
      unfold with_texts in E. rewrite E, bind_Done. exists h2, (r :: rs), K'. split; [done|].
      split; [constructor; [by rewrite Hdec|done]|]. split_and!; [done..|congruence|lia].
    + destruct Hcase as (Heq & Hrnz & Hr & y & Hh1). rewrite Hh, Hdel in Hh1.
      assert (K0 !! x_data r = None ∧ delete a K !! x_data r = None) as [Hr0 HrK].
      { destruct Hr as [->|Hr]; [split; [done|apply lookup_delete_eq]|]. rewrite Hh in Hr. apply lookup_union_None in Hr as [? Hr].
        split; [done|]. apply lookup_delete_None. by right. }
      rewrite insert_union_l in Hh1.
      destruct (IH addrs' Hnd h1 (delete a K) Hall' Hb1 _ Hh1) as (h2 & rs & K' & E & Hs & Hd' & Hh2 & Hb2 & Hbl2 & Hbk2);
        [by apply map_disjoint_insert_l_2, map_disjoint_delete_r|done|].
      apply map_disjoint_insert_l in Hd' as [HrK' Hd'].
      unfold with_texts in E. rewrite E, bind_Done. exists h2, (r :: rs), (<[x_data r := t ++ 0 :: y]> K'). split; [done|].
      split; [constructor; [by rewrite Hdec|done..]|]. split; [by apply map_disjoint_insert_r|].
      split_and!; [|done|congruence|lia]. rewrite Hh2. by rewrite <-insert_union_l, insert_union_r.
Qed.

(** Since [h0], the array and the structures of the results were allocated, each once, and
    the blocks [X]. *)
Record holds (h0 h : cheap) (rp : xfiredb_results) (X : gset loc) : Prop := {
  hl_kept : kept h0 h ({[rp_array rp]} ∪ list_to_set (rp_cells rp) ∪ X);
  hl_nodup : NoDup (rp_array rp :: rp_cells rp);
  hl_apart : ∀ a, a ∈ rp_array rp :: rp_cells rp → a ∉ X;
  hl_length : length (rp_cells rp) = length (rp_results rp) }.

Lemma free_cells_run h0 h rs ls K cells X :
  shown rs ls K → ∀ K0, c_strs h = K0 ∪ K → K0 ##ₘ K → below h0 → below h →
  kept h0 h (list_to_set cells ∪ X) → NoDup cells → (∀ a, a ∈ cells → a ∉ X) → length cells = length rs →
  ∃ h', free_results h cells rs = Done h' ∧ c_strs h' = K0 ∧ kept h0 h' X ∧ below h'.
Proof.
  intros Hs K0 Hh H0 Hb0. revert h cells Hh H0.
  assert (∀ h a cells, below h → kept h0 h (list_to_set (a :: cells) ∪ X) → NoDup (a :: cells) → (∀ z, z ∈ a :: cells → z ∉ X) →
    ∃ h', free_block a h = Done h' ∧ below h' ∧ c_strs h' = c_strs h ∧ kept h0 h' (list_to_set cells ∪ X)) as Hfree.
  { intros h a cells Hb Hk [Hn Hnd]%list.NoDup_cons HX. destruct (free_block_run h0 h _ a Hb0 Hb Hk) as (h' & E & Hb' & Hs' & Hk' & _); [set_solver|].
    exists h'. split_and!; [done..|].
    by replace (list_to_set cells ∪ X) with ((list_to_set (a :: cells) ∪ X) ∖ {[a]}) by (specialize (HX a ltac:(by left)); cbn; set_solver). }
  induction Hs as [|r rs l ls K Hd Hs IH|r rs l ls K t x Hd Hnz Hk Hs IH]; intros h cells Hh H0 Hb Hkept Hnd HX Hlen;
    (destruct cells as [|a cells]; cbn [length] in Hlen; try lia); cbn [free_results].
  - exists h. rewrite Hh, map_union_empty. split_and!; try done. cbn in Hkept. by rewrite union_empty_l_L in Hkept.
  - cbn [head tail deref]. rewrite bind_Done, (decode_owns r l _ Hd), andb_false_r, bind_Done.
    destruct (Hfree h a cells Hb Hkept Hnd HX) as (h1 & -> & Hb1 & Hs1 & Hk1). rewrite bind_Done.
    apply list.NoDup_cons in Hnd as [_ Hnd]. apply IH; [congruence|done..| |lia]. intros z Hz. apply HX. by right.
  - cbn [head tail deref]. rewrite bind_Done, (decode_owns r l _ Hd), (proj2 (Z.eqb_neq _ _) Hnz). cbn [negb andb].
    apply map_disjoint_insert_r in H0 as [Hn0 H0].
    erewrite c_free_run by (rewrite Hh, lookup_union_r by done; apply lookup_insert_eq). rewrite bind_Done.
    set (h1 := CHeap _ _ _). assert (below h1) as Hb1.
    { destruct Hb as (B1 & B2 & B3). split; [done|]. split; [|done]. intros z [y Hy]. cbn in Hy. apply lookup_delete_Some in Hy as [_ Hy]. apply B2. by eexists. }
    destruct (Hfree h1 a cells Hb1) as (h2 & -> & Hb2 & Hs2 & Hk2); [by eapply kept_same; [exact Hkept|..]|done..|]. rewrite bind_Done.
    apply list.NoDup_cons in Hnd as [_ Hnd]. apply IH; [|done..| |lia].
    + rewrite Hs2. unfold h1. cbn [c_strs]. rewrite Hh, delete_union, delete_insert_id by done. f_equal. by apply delete_id.
    + intros z Hz. apply HX. by right.
Qed.

Lemma free_results_run h0 h rp ls K X :
  shown (rp_results rp) ls K → ∀ K0, c_strs h = K0 ∪ K → K0 ##ₘ K → below h0 → below h → holds h0 h rp X →
  ∃ h', xfiredb_result_free h rp = Done h' ∧ c_strs h' = K0 ∧ kept h0 h' X ∧ below h'.
Proof.
  intros Hs K0 Hh H0 Hb0 Hb [Hk Hnd HX Hl]. unfold xfiredb_result_free. apply list.NoDup_cons in Hnd as [Hna Hnd].
  destruct (free_cells_run h0 h _ ls K (rp_cells rp) ({[rp_array rp]} ∪ X) Hs K0 Hh H0 Hb0 Hb) as (h1 & -> & Hs1 & Hk1 & Hb1); [|done| |done|].
  { by replace (list_to_set (rp_cells rp) ∪ ({[rp_array rp]} ∪ X)) with ({[rp_array rp]} ∪ list_to_set (rp_cells rp) ∪ X) by set_solver. }
  { intros a Ha [->%elem_of_singleton|Hin]%elem_of_union; [done|]. by apply (HX a); [right|]. }
  rewrite bind_Done. destruct (free_block_run h0 h1 _ (rp_array rp) Hb0 Hb1 Hk1) as (h2 & -> & Hb2 & Hs2 & Hk2 & _); [set_solver|].
  exists h2. split_and!; [done|congruence| |done].
  by replace (({[rp_array rp]} ∪ X) ∖ {[rp_array rp]}) with X in Hk2 by (specialize (HX (rp_array rp) ltac:(by left)); set_solver).
Qed.

(** A reply becomes results, and freeing them releases everything.  For the texts
    of a reply, each in a string of its own, [xfiredb_result_parse] does not fault and
    gives one result for each text, with the type, the status and the word or text
    that [decode] reads in it; exactly the texts that results show stay allocated, and
    [xfiredb_result_free] releases each of them once, the structures and the array, and
    nothing else. *)
Lemma client_results (h0 h : cheap) addrs ls ary cells :
  below h0 → below h → NoDup addrs → dom (c_strs h) = list_to_set addrs → Forall text_ok ls →
  Forall2 (λ a l, (∃ x, c_strs h !! a = Some (l ++ 0 :: x)) ∧ a ≠ 0) addrs ls →
  holds h0 h (Results ary cells (with_texts addrs)) ∅ →
  ∃ h' rp h'', xfiredb_result_parse h (Results ary cells (with_texts addrs)) = Done (h', rp) ∧ shown (rp_results rp) ls (c_strs h') ∧
    xfiredb_result_free h' rp = Done h'' ∧ c_strs h'' = ∅ ∧ c_blocks h'' = c_blocks h0.
Proof.
  intros Hb0 Hb Hnd Hdom Hok Hall [H1 H2 H3 H4]. cbn [rp_array rp_cells rp_results] in *.
  destruct (parse_results_run h (c_strs h) addrs ls Hall Hnd Hb Hok ∅) as (h' & rs & K' & E & Hs & _ & Hh' & Hb' & Hbl & Hbk);
    [by rewrite map_empty_union|apply map_disjoint_empty_l|done|].
  rewrite map_empty_union in Hh'.
  assert (length rs = length ls) as Hl by (clear -Hs; induction Hs; cbn; congruence).
  destruct (free_results_run h0 h' (Results ary cells rs) ls K' ∅ Hs ∅) as (h'' & E' & He & Hk & _); try done;
    [by rewrite map_empty_union|apply map_disjoint_empty_l| |].
  { split; cbn [rp_array rp_cells rp_results]; [by eapply kept_same|done..|].
    rewrite H4, Hl. unfold with_texts. rewrite length_fmap. by eapply list.Forall2_length. }
  exists h', (Results ary cells rs), h''. unfold xfiredb_result_parse. cbn [rp_results rp_array rp_cells]. rewrite E, bind_Done, Hh'.
  split_and!; try done. rewrite (kp_blocks _ _ _ Hk). by rewrite union_empty_l_L.
Qed.

(** ** Runs *)

Lemma client_split_sizes_witness :
  str_split (bytes "4 12 7") 32 = Done [Str (bytes "4"); Str (bytes "12"); Str (bytes "7"); Null] ∧
  str_count_occurences (bytes "4 12 7") 32 + 1 = 3.
Proof.
  apply (client_split_sizes 32 [bytes "4"; bytes "12"; bytes "7"]); [done| |done].
  repeat (constructor; [split; [done|decide_by_compute]|]). constructor.
Defined.

Definition reply1 : list (list Z) := [bytes "+hello"; bytes "%42"; bytes "-nil"; bytes "-no such key"; bytes "&true"].
Definition heap0 : cheap := CHeap ∅ ∅ 1.
Definition heap1 : cheap :=
  CHeap (list_to_map (zip [1; 2; 3; 4; 5] ((λ l, l ++ [0]) <$> reply1))) {[6; 7; 8; 9; 10; 11]} 12.

Lemma client_results_witness :
  ∃ h' rp h'', xfiredb_result_parse heap1 (Results 6 [7; 8; 9; 10; 11] (with_texts [1; 2; 3; 4; 5])) = Done (h', rp) ∧
    shown (rp_results rp) reply1 (c_strs h') ∧ xfiredb_result_free h' rp = Done h'' ∧ c_strs h'' = ∅ ∧ c_blocks h'' = ∅.
Proof.
  apply (client_results heap0 heap1 [1; 2; 3; 4; 5] reply1).
  - split; [done|]. split; [by intros a [? ?]|set_solver].
  - split; [done|]. split.
    + intros a [reg Ha%elem_of_list_to_map_2]. apply elem_of_zip_l in Ha. revert a Ha.
      apply (list.Forall_forall (λ a, a < 12)). repeat constructor.
    + intros a Ha. cbn in Ha. set_solver by lia.
  - decide_by_compute.
  - vm_compute. reflexivity.
  - repeat (constructor; [split; [done|split; [decide_by_compute|intros t Ht; try discriminate; injection Ht as <-; by exists 42]]|]). constructor.
  - repeat (constructor; [split; [exists []; vm_compute; reflexivity|done]|]). constructor.
  - split; cbn [rp_array rp_cells rp_results].
    + split; [vm_compute; reflexivity|intros a Ha; cbn in *; set_solver by lia|cbn; lia].
    + decide_by_compute.
    + set_solver.
    + done.
Defined.
