(* ===== verification/Stream.v ===== *)
(** * Connections of the client

    [recv] and [send] of the C library and [SSL_read] and [SSL_write] of OpenSSL are
    not code of the program: they are the operations of a class [Stream], and
    [StreamLaws] states what their documentation promises.  [xfiredb_client] is the
    structure of [clients/c/include/xfiredb/xfiredb.h], over one type of sockets and
    one of SSL handles.  [conn] is a stream that keeps the laws, with a schedule of
    short reads and failures. *)
From S2P Require Import Prelude Mem.
Local Open Scope Z_scope.

(** ** Streams

    [st_read s size] gives the next state, the result of the call and the bytes that
    were stored; [st_write s l] the next state and the result.  [st_input] is what the
    peer will have sent, [st_output] what was written so far: no part of the program. *)
Class Stream (C : Type) := {
  st_read : C → Z → C * Z * list Z;
  st_write : C → list Z → C * Z;
  st_input : C → list Z;
  st_output : C → list Z }.

(** A read fails or returns a prefix, not empty, of what is to come; a write takes a
    prefix of what it is given. *)
Class StreamLaws (C : Type) `{Stream C} := {
  st_read_law s size s' num l : 0 ≤ size → st_read s size = (s', num, l) →
    (num ≤ 0 ∧ l = []) ∨ (0 < num ≤ size ∧ Z.of_nat (length l) = num ∧ st_input s = l ++ st_input s');
  st_read_output s size : st_output (st_read s size).1.1 = st_output s;
  st_write_law s l : (st_write s l).2 ≤ Z.of_nat (length l) ∧
    st_output (st_write s l).1 = st_output s ++ take (Z.to_nat (st_write s l).2) l }.

(** Reads that do not fail while there is input, and reads that are not short either;
    writes that take everything. *)
Definition st_live (C : Type) `{Stream C} : Prop :=
  ∀ s size, 0 < size → st_input s ≠ [] → 0 < (st_read (C := C) s size).1.2.
Definition st_full (C : Type) `{Stream C} : Prop :=
  ∀ s size, 0 < size → st_input s ≠ [] → (st_read (C := C) s size).1.2 = Z.min size (Z.of_nat (length (st_input s))).
Definition st_writes (C : Type) `{Stream C} : Prop :=
  ∀ s l, (st_write (C := C) s l).2 = Z.of_nat (length l).

Lemma full_live C `{Stream C} : st_full C → st_live C.
Proof.
  intros Hf s size Hs Hi. rewrite Hf by done. destruct (st_input s); [done|]. cbn [length]. lia.
Qed.

(** ** The client structure *)

Definition XFIREDB_SOCK_STREAM : Z := 1.
Definition XFIREDB_SOCK_RESOLV : Z := 2.
Definition XFIREDB_SSL : Z := 4.
Definition XFIREDB_AUTH : Z := 8.

(** [flags & flag] as a condition. *)
Definition has_flag (flags flag : Z) : bool := negb (Z.land flags flag =? 0).

Record xfiredb_client (S T : Type) := Client { cl_socket : S; cl_ssl : option T; cl_flags : Z }.
Arguments Client {S T} _ _ _.
Arguments cl_socket {S T} _.
Arguments cl_ssl {S T} _.
Arguments cl_flags {S T} _.

Section Client.
Context {S T : Type} `{Stream S} `{Stream T}.
Implicit Types (client : xfiredb_client S T).

Definition is_ssl client : bool := has_flag (cl_flags client) XFIREDB_SSL.

Definition socket_read client (size : Z) : outcome (xfiredb_client S T * Z * list Z) :=
  let '(s, num, l) := st_read (cl_socket client) size in
  Done (Client s (cl_ssl client) (cl_flags client), num, l).
Definition ssl_read client (size : Z) : outcome (xfiredb_client S T * Z * list Z) :=
  t ← deref (cl_ssl client);
  let '(t, num, l) := st_read t size in
  Done (Client (cl_socket client) (Some t) (cl_flags client), num, l).
Definition socket_write client (l : list Z) : outcome (xfiredb_client S T * Z) :=
  let '(s, num) := st_write (cl_socket client) l in
  Done (Client s (cl_ssl client) (cl_flags client), num).
Definition ssl_write client (l : list Z) : outcome (xfiredb_client S T * Z) :=
  t ← deref (cl_ssl client);
  let '(t, num) := st_write t l in
  Done (Client (cl_socket client) (Some t) (cl_flags client), num).

Definition client_read client : Z → outcome (xfiredb_client S T * Z * list Z) :=
  (if is_ssl client then ssl_read else socket_read) client.
Definition client_write client : list Z → outcome (xfiredb_client S T * Z) :=
  (if is_ssl client then ssl_write else socket_write) client.

(** What comes and what was sent, on the stream that the flags choose. *)
Definition cl_input client : list Z :=
  if is_ssl client then from_option st_input [] (cl_ssl client) else st_input (cl_socket client).
Definition cl_output client : list Z :=
  if is_ssl client then from_option st_output [] (cl_ssl client) else st_output (cl_socket client).

(** A client that [xfiredb_connect] returned. *)
Definition cl_ok client : Prop := is_ssl client = true → is_Some (cl_ssl client).

(** ** Reading and writing *)

Context {LS : StreamLaws S} {LT : StreamLaws T}.

Record read_ok client (size : Z) client' (num : Z) (l : list Z) : Prop := {
  rd_ok : cl_ok client';
  rd_flags : cl_flags client' = cl_flags client;
  rd_output : cl_output client' = cl_output client;
  rd_bytes : (num ≤ 0 ∧ l = []) ∨
    (0 < num ≤ size ∧ Z.of_nat (length l) = num ∧ cl_input client = l ++ cl_input client');
  rd_live : st_live S → st_live T → 0 < size → cl_input client ≠ [] → 0 < num;
  rd_full : st_full S → st_full T → 0 < size → cl_input client ≠ [] →
    num = Z.min size (Z.of_nat (length (cl_input client))) }.

Lemma client_read_run client size :
  cl_ok client → 0 ≤ size →
  ∃ client' num l, client_read client size = Done (client', num, l) ∧ read_ok client size client' num l.
Proof.
  intros Hok Hs. destruct client as [s t flags]. unfold client_read, cl_ok in *.
  destruct (is_ssl (Client s t flags)) eqn:E; cbn [cl_ssl] in Hok.
  - destruct (Hok eq_refl) as [t' ->]. unfold ssl_read. cbn [cl_ssl cl_socket cl_flags deref]. rewrite bind_Done.
    pose proof (st_read_law t' size) as Hlaw. pose proof (st_read_output t' size) as Hout.
    destruct (st_read t' size) as [[t2 num] l] eqn:Er. exists (Client s (Some t2) flags), num, l. split; [done|].
    unfold is_ssl in E. cbn [cl_flags] in E.
    split; unfold cl_ok, cl_input, cl_output, is_ssl; cbn [cl_flags cl_ssl cl_socket from_option]; rewrite ?E;
      [by eexists|done|done|by eapply Hlaw| |];
      intros _ Hl ? ?; specialize (Hl t' size); rewrite Er in Hl; by apply Hl.
  - unfold socket_read. cbn [cl_ssl cl_socket cl_flags].
    pose proof (st_read_law s size) as Hlaw. pose proof (st_read_output s size) as Hout.
    destruct (st_read s size) as [[s2 num] l] eqn:Er. exists (Client s2 t flags), num, l. split; [done|].
    unfold is_ssl in E. cbn [cl_flags] in E.
    split; unfold cl_ok, cl_input, cl_output, is_ssl; cbn [cl_flags cl_ssl cl_socket from_option]; rewrite ?E;
      [done|done|done|by eapply Hlaw| |];
      intros Hl _ ? ?; specialize (Hl s size); rewrite Er in Hl; by apply Hl.
Qed.

Lemma read_ended client size client' num l :
  read_ok client size client' num l → cl_input client = [] → num ≤ 0 ∧ l = [].
Proof. intros Hr Hi. destruct (rd_bytes _ _ _ _ _ Hr) as [?|(? & Hl & Hp)]; [done|]. rewrite Hi in Hp. by destruct l; simpl in *; [lia|]. Qed.

(** One byte of what is to come. *)
Lemma client_read_byte client b rest :
  st_live S → st_live T → cl_ok client → cl_input client = b :: rest →
  ∃ client' num, client_read client 1 = Done (client', num, [b]) ∧ 0 < num ∧ cl_ok client' ∧
    cl_flags client' = cl_flags client ∧ cl_output client' = cl_output client ∧ cl_input client' = rest.
Proof.
  intros HS HT Hok Hin. destruct (client_read_run client 1 Hok) as (client1 & num & l & E & [R1 R2 R3 R4 R5 _]); [lia|].
  specialize (R5 HS HT ltac:(lia) ltac:(by rewrite Hin)). destruct R4 as [[? _]|(? & Hlen & Hp)]; [lia|].
  destruct l as [|x [|]]; simpl in Hlen; try lia. rewrite Hin in Hp. simpl in Hp. injection Hp as <- Hp. by exists client1, num.
Qed.

Lemma client_write_run client l :
  cl_ok client →
  ∃ client' num, client_write client l = Done (client', num) ∧ cl_ok client' ∧ cl_flags client' = cl_flags client ∧
    num ≤ Z.of_nat (length l) ∧ cl_output client' = cl_output client ++ take (Z.to_nat num) l ∧
    (st_writes S → st_writes T → num = Z.of_nat (length l)).
Proof.
  intros Hok. destruct client as [s t flags]. unfold client_write, cl_ok in *.
  destruct (is_ssl (Client s t flags)) eqn:E; cbn [cl_ssl] in Hok.
  - destruct (Hok eq_refl) as [t' ->]. unfold ssl_write. cbn [cl_ssl cl_socket cl_flags deref]. rewrite bind_Done.
    pose proof (st_write_law t' l) as [Hn Hout]. destruct (st_write t' l) as [t2 num] eqn:Er.
    exists (Client s (Some t2) flags), num. split; [done|]. unfold is_ssl in E. cbn [cl_flags] in E.
    unfold cl_ok, cl_output, is_ssl; cbn [cl_flags cl_ssl cl_socket from_option]; rewrite ?E.
    split_and!; [by eexists|done|done|done|]. intros _ Hw. specialize (Hw t' l). by rewrite Er in Hw.
  - unfold socket_write. cbn [cl_ssl cl_socket cl_flags].
    pose proof (st_write_law s l) as [Hn Hout]. destruct (st_write s l) as [s2 num] eqn:Er.
    exists (Client s2 t flags), num. split; [done|]. unfold is_ssl in E. cbn [cl_flags] in E.
    unfold cl_ok, cl_output, is_ssl; cbn [cl_flags cl_ssl cl_socket from_option]; rewrite ?E.
    split_and!; [done|done|done|done|]. intros Hw _. specialize (Hw s l). by rewrite Er in Hw.
Qed.

(** Writes that take everything. *)
Lemma write_all client l :
  st_writes S → st_writes T → cl_ok client →
  ∃ client' num, client_write client l = Done (client', num) ∧ cl_ok client' ∧ cl_flags client' = cl_flags client ∧
    cl_output client' = cl_output client ++ l.
Proof.
  intros WS WT Hok. destruct (client_write_run client l Hok) as (client' & num & E & ? & ? & _ & Ho & Hn).
  exists client', num. rewrite (Hn WS WT), Nat2Z.id, firstn_all in Ho. done.
Qed.
End Client.

(** ** A stream with a schedule

    The bytes to come, a bound for each of the next reads, which is at least one, and
    what was written; [conn false] ignores the bounds, and after the schedule reads are
    as long as they can be.  A read with nothing to come gives -1. *)
Record conn (short : bool) := Conn { cn_in : list Z; cn_caps : list nat; cn_out : list Z }.
Arguments Conn {short} _ _ _.
Arguments cn_in {short} _.
Arguments cn_caps {short} _.
Arguments cn_out {short} _.

Definition conn_cap {short} (c : conn short) : nat :=
  match cn_caps c with cap :: _ => if short then S cap else length (cn_in c) | [] => length (cn_in c) end.
Definition conn_read {short} (c : conn short) (size : Z) : conn short * Z * list Z :=
  let m := (Z.to_nat size `min` conn_cap c)%nat in
  let l := take m (cn_in c) in
  (Conn (drop m (cn_in c)) (tail (cn_caps c)) (cn_out c), match l with [] => -1 | _ => Z.of_nat (length l) end, l).
Definition conn_write {short} (c : conn short) (l : list Z) : conn short * Z :=
  (Conn (cn_in c) (cn_caps c) (cn_out c ++ l), Z.of_nat (length l)).

#[export] Instance conn_stream short : Stream (conn short) :=
  { st_read := conn_read; st_write := conn_write; st_input := cn_in; st_output := cn_out }.
#[export] Instance conn_laws short : StreamLaws (conn short).
Proof.
  split.
  - intros s size s' num l Hs E. cbn in E. unfold conn_read in E. injection E as <- <- <-.
    cbn [st_input conn_stream cn_in]. set (m := (_ `min` _)%nat). assert (Z.of_nat m ≤ size) as Hm by lia.
    destruct (take m (cn_in s)) as [|c l] eqn:El; [left; split; [lia|done]|]. right. rewrite <-El.
    assert (length (take m (cn_in s)) ≤ m)%nat by (rewrite length_take; lia).
    split_and!; [rewrite El; cbn [length]; lia|lia|done|by rewrite take_drop].
  - done.
  - intros s l. cbn. rewrite Nat2Z.id, firstn_all. split; [lia|done].
Qed.

Lemma conn_writes short : st_writes (conn short).
Proof. done. Qed.

Lemma conn_live short : st_live (conn short).
Proof.
  intros s size Hs Hi. cbn in *. destruct (cn_in s) as [|c l] eqn:E; [done|].
  assert (0 < conn_cap s)%nat by (unfold conn_cap; rewrite E; destruct (cn_caps s); destruct short; simpl; lia).
  destruct (Z.to_nat size `min` conn_cap s)%nat as [|m] eqn:Em; [lia|]. cbn [take length]. lia.
Qed.

Lemma conn_full : st_full (conn false).
Proof.
  intros s size Hs Hi. cbn in *. assert (conn_cap s = length (cn_in s)) as -> by (unfold conn_cap; by destruct (cn_caps s)).
  destruct (cn_in s) as [|c l] eqn:E; [done|]. rewrite <-E in *. set (m := (_ `min` _)%nat).
  assert (0 < length (cn_in s))%nat by (rewrite E; simpl; lia).
  assert (length (take m (cn_in s)) = m) as Hl by (rewrite length_take; lia).
  destruct (take m (cn_in s)) as [|c' l'] eqn:El; [simpl in Hl; lia|]. rewrite Hl. lia.
Qed.
