(* ===== verification/Query.v ===== *)
(** * Queries of the client: [clients/c/query.c]

    [xfiredb_query] sends a line and reads a reply: a line of sizes, then one text for
    each size, each followed by one byte that the terminator replaces.  The connection
    is a [Stream], which may return less than it was asked for. *)
From S2P Require Import Prelude Mem Client Stream.
Local Open Scope Z_scope.

(** ** Reading a line *)

Definition NEWLINE : Z := 10.

(** [strcat]. *)
Definition strcat (dst src : region) : outcome region :=
  n ← region_strlen dst;
  l ← region_cstr src;
  r ← memcpy (drop (Z.to_nat n) dst) (l ++ [0]) (Z.of_nat (length l) + 1);
  Done (take (Z.to_nat n) dst ++ r).

(** [rv = realloc(rv, len); strcat(rv, tmp)] *)
Definition append_chunk (junk : Z) (rv tmp : region) : outcome region :=
  n ← region_strlen tmp;
  m ← region_strlen rv;
  strcat (xfiredb_realloc junk rv (n + m + 1)) tmp.

Section Query.
Context {A B : Type} `{Stream A} `{Stream B} (junk : Z).
Abbreviation client_t := (xfiredb_client A B).
Implicit Types (client : client_t).

(** The [for] loop over one buffer: [k] rounds are left; the result tells whether the
    line has ended, or the reading has failed. *)
Fixpoint read_chunk (k i : nat) (tmp : region) client : outcome (region * nat * client_t * bool) :=
  match k with
  | O => Done (tmp, i, client, false)
  | S k' =>
      '(client, num, l) ← client_read client 1;
      if num <=? 0 then Done (tmp, i, client, true)
      else
        c ← deref (head l);
        if c =? NEWLINE then Done (tmp, i, client, true)
        else tmp ← store tmp i c; read_chunk k' (S i) tmp client
  end.

(** From the label [again]; [rv] is [None] while [tmp == rv], and [rv_at] its address.
    What [tmp] points to is not released. *)
Fixpoint readline_loop (fuel : nat) (rv : option region) (rv_at : loc) client (h : cheap)
    : outcome (region * loc * client_t * cheap) :=
  match fuel with
  | O => OutOfFuel
  | S fuel' =>
      '(tmp, i, client, over) ← read_chunk 1022 0 (xfiredb_zalloc 1024) client;
      tmp ← store tmp i 0;
      if over : bool then
        match rv with
        | Some rv => rv ← append_chunk junk rv tmp; '(h, rv_at) ← realloc_block rv_at h; Done (rv, rv_at, client, h)
        | None => n ← region_strlen tmp; '(h, rv_at) ← realloc_block rv_at h; Done (xfiredb_realloc junk tmp (n + 1), rv_at, client, h)
        end
      else
        '(rv, rv_at, h) ←
          match rv with
          | Some rv => rv ← append_chunk junk rv tmp; '(h, rv_at) ← realloc_block rv_at h; Done (rv, rv_at, h)
          | None => Done (tmp, rv_at, h)
          end;
        let '(h, _) := alloc_block h in
        readline_loop fuel' (Some rv) rv_at client h
  end.
Definition query_readline (fuel : nat) client (h : cheap) : outcome (region * loc * client_t * cheap) :=
  let '(h, rv_at) := alloc_block h in readline_loop fuel None rv_at client h.

(** ** Queries *)

(** The loop body of [__query] and [ssl_query]: [rd] is [recv] or [SSL_read]. *)
Definition recv_text (rd : client_t → Z → outcome (client_t * Z * list Z)) client (h : cheap) (size : cell)
    : outcome (client_t * cheap * loc) :=
  size ← (match size with Str s => atoi s | _ => Stuck end);
  if size <? 0 then Stuck  (* no region has this size: the allocation aborts *)
  else
    '(client, num, l) ← rd client size;
    ptr ← memcpy (xfiredb_zalloc size) l (Z.of_nat (length l));
    if num - 1 <? 0 then Stuck  (* before the region *)
    else
      ptr ← store ptr (Z.to_nat (num - 1)) 0;
      Done (client, CHeap (<[c_brk h := ptr]> (c_strs h)) (c_blocks h) (c_brk h + 1), c_brk h).

(** [toks] are the addresses of the tokens in [sizes]. *)
Fixpoint recv_texts (rd : client_t → Z → outcome (client_t * Z * list Z)) client (h : cheap)
    (sizes : list cell) (toks : list loc) (res : list xfiredb_result) : outcome (client_t * cheap * list xfiredb_result) :=
  match res with
  | [] => Done (client, h, [])
  | r :: res =>
      size ← deref (head sizes);
      '(client, h, ptr) ← recv_text rd client h size;
      tok ← deref (head toks);
      h ← free_block tok h;
      '(client, h, res) ← recv_texts rd client h (tail sizes) (tail toks) res;
      Done (client, h, XResult ptr (x_type r) (x_status r) :: res)
  end.

(** The array and the tokens that [str_split] allocates. *)
Definition is_token (c : cell) : bool := match c with Str _ => true | _ => false end.
Definition alloc_sizes (sizes : list cell) (h : cheap) : cheap * loc * list loc :=
  let '(h, sizes_at) := alloc_block h in
  let '(h, toks) := alloc_blocks (length (filter is_token sizes)) h in (h, sizes_at, toks).

(** What [__query] and [ssl_query] have in common, from the [xfiredb_sprintf]. *)
Definition query_with (fuel : nat) (wr : client_t → list Z → outcome (client_t * Z))
    (rd : client_t → Z → outcome (client_t * Z * list Z)) client (h : cheap) (query : list Z)
    : outcome (client_t * cheap * option xfiredb_results) :=
  let '(h, query2) := alloc_block h in
  '(client, num) ← wr client (query ++ [NEWLINE]);
  h ← free_block query2 h;
  if num <=? 0 then Done (client, h, None)
  else
    '(buf, buf_at, client, h) ← query_readline fuel client h;
    buf ← region_cstr buf;
    let len := s32 (str_count_occurences buf 32 + 1) in
    sizes ← str_split buf 32;
    let '(h, sizes_at, toks) := alloc_sizes sizes h in
    let '(h, res) := xfiredb_result_alloc len h in
    h ← free_block buf_at h;
    '(client, h, rs) ← recv_texts rd client h sizes toks (rp_results res);
    h ← free_block sizes_at h;
    Done (client, h, Some (Results (rp_array res) (rp_cells res) rs)).

Definition __query (fuel : nat) client (h : cheap) (query : option (list Z)) :=
  match query with
  | None => Done (client, h, None)
  | Some query => query_with fuel socket_write socket_read client h query
  end.

Definition ssl_query (fuel : nat) client (h : cheap) (query : option (list Z)) :=
  match cl_ssl client, query with
  | Some _, Some query => query_with fuel ssl_write ssl_read client h query
  | _, _ => Done (client, h, None)
  end.

Definition xfiredb_query (fuel : nat) (client : option client_t) (h : cheap) (query : option (list Z))
    : outcome (option client_t * cheap * option xfiredb_results) :=
  match client with
  | None => Done (None, h, None)
  | Some client =>
      '(client, h, rv) ← (if is_ssl client then ssl_query else __query) fuel client h query;
      match rv with
      | None => Done (Some client, h, None)
      | Some rv => '(h, rv) ← xfiredb_result_parse h rv; Done (Some client, h, Some rv)
      end
  end.

(** ** Reading a line: the reference

    The bytes before the first newline, or before the first read that fails. *)
Inductive line_read : client_t → list Z → client_t → Prop :=
  | line_fail client client' num l :
      client_read client 1 = Done (client', num, l) → num ≤ 0 → line_read client [] client'
  | line_newline client client' num :
      client_read client 1 = Done (client', num, [NEWLINE]) → 0 < num → line_read client [] client'
  | line_char client client1 num c line client' :
      client_read client 1 = Done (client1, num, [c]) → 0 < num → c ≠ NEWLINE →
      line_read client1 line client' → line_read client (c :: line) client'.

Inductive chars_read : client_t → list Z → client_t → Prop :=
  | chars_nil client : chars_read client [] client
  | chars_cons client client1 num c line client' :
      client_read client 1 = Done (client1, num, [c]) → 0 < num → c ≠ NEWLINE →
      chars_read client1 line client' → chars_read client (c :: line) client'.

Lemma line_read_split client w line client' :
  line_read client (w ++ line) client' → ∃ client1, chars_read client w client1 ∧ line_read client1 line client'.
Proof.
  revert client. induction w as [|c w IH]; intros client Hl; [exists client; by split; [constructor|]|].
  inversion Hl as [| |? client1 num ? ? ? Hr Hn Hc Hl']; subst. destruct (IH _ Hl') as (client2 & Hw & Hrest).
  exists client2. split; [by econstructor|done].
Qed.

(** A buffer of 1024 bytes that holds [l]. *)
Definition holding (l : list Z) : region := l ++ replicate (1024 - length l) 0.

Lemma read_chunk_run client w client1 k l :
  chars_read client w client1 → (length l + length w ≤ 1022)%nat →
  read_chunk (length w + k) (length l) (holding l) client = read_chunk k (length (l ++ w)) (holding (l ++ w)) client1.
Proof.
  intros Hw. revert l. induction Hw as [client|client client2 num c w client1 Hr Hn Hc Hw IH]; intros l Hl; [by rewrite app_nil_r|].
  cbn [length Nat.add read_chunk] in *. rewrite Hr, bind_Done, (proj2 (Z.leb_gt _ _)) by done. cbn [head deref].
  rewrite bind_Done, (proj2 (Z.eqb_neq _ _)) by done.
  unfold holding at 1. destruct (1024 - length l)%nat as [|m] eqn:Hm; [lia|]. rewrite store_app, bind_Done.
  specialize (IH (l ++ [c])). rewrite length_app in IH. cbn [length] in IH. specialize (IH ltac:(lia)).
  rewrite <-app_assoc in IH. cbn [app] in IH. rewrite <-IH. f_equal; [lia|]. unfold holding. rewrite length_app. cbn [length]. f_equal. f_equal. lia.
Qed.

Lemma read_chunk_end client client' l k :
  line_read client [] client' → read_chunk (S k) (length l) (holding l) client = Done (holding l, length l, client', true).
Proof.
  intros Hl. inversion Hl as [? ? num l' Hr Hn|? ? num Hr Hn|]; subst; cbn [read_chunk]; rewrite Hr, bind_Done.
  - by rewrite (proj2 (Z.leb_le _ _)).
  - by rewrite (proj2 (Z.leb_gt _ _)).
Qed.

Lemma store_end l : (length l ≤ 1022)%nat → store (holding l) (length l) 0 = Done (holding l).
Proof.
  intros Hl. unfold holding. destruct (1024 - length l)%nat as [|m] eqn:Hm; [lia|]. rewrite store_app. by rewrite <-app_assoc.
Qed.

Lemma holding_cstr l : (length l ≤ 1022)%nat → ∃ x, holding l = l ++ 0 :: x.
Proof. intros Hl. unfold holding. destruct (1024 - length l)%nat as [|m] eqn:Hm; [lia|]. by eexists. Qed.

Lemma append_chunk_run l x w y :
  no_nul l → no_nul w → append_chunk junk (l ++ 0 :: x) (w ++ 0 :: y) = Done (l ++ w ++ [0]).
Proof.
  intros Hl Hw. unfold append_chunk. rewrite !region_strlen_app, !bind_Done by done.
  assert (∃ z, xfiredb_realloc junk (l ++ 0 :: x) (Z.of_nat (length w) + Z.of_nat (length l) + 1) = l ++ 0 :: z ∧ length z = length w) as (z & -> & Hz).
  { unfold xfiredb_realloc. replace (Z.to_nat (Z.of_nat (length w) + Z.of_nat (length l) + 1)) with (length l + S (length w))%nat by lia.
    exists (take (length w) x ++ replicate (length l + S (length w) - length (l ++ 0 :: x)) junk).
    rewrite take_app_add. cbn [take]. rewrite <-app_assoc. split; [done|].
    rewrite !length_app, length_take, length_replicate. cbn [length]. lia. }
  unfold strcat. rewrite region_strlen_app, bind_Done by done. rewrite region_cstr_app, bind_Done by done.
  rewrite Nat2Z.id, drop_app_length, take_app_length.
  pose proof (memcpy_all (0 :: z) (w ++ [0])) as Hm. rewrite length_app in Hm. cbn [length] in Hm.
  replace (Z.of_nat (length w + 1)) with (Z.of_nat (length w) + 1) in Hm by lia. rewrite Hm by lia. by rewrite bind_Done.
Qed.

(** The buffers: the line is in one block, and each full buffer leaves another behind. *)
Record line_kept (h0 h : cheap) (at_ : loc) (n : nat) (X : gset loc) : Prop := {
  lk_kept : kept h0 h ({[at_]} ∪ X);
  lk_apart : at_ ∉ X;
  lk_size : size X = n;
  lk_below : below h }.

Lemma realloc_line h0 h a n X :
  below h0 → line_kept h0 h a n X → ∃ h' a', realloc_block a h = Done (h', a') ∧ line_kept h0 h' a' n X ∧ c_strs h' = c_strs h.
Proof.
  intros Hb0 [Hk Ha Hn Hb]. destruct (free_block_run h0 h _ a Hb0 Hb Hk) as (h1 & E1 & Hb1 & Hs1 & Hk1 & _); [set_solver|].
  destruct (alloc_block_run h1 Hb1) as (h2 & a' & E2 & Hb2 & Hs2 & Hk2 & Ha'). exists h2, a'. unfold realloc_block. rewrite E1, bind_Done, E2.
  split; [done|]. split; [|congruence].
  replace (({[a]} ∪ X) ∖ {[a]}) with X in Hk1 by set_solver. destruct (kept_trans _ _ _ _ _ Hb1 Hk1 Hk2) as [Hk3 Hd].
  split; [done|set_solver|done|done].
Qed.

Lemma alloc_line h0 h a n X :
  line_kept h0 h a n X → ∃ h' a' X', alloc_block h = (h', a') ∧ line_kept h0 h' a (S n) X' ∧ c_strs h' = c_strs h.
Proof.
  intros [Hk Ha Hn Hb]. destruct (alloc_block_run h Hb) as (h' & a' & E & Hb' & Hs & Hk' & Ha'). exists h', a', ({[a']} ∪ X).
  split; [done|]. destruct (kept_trans _ _ _ _ _ Hb Hk Hk') as [Hk3 Hd]. split; [|done]. split; [|set_solver| |done].
  - by replace ({[a]} ∪ ({[a']} ∪ X)) with ({[a']} ∪ ({[a]} ∪ X)) by set_solver.
  - rewrite size_union, size_singleton by set_solver. lia.
Qed.

Lemma readline_loop_run fuel rv prefix client line client' h0 h a n X :
  match rv with None => prefix = [] | Some r => no_nul prefix ∧ ∃ x, r = prefix ++ 0 :: x end →
  no_nul line → line_read client line client' → (length line < fuel)%nat → below h0 → line_kept h0 h a n X →
  ∃ h' a' X', readline_loop fuel rv a client h = Done (prefix ++ line ++ [0], a', client', h') ∧
    line_kept h0 h' a' (n + length line `div` 1022)%nat X' ∧ c_strs h' = c_strs h.
Proof.
  intros Hrv Hn Hl Hf Hb0. revert rv prefix client line h a n X Hrv Hn Hl Hf.
  induction fuel as [|fuel IH]; intros rv prefix client line h a n X Hrv Hn Hl Hf Hk; [lia|].
  cbn [readline_loop]. change (xfiredb_zalloc 1024) with (holding []).
  destruct (decide (length line < 1022)%nat) as [Hlt|Hge].
  - rewrite <-(app_nil_r line) in Hl. destruct (line_read_split _ _ _ _ Hl) as (client1 & Hw & Hend).
    assert (read_chunk 1022 0 (holding []) client = Done (holding line, length line, client', true)) as ->.
    { destruct (1022 - length line)%nat as [|k] eqn:Hk'; [lia|]. replace 1022%nat with (length line + S k)%nat by lia.
      etransitivity; [apply (read_chunk_run client line client1 (S k) []); [done|simpl; lia]|by apply (read_chunk_end _ _ line)]. }
    rewrite bind_Done, store_end, bind_Done by lia. destruct (holding_cstr line ltac:(lia)) as [x Hx]. rewrite Hx.
    rewrite (Nat.div_small (length line)), Nat.add_0_r by done.
    destruct (realloc_line h0 h a n X Hb0 Hk) as (h1 & a1 & E1 & Hk1 & Hs1). destruct rv as [r|].
    + destruct Hrv as (Hp & y & ->). rewrite append_chunk_run, bind_Done by done. rewrite E1, bind_Done. by exists h1, a1, X.
    + subst prefix. rewrite region_strlen_app, bind_Done by done. rewrite E1, bind_Done. exists h1, a1, X. split; [|done]. unfold xfiredb_realloc.
      replace (Z.to_nat (Z.of_nat (length line) + 1)) with (length line + 1)%nat by lia.
      rewrite take_app_add. cbn [take]. rewrite length_app. cbn [length].
      replace (length line + 1 - (length line + S (length x)))%nat with 0%nat by lia. by rewrite app_nil_r.
  - set (w := take 1022 line). set (line' := drop 1022 line).
    assert (length w = 1022%nat) as Hw by (unfold w; rewrite length_take; lia).
    assert (line = w ++ line') as Hline by (symmetry; apply take_drop). rewrite Hline in Hn, Hl.
    assert (length line `div` 1022 = S (length line' `div` 1022))%nat as ->.
    { rewrite Hline, length_app, Hw. replace (1022 + length line')%nat with (length line' + 1 * 1022)%nat by lia. rewrite Nat.div_add by done. lia. }
    apply Forall_app in Hn as [Hnw Hn']. destruct (line_read_split _ _ _ _ Hl) as (client1 & Hchars & Hl').
    assert (read_chunk 1022 0 (holding []) client = Done (holding w, 1022%nat, client1, false)) as ->.
    { clear IH. rewrite <-Hw at 1. rewrite <-(Nat.add_0_r (length w)).
      etransitivity; [apply (read_chunk_run client w client1 0 []); [done|simpl; lia]|]. cbn [read_chunk app]. by rewrite Hw. }
    pose proof (store_end w ltac:(lia)) as Hst. rewrite Hw in Hst. rewrite bind_Done, Hst, bind_Done. destruct (holding_cstr w ltac:(lia)) as [x Hx]. rewrite Hx.
    assert (length line' < fuel)%nat as Hf' by (unfold line'; rewrite length_drop; lia).
    replace (n + S (length line' `div` 1022))%nat with (S n + length line' `div` 1022)%nat by lia. destruct rv as [r|].
    + destruct Hrv as (Hp & y & ->). rewrite append_chunk_run, bind_Done by done.
      destruct (realloc_line h0 h a n X Hb0 Hk) as (h1 & a1 & -> & Hk1 & Hs1). rewrite !bind_Done.
      destruct (alloc_line h0 h1 a1 n X Hk1) as (h2 & a2 & X2 & -> & Hk2 & Hs2).
      destruct (IH (Some (prefix ++ w ++ [0])) (prefix ++ w) client1 line' h2 a1 (S n) X2) as (h' & a' & X' & E & Hk' & Hs'); [|done..|].
      { split; [by apply Forall_app|]. exists []. by rewrite <-app_assoc. }
      exists h', a', X'. rewrite E, Hline, <-!app_assoc. split_and!; [done|done|congruence].
    + subst prefix. rewrite bind_Done. destruct (alloc_line h0 h a n X Hk) as (h2 & a2 & X2 & -> & Hk2 & Hs2).
      destruct (IH (Some (w ++ 0 :: x)) w client1 line' h2 a (S n) X2) as (h' & a' & X' & E & Hk' & Hs'); [|done..|].
      { split; [done|]. by exists x. }
      exists h', a', X'. rewrite E, Hline, <-!app_assoc. split_and!; [done|done|congruence].
Qed.

(** Reading a line gives the line, however long it is and however the reading
    ends: [query_readline] returns what the reference reads, the bytes before the first
    newline or the first read that fails, as a C string in an object of exactly that
    size, and reads nothing after it; no buffer is overrun, and the loop ends.  Besides
    the line it leaves one buffer behind for every 1022 bytes. *)
Lemma query_readline_line fuel client line client' h :
  line_read client line client' → no_nul line → (length line < fuel)%nat → below h →
  ∃ h' a X, query_readline fuel client h = Done (line ++ [0], a, client', h') ∧
    line_kept h h' a (length line `div` 1022) X ∧ c_strs h' = c_strs h.
Proof.
  intros Hl Hn Hf Hb. unfold query_readline. destruct (alloc_block_run h Hb) as (h1 & a & -> & Hb1 & Hs1 & Hk & _).
  destruct (readline_loop_run fuel None [] client line client' h h1 a 0 ∅) as (h' & a' & X & E & Hk' & Hs); try done.
  { split; [by rewrite union_empty_r_L|set_solver|apply size_empty|done]. }
  exists h', a', X. split_and!; [done|done|congruence].
Qed.

(** ** Reading texts *)

Context {LA : StreamLaws A} {LB : StreamLaws B}.

(** A reader that is the one the flags choose: [recv] without SSL, [SSL_read] with it. *)
Definition reads_as (ssl : bool) (rd : client_t → Z → outcome (client_t * Z * list Z)) : Prop :=
  ∀ client, is_ssl client = ssl → rd client = client_read client.

Lemma is_ssl_flags client client' : cl_flags client' = cl_flags client → is_ssl client' = is_ssl client.
Proof. unfold is_ssl. by intros ->. Qed.

(** Where a line comes, the reference reads it, and nothing after it. *)
Lemma line_read_live client line rest :
  st_live A → st_live B → cl_ok client → NEWLINE ∉ line → cl_input client = line ++ NEWLINE :: rest →
  ∃ client', line_read client line client' ∧ cl_ok client' ∧ cl_flags client' = cl_flags client ∧
    cl_output client' = cl_output client ∧ cl_input client' = rest.
Proof.
  intros HA HB. revert client. induction line as [|c line IH]; intros client Hok Hl Hin;
    destruct (client_read_byte client _ _ HA HB Hok Hin) as (client1 & num & E & Hnum & R1 & R2 & R3 & R4).
  - exists client1. by split; [eapply line_newline|].
  - apply not_elem_of_cons in Hl as [Hc Hl]. destruct (IH client1 R1 Hl R4) as (client' & ? & ? & Hf & Ho & ?).
    exists client'. split_and!; [by eapply line_char|done|by rewrite Hf|by rewrite Ho|done].
Qed.

(** One text: a piece of the stream, its last byte replaced by the terminator. *)
Lemma recv_text_run rd client h tok n :
  reads_as (is_ssl client) rd → st_live A → st_live B → cl_ok client → atoi tok = Done n → 0 < n → cl_input client ≠ [] →
  no_nul (cl_input client) →
  ∃ client' p x, recv_text rd client h (Str tok) = Done (client', CHeap (<[c_brk h := removelast p ++ 0 :: x]> (c_strs h)) (c_blocks h) (c_brk h + 1), c_brk h) ∧
    read_ok client n client' (Z.of_nat (length p)) p ∧ p ≠ [].
Proof.
  intros Hrd HA HB Hok Hn Hpos Hin Hnul. unfold recv_text. rewrite Hn, bind_Done, (proj2 (Z.ltb_ge _ _)) by lia.
  rewrite Hrd by done. destruct (client_read_run client n Hok) as (client' & num & p & E & R); [lia|]. rewrite E, bind_Done.
  pose proof (rd_live _ _ _ _ _ R HA HB Hpos Hin) as Hnum. destruct (rd_bytes _ _ _ _ _ R) as [[? _]|(Hle & Hl & Hp)]; [lia|].
  unfold memcpy, xfiredb_zalloc. rewrite decide_True by (rewrite length_replicate; lia). rewrite bind_Done.
  rewrite Nat2Z.id, firstn_all, drop_replicate, (proj2 (Z.ltb_ge _ _)) by lia.
  assert (p ≠ []) as Hne by (intros ->; simpl in Hl; lia).
  destruct (exists_last Hne) as (r & z & ->). rewrite length_app in Hl. cbn [length] in Hl.
  replace (Z.to_nat (num - 1)) with (length r) by lia. rewrite <-app_assoc. unfold store.
  rewrite decide_True by (rewrite !length_app; simpl; lia). rewrite bind_Done, insert_app_r_alt, Nat.sub_diag by done.
  cbn [app insert list_insert]. eexists client', (r ++ [z]), _. rewrite removelast_last. split; [done|]. rewrite length_app. cbn [length].
  by replace (Z.of_nat (length r + 1)) with num by lia.
Qed.

(** Pieces of a stream, one for each size, no longer than it. *)
Definition piece_of (p : list Z) (n : Z) : Prop := p ≠ [] ∧ Z.of_nat (length p) ≤ n.

Record texts_ok client (h : cheap) client' (h' : cheap) (ns : list Z) (addrs : list loc) (ps : list (list Z)) K : Prop := {
  tx_ok : cl_ok client';
  tx_flags : cl_flags client' = cl_flags client;
  tx_output : cl_output client' = cl_output client;
  tx_input : cl_input client = concat ps ++ cl_input client';
  tx_pieces : Forall2 piece_of ps ns;
  tx_full : st_full A → st_full B → Forall2 (λ p n, Z.of_nat (length p) = n) ps ns;
  tx_heap : c_strs h' = c_strs h ∪ K;
  tx_below : below h';
  tx_brk : c_brk h ≤ c_brk h';
  tx_at : Forall2 (λ a p, (∃ x, K !! a = Some (removelast p ++ 0 :: x)) ∧ a ≠ 0) addrs ps;
  tx_dom : dom K = list_to_set addrs;
  tx_nodup : NoDup addrs;
  tx_new : Forall (λ a, c_brk h ≤ a) addrs }.

Definition sum_list_Z (ns : list Z) : Z := foldr Z.add 0 ns.

Lemma recv_texts_run h0 X rd toks ns client h cells tks :
  reads_as (is_ssl client) rd → st_live A → st_live B → cl_ok client → below h0 → below h → no_nul (cl_input client) →
  Forall2 (λ tok n, atoi tok = Done n ∧ 0 < n) toks ns → foldr Z.add 0 ns ≤ Z.of_nat (length (cl_input client)) →
  kept h0 h (list_to_set tks ∪ X) → NoDup tks → (∀ a, a ∈ tks → a ∉ X) → length tks = length toks →
  ∃ client' h' addrs ps K, recv_texts rd client h ((Str <$> toks) ++ cells) tks (replicate (length toks) (XResult 0 XFIREDB_STRING 0)) =
    Done (client', h', with_texts addrs) ∧ texts_ok client h client' h' ns addrs ps K ∧ c_strs h ##ₘ K ∧ kept h0 h' X.
Proof.
  intros Hrd HA HB Hok Hb0 Hb Hnul Hns. revert client h tks Hrd Hok Hb Hnul.
  induction Hns as [|tok n toks ns [Hn Hpos] Hns IH]; intros client h tks Hrd Hok Hb Hnul Hlen Hkept Hnd HX Htks.
  - exists client, h, [], [], ∅. split; [done|]. split; [|split; [apply map_disjoint_empty_r|]].
    + split; try done; [by rewrite map_union_empty|constructor].
    + destruct tks; [|done]. cbn in Hkept. by rewrite union_empty_l_L in Hkept.
  - cbn [foldr] in Hlen. assert (0 ≤ foldr Z.add 0 ns) as Hsum.
    { clear -Hns. induction Hns as [|? ? ? ? [_ ?] _ IH]; simpl; lia. }
    assert (cl_input client ≠ []) as Hin by (intros E; rewrite E in Hlen; simpl in Hlen; lia).
    destruct (recv_text_run rd client h tok n Hrd HA HB Hok Hn Hpos Hin Hnul) as (client1 & p & x & E & R & Hp).
    destruct tks as [|tk tks]; [done|]. apply list.NoDup_cons in Hnd as [Hna Hnd].
    cbn [fmap list_fmap app length replicate recv_texts head tail deref]. rewrite bind_Done, E, !bind_Done.
    destruct (rd_bytes _ _ _ _ _ R) as [[? _]|(Hle & _ & Hin1)]; [destruct p; [done|simpl in *; lia]|].
    set (h2 := CHeap _ _ _).
    assert (below h2) as Hb2.
    { destruct Hb as (B0 & B1 & B2). split; [cbn; lia|]. split; cbn; [|intros a Ha; specialize (B2 a Ha); lia].
      intros a [y [[<- _]|[_ Ha]]%lookup_insert_Some]; [lia|]. assert (a < c_brk h) by (apply B1; by eexists). lia. }
    destruct (free_block_run h0 h2 (list_to_set (tk :: tks) ∪ X) tk Hb0 Hb2) as (h1 & -> & Hb1 & Hs1 & Hk1 & Hbrk1);
      [eapply kept_same; [exact Hkept|done|cbn; lia]|set_solver|]. rewrite bind_Done.
    replace ((list_to_set (tk :: tks) ∪ X) ∖ {[tk]}) with (list_to_set tks ∪ X : gset loc) in Hk1
      by (specialize (HX tk ltac:(by left)); cbn; set_solver).
    destruct (IH client1 h1 tks) as (client' & h' & addrs & ps & K & E' & [T1 T2 T3 T4 T5 T6 T7 T8 T9 T10 T11 T12 T13] & Hd & Hkept');
      [by rewrite (is_ssl_flags client client1) by apply R|by apply R|done| | |done|done| |by injection Htks|].
    { rewrite Hin1 in Hnul. by apply Forall_app in Hnul as [_ ?]. }
    { rewrite Hin1, length_app in Hlen. lia. }
    { intros a Ha. apply HX. by right. }
    rewrite E', bind_Done. assert (c_strs h !! c_brk h = None) as Hnone.
    { destruct (c_strs h !! c_brk h) eqn:Ea; [|done]. assert (c_brk h < c_brk h) by (apply (proj1 (proj2 Hb)); by eexists). lia. }
    rewrite Hs1, ?Hbrk1 in *. cbn [c_strs h2 c_brk] in T7, T9, T13, Hd. apply map_disjoint_insert_l in Hd as [HK Hd].
    exists client', h', (c_brk h :: addrs), (p :: ps), (<[c_brk h := removelast p ++ 0 :: x]> K). split; [done|].
    split; [|split; [by apply map_disjoint_insert_r|done]]. split; try done.
    + by rewrite T2; apply R.
    + by rewrite T3; apply R.
    + rewrite Hin1, T4. cbn [concat]. by rewrite <-app_assoc.
    + constructor; [by split; [done|lia]|done].
    + intros FA FB. constructor; [|by apply T6]. rewrite (rd_full _ _ _ _ _ R FA FB Hpos Hin). lia.
    + rewrite T7, <-insert_union_l, insert_union_r by done. done.
    + lia.
    + constructor; [split; [exists x; apply lookup_insert_eq|destruct Hb; lia]|].
      apply Forall2_same_length_lookup_2; [by eapply list.Forall2_length|]. intros i a q Ha Hq.
      destruct (Forall2_lookup_lr _ _ _ _ _ _ T10 Ha Hq) as [[y Hy] Hnz]. split; [|done]. exists y.
      rewrite lookup_insert_ne; [done|]. intros <-. congruence.
    + rewrite dom_insert_L, T11. done.
    + apply list.NoDup_cons. split; [|done]. intros Ha. rewrite list.Forall_forall in T13. specialize (T13 _ Ha). lia.
    + constructor; [lia|]. eapply list.Forall_impl; [exact T13|]. intros a ?. cbn in *. lia.
Qed.

(** ** Replies *)

(** The tokens of a line of sizes, and the sizes they say. *)
Record sizes_ok (toks : list (list Z)) (ns : list Z) : Prop := {
  sz_some : toks ≠ [];
  sz_toks : Forall (tok_ok 32) toks;
  sz_line : Forall (λ t, no_nul t ∧ NEWLINE ∉ t) toks;
  sz_few : Z.of_nat (length toks) < 2 ^ 31;
  sz_atoi : Forall2 (λ tok n, atoi tok = Done n ∧ 0 < n) toks ns }.

(** After the query [q] is sent, [input] comes. *)
Definition answered client (q input : list Z) : Prop :=
  ∃ client1 num, client_write client (q ++ [NEWLINE]) = Done (client1, num) ∧ 0 < num ∧ cl_input client1 = input.

Lemma join_elem c toks : c ∈ join 32 toks → c = 32 ∨ ∃ t, t ∈ toks ∧ c ∈ t.
Proof.
  induction toks as [|t [|t' ts] IH]; [by intros ?%elem_of_nil| |].
  - cbn. rewrite app_nil_r. right. exists t. split; [by left|done].
  - rewrite join_cons, elem_of_app, elem_of_cons. intros [?|[?|Hc]]; [right; exists t; split; [by left|done]|by left|].
    destruct (IH Hc) as [?|(u & ? & ?)]; [by left|right; exists u; split; [by right|done]].
Qed.

Lemma sizes_line toks ns : sizes_ok toks ns → no_nul (join 32 toks) ∧ NEWLINE ∉ join 32 toks.
Proof.
  intros [_ _ Hl _ _]. rewrite list.Forall_forall in Hl. split.
  - apply list.Forall_forall. intros c [->|(t & Ht & Hc)]%join_elem; [done|]. destruct (Hl t Ht) as [Hn _].
    unfold no_nul in Hn. rewrite list.Forall_forall in Hn. by apply Hn.
  - intros [?|(t & Ht & Hc)]%join_elem; [done|]. by destruct (Hl t Ht) as [_ ?].
Qed.

(** What is allocated between the line of sizes and the texts. *)
Lemma alloc_sizes_run toks h : below h →
  ∃ h' at_ tks, alloc_sizes ((Str <$> toks) ++ [Null]) h = (h', at_, tks) ∧ below h' ∧ c_strs h' = c_strs h ∧
    kept h h' ({[at_]} ∪ list_to_set tks) ∧ NoDup (at_ :: tks) ∧ length tks = length toks.
Proof.
  intros Hb. unfold alloc_sizes. destruct (alloc_block_run h Hb) as (h1 & a & -> & Hb1 & Hs1 & K1 & _).
  assert (length (filter is_token ((Str <$> toks) ++ [Null])) = length toks) as ->.
  { rewrite list.filter_app, length_app. cbn [filter]. assert (∀ ts, length (filter is_token (Str <$> ts)) = length ts) as ->; [|simpl; lia].
    intros ts. induction ts as [|t ts IH]; [done|]. rewrite fmap_cons, filter_cons_True by done. cbn [length]. by rewrite IH. }
  destruct (alloc_blocks_run (length toks) h1 Hb1) as (h2 & tks & -> & Hb2 & Hs2 & K2 & Hnd & Hl).
  destruct (kept_trans _ _ _ _ _ Hb1 K1 K2) as [K3 Hd]. exists h2, a, tks. split_and!; [done|done|congruence| | |done].
  - by rewrite union_comm_L.
  - apply list.NoDup_cons. split; [|done]. set_solver.
Qed.

Lemma result_alloc_run n h : below h →
  ∃ h' rp, xfiredb_result_alloc (Z.of_nat n) h = (h', rp) ∧ below h' ∧ c_strs h' = c_strs h ∧
    kept h h' ({[rp_array rp]} ∪ list_to_set (rp_cells rp)) ∧ NoDup (rp_array rp :: rp_cells rp) ∧ length (rp_cells rp) = n ∧
    rp_results rp = replicate n (XResult 0 XFIREDB_STRING 0).
Proof.
  intros Hb. unfold xfiredb_result_alloc. destruct (alloc_block_run h Hb) as (h1 & a & -> & Hb1 & Hs1 & K1 & _).
  rewrite Nat2Z.id. destruct (alloc_blocks_run n h1 Hb1) as (h2 & l & -> & Hb2 & Hs2 & K2 & Hnd & Hl).
  destruct (kept_trans _ _ _ _ _ Hb1 K1 K2) as [K3 Hd]. eexists h2, (Results a l _). cbn [rp_array rp_cells rp_results].
  split_and!; [done|done|congruence| | |done|done].
  - by rewrite union_comm_L.
  - apply list.NoDup_cons. split; [|done]. set_solver.
Qed.

Lemma texts_ok_heap client h1 h client' h2 h' ns addrs ps K :
  texts_ok client h1 client' h2 ns addrs ps K → c_strs h1 = c_strs h → c_brk h ≤ c_brk h1 →
  c_strs h' = c_strs h2 → c_brk h' = c_brk h2 → below h' → texts_ok client h client' h' ns addrs ps K.
Proof.
  intros [] Es Hle Es' Eb' Hb. split; try done; [congruence|lia|]. eapply list.Forall_impl; [done|]. intros a ?. cbn in *. lia.
Qed.

(** The number of buffers that reading a line of sizes leaves behind. *)
Definition line_leaks (toks : list (list Z)) : nat := (length (join 32 toks) `div` 1022)%nat.

Lemma query_with_run fuel wr rd client client1 num h q toks ns rest :
  wr client (q ++ [NEWLINE]) = Done (client1, num) → 0 < num → cl_ok client1 → reads_as (is_ssl client1) rd →
  st_live A → st_live B → below h → sizes_ok toks ns → cl_input client1 = join 32 toks ++ NEWLINE :: rest →
  no_nul rest → foldr Z.add 0 ns ≤ Z.of_nat (length rest) → (length (join 32 toks) < fuel)%nat →
  ∃ client2 client' h' addrs ps K rp X, query_with fuel wr rd client h q = Done (client', h', Some rp) ∧
    rp_results rp = with_texts addrs ∧
    cl_flags client2 = cl_flags client1 ∧ cl_output client2 = cl_output client1 ∧ cl_input client2 = rest ∧
    texts_ok client2 h client' h' ns addrs ps K ∧ c_strs h ##ₘ K ∧ holds h h' rp X ∧ size X = line_leaks toks.
Proof.
  intros Hw Hnum Hok Hrd HA HB Hb Hsz Hin Hnul Hlen Hf. unfold query_with.
  destruct (alloc_block_run h Hb) as (ha & q2 & -> & Hba & Hsa & Ka & _). rewrite Hw, bind_Done.
  destruct (free_block_run h ha _ q2 Hb Hba Ka) as (hb & -> & Hbb & Hsb & Kb & _); [set_solver|].
  rewrite bind_Done, (proj2 (Z.leb_gt _ _)) by done. rewrite difference_diag_L in Kb.
  destruct (sizes_line _ _ Hsz) as [Hl0 Hl1].
  destruct (line_read_live client1 _ _ HA HB Hok Hl1 Hin) as (client2 & Hline & Hok2 & Hfl & Ho2 & Hin2).
  destruct (query_readline_line fuel client1 (join 32 toks) client2 hb Hline Hl0 Hf Hbb) as (hc & buf & X & -> & [Kc Hbuf HX Hbc] & Hsc).
  rewrite bind_Done, (region_cstr_app _ []), bind_Done by done. destruct Hsz as [Hne Htok _ Hfew Hat].
  destruct (client_split_sizes 32 toks Hne Htok ltac:(lia)) as [-> ->]. rewrite bind_Done, s32_small by lia.
  destruct (alloc_sizes_run toks hc Hbc) as (hd & at_ & tks & -> & Hbd & Hsd & Kd & Hndt & Hlt).
  destruct (result_alloc_run (length toks) hd Hbd) as (he & rp & -> & Hbe & Hse & Ke & Hndr & Hlr & Hrp).
  destruct (kept_trans _ _ _ _ _ Hbb Kb Kc) as [K1 _]. rewrite union_empty_r_L in K1.
  destruct (kept_trans _ _ _ _ _ Hbc K1 Kd) as [K2 D2]. destruct (kept_trans _ _ _ _ _ Hbd K2 Ke) as [K3 D3].
  apply list.NoDup_cons in Hndt as [Hat1 Hndt].
  destruct (free_block_run h he _ buf Hb Hbe K3) as (hf & -> & Hbf & Hsf & K4 & Hkf); [set_solver|]. rewrite bind_Done, Hrp.
  set (R := {[at_]} ∪ ({[rp_array rp]} ∪ list_to_set (rp_cells rp) ∪ X)).
  replace (_ ∖ {[buf]}) with (list_to_set tks ∪ R) in K4 by (unfold R; clear -D2 D3 Hbuf; set_solver).
  destruct (recv_texts_run h R rd toks ns client2 hf [Null] tks) as (client' & h1 & addrs & ps & K & -> & Htx & Hd & K5); try done;
    [by rewrite (is_ssl_flags client1 client2)|by rewrite Hin2|by rewrite Hin2|unfold R; clear -D2 D3 Hat1; set_solver|].
  rewrite bind_Done. pose proof (tx_below _ _ _ _ _ _ _ _ Htx) as Hb1.
  destruct (free_block_run h h1 R at_ Hb Hb1 K5) as (h' & -> & Hb' & Hs' & K6 & Hk'); [unfold R; set_solver|]. rewrite bind_Done.
  assert (c_strs hf = c_strs h) as Hsh by congruence. rewrite Hsh in Hd.
  exists client2, client', h', addrs, ps, K, (Results (rp_array rp) (rp_cells rp) (with_texts addrs)), X.
  split_and!; try done.
  - eapply (texts_ok_heap _ hf h _ h1); [exact Htx|exact Hsh|exact (kp_brk _ _ _ K4)|done..].
  - split; cbn [rp_array rp_cells rp_results].
    + replace (R ∖ {[at_]}) with ({[rp_array rp]} ∪ list_to_set (rp_cells rp) ∪ X) in K6; [done|]. unfold R. clear -D2 D3. set_solver.
    + done.
    + clear -D3. intros a Ha. set_solver.
    + rewrite Hlr. unfold with_texts. rewrite length_fmap.
      pose proof (list.Forall2_length _ _ _ Hat) as L1. pose proof (list.Forall2_length _ _ _ (tx_at _ _ _ _ _ _ _ _ Htx)) as L2.
      pose proof (list.Forall2_length _ _ _ (tx_pieces _ _ _ _ _ _ _ _ Htx)) as L3. congruence.
Qed.

(** The same for [xfiredb_query], on either kind of connection, up to the parsing. *)
Lemma xfiredb_query_with fuel client h q :
  cl_ok client →
  xfiredb_query fuel (Some client) h (Some q) =
    ('(client', h, rv) ← query_with fuel (if is_ssl client then ssl_write else socket_write)
       (if is_ssl client then ssl_read else socket_read) client h q;
     match rv with
     | None => Done (Some client', h, None)
     | Some rv => '(h, rv) ← xfiredb_result_parse h rv; Done (Some client', h, Some rv)
     end).
Proof.
  intros Hok. unfold xfiredb_query, cl_ok in *. destruct (is_ssl client); [|done].
  unfold ssl_query. by destruct (Hok eq_refl) as [b ->].
Qed.

Lemma reads_as_client client : reads_as (is_ssl client) (if is_ssl client then ssl_read else socket_read).
Proof. intros c Hc. unfold client_read. by rewrite Hc. Qed.

Lemma answered_run client q input :
  cl_ok client → answered client q input →
  ∃ client1 num, (if is_ssl client then ssl_write else socket_write) client (q ++ [NEWLINE]) = Done (client1, num) ∧ 0 < num ∧
    cl_ok client1 ∧ cl_flags client1 = cl_flags client ∧ is_ssl client1 = is_ssl client ∧ cl_input client1 = input ∧
    (st_writes A → st_writes B → cl_output client1 = cl_output client ++ q ++ [NEWLINE]).
Proof.
  intros Hok (client1 & num & Hw & Hnum & Hin). exists client1, num.
  destruct (client_write_run client (q ++ [NEWLINE]) Hok) as (? & ? & Hw' & Hok1 & Hfl & _). rewrite Hw in Hw'. injection Hw' as <- <-.
  pose proof (is_ssl_flags _ _ Hfl). split_and!; [done..|]. intros WA WB.
  destruct (write_all client (q ++ [NEWLINE]) WA WB Hok) as (? & ? & E & _ & _ & Ho). rewrite Hw in E. by injection E as <- <-.
Qed.

Lemma xfiredb_query_run fuel client h q toks ns rest :
  st_live A → st_live B → cl_ok client → below h → sizes_ok toks ns →
  answered client q (join 32 toks ++ NEWLINE :: rest) → no_nul rest → foldr Z.add 0 ns ≤ Z.of_nat (length rest) →
  (length (join 32 toks) < fuel)%nat →
  ∃ client2 client' h' addrs ps K rp X, cl_input client2 = rest ∧ cl_flags client' = cl_flags client ∧
    rp_results rp = with_texts addrs ∧ texts_ok client2 h client' h' ns addrs ps K ∧ c_strs h ##ₘ K ∧
    holds h h' rp X ∧ size X = line_leaks toks ∧
    (st_writes A → st_writes B → cl_output client' = cl_output client ++ q ++ [NEWLINE]) ∧
    xfiredb_query fuel (Some client) h (Some q) =
      ('(h, rv) ← xfiredb_result_parse h' rp; Done (Some client', h, Some rv)).
Proof.
  intros HA HB Hok Hb Hsz Hans Hnul Hlen Hf. rewrite xfiredb_query_with by done.
  destruct (answered_run _ _ _ Hok Hans) as (client1 & num & Hw & Hnum & Hok1 & Hfl & Hssl & Hin & Hout).
  destruct (query_with_run fuel _ (if is_ssl client then ssl_read else socket_read) client client1 num h q toks ns rest Hw)
    as (client2 & client' & h' & addrs & ps & K & rp & X & -> & Hrp & Hf2 & Ho2 & Hin2 & Htx & Hd & Hh & HX); try done.
  { rewrite Hssl. apply reads_as_client. }
  exists client2, client', h', addrs, ps, K, rp, X. rewrite bind_Done. split_and!; try done.
  - rewrite (tx_flags _ _ _ _ _ _ _ _ Htx). congruence.
  - intros WA WB. rewrite (tx_output _ _ _ _ _ _ _ _ Htx), Ho2. by apply Hout.
Qed.

Definition texts_of (ps : list (list Z)) : list (list Z) := (λ p, removelast p) <$> ps.

Lemma parse_texts client h client' h' ns addrs ps K rp X :
  texts_ok client h client' h' ns addrs ps K → c_strs h ##ₘ K → Forall text_ok (texts_of ps) →
  rp_results rp = with_texts addrs → holds h h' rp X →
  ∃ h2 rp2 K', xfiredb_result_parse h' rp = Done (h2, rp2) ∧ shown (rp_results rp2) (texts_of ps) K' ∧
    c_strs h2 = c_strs h ∪ K' ∧ c_strs h ##ₘ K' ∧ below h2 ∧ holds h h2 rp2 X.
Proof.
  intros [T1 T2 T3 T4 T5 T6 T7 T8 T9 T10 T11 T12 T13] Hd Hok Hrp [H1 H2 H3 H4]. unfold xfiredb_result_parse. rewrite Hrp in *.
  destruct (parse_results_run h' K addrs (texts_of ps)) with (K0 := c_strs h) as (h2 & rs & K' & -> & Hs & ? & ? & ? & ? & ?);
    [by apply list.Forall2_fmap_r|done..|]. rewrite bind_Done. exists h2, (Results (rp_array rp) (rp_cells rp) rs), K'.
  split_and!; try done. split; cbn [rp_array rp_cells rp_results]; [by eapply kept_same|done..|].
  assert (length rs = length (texts_of ps)) as -> by (clear -Hs; induction Hs; cbn; congruence).
  rewrite H4. unfold with_texts, texts_of. rewrite !length_fmap. by eapply list.Forall2_length.
Qed.

Lemma concat_pieces (ps qs : list (list Z)) ns x y :
  Forall2 (λ p n, Z.of_nat (length p) = n) ps ns → Forall2 (λ q n, Z.of_nat (length q) = n) qs ns →
  concat ps ++ x = concat qs ++ y → ps = qs ∧ x = y.
Proof.
  intros Hp. revert qs. induction Hp as [|p n ps ns Hpn Hp IH]; intros qs Hq Heq.
  - by apply Forall2_nil_inv_r in Hq as ->.
  - apply Forall2_cons_inv_r in Hq as (q & qs' & Hqn & Hq & ->). cbn [concat] in Heq. rewrite <-!app_assoc in Heq.
    apply app_inj_1 in Heq as [-> Heq]; [|lia]. by destruct (IH _ Hq Heq) as [-> ->].
Qed.

(** A reply: the line of sizes, each one more than the length of a text, and the texts,
    each followed by a newline. *)
Definition reply (toks texts : list (list Z)) : list Z :=
  join 32 toks ++ NEWLINE :: concat ((λ t, t ++ [NEWLINE]) <$> texts).
Definition text_sizes (texts : list (list Z)) : list Z := (λ t, Z.of_nat (length t) + 1) <$> texts.

Lemma reply_texts_length texts : Z.of_nat (length (concat ((λ t, t ++ [NEWLINE]) <$> texts))) = foldr Z.add 0 (text_sizes texts).
Proof.
  induction texts as [|t ts IH]; [done|]. unfold text_sizes in *. cbn [fmap list_fmap concat foldr]. rewrite !length_app. cbn [length]. lia.
Qed.

(** What a query that is answered does to the client, its connection and its memory: the
    results are allocated, and the buffers [X] are lost. *)
Record replied client h q (texts : list (list Z)) (more : list Z) client' h' rp K X : Prop := {
  rp_ok : cl_ok client';
  rp_flags : cl_flags client' = cl_flags client;
  rp_input : cl_input client' = more;
  rp_output : st_writes A → st_writes B → cl_output client' = cl_output client ++ q ++ [NEWLINE];
  rp_shown : shown (rp_results rp) texts K;
  rp_heap : c_strs h' = c_strs h ∪ K;
  rp_disjoint : c_strs h ##ₘ K;
  rp_below : below h';
  rp_holds : holds h h' rp X }.

Lemma query_run fuel client h q toks texts more :
  st_full A → st_full B → cl_ok client → below h → sizes_ok toks (text_sizes texts) → Forall text_ok texts → no_nul more →
  answered client q (reply toks texts ++ more) → (length (join 32 toks) < fuel)%nat →
  ∃ client' h' rp K X, xfiredb_query fuel (Some client) h (Some q) = Done (Some client', h', Some rp) ∧
    replied client h q texts more client' h' rp K X ∧ size X = line_leaks toks.
Proof.
  intros FA FB Hok Hb Hsz Htexts Hmore Hans Hf. set (body := concat ((λ t, t ++ [NEWLINE]) <$> texts)).
  assert (no_nul (body ++ more)) as Hnul.
  { apply Forall_app. split; [|done]. apply Forall_concat, list.Forall_fmap. eapply list.Forall_impl; [exact Htexts|].
    intros t (_ & ? & _). apply Forall_app. split; [done|]. by repeat constructor. }
  destruct (xfiredb_query_run fuel client h q toks (text_sizes texts) (body ++ more)) as (client2 & client' & h1 & addrs & ps & K & rp & X & Hin2 & Hfl & Hrp & Htx & Hd & Hh & HX & Hout & ->);
    try done; [by apply full_live|by apply full_live| |unfold body; rewrite length_app; pose proof (reply_texts_length texts); lia|].
  { unfold reply in Hans. by rewrite <-app_assoc in Hans. }
  pose proof (tx_input _ _ _ _ _ _ _ _ Htx) as Hin. rewrite Hin2 in Hin.
  destruct (concat_pieces ps ((λ t, t ++ [NEWLINE]) <$> texts) (text_sizes texts) (cl_input client') more) as [-> Hmore'];
    [by apply Htx| |by symmetry|].
  { apply list.Forall2_fmap. apply Forall_Forall2_diag, list.Forall_true. intros t. rewrite length_app. cbn [length]. lia. }
  assert (texts_of ((λ t, t ++ [NEWLINE]) <$> texts) = texts) as Hrem.
  { clear. induction texts as [|t ts IH]; [done|]. unfold texts_of in *; cbn [fmap list_fmap] in *. by rewrite removelast_last, IH. }
  destruct (parse_texts _ _ _ _ _ _ _ _ _ _ Htx Hd ltac:(by rewrite Hrem) Hrp Hh) as (h2 & rp2 & K' & -> & Hs & Hh2 & Hd' & Hb2 & Hho).
  rewrite Hrem in Hs. rewrite bind_Done. exists client', h2, rp2, K', X. split; [done|]. split; [|done]. split; try done. by apply Htx.
Qed.

(** C35: a query brings the reply of the server.  When reads are as long as they are
    asked to be, and the server answers the line that was sent with the sizes and the
    texts of a reply, [xfiredb_query], with or without SSL, returns one result for
    each text, which shows it; what comes after the reply is left unread; and
    [xfiredb_result_free] releases the results' texts, structures and array, each once.
    Nothing else of what was allocated stays, but for one buffer of [query_readline] for
    every 1022 bytes in the line of sizes. *)
Theorem query_reply fuel client h q toks texts more :
  st_full A → st_full B → cl_ok client → below h → sizes_ok toks (text_sizes texts) → Forall text_ok texts → no_nul more →
  answered client q (reply toks texts ++ more) → (length (join 32 toks) < fuel)%nat →
  ∃ client' h' rp K, xfiredb_query fuel (Some client) h (Some q) = Done (Some client', h', Some rp) ∧
    shown (rp_results rp) texts K ∧ c_strs h' = c_strs h ∪ K ∧ cl_input client' = more ∧ cl_flags client' = cl_flags client ∧
    ∃ h'' X, xfiredb_result_free h' rp = Done h'' ∧ c_strs h'' = c_strs h ∧
      c_blocks h'' = X ∪ c_blocks h ∧ X ## c_blocks h ∧ size X = line_leaks toks.
Proof.
  intros FA FB Hok Hb Hsz Htexts Hmore Hans Hf.
  destruct (query_run fuel client h q toks texts more FA FB Hok Hb Hsz Htexts Hmore Hans Hf) as (client' & h' & rp & K & X & E & [] & HX).
  destruct (free_results_run h h' rp texts K X ltac:(done) (c_strs h)) as (h'' & ? & ? & Hk & _); [done..|].
  exists client', h', rp, K. split_and!; [done..|]. exists h'', X. split_and!; try done; [by apply Hk|].
  intros a Ha. by eapply kept_old.
Qed.

(** Short reads lose data.  [recv] and [SSL_read] may return less than they are
    asked for; the client takes what it gets for the whole text.  Whatever pieces the
    reads return, each of at least one byte, the results show the pieces without their
    last bytes, and what was not read is left in the connection, to be taken for the
    beginning of the next text or reply. *)
Lemma query_short_reads fuel client h q toks ns rest :
  st_live A → st_live B → cl_ok client → below h → sizes_ok toks ns → no_nul rest →
  foldr Z.add 0 ns ≤ Z.of_nat (length rest) →
  answered client q (join 32 toks ++ NEWLINE :: rest) → (length (join 32 toks) < fuel)%nat →
  ∃ client' ps, rest = concat ps ++ cl_input client' ∧ Forall2 piece_of ps ns ∧
    (Forall text_ok (texts_of ps) → ∃ h' rp K,
      xfiredb_query fuel (Some client) h (Some q) = Done (Some client', h', Some rp) ∧
      shown (rp_results rp) (texts_of ps) K ∧ c_strs h' = c_strs h ∪ K).
Proof.
  intros HA HB Hok Hb Hsz Hnul Hlen Hans Hf.
  destruct (xfiredb_query_run fuel client h q toks ns rest) as (client2 & client' & h1 & addrs & ps & K & rp & X & Hin2 & Hfl & Hrp & Htx & Hd & Hh & _ & _ & ->); try done.
  exists client', ps. split; [by rewrite <-Hin2; apply Htx|]. split; [by apply Htx|]. intros Htexts.
  destruct (parse_texts _ _ _ _ _ _ _ _ _ _ Htx Hd Htexts Hrp Hh) as (h2 & rp2 & K' & -> & Hs & Hh2 & _). rewrite bind_Done. by exists h2, rp2, K'.
Qed.

(** A connection that is closed crashes the client.  When nothing comes after the
    query, or nothing after the line of sizes, [xfiredb_query] does not return: an
    assertion of [str_split] fails on the empty line, or the terminator is written
    before the region for the first text. *)
Lemma query_lost_reply fuel client h q toks ns :
  st_live A → st_live B → cl_ok client → below h → sizes_ok toks ns → (length (join 32 toks) < fuel)%nat →
  answered client q [] ∨ answered client q (join 32 toks ++ [NEWLINE]) →
  xfiredb_query fuel (Some client) h (Some q) = Stuck.
Proof.
  intros HA HB Hok Hb Hsz Hf Hans. rewrite xfiredb_query_with by done.
  assert (∃ input, answered client q input ∧ (input = [] ∨ input = join 32 toks ++ [NEWLINE])) as (input & Hin & Hcase)
    by (destruct Hans; eexists; eauto). clear Hans.
  destruct (answered_run _ _ _ Hok Hin) as (client1 & num & Hw & Hnum & Hok1 & Hfl & Hssl & Hin1 & _). clear Hin.
  unfold query_with. destruct (alloc_block_run h Hb) as (ha & q2 & -> & Hba & Hsa & Ka & _). rewrite Hw, bind_Done.
  destruct (free_block_run h ha _ q2 Hb Hba Ka) as (hb & -> & Hbb & Hsb & Kb & _); [set_solver|].
  rewrite bind_Done, (proj2 (Z.leb_gt _ _)) by done. destruct Hcase as [->| ->].
  - destruct (client_read_run client1 1 Hok1) as (client2 & num' & l & E & R); [lia|].
    destruct (read_ended _ _ _ _ _ R Hin1) as [Hn _].
    destruct (query_readline_line fuel client1 [] client2 hb) as (hc & buf & X & -> & _); [by eapply line_fail|by apply list.Forall_nil|simpl; lia|done|].
    done.
  - destruct (sizes_line _ _ Hsz) as [Hl0 Hl1].
    destruct (line_read_live client1 _ [] HA HB Hok1 Hl1 Hin1) as (client2 & Hline & Hok2 & Hf2 & _ & Hin2).
    destruct (query_readline_line fuel client1 (join 32 toks) client2 hb Hline Hl0 Hf Hbb) as (hc & buf & X & -> & [Kc Hbuf HX Hbc] & Hsc).
    rewrite bind_Done, (region_cstr_app _ []), bind_Done by done. destruct Hsz as [Hne Htok _ Hfew Hat].
    destruct (client_split_sizes 32 toks Hne Htok ltac:(lia)) as [-> ->]. rewrite bind_Done, s32_small by lia.
    destruct (alloc_sizes_run toks hc Hbc) as (hd & at_ & tks & -> & Hbd & Hsd & Kd & Hndt & Hlt).
    destruct (result_alloc_run (length toks) hd Hbd) as (he & rp & -> & Hbe & Hse & Ke & Hndr & Hlr & Hrp).
    destruct (kept_trans _ _ _ _ _ Hbc Kc Kd) as [K2 D2]. destruct (kept_trans _ _ _ _ _ Hbd K2 Ke) as [K3 D3].
    destruct (free_block_run hb he _ buf Hbb Hbe K3) as (hf & -> & _); [set_solver|]. rewrite bind_Done, Hrp.
    destruct Hat as [|tok n toks ns [Hn Hpos] _]; [done|].
    cbn [length replicate recv_texts fmap list_fmap app head deref]. rewrite bind_Done. unfold recv_text.
    rewrite Hn, bind_Done, (proj2 (Z.ltb_ge _ _)) by lia. rewrite (reads_as_client client) by (rewrite (is_ssl_flags client1); done).
    destruct (client_read_run client2 n Hok2) as (client3 & num' & l & -> & R); [lia|].
    destruct (read_ended _ _ _ _ _ R Hin2) as [Hn' ->]. rewrite bind_Done. unfold memcpy. cbn [length].
    rewrite decide_True, bind_Done by lia. by rewrite (proj2 (Z.ltb_lt _ _)) by lia.
Qed.
End Query.

(** ** Runs *)

Definition plain (input : list Z) : xfiredb_client (conn false) (conn false) := Client (Conn input [] []) None XFIREDB_SOCK_STREAM.
Definition secure (input : list Z) (caps : list nat) : xfiredb_client (conn true) (conn true) :=
  Client (Conn [] [] []) (Some (Conn input caps [])) (Z.lor XFIREDB_SSL XFIREDB_SOCK_STREAM).
Definition sizes2 : list (list Z) := [bytes "7"; bytes "4"].
Definition texts2 : list (list Z) := [bytes "+hello"; bytes "%42"].
Definition no_texts : cheap := CHeap ∅ ∅ 1.

Lemma sizes2_ok : sizes_ok sizes2 (text_sizes texts2).
Proof. split; [done|repeat constructor; done || decide_by_compute..|done|repeat constructor; done]. Qed.
Lemma texts2_ok : Forall text_ok texts2.
Proof. repeat (constructor; [split; [done|split; [decide_by_compute|intros t Ht; try discriminate; injection Ht as <-; by exists 42]]|]). constructor. Qed.
Lemma no_texts_below : below no_texts.
Proof. split; [done|]. split; [by intros a [y Hy]|set_solver]. Qed.

Lemma query_readline_line_witness :
  ∃ h' a X, query_readline 170 7 (plain (bytes "4 12 7" ++ [10; 43; 97])) no_texts = Done (bytes "4 12 7" ++ [0], a, plain [43; 97], h') ∧
    line_kept no_texts h' a 0 X ∧ c_strs h' = ∅.
Proof.
  apply (query_readline_line 170 7 _ (bytes "4 12 7")); [|decide_by_compute|simpl; lia|exact no_texts_below].
  do 6 (eapply line_char; [vm_compute; reflexivity|lia|done|]). by eapply line_newline; [vm_compute; reflexivity|].
Defined.

Lemma query_reply_witness :
  ∃ client' h' rp K, xfiredb_query 0 4 (Some (plain (reply sizes2 texts2))) no_texts (Some (bytes "LRANGE l 0 1")) =
      Done (Some client', h', Some rp) ∧ shown (rp_results rp) texts2 K ∧ c_strs h' = ∅ ∪ K ∧ cl_input client' = [] ∧ cl_flags client' = 1 ∧
    ∃ h'' X, xfiredb_result_free h' rp = Done h'' ∧ c_strs h'' = ∅ ∧ c_blocks h'' = X ∪ ∅ ∧ X ## ∅ ∧ size X = 0%nat.
Proof.
  apply (query_reply 0 4 (plain (reply sizes2 texts2)) no_texts (bytes "LRANGE l 0 1") sizes2 texts2 []);
    [exact conn_full|exact conn_full|done|exact no_texts_below|exact sizes2_ok|exact texts2_ok|by apply list.Forall_nil| |simpl; lia].
  eexists _, _. split; [reflexivity|]. split; reflexivity.
Defined.

(** A line of sizes of 1500 bytes: one buffer is lost. *)
Lemma long_line_leaks :
  match query_readline 170 1501 (plain (replicate 1500 52 ++ [10])) no_texts with
  | Done (buf, a, _, h) => length buf = 1501%nat ∧ c_blocks h = {[a; 2]} ∧ a ≠ 2
  | _ => False
  end.
Proof. vm_compute. split; [reflexivity|]. split; [reflexivity|discriminate]. Qed.

(** The first text is cut after three bytes. *)
Definition cut2 : xfiredb_client (conn true) (conn true) := secure (reply sizes2 texts2) [0; 0; 0; 0; 2]%nat.

Lemma query_short_reads_witness :
  ∃ client' ps, concat ((λ t, t ++ [NEWLINE]) <$> texts2) = concat ps ++ cl_input client' ∧ Forall2 piece_of ps [7; 4] ∧
    (Forall text_ok (texts_of ps) → ∃ h' rp K,
      xfiredb_query 0 4 (Some cut2) no_texts (Some (bytes "LRANGE l 0 1")) = Done (Some client', h', Some rp) ∧
      shown (rp_results rp) (texts_of ps) K ∧ c_strs h' = ∅ ∪ K).
Proof.
  apply (query_short_reads 0 4 cut2 no_texts (bytes "LRANGE l 0 1") sizes2 [7; 4]);
    [apply conn_live|apply conn_live|by eexists|exact no_texts_below|exact sizes2_ok|decide_by_compute|vm_compute; discriminate| |simpl; lia].
  eexists _, _. split; [reflexivity|]. split; reflexivity.
Defined.

(** The results of this run are the string ["h"] and the message ["llo"], and the second
    text is still to come. *)
Lemma cut_reply :
  match xfiredb_query 0 4 (Some cut2) no_texts (Some (bytes "LRANGE l 0 1")) with
  | Done (Some client', h', Some rp) =>
      cl_input client' = bytes "%42" ++ [10] ∧
      match rp_results rp with
      | [XResult a XFIREDB_STRING 8; XResult b XFIREDB_STATUS 4] => c_strs h' = {[b := bytes "llo" ++ [0]; a := bytes "h" ++ [0]]}
      | _ => False
      end
  | _ => False
  end.
Proof. vm_compute. split; reflexivity. Qed.

Lemma query_lost_reply_witness :
  xfiredb_query 0 4 (Some (plain (bytes "7 4" ++ [10]))) no_texts (Some (bytes "LRANGE l 0 1")) = Stuck.
Proof.
  apply (query_lost_reply 0 4 (plain (bytes "7 4" ++ [10])) no_texts (bytes "LRANGE l 0 1") sizes2 (text_sizes texts2));
    [apply conn_live|apply conn_live|done|exact no_texts_below|exact sizes2_ok|simpl; lia|right].
  eexists _, _. split; [reflexivity|]. split; reflexivity.
Defined.
