(* ===== verification/Connect.v ===== *)
(** * Connections of the client: [clients/c/connect.c]

    [xfiredb_connect] resolves a name, opens a socket, connects it, with or without
    SSL, and switches the server to streaming; [xfiredb_auth_client] gives a name and a
    password; [xfiredb_disconnect] releases what the client owns.  The resources that
    the program has to give back are kept in a set: structures, sockets, SSL contexts
    and SSL handles.  The name service, the peers and OpenSSL are the class [Network]. *)
From stdpp Require Import pretty.
From S2P Require Import Prelude Mem Client Stream.
Local Open Scope Z_scope.

(** ** Addresses *)

(** [in_addr] in the order of the network: the first byte is the lowest one. *)
Record sockaddr_in := SockAddr { sin_addr : Z; sin_port : Z }.

Definition htons (p : Z) : Z :=
  Z.lor (Z.shiftl (Z.land p 255) 8) (Z.land (Z.shiftr p 8) 255).

Definition decimal (n : Z) : list Z := bytes (pretty (Z.to_N n)).
Definition addr_byte (a k : Z) : Z := Z.land (Z.shiftr a (8 * k)) 255.
Definition DOT : Z := 46.
Definition inet_ntoa (a : Z) : list Z :=
  decimal (addr_byte a 0) ++ DOT :: decimal (addr_byte a 1) ++ DOT ::
  decimal (addr_byte a 2) ++ DOT :: decimal (addr_byte a 3).

(** ** Resources *)

Inductive resource := RMem (p : loc) | RSocket (fd : Z) | RCtx (p : loc) | RSsl (p : loc).
#[export] Instance resource_eq_dec : EqDecision resource.
Proof. solve_decision. Defined.
#[export] Instance resource_countable : Countable resource.
Proof.
  refine (inj_countable'
    (λ r, match r with RMem p => (0, p) | RSocket p => (1, p) | RCtx p => (2, p) | RSsl p => (3, p) end)
    (λ '(k, p), if k =? 0 then RMem p else if k =? 1 then RSocket p else if k =? 2 then RCtx p else RSsl p) _).
  by intros [].
Defined.

Definition res_id (r : resource) : Z :=
  match r with RMem p | RSocket p | RCtx p | RSsl p => p end.

(** What is to be given back, the next identifier, and [initialised]. *)
Record world := World { w_live : gset resource; w_next : Z; w_init : bool }.

Definition acquire (mk : Z → resource) (w : world) : world * Z :=
  (World ({[mk (w_next w)]} ∪ w_live w) (w_next w + 1) (w_init w), w_next w).
Definition release (r : resource) (w : world) : outcome world :=
  if decide (r ∈ w_live w) then Done (World (w_live w ∖ {[r]}) (w_next w) (w_init w)) else Stuck.

Definition xfiredb_free (p : loc) (w : world) : outcome world :=
  if p =? 0 then Done w else release (RMem p) w.
(** [close]: a descriptor that is not open is an error, which is ignored. *)
Definition close (fd : Z) (w : world) : world :=
  World (w_live w ∖ {[RSocket fd]}) (w_next w) (w_init w).

(** [xfiredb_init]: the tables of OpenSSL. *)
Definition xfiredb_init (w : world) : world := World (w_live w) (w_next w) true.

(** ** The network

    [gethostbyname] gives the list of addresses; [net_socket] tells whether there is a
    descriptor left, [ssl_ctx_new] and [ssl_new] whether OpenSSL has memory; [net_connect]
    gives the stream to the peer that accepts; [ssl_handshake] is [SSL_connect]: its
    result and the stream over the socket. *)
Class Network (S T : Type) := {
  gethostbyname : list Z → option (list Z);
  net_socket : bool;
  net_connect : sockaddr_in → option S;
  ssl_ctx_new : bool;
  ssl_new : bool;
  ssl_handshake : S → Z * T }.

Record xfiredb_ssl_client := SslClient { sh_mem : loc; sh_ctx : loc; sh_ssl : loc }.

(** A client: the address of the structure, its pointers and its descriptor; and the
    streams and flags, which are what queries use. *)
Record connection (S T : Type) := Connection {
  k_ptr : loc;
  k_fd : Z;
  k_serv : loc;
  k_ssl : option xfiredb_ssl_client;
  k_client : xfiredb_client S T }.
Arguments Connection {S T} _ _ _ _ _.
Arguments k_ptr {S T} _.
Arguments k_fd {S T} _.
Arguments k_serv {S T} _.
Arguments k_ssl {S T} _.
Arguments k_client {S T} _.

Section Connect.
Context {S T : Type} `{Stream S} `{Stream T} `{Network S T}.
Abbreviation connection := (connection S T).
Implicit Types (c : connection) (w : world).

Definition set_client c (k : xfiredb_client S T) : connection :=
  Connection (k_ptr c) (k_fd c) (k_serv c) (k_ssl c) k.

(** [socket(AF_INET, SOCK_STREAM, 0)] *)
Definition socket w : world * Z := if net_socket then acquire RSocket w else (w, -1).
Definition connect (fd : Z) (addr : sockaddr_in) : option S :=
  if fd <? 0 then None else net_connect addr.

(** ** Connecting

    What the functions print about a failure is left out. *)

(** Running out of memory ends the process. *)
Definition xfiredb_ssl_init w : outcome (world * loc) :=
  if ssl_ctx_new then Done (acquire RCtx w) else Stuck.

(** [ip] is an array of the caller: the result is the array and the code. *)
Definition hostname_to_ip (host : list Z) (ip : region) : outcome (region * Z) :=
  match gethostbyname host with
  | None => Done (ip, - XFIREDB_ERR)
  | Some [] => Done (ip, - XFIREDB_OK)
  | Some (a :: _) =>
      let s := inet_ntoa a in
      ip ← memcpy ip (s ++ [0]) (Z.of_nat (length s) + 1);
      Done (ip, - XFIREDB_OK)
  end.

Definition xfiredb_ssl_connect w (hostname : list Z) (port flags : Z) : outcome (world * option connection) :=
  let w := if w_init w then w else xfiredb_init w in
  let '(w, client) := acquire RMem w in
  let '(w, ssl) := acquire RMem w in
  '(w, ctx) ← xfiredb_ssl_init w;
  match gethostbyname hostname with
  | None =>
      w ← xfiredb_free ssl w;
      w ← xfiredb_free client w;
      Done (w, None)
  | Some h_addr_list =>
      let '(w, sock) := socket w in
      h_addr ← deref (head h_addr_list);
      match connect sock (SockAddr h_addr (htons port)) with
      | None =>
          let w := close sock w in
          w ← xfiredb_free ssl w;
          w ← xfiredb_free client w;
          Done (w, None)
      | Some s =>
          if ssl_new then
            let '(w, handle) := acquire RSsl w in
            let '(rc, t) := ssl_handshake s in
            if rc =? -1 then
              let w := close sock w in
              w ← release (RCtx ctx) w;
              w ← xfiredb_free ssl w;
              w ← xfiredb_free client w;
              Done (w, None)
            else Done (w, Some (Connection client sock 0 (Some (SslClient ssl ctx handle)) (Client s (Some t) flags)))
          else Stuck  (* SSL_set_fd(NULL, sock) *)
      end
  end.

Definition __xfiredb_connect w (hostname : list Z) (port flags : Z) : outcome (world * option connection) :=
  let '(w, sock) := socket w in
  if sock <? 0 then Done (w, None)
  else
    match gethostbyname hostname with
    | None => Done (close sock w, None)
    | Some h_addr_list =>
        h_addr ← deref (head h_addr_list);
        match connect sock (SockAddr h_addr (htons port)) with
        | None => Done (close sock w, None)
        | Some s =>
            let '(w, client) := acquire RMem w in
            Done (w, Some (Connection client sock 0 None (Client s None flags)))
        end
    end.

Definition XFIREDB_STREAM_COMMAND : list Z := bytes "STREAM" ++ [10].

(** The second half of [xfiredb_connect]: the host is resolved. *)
Definition connect_stream w (host : list Z) (port flags : Z) : outcome (world * option connection) :=
  '(w, client) ← (if has_flag flags XFIREDB_SSL then xfiredb_ssl_connect else __xfiredb_connect) w host port flags;
  match client with
  | None => Done (w, None)
  | Some c =>
      if Z.land flags (Z.lor XFIREDB_SOCK_STREAM XFIREDB_AUTH) =? XFIREDB_SOCK_STREAM then
        '(k, _) ← (if has_flag flags XFIREDB_SSL then ssl_write else socket_write) (k_client c) XFIREDB_STREAM_COMMAND;
        Done (w, Some (set_client c k))
      else Done (w, Some c)
  end.

(** [tmp] is the array of 64 bytes, before anything is stored in it. *)
Definition xfiredb_connect w (tmp : region) (host : list Z) (port flags : Z) : outcome (world * option connection) :=
  if has_flag flags XFIREDB_SOCK_RESOLV then
    '(tmp, rc) ← hostname_to_ip host tmp;
    if negb (rc =? - XFIREDB_OK) then Done (w, None)
    else host ← region_cstr tmp; connect_stream w host port flags
  else connect_stream w host port flags.

(** ** Authentication *)

(** [!strcmp(r, l)], for a literal [l]: the comparison ends at the first difference. *)
Fixpoint str_equals (r : region) (l : list Z) : outcome bool :=
  match r with
  | [] => Stuck
  | x :: r =>
      match l with
      | [] => Done (x =? 0)
      | y :: l => if x =? y then str_equals r l else Done false
      end
  end.

(** The loop over [tmp]; what [recv] returns is not looked at. *)
Fixpoint auth_recv (k i : nat) (tmp : region) (client : xfiredb_client S T) : outcome (region * xfiredb_client S T) :=
  match k with
  | O => Done (tmp, client)
  | Datatypes.S k' =>
      '(client, _, l) ← socket_read client 1;
      tmp ← (match l with [] => Done tmp | x :: _ => store tmp i x end);
      x ← deref (tmp !! i);
      if x =? 10 then Done (tmp, client) else auth_recv k' (Datatypes.S i) tmp client
  end.

Definition auth_query (username password : list Z) : list Z :=
  bytes "AUTH " ++ username ++ [32] ++ password ++ [10].
Definition auth_ok : list Z := bytes "OK" ++ [10].

(** [tmp] is the array of 1024 bytes, before anything is stored in it. *)
Definition xfiredb_auth_client w (tmp : region) c (username password : list Z) : outcome (world * connection * Z) :=
  let tmp := xfiredb_zalloc 1023 ++ drop 1023 tmp in
  let '(w, query) := acquire RMem w in
  let client := k_client c in
  if has_flag (cl_flags client) XFIREDB_SSL then
    '(client, _) ← ssl_write client (auth_query username password);
    '(client, _, l) ← ssl_read client 1024;
    tmp ← memcpy tmp l (Z.of_nat (length l));
    same ← str_equals tmp auth_ok;
    if negb same then
      w ← xfiredb_free query w;
      Done (w, set_client c client, - XFIREDB_ERR)
    else
      '(client, _) ← (if has_flag (cl_flags client) XFIREDB_SOCK_STREAM then ssl_write client XFIREDB_STREAM_COMMAND
                      else Done (client, 0));
      w ← xfiredb_free query w;
      Done (w, set_client c client, - XFIREDB_OK)
  else
    '(client, _) ← socket_write client (auth_query username password);
    '(tmp, client) ← auth_recv 1024 0 tmp client;
    same ← str_equals tmp auth_ok;
    if negb same then
      w ← xfiredb_free query w;
      Done (w, set_client c client, - XFIREDB_ERR)
    else
      '(client, _) ← (if has_flag (cl_flags client) XFIREDB_SOCK_STREAM then socket_write client XFIREDB_STREAM_COMMAND
                      else Done (client, 0));
      w ← xfiredb_free query w;
      Done (w, set_client c client, - XFIREDB_OK).

(** ** Disconnecting *)

Definition xfiredb_disconnect w (client : option connection) : outcome world :=
  match client with
  | None => Done w
  | Some c =>
      w ← (match k_ssl c with
           | Some ssl =>
               if has_flag (cl_flags (k_client c)) XFIREDB_SSL then
                 w ← release (RSsl (sh_ssl ssl)) w;
                 w ← release (RCtx (sh_ctx ssl)) w;
                 xfiredb_free (sh_mem ssl) w
               else Done w
           | None => Done w
           end);
      let w := close (k_fd c) w in
      w ← xfiredb_free (k_serv c) w;
      xfiredb_free (k_ptr c) w
  end.

(** ** Resources *)

(** Identifiers are used once. *)
Definition world_ok w : Prop := 0 < w_next w ∧ ∀ r, r ∈ w_live w → 0 < res_id r < w_next w.

(** What a client owns. *)
Definition owned c : gset resource :=
  {[RMem (k_ptr c); RSocket (k_fd c)]} ∪
  match k_ssl c with Some ssl => {[RMem (sh_mem ssl); RCtx (sh_ctx ssl); RSsl (sh_ssl ssl)]} | None => ∅ end.

(** A client that [xfiredb_connect] returned. *)
Record connected c : Prop := {
  kc_ok : cl_ok (k_client c);
  kc_ssl : is_ssl (k_client c) = bool_decide (is_Some (k_ssl c));
  kc_serv : k_serv c = 0;
  kc_ptr : 0 < k_ptr c;
  kc_mem : ∀ ssl, k_ssl c = Some ssl → 0 < sh_mem ssl ∧ sh_mem ssl ≠ k_ptr c }.

Lemma fresh_id r w : world_ok w → w_next w ≤ res_id r → r ∉ w_live w.
Proof. intros [_ Hw] Hr Hin. specialize (Hw r Hin). lia. Qed.

Lemma release_run r w :
  r ∈ w_live w → release r w = Done (World (w_live w ∖ {[r]}) (w_next w) (w_init w)).
Proof. intros Hr. unfold release. by rewrite decide_True. Qed.

Lemma free_mem_run p w : 0 < p → RMem p ∈ w_live w → xfiredb_free p w = Done (World (w_live w ∖ {[RMem p]}) (w_next w) (w_init w)).
Proof. intros Hp Hr. unfold xfiredb_free. rewrite (proj2 (Z.eqb_neq _ _)) by lia. by apply release_run. Qed.

Lemma free_null w : xfiredb_free 0 w = Done w.
Proof. done. Qed.

Lemma world_ok_smaller w L i : world_ok w → L ⊆ w_live w → world_ok (World L (w_next w) i).
Proof. intros [Hn Hw] HL. split; [done|]. cbn. intros r Hr. apply Hw. set_solver. Qed.
Lemma acquire_run mk w :
  (∀ p, res_id (mk p) = p) → world_ok w →
  ∃ w', acquire mk w = (w', w_next w) ∧ world_ok w' ∧ 0 < w_next w ∧ w_next w < w_next w' ∧
    w_live w' = {[mk (w_next w)]} ∪ w_live w ∧ w_init w' = w_init w.
Proof.
  intros Hmk [Hn Hw]. eexists. split; [done|]. cbn. split_and!; [|lia..|done|done]. split; [cbn; lia|]. cbn.
  intros r [->%elem_of_singleton|Hr]%elem_of_union; [rewrite Hmk; lia|]. specialize (Hw r Hr). lia.
Qed.
Lemma world_ok_later live n i k : world_ok (World live n i) → 0 ≤ k → world_ok (World live (n + k) i).
Proof. intros [Hn Hw] Hk. split; cbn in *; [lia|]. intros r Hr. specialize (Hw r Hr). lia. Qed.
Lemma world_ok_insert r live n i : 0 < res_id r < n → world_ok (World live n i) → world_ok (World ({[r]} ∪ live) n i).
Proof. intros Hr [Hn Hw]. split; [done|]. cbn in *. intros r' [->%elem_of_singleton|Hr']%elem_of_union; [done|by apply Hw]. Qed.

Lemma disconnect_run w c L :
  connected c → w_live w = L ∪ owned c → L ## owned c →
  ∃ w', xfiredb_disconnect w (Some c) = Done w' ∧ w_live w' = L ∧ w_next w' = w_next w.
Proof.
  intros [Hok Hssl Hserv Hptr Hmem] Hw Hd. destruct c as [p fd serv ssl client]. cbn in *. subst serv.
  destruct w as [live n i]. cbn in Hw. subst live. unfold owned in *. cbn [k_ptr k_fd k_ssl] in *. unfold is_ssl in Hssl.
  destruct ssl as [[m ctx s]|]; cbn [k_ssl k_serv k_ptr k_fd sh_ssl sh_ctx sh_mem xfiredb_disconnect] in *.
  - rewrite Hssl. rewrite bool_decide_eq_true_2 by by eexists. destruct (Hmem _ eq_refl) as [Hm Hne]. cbn in Hm, Hne.
    rewrite release_run by set_solver. rewrite bind_Done, release_run by set_solver.
    rewrite bind_Done, free_mem_run by (done || set_solver). rewrite bind_Done, free_null, bind_Done. unfold close. cbn [w_live w_next w_init].
    rewrite free_mem_run by (done || set_solver). eexists. split; [done|]. cbn [w_live w_next]. split; [set_solver|done].
  - rewrite bind_Done, free_null, bind_Done. unfold close. cbn [w_live w_next w_init].
    rewrite free_mem_run by (done || set_solver). eexists. split; [done|]. cbn [w_live w_next]. split; [set_solver|done].
Qed.

(** ** Connecting *)

(** The network's part: memory for OpenSSL, and a name that is known has an address. *)
Definition network_ok : Prop :=
  ssl_ctx_new = true ∧ ssl_new = true ∧ ∀ h, gethostbyname h ≠ Some [].

(** A client, with everything it owns, over what was there. *)
Definition gained w w' c : Prop :=
  connected c ∧ w_live w' = w_live w ∪ owned c ∧ w_live w ## owned c.

Lemma ssl_flag_client s t flags : is_ssl (Client (S := S) (T := T) s t flags) = has_flag flags XFIREDB_SSL.
Proof. done. Qed.

(** The stream to the peer; there is none when the name is not known, when there is no
    descriptor, or when the peer refuses. *)
Definition reached (host : list Z) (port : Z) : option S :=
  match gethostbyname host with
  | Some (a :: _) => if net_socket then net_connect (SockAddr a (htons port)) else None
  | _ => None
  end.

Lemma connect_plain_run w host port flags :
  world_ok w → network_ok → has_flag flags XFIREDB_SSL = false →
  ∃ w' r, __xfiredb_connect w host port flags = Done (w', r) ∧ world_ok w' ∧
    match reached host port with
    | None => r = None ∧ w_live w' = w_live w
    | Some s => ∃ c, r = Some c ∧ gained w w' c ∧ k_client c = Client s None flags
    end.
Proof.
  intros Hw (_ & _ & Hne) Hssl. unfold __xfiredb_connect, reached, socket, connect. pose proof (proj1 Hw) as Hn.
  pose proof (fresh_id (RSocket (w_next w)) w Hw ltac:(done)) as Hs.
  pose proof (fresh_id (RMem (w_next w + 1)) w Hw ltac:(cbn; lia)) as Hm.
  destruct w as [live n i]. cbn [w_next w_live] in *. pose proof (world_ok_later live n i 1 Hw ltac:(lia)) as Hw1.
  destruct net_socket.
  2:{ eexists _, None. split; [done|]. split; [done|]. by destruct (gethostbyname host) as [[]|]. }
  cbn [acquire w_next w_live w_init]. rewrite (proj2 (Z.ltb_ge _ _)) by lia.
  assert (close n (World ({[RSocket n]} ∪ live) (n + 1) i) = World live (n + 1) i) as Hclose by (unfold close; cbn; f_equal; set_solver).
  destruct (gethostbyname host) as [[|a l]|] eqn:Eh; [by apply Hne in Eh| |by rewrite Hclose; eexists _, None].
  cbn [head deref]. rewrite bind_Done. destruct (net_connect _) as [s|] eqn:Ec; [|by rewrite Hclose; eexists _, None].
  eexists _, _. split; [done|]. split.
  - apply world_ok_insert, world_ok_insert; cbn; try lia. by apply world_ok_later.
  - eexists. split; [done|]. split; [|done]. split; [|unfold owned; cbn; set_solver].
    split; cbn; try done; [|lia]. intros Hi. by rewrite ssl_flag_client, Hssl in Hi.
Qed.

(** Both structures are given back. *)
Lemma free_structs n m i (B L : gset resource) :
  0 < n → RMem n ∉ B → RMem (n + 1) ∉ B → L = {[RMem (n + 1)]} ∪ ({[RMem n]} ∪ B) →
  (w ← xfiredb_free (n + 1) (World L m i); w ← xfiredb_free n w; Done (w, @None connection)) = Done (World B m i, None).
Proof.
  intros Hn HB0 HB1 ->. assert (RMem n ≠ RMem (n + 1)) by (intros E; injection E; lia).
  rewrite free_mem_run by (lia || (cbn; set_solver)). rewrite bind_Done, free_mem_run by (lia || (cbn; set_solver)). rewrite bind_Done. cbn.
  do 3 f_equal. set_solver.
Qed.

Lemma close_run fd w L : w_live w ∖ {[RSocket fd]} = L → close fd w = World L (w_next w) (w_init w).
Proof. by intros <-. Qed.

Lemma connect_ssl_run w host port flags :
  world_ok w → network_ok → has_flag flags XFIREDB_SSL = true →
  ∃ w' r, xfiredb_ssl_connect w host port flags = Done (w', r) ∧ world_ok w' ∧
    match reached host port with
    | None => r = None ∧ ∃ p, w_next w ≤ p ∧ w_live w' = {[RCtx p]} ∪ w_live w
    | Some s =>
        if (ssl_handshake s).1 =? -1 then r = None ∧ ∃ p, w_next w ≤ p ∧ w_live w' = {[RSsl p]} ∪ w_live w
        else ∃ c, r = Some c ∧ gained w w' c ∧ k_client c = Client s (Some (ssl_handshake s).2) flags
    end.
Proof.
  intros Hw (Hctx & Hnew & Hne) Hssl. pose proof (proj1 Hw) as Hn.
  assert (∀ r, w_next w ≤ res_id r → r ∉ w_live w) as Hf by (intros r; by apply fresh_id).
  destruct w as [live n i]. cbn [w_next w_live] in *.
  unfold xfiredb_ssl_connect, xfiredb_ssl_init. rewrite Hctx, Hnew.
  assert ((if w_init (World live n i) then World live n i else xfiredb_init (World live n i)) = World live n true) as -> by by destruct i.
  cbn [acquire w_next w_live w_init]. rewrite bind_Done.
  pose proof (world_ok_later live n i 1 Hw ltac:(lia)) as Hw1.
  pose proof (world_ok_later live (n + 1) i 1 Hw1 ltac:(lia)) as Hw2.
  pose proof (world_ok_later live _ i 1 Hw2 ltac:(lia)) as Hw3.
  pose proof (world_ok_later live _ i 1 Hw3 ltac:(lia)) as Hw4. pose proof (world_ok_later live _ i 1 Hw4 ltac:(lia)) as Hw5.
  set (m3 := n + 1 + 1 + 1) in *. set (Lm := {[RMem (n + 1)]} ∪ ({[RMem n]} ∪ live)).
  assert (∀ r, n ≤ res_id r → r ∉ live) as Hf' by done.
  pose proof (Hf (RMem n) ltac:(done)) as F0. pose proof (Hf (RMem (n + 1)) ltac:(cbn; lia)) as F1.
  pose proof (Hf (RCtx (n + 1 + 1)) ltac:(cbn; lia)) as F2. pose proof (Hf (RSocket m3) ltac:(cbn; lia)) as F3.
  assert (∀ m k, world_ok (World live m k) → n + 1 + 1 < m → world_ok (World ({[RCtx (n + 1 + 1)]} ∪ live) m true)) as HL.
  { intros m k [Hm1 Hm2] ?. apply world_ok_insert; [cbn; lia|by split]. }
  cbn [acquire w_next w_live w_init]. unfold reached, socket, connect.
  destruct (gethostbyname host) as [[|a l]|] eqn:Eh; [by apply Hne in Eh| |].
  2:{ rewrite (free_structs n m3 true ({[RCtx (n + 1 + 1)]} ∪ live)) by (done || set_solver).
      eexists _, None. split; [done|]. split; [by apply (HL _ i); [|lia]|]. split; [done|]. exists (n + 1 + 1). split; [lia|done]. }
  cbn [head deref].
  destruct net_socket; cbn [acquire w_next w_live w_init]; rewrite bind_Done.
  2:{ change (-1 <? 0) with true. cbv iota. rewrite (close_run (-1) _ ({[RCtx (n + 1 + 1)]} ∪ Lm)).
      2:{ cbn. assert (RSocket (-1) ∉ live); [|set_solver]. destruct Hw as [_ Hw]. intros Hin. specialize (Hw _ Hin). cbn in Hw. lia. }
      cbn [w_next w_init]. rewrite (free_structs n m3 true ({[RCtx (n + 1 + 1)]} ∪ live)) by (done || set_solver).
      eexists _, None. split; [done|]. split; [by apply (HL _ i); [|lia]|]. split; [done|]. exists (n + 1 + 1). split; [lia|done]. }
  rewrite (proj2 (Z.ltb_ge _ _)) by lia. destruct (net_connect _) as [s|] eqn:Ec.
  2:{ rewrite (close_run m3 _ ({[RCtx (n + 1 + 1)]} ∪ Lm)) by (cbn; set_solver).
      cbn [w_next w_init]. rewrite (free_structs n (m3 + 1) true ({[RCtx (n + 1 + 1)]} ∪ live)) by (done || set_solver).
      eexists _, None. split; [done|]. split; [by apply (HL _ i); [|lia]|]. split; [done|]. exists (n + 1 + 1). split; [lia|done]. }
  destruct (ssl_handshake s) as [rc t] eqn:Eh'. cbn [fst snd].
  pose proof (Hf (RSsl (m3 + 1)) ltac:(cbn; lia)) as F4. destruct (rc =? -1).
  - rewrite (close_run m3 _ ({[RSsl (m3 + 1)]} ∪ ({[RCtx (n + 1 + 1)]} ∪ Lm))) by (cbn; set_solver).
    cbn [w_next w_init]. rewrite release_run by set_solver. rewrite bind_Done.
    rewrite (free_structs n (m3 + 1 + 1) true ({[RSsl (m3 + 1)]} ∪ live)) by (done || (cbn; set_solver)).
    eexists _, None. split; [done|]. split; [|split; [done|]; exists (m3 + 1); split; [lia|done]].
    apply world_ok_insert; [cbn; lia|]. by split; [cbn; lia|]; destruct Hw5.
  - eexists _, _. split; [done|]. split.
    + do 5 (apply world_ok_insert; [cbn; lia|]). split; [cbn; lia|]. by destruct Hw5.
    + eexists. split; [done|]. split; [|done]. split; [|unfold owned; cbn; split; set_solver].
      split; cbn; try done; [by eexists|]. intros ssl [= <-]. cbn. lia.
Qed.

(** *** Names *)

Lemma decimal_byte b : 0 ≤ b < 256 → no_nul (decimal b) ∧ (length (decimal b) ≤ 3)%nat.
Proof.
  intros Hb. assert (Forall (λ k, no_nul (decimal (Z.of_nat k)) ∧ (length (decimal (Z.of_nat k)) ≤ 3)%nat) (seq 0 256)) as Hall
    by (decide_by_compute).
  rewrite list.Forall_forall in Hall. specialize (Hall (Z.to_nat b)). rewrite Z2Nat.id in Hall by lia. apply Hall, elem_of_seq. lia.
Qed.

Lemma addr_byte_range a k : 0 ≤ addr_byte a k < 256.
Proof. unfold addr_byte. change 255 with (Z.ones 8). rewrite Z.land_ones by lia. apply Z.mod_pos_bound. done. Qed.

(** The text of an address has at most 15 characters. *)
Lemma inet_ntoa_text a : no_nul (inet_ntoa a) ∧ (length (inet_ntoa a) ≤ 15)%nat.
Proof.
  unfold inet_ntoa. destruct (decimal_byte _ (addr_byte_range a 0)), (decimal_byte _ (addr_byte_range a 1)),
    (decimal_byte _ (addr_byte_range a 2)), (decimal_byte _ (addr_byte_range a 3)).
  split; [|repeat (rewrite length_app || cbn [length]); lia].
  repeat (apply Forall_app; split; [done|]; constructor; [done|]). done.
Qed.

(** The name that is connected to: the address of the host as text, when it is to be
    resolved first. *)
Definition host_text (flags : Z) (host : list Z) : option (list Z) :=
  if has_flag flags XFIREDB_SOCK_RESOLV then
    match gethostbyname host with Some (a :: _) => Some (inet_ntoa a) | _ => None end
  else Some host.

Lemma hostname_to_ip_run host tmp :
  network_ok → length tmp = 64%nat →
  match gethostbyname host with
  | Some (a :: _) => ∃ x, hostname_to_ip host tmp = Done (inet_ntoa a ++ 0 :: x, - XFIREDB_OK)
  | _ => hostname_to_ip host tmp = Done (tmp, - XFIREDB_ERR)
  end.
Proof.
  intros (_ & _ & Hne) Htmp. unfold hostname_to_ip. destruct (gethostbyname host) as [[|a l]|] eqn:E; [by apply Hne in E| |done].
  destruct (inet_ntoa_text a) as [Hn Hl]. set (s := inet_ntoa a) in *. unfold memcpy.
  rewrite decide_True by (rewrite length_app; cbn [length]; lia).
  exists (drop (length s + 1) tmp). rewrite bind_Done. do 2 f_equal.
  replace (Z.to_nat (Z.of_nat (length s) + 1)) with (length s + 1)%nat by lia. rewrite take_app_add. cbn [take]. by rewrite <-app_assoc.
Qed.

(** *** [xfiredb_connect] *)

(** The client that reaches the peer. *)
Definition fresh_client (flags : Z) (s : S) : xfiredb_client S T :=
  Client s (if has_flag flags XFIREDB_SSL then Some (ssl_handshake s).2 else None) flags.
Definition streams_now (flags : Z) : bool :=
  Z.land flags (Z.lor XFIREDB_SOCK_STREAM XFIREDB_AUTH) =? XFIREDB_SOCK_STREAM.
(** The command is sent to it, unless it is to be authenticated first. *)
Definition started (flags : Z) (k k' : xfiredb_client S T) : Prop :=
  if streams_now flags then ∃ num, client_write k XFIREDB_STREAM_COMMAND = Done (k', num) else k' = k.

(** How a connection is lost: nothing is kept, or a resource is. *)
Definition lost w w' (flags : Z) (mk : Z → resource) : Prop :=
  if has_flag flags XFIREDB_SSL then ∃ p, w_next w ≤ p ∧ w_live w' = {[mk p]} ∪ w_live w else w_live w' = w_live w.

Lemma fresh_client_ok flags s : cl_ok (fresh_client flags s).
Proof. unfold cl_ok, fresh_client, is_ssl. cbn. intros ->. by eexists. Qed.

Context {LS : StreamLaws S} {LT : StreamLaws T}.

(** What comes of an attempt to connect to the name [text]. *)
Definition attempted w w' (r : option connection) (text : list Z) (port flags : Z) : Prop :=
  match reached text port with
  | None => r = None ∧ lost w w' flags RCtx
  | Some s =>
      if has_flag flags XFIREDB_SSL && ((ssl_handshake s).1 =? -1) then r = None ∧ lost w w' flags RSsl
      else ∃ c, r = Some c ∧ gained w w' c ∧ started flags (fresh_client flags s) (k_client c)
  end.

Lemma set_client_gained w w' c k :
  gained w w' c → cl_ok k → cl_flags k = cl_flags (k_client c) → gained w w' (set_client c k).
Proof. intros ([Hok Hssl Hserv Hptr Hmem] & Hl & Hd) Hk Hf. split; [|done]. split; cbn; try done. unfold is_ssl in *. by rewrite Hf. Qed.

Lemma connect_stream_run w text port flags :
  world_ok w → network_ok →
  ∃ w' r, connect_stream w text port flags = Done (w', r) ∧ world_ok w' ∧ attempted w w' r text port flags.
Proof.
  intros Hw Hnet. unfold connect_stream, attempted, lost.
  assert (∃ w' r, (if has_flag flags XFIREDB_SSL then xfiredb_ssl_connect else __xfiredb_connect) w text port flags = Done (w', r) ∧ world_ok w' ∧
    match reached text port with
    | None => r = None ∧ lost w w' flags RCtx
    | Some s =>
        if has_flag flags XFIREDB_SSL && ((ssl_handshake s).1 =? -1) then r = None ∧ lost w w' flags RSsl
        else ∃ c, r = Some c ∧ gained w w' c ∧ k_client c = fresh_client flags s
    end) as (w' & r & -> & Hw' & Hr).
  { unfold lost, fresh_client. destruct (has_flag flags XFIREDB_SSL) eqn:E; [by apply connect_ssl_run|]. cbn [andb]. by apply connect_plain_run. }
  rewrite bind_Done. destruct (reached text port) as [s|]; [|destruct Hr as [-> Hr]; by exists w', None].
  destruct (has_flag flags XFIREDB_SSL && _); [destruct Hr as [-> Hr]; by exists w', None|].
  destruct Hr as (c & -> & Hg & Hc). unfold started, streams_now.
  destruct (Z.land flags _ =? _); [|by eexists w', _; split; [done|split; [done|exists c]]].
  destruct (client_write_run (k_client c) XFIREDB_STREAM_COMMAND (kc_ok _ (proj1 Hg))) as (k & num & Hwr & Hk & Hf & _).
  unfold client_write in Hwr. assert (is_ssl (k_client c) = has_flag flags XFIREDB_SSL) as Hs by by rewrite Hc.
  rewrite Hs in Hwr. rewrite Hwr, bind_Done. eexists w', _. split; [done|]. split; [done|]. eexists. split; [done|].
  split; [by apply set_client_gained|]. exists num. cbn. unfold client_write. rewrite <-Hc, Hs. done.
Qed.

Lemma connect_run w tmp host port flags :
  world_ok w → network_ok → length tmp = 64%nat →
  ∃ w' r, xfiredb_connect w tmp host port flags = Done (w', r) ∧ world_ok w' ∧
    match host_text flags host with
    | None => r = None ∧ w_live w' = w_live w
    | Some text => attempted w w' r text port flags
    end.
Proof.
  intros Hw Hnet Htmp. unfold xfiredb_connect, host_text.
  destruct (has_flag flags XFIREDB_SOCK_RESOLV); [|by apply connect_stream_run].
  pose proof (hostname_to_ip_run host tmp Hnet Htmp) as Hip. destruct (gethostbyname host) as [[|a l]|].
  - rewrite Hip, bind_Done. by exists w, None.
  - destruct Hip as [x ->]. rewrite bind_Done. change (negb (- XFIREDB_OK =? - XFIREDB_OK)) with false. cbv iota.
    rewrite region_cstr_app, bind_Done by apply inet_ntoa_text. by apply connect_stream_run.
  - rewrite Hip, bind_Done. by exists w, None.
Qed.

(** *** [xfiredb_auth_client] *)

(** A string that is allocated and given back. *)
Lemma scratch_run w :
  world_ok w → ∃ w1 w2, acquire RMem w = (w1, w_next w) ∧ xfiredb_free (w_next w) w1 = Done w2 ∧ world_ok w2 ∧ w_live w2 = w_live w.
Proof.
  intros Hw. destruct (acquire_run RMem w ltac:(done) Hw) as (w1 & -> & Hw1 & Hn & _ & Hlive & _).
  pose proof (fresh_id (RMem (w_next w)) w Hw ltac:(done)). eexists _, _. split; [done|].
  rewrite free_mem_run by (done || (rewrite Hlive; set_solver)). split; [done|]. cbn.
  split; [apply world_ok_smaller; [done|set_solver]|rewrite Hlive; set_solver].
Qed.

Lemma auth_equals line x :
  10 ∉ line → str_equals (line ++ 10 :: 0 :: x) auth_ok = Done (bool_decide (line = bytes "OK")).
Proof.
  intros Hl. unfold auth_ok. change (bytes "OK" ++ [10]) with [79; 75; 10]. change (bytes "OK") with [79; 75].
  destruct line as [|a [|b [|c line]]]; cbn [app str_equals]; [done| | |].
  - destruct (Z.eqb_spec a 79); [|by rewrite bool_decide_eq_false_2 by congruence]. by rewrite bool_decide_eq_false_2.
  - destruct (Z.eqb_spec a 79) as [->|]; [|by rewrite bool_decide_eq_false_2 by congruence].
    destruct (Z.eqb_spec b 75) as [->|]; [done|by rewrite bool_decide_eq_false_2 by congruence].
  - rewrite bool_decide_eq_false_2 by done. destruct (a =? 79); [|done]. destruct (b =? 75); [|done].
    rewrite (proj2 (Z.eqb_neq _ _)); [done|]. intros ->. apply Hl. set_solver.
Qed.

Lemma auth_recv_run k line rest pre post client :
  st_live S → st_live T → cl_ok client → is_ssl client = false → 10 ∉ line → cl_input client = line ++ 10 :: rest →
  (length line < length post)%nat →
  ∃ client', auth_recv (length line + Datatypes.S k) (length pre) (pre ++ post) client =
      Done (pre ++ line ++ 10 :: drop (Datatypes.S (length line)) post, client') ∧
    cl_ok client' ∧ cl_flags client' = cl_flags client ∧ cl_output client' = cl_output client ∧ cl_input client' = rest.
Proof.
  intros HS HT. revert pre post client. induction line as [|b line IH]; intros pre post client Hok Hssl Hl Hin Hp;
    destruct post as [|p post]; simpl in Hp; try lia;
    destruct (client_read_byte client _ _ HS HT Hok Hin) as (client1 & num & E & _ & R1 & R2 & R3 & R4);
    unfold client_read in E; rewrite Hssl in E; cbn [length Nat.add auth_recv]; rewrite E, bind_Done;
    unfold store; rewrite decide_True by (rewrite length_app; simpl; lia);
    rewrite insert_app_r_alt, Nat.sub_diag by lia; cbn [insert list_insert]; rewrite bind_Done;
    rewrite lookup_app_r, Nat.sub_diag by lia; cbn [lookup list_lookup deref]; rewrite bind_Done.
  - by exists client1.
  - apply not_elem_of_cons in Hl as [Hb Hl]. rewrite (proj2 (Z.eqb_neq _ _)) by congruence.
    destruct (IH (pre ++ [b]) post client1) as (client' & Er & ? & Hf & Ho & ?);
      [done|by unfold is_ssl in *; rewrite R2|done|done|lia|].
    rewrite length_app, Nat.add_1_r, <-!app_assoc in Er. cbn [app] in Er. exists client'. rewrite Er.
    split_and!; [done|done|by rewrite Hf|by rewrite Ho|done].
Qed.

(** After the name and the password, [client1] has the line [line] to come. *)
Definition auth_answered (client client1 : xfiredb_client S T) (username password line rest : list Z) : Prop :=
  (∃ num, client_write client (auth_query username password) = Done (client1, num)) ∧
  cl_input client1 = line ++ 10 :: rest ∧ 10 ∉ line ∧ (length line < 1022)%nat.

Definition auth_tail (flags : Z) (line : list Z) : list Z :=
  if bool_decide (line = bytes "OK") && has_flag flags XFIREDB_SOCK_STREAM then XFIREDB_STREAM_COMMAND else [].

(** The client before ([k0]) and after ([k]) the command that may follow. *)
Record authenticated (client : xfiredb_client S T) line rest username password (k0 k : xfiredb_client S T) : Prop := {
  au_ok : cl_ok k0;
  au_flags : cl_flags k0 = cl_flags client;
  au_input : cl_input k0 = rest;
  au_output : cl_output k0 = cl_output client ++ auth_query username password;
  au_tail : if bool_decide (line = bytes "OK") && has_flag (cl_flags client) XFIREDB_SOCK_STREAM
            then ∃ num, client_write k0 XFIREDB_STREAM_COMMAND = Done (k, num) else k = k0 }.

Lemma authenticated_run (client : xfiredb_client S T) line rest username password k0 k :
  st_writes S → st_writes T → authenticated client line rest username password k0 k →
  cl_ok k ∧ cl_flags k = cl_flags client ∧
  cl_output k = cl_output client ++ auth_query username password ++ auth_tail (cl_flags client) line ∧
  (auth_tail (cl_flags client) line = [] → cl_input k = rest).
Proof.
  intros WS WT [Hok Hf Hi Ho Ht]. unfold auth_tail. destruct (_ && _).
  - destruct Ht as [num Hwr]. destruct (write_all k0 XFIREDB_STREAM_COMMAND WS WT Hok) as (? & ? & E & Hk & Hfk & Hok').
    rewrite Hwr in E. injection E as <- <-. by rewrite Hfk, Hok', Ho, app_assoc.
  - subst k. by rewrite app_nil_r.
Qed.

Lemma auth_plain_run w tmp c username password client1 line rest :
  st_live S → st_live T → st_writes S → st_writes T → world_ok w → length tmp = 1024%nat →
  cl_ok (k_client c) → is_ssl (k_client c) = false → auth_answered (k_client c) client1 username password line rest →
  ∃ w' k0 k, xfiredb_auth_client w tmp c username password =
      Done (w', set_client c k, if bool_decide (line = bytes "OK") then - XFIREDB_OK else - XFIREDB_ERR) ∧
    world_ok w' ∧ w_live w' = w_live w ∧ authenticated (k_client c) line rest username password k0 k.
Proof.
  intros HS HT WS WT Hw Htmp Hok Hssl ((num & Hwr) & Hin & Hline & Hlen). unfold xfiredb_auth_client.
  destruct (scratch_run w Hw) as (w1 & w2 & -> & Hfree & Hw2 & Hlive).
  pose proof Hssl as Hflag. unfold is_ssl in Hflag. rewrite Hflag.
  destruct (write_all (k_client c) (auth_query username password) WS WT Hok) as (? & ? & Hwr' & Hok1 & Hf1 & Ho1).
  rewrite Hwr in Hwr'. injection Hwr' as <- <-. pose proof Hwr as Hwr'. unfold client_write in Hwr'. rewrite Hssl in Hwr'. rewrite Hwr', bind_Done.
  set (tmp0 := xfiredb_zalloc 1023 ++ drop 1023 tmp).
  assert (length tmp0 = 1024%nat) as Htmp0 by (unfold tmp0, xfiredb_zalloc; rewrite length_app, length_replicate, length_drop; lia).
  destruct (auth_recv_run (1023 - length line) line rest [] tmp0 client1 HS HT Hok1) as (client2 & E & Hok2 & Hf2 & Ho2 & Hin2);
    [by unfold is_ssl in *; rewrite Hf1|done|done|lia|].
  cbn [app length] in E. replace (length line + Datatypes.S (1023 - length line))%nat with 1024%nat in E by lia. rewrite E, bind_Done.
  assert (∃ x, drop (Datatypes.S (length line)) tmp0 = 0 :: x) as [x ->].
  { unfold tmp0, xfiredb_zalloc. rewrite drop_app_le by (rewrite length_replicate; lia). rewrite drop_replicate.
    destruct (Z.to_nat 1023 - Datatypes.S (length line))%nat as [|m] eqn:Em; [lia|]. by eexists. }
  rewrite auth_equals, bind_Done by done. rewrite Hf1 in Hf2. rewrite Ho1 in Ho2. pose proof (Build_authenticated (k_client c) line rest
    username password client2) as Hbuild. destruct (bool_decide (line = bytes "OK")); cbn [negb andb] in *.
  - rewrite Hf2. destruct (has_flag (cl_flags (k_client c)) XFIREDB_SOCK_STREAM).
    + destruct (write_all client2 XFIREDB_STREAM_COMMAND WS WT Hok2) as (client3 & num3 & Hwr3 & _). pose proof Hwr3 as Hwr4.
      unfold client_write in Hwr4. replace (is_ssl client2) with false in Hwr4 by (unfold is_ssl in *; by rewrite Hf2).
      rewrite Hwr4, bind_Done, Hfree, bind_Done. exists w2, client2, client3. do 3 (split; [done|]). apply Hbuild; try done. by exists num3.
    + rewrite bind_Done, Hfree, bind_Done. exists w2, client2, client2. do 3 (split; [done|]). by apply Hbuild.
  - rewrite Hfree, bind_Done. exists w2, client2, client2. do 3 (split; [done|]). by apply Hbuild.
Qed.

Lemma land_bit a n : 0 ≤ n → Z.land a (2 ^ n) = if Z.testbit a n then 2 ^ n else 0.
Proof.
  intros Hn. apply Z.bits_inj'. intros m Hm. rewrite Z.land_spec, Z.pow2_bits_eqb by done. destruct (Z.eqb_spec n m) as [->|Hne].
  - destruct (Z.testbit a m); [by rewrite Z.pow2_bits_true|by rewrite Z.bits_0].
  - rewrite andb_false_r. destruct (Z.testbit a n); [by rewrite Z.pow2_bits_false|by rewrite Z.bits_0].
Qed.

Lemma streams_now_flags flags :
  streams_now flags = has_flag flags XFIREDB_SOCK_STREAM && negb (has_flag flags XFIREDB_AUTH).
Proof.
  unfold streams_now, has_flag. rewrite Z.land_lor_distr_r. change XFIREDB_SOCK_STREAM with (2 ^ 0). change XFIREDB_AUTH with (2 ^ 3).
  rewrite !land_bit by done. by destruct (Z.testbit flags 0), (Z.testbit flags 3).
Qed.

(** ** Properties *)

(** What a lost connection leaves behind: with SSL a context or a handle that is never
    given back; nothing when resolving the name first, as a flag asks for, has failed. *)
Definition left_behind w w' (flags : Z) (host : list Z) : Prop :=
  if has_flag flags XFIREDB_SSL && bool_decide (is_Some (host_text flags host)) then
    ∃ r, r ∉ w_live w ∧ w_live w' = {[r]} ∪ w_live w ∧ ((∃ p, r = RCtx p) ∨ (∃ p, r = RSsl p))
  else w_live w' = w_live w.

Lemma lost_left_behind w w' flags host text mk :
  world_ok w → (mk = RCtx ∨ mk = RSsl) → host_text flags host = Some text → lost w w' flags mk → left_behind w w' flags host.
Proof.
  unfold lost, left_behind. intros Hw Hmk ->. rewrite bool_decide_eq_true_2 by by eexists.
  destruct (has_flag flags XFIREDB_SSL); [|done]. cbn [andb]. intros (p & Hp & Hl). exists (mk p).
  split; [by apply fresh_id; destruct Hmk; subst|]. split; [done|]. destruct Hmk; subst; [left|right]; by exists p.
Qed.

Lemma started_run flags s k :
  started flags (fresh_client flags s) k → cl_flags k = flags ∧ cl_ok k.
Proof.
  unfold started. destruct (streams_now flags); [|intros ->; split; [done|apply fresh_client_ok]].
  intros (num & Hw). destruct (client_write_run (fresh_client flags s) XFIREDB_STREAM_COMMAND (fresh_client_ok flags s)) as (? & ? & E & ? & ? & _).
  rewrite Hw in E. by injection E as <- <-.
Qed.

(** C36: connecting and disconnecting are balanced, on a network on which OpenSSL has
    memory ([SSL_CTX_new] and [SSL_new] succeed; when the first fails the library ends the
    process, when the second does it uses NULL) and no name has an empty list of addresses.
    There [xfiredb_connect] returns, whether the name is known, a descriptor is left, the
    peer accepts and the handshake succeeds or not.  When it returns a client,
    disconnecting it, however the connection was used in between, gives back every
    structure, socket, context and handle that connecting took, each of them once.  When
    it returns NULL everything is given back too, except with SSL: then a context or a
    handle stays behind, unless the name was to be resolved first (the flag for it) and
    was not known. *)
Theorem connect_resources w tmp host port flags :
  world_ok w → network_ok → length tmp = 64%nat →
  ∃ w' r, xfiredb_connect w tmp host port flags = Done (w', r) ∧
    match r with
    | Some c => cl_flags (k_client c) = flags ∧ ∀ k, cl_ok k → cl_flags k = flags →
        ∃ w'', xfiredb_disconnect w' (Some (set_client c k)) = Done w'' ∧ w_live w'' = w_live w
    | None => xfiredb_disconnect w' None = Done w' ∧ left_behind w w' flags host
    end.
Proof.
  intros Hw Hnet Htmp. destruct (connect_run w tmp host port flags Hw Hnet Htmp) as (w' & r & E & Hw' & Hr). exists w', r. split; [done|].
  destruct (host_text flags host) as [text|] eqn:Et.
  2:{ destruct Hr as [-> Hl]. split; [done|]. unfold left_behind. rewrite Et, bool_decide_eq_false_2 by by intros [].
      by rewrite andb_false_r. }
  unfold attempted in Hr. destruct (reached text port) as [s|].
  2:{ destruct Hr as [-> Hl]. split; [done|]. eapply lost_left_behind; [done|by left|done|done]. }
  destruct (has_flag flags XFIREDB_SSL && _).
  { destruct Hr as [-> Hl]. split; [done|]. eapply lost_left_behind; [done|by right|done|done]. }
  destruct Hr as (c & -> & Hg & Hs). destruct (started_run _ _ _ Hs) as [Hf _]. split; [done|]. intros k Hk Hkf.
  destruct (set_client_gained _ _ _ k Hg Hk ltac:(congruence)) as (Hc & Hl & Hd).
  destruct (disconnect_run w' _ _ Hc Hl Hd) as (w'' & ? & ? & _). by exists w''.
Qed.

(** With the flag for authentication, connecting sends nothing. *)
Lemma auth_open w tmp host text port flags s :
  world_ok w → network_ok → length tmp = 64%nat →
  has_flag flags XFIREDB_AUTH = true → has_flag flags XFIREDB_SSL = false →
  host_text flags host = Some text → reached text port = Some s →
  ∃ w1 c, xfiredb_connect w tmp host port flags = Done (w1, Some c) ∧ world_ok w1 ∧ gained w w1 c ∧ k_client c = Client s None flags.
Proof.
  intros Hw Hnet Htmp Hauth Hssl Htext Hs.
  destruct (connect_run w tmp host port flags Hw Hnet Htmp) as (w1 & r & -> & Hw1 & Hr). rewrite Htext in Hr.
  unfold attempted in Hr. rewrite Hs, Hssl in Hr. cbn [andb] in Hr. destruct Hr as (c & -> & Hg & Hst).
  unfold started, fresh_client in Hst. rewrite streams_now_flags, Hauth, Hssl, andb_false_r in Hst. by exists w1, c.
Qed.

(** A session opens the way the flags say.  With the flag for authentication
    nothing is sent while connecting; [xfiredb_auth_client] then sends the name and
    the password, returns success exactly if the line that comes back is OK, and only
    then, and once, switches the server to streaming; the bytes after the line are
    left for the queries, and disconnecting gives everything back. *)
Lemma auth_session w tmp tmp1 host text port flags s client1 username password line rest :
  st_live S → st_live T → st_writes S → st_writes T → world_ok w → network_ok →
  length tmp = 64%nat → length tmp1 = 1024%nat →
  has_flag flags XFIREDB_AUTH = true → has_flag flags XFIREDB_SSL = false →
  host_text flags host = Some text → reached text port = Some s →
  auth_answered (Client s None flags) client1 username password line rest →
  ∃ w1 c w2 k w3, xfiredb_connect w tmp host port flags = Done (w1, Some c) ∧ cl_output (k_client c) = st_output s ∧
    xfiredb_auth_client w1 tmp1 c username password =
      Done (w2, set_client c k, if bool_decide (line = bytes "OK") then 0 else -1) ∧
    cl_output k = st_output s ++ auth_query username password ++ auth_tail flags line ∧
    (auth_tail flags line = [] → cl_input k = rest) ∧
    xfiredb_disconnect w2 (Some (set_client c k)) = Done w3 ∧ w_live w3 = w_live w.
Proof.
  intros HS HT WS WT Hw Hnet Htmp Htmp1 Hauth Hssl Htext Hs Hans.
  destruct (auth_open w tmp host text port flags s) as (w1 & c & -> & Hw1 & Hg & Hc); try done.
  rewrite <-Hc in Hans.
  destruct (auth_plain_run w1 tmp1 c username password client1 line rest) as (w2 & k0 & k & E & Hw2 & Hl2 & Ha); try done;
    [by apply Hg|by rewrite Hc|].
  destruct (authenticated_run _ _ _ _ _ _ _ WS WT Ha) as (Hk & Hf & Ho & Hi). rewrite Hc in Hf, Ho, Hi. cbn [cl_flags] in Hf, Ho, Hi.
  destruct (set_client_gained w w1 c k Hg Hk ltac:(by rewrite Hc)) as (Hcc & Hl & Hd).
  destruct (disconnect_run w2 _ _ Hcc ltac:(by rewrite Hl2) Hd) as (w3 & ? & ? & _).
  assert (cl_output (Client (T := T) s None flags) = st_output s) as Hs0 by (unfold cl_output; by rewrite ssl_flag_client, Hssl).
  rewrite Hs0 in Ho. exists w1, c, w2, k, w3. by rewrite Hc, Hs0.
Qed.

(** Without it the command is sent at once. *)
Lemma plain_session w tmp host text port flags s :
  st_writes S → st_writes T → world_ok w → network_ok → length tmp = 64%nat →
  has_flag flags XFIREDB_AUTH = false → has_flag flags XFIREDB_SSL = false →
  host_text flags host = Some text → reached text port = Some s →
  ∃ w1 c, xfiredb_connect w tmp host port flags = Done (w1, Some c) ∧ world_ok w1 ∧ gained w w1 c ∧ cl_flags (k_client c) = flags ∧
    started flags (Client s None flags) (k_client c) ∧
    cl_output (k_client c) = st_output s ++ (if has_flag flags XFIREDB_SOCK_STREAM then XFIREDB_STREAM_COMMAND else []).
Proof.
  intros WS WT Hw Hnet Htmp Hauth Hssl Htext Hs.
  destruct (connect_run w tmp host port flags Hw Hnet Htmp) as (w1 & r & -> & Hw1 & Hr). rewrite Htext in Hr.
  unfold attempted in Hr. rewrite Hs, Hssl in Hr. cbn [andb] in Hr. destruct Hr as (c & -> & Hg & Hst).
  destruct (started_run _ _ _ Hst) as [Hf _]. pose proof (fresh_client_ok flags s) as Hok. unfold fresh_client in Hst, Hok. rewrite Hssl in Hst, Hok.
  exists w1, c. do 5 (split; [done|]). assert (cl_output (Client (T := T) s None flags) = st_output s) as Hs0.
  { unfold cl_output. by rewrite ssl_flag_client, Hssl. }
  unfold started in Hst. rewrite streams_now_flags, Hauth, andb_true_r in Hst. destruct (has_flag flags XFIREDB_SOCK_STREAM).
  - destruct Hst as (num & Hwr). destruct (write_all (Client s None flags) XFIREDB_STREAM_COMMAND WS WT Hok) as (? & ? & E & _ & _ & Ho).
    rewrite Hwr in E. injection E as <- <-. by rewrite Ho, Hs0.
  - by rewrite Hst, Hs0, app_nil_r.
Qed.
End Connect.

(** ** Runs *)

(** A name service that knows one name, and every address as text; a peer that sends
    [input], and a handshake with the result [rc]. *)
Definition one_host (input : list Z) (rc : Z) : Network (conn false) (conn false) :=
  {| gethostbyname h := if decide (h = bytes "db" ∨ h = bytes "127.0.0.1") then Some [16777343] else None;
     net_socket := true;
     net_connect addr := if decide (sin_addr addr = 16777343 ∧ sin_port addr = htons 7717) then Some (Conn input [] []) else None;
     ssl_ctx_new := true;
     ssl_new := true;
     ssl_handshake s := (rc, Conn (cn_in s) [] []) |}.
Definition no_resources : world := World ∅ 1 false.

Lemma one_host_ok input rc : network_ok (S := conn false) (T := conn false) (H1 := one_host input rc).
Proof. split; [done|]. split; [done|]. intros h. cbn. by destruct (decide _). Qed.
Lemma no_resources_ok : world_ok no_resources.
Proof. split; [done|]. intros r Hr. cbn in Hr. by apply elem_of_empty in Hr. Qed.

Lemma connect_resources_witness :
  ∃ w' r, xfiredb_connect (H1 := one_host [] 1) no_resources (replicate 64 170) (bytes "db") 7717 7 = Done (w', r) ∧
    match r with
    | Some c => cl_flags (k_client c) = 7 ∧ ∀ k, cl_ok k → cl_flags k = 7 →
        ∃ w'', xfiredb_disconnect w' (Some (set_client c k)) = Done w'' ∧ w_live w'' = ∅
    | None => xfiredb_disconnect w' (@None (connection (conn false) (conn false))) = Done w' ∧
        left_behind (H1 := one_host [] 1) no_resources w' 7 (bytes "db")
    end.
Proof. apply (connect_resources (H1 := one_host [] 1)); [exact no_resources_ok|exact (one_host_ok [] 1)|done]. Defined.

Lemma auth_session_witness :
  ∃ w1 c w2 k w3,
    xfiredb_connect (H1 := one_host (bytes "OK" ++ [10; 65]) 1) no_resources (replicate 64 170) (bytes "db") 7717 11 = Done (w1, Some c) ∧
    cl_output (k_client c) = [] ∧
    xfiredb_auth_client w1 (replicate 1024 170) c (bytes "ann") (bytes "pw") =
      Done (w2, set_client c k, if bool_decide (bytes "OK" = bytes "OK") then 0 else -1) ∧
    cl_output k = auth_query (bytes "ann") (bytes "pw") ++ auth_tail 11 (bytes "OK") ∧
    (auth_tail 11 (bytes "OK") = [] → cl_input k = [65]) ∧
    xfiredb_disconnect w2 (Some (set_client c k)) = Done w3 ∧ w_live w3 = ∅.
Proof.
  refine (auth_session (H1 := one_host (bytes "OK" ++ [10; 65]) 1) no_resources (replicate 64 170) (replicate 1024 170) (bytes "db") (bytes "127.0.0.1") 7717 11
    (Conn (bytes "OK" ++ [10; 65]) [] []) (Client (Conn (bytes "OK" ++ [10; 65]) [] (bytes "AUTH ann pw" ++ [10])) None 11)
    (bytes "ann") (bytes "pw") (bytes "OK") [65] _ _ _ _ _ _ _ _ _ _ _ _ _);
    [apply conn_live|apply conn_live|done|done|exact no_resources_ok|apply one_host_ok|done|done|done|done|reflexivity|reflexivity|].
  split; [by exists 12|]. split; [done|]. split; [decide_by_compute|simpl; lia].
Defined.

(** A handshake that is shut down, whose result is 0, is taken for a success; one that
    fails leaves the handle behind. *)
Lemma handshake_shut_down :
  ∃ w c, xfiredb_connect (H1 := one_host [] 0) no_resources (replicate 64 170) (bytes "db") 7717 4 = Done (w, Some c).
Proof. eexists _, _. vm_compute. reflexivity. Qed.
Lemma handshake_failed :
  xfiredb_connect (H1 := one_host [] (-1)) no_resources (replicate 64 170) (bytes "db") 7717 4 = Done (World {[RSsl 5]} 6 true, None).
Proof. vm_compute. reflexivity. Qed.
