(* ===== verification/Cli.v ===== *)
(** * The command line client: [clients/cli/cli.c]

    [cli_main] reads the options, connects and authenticates, sends each line of its
    input as a query and prints the results, until the line [quit].  Standard input is
    the list of bytes to come, standard output the list of those printed.  [getopt_long]
    belongs to the C library: the options are the list of what it returns. *)
From stdpp Require Import pretty.
From S2P Require Import Prelude Mem Client Stream Query Connect.
Local Open Scope Z_scope.

(** [fgets]: no more than [size - 1] bytes, up to a newline; at the end of the input the
    buffer stays as it is. *)
Fixpoint fgets_line (n : nat) (input : list Z) : list Z * list Z :=
  match n, input with
  | S n, c :: input =>
      if c =? NEWLINE then ([c], input) else let '(l, rest) := fgets_line n input in (c :: l, rest)
  | _, _ => ([], input)
  end.
Definition fgets (buf : region) (size : nat) (stdin : list Z) : outcome (region * list Z) :=
  match fgets_line (size - 1) stdin with
  | ([], stdin) => Done (buf, stdin)
  | (l, stdin) => buf ← memcpy buf (l ++ [0]) (Z.of_nat (length l) + 1); Done (buf, stdin)
  end.

(** [s[strlen(s) - 1] = 0] *)
Definition chop (s : region) : outcome region :=
  n ← region_strlen s;
  if n - 1 <? 0 then Stuck  (* before the region *) else store s (Z.to_nat (n - 1)) 0.

(** ** Printing results *)

Definition print_line (l : list Z) : list Z := bytes "> " ++ l ++ [NEWLINE].

Definition result_text (h : cheap) (c : xfiredb_result) : outcome (list Z) :=
  r ← deref (c_strs h !! x_data c);
  region_cstr r.

(** The body of the loop over the results. *)
Definition print_result (h : cheap) (c : xfiredb_result) : outcome (list Z) :=
  match x_type c with
  | XFIREDB_STRING => t ← result_text h c; Done (print_line t)
  | XFIREDB_BOOL =>
      let b := xfiredb_result_to_bool c in
      Done (print_line (if b =? 0 then bytes "(false)" else bytes "(true)"))
  | XFIREDB_FIXNUM => Done (print_line (bytes ("(" +:+ pretty (xfiredb_result_to_int c) +:+ ")")))
  | XFIREDB_STATUS =>
      let status := xfiredb_result_status c in
      let ok := if has_flag status XFIREDB_RESULT_OK then print_line (bytes "(OK)") else [] in
      let nil := if has_flag status XFIREDB_RESULT_NIL then print_line (bytes "(nil)") else [] in
      msg ← (if has_flag status XFIREDB_RESULT_MSG then t ← result_text h c; Done (print_line t) else Done []);
      Done (ok ++ nil ++ msg)
  end.

Fixpoint print_results (h : cheap) (r : list xfiredb_result) : outcome (list Z) :=
  match r with
  | [] => Done []
  | c :: r => l ← print_result h c; ls ← print_results h r; Done (l ++ ls)
  end.

(** ** Usage *)

Definition text_line (s : string) : list Z := bytes s ++ [NEWLINE].
Definition cli_version : list Z :=
  text_line "XFireDB Command line interface" ++
  text_line "License GPLv3+: GNU GPL version 3 or later <http://gnu.org/licenses/gpl.html>" ++
  text_line "This is free software: you are free to change and redistribute it." ++
  text_line "There is NO WARRANTY, to the extent permitted by law.".
Definition cli_usage (prog : list Z) : list Z :=
  bytes "Usage: " ++ prog ++ text_line " -H <host> -P <port> -[upahs]".
Definition cli_help (prog : list Z) : list Z :=
  cli_usage prog ++
  text_line "Connect to an XFireDB server using a command line interface. " ++ text_line "" ++
  text_line "   -H, --host <hostname>       Server address." ++
  text_line "   -P, --port <port>           Server port." ++
  text_line "   -a, --auth                  Read username/password from stdin." ++
  text_line "   -u, --user <username>       Username to use during authentication." ++
  text_line "   -p, --pass <password>       Password to use during authentication." ++
  text_line "   -s, --ssl                   Connect using SSL." ++
  text_line "   -v, --verion                Print version information." ++
  text_line "   -h, --help                  Display this help text.".

Section Cli.
Context {S T : Type} `{Stream S} `{Stream T} `{Network S T} (junk : Z).
Abbreviation client_t := (xfiredb_client S T).
Abbreviation connection := (connection S T).
Implicit Types (client : client_t) (c : connection) (w : world).

(** ** Queries *)

Definition prompt : list Z := bytes "xfiredb> ".

(** [fuel] bounds the number of lines, [qfuel] the length of a line of sizes. *)
Fixpoint cli_run (fuel qfuel : nat) client (h : cheap) (stdin stdout : list Z)
    : outcome (client_t * cheap * list Z * list Z) :=
  match fuel with
  | O => OutOfFuel
  | Datatypes.S fuel' =>
      let query := xfiredb_zalloc 4096 in
      let stdout := stdout ++ prompt in
      '(query, stdin) ← fgets query 4095 stdin;
      query ← chop query;
      query ← region_cstr query;
      if decide (query = bytes "quit") then Done (client, h, stdin, stdout)
      else
        '(client, h, r) ← xfiredb_query junk qfuel (Some client) h (Some query);
        client ← deref client;
        match r with
        | None => cli_run fuel' qfuel client h stdin (stdout ++ text_line "> Failed to query the server!")
        | Some r =>
            l ← print_results h (rp_results r);
            h ← xfiredb_result_free h r;
            cli_run fuel' qfuel client h stdin (stdout ++ l)
        end
  end.

(** ** Starting *)

(** The process ends with a code, or goes on with a value. *)
Inductive ended (A : Type) := Exits (code : Z) | Goes (x : A).
Arguments Exits {A} _.
Arguments Goes {A} _.
Definition EXIT_SUCCESS : Z := 0.
Definition EXIT_FAILURE : Z := 1.

Definition cli_connect w (tmp tmp1 : region) (host : list Z) (port : Z) (user pass : option (list Z)) (ssl auth : bool)
    : outcome (world * list Z * ended connection) :=
  let flags := Z.lor XFIREDB_SOCK_STREAM XFIREDB_SOCK_RESOLV in
  let flags := if auth then Z.lor flags XFIREDB_AUTH else flags in
  let flags := if ssl then Z.lor flags XFIREDB_SSL else flags in
  '(w, client) ← xfiredb_connect w tmp host port flags;
  match client with
  | None => Done (w, text_line "Failed to connect to server!", Exits (- EXIT_FAILURE))
  | Some c =>
      if auth then
        user ← deref user;
        pass ← deref pass;
        '(w, c, rc) ← xfiredb_auth_client w tmp1 c user pass;
        if negb (rc =? - XFIREDB_OK) then
          w ← xfiredb_disconnect w (Some c);
          Done (w, text_line "Could not authenticate with the server!", Exits (- EXIT_FAILURE))
        else Done (w, [], Goes c)
      else Done (w, [], Goes c)
  end.

(** [cli_getpass]: [buff] is the array before anything is stored in it; without a
    terminal no password is read; [getline] reads the whole line, and needs a pointer
    that is NULL or allocated, which an option's argument is not. *)
Definition cli_getpass (tty : bool) (buff : region) w (pass : option (list Z)) (stdin stdout : list Z)
    : outcome (world * list Z * list Z * list Z * option (list Z)) :=
  let stdout := stdout ++ bytes "Username: " in
  '(buff, stdin) ← fgets buff 1023 stdin;
  buff ← chop buff;
  user ← region_cstr buff;
  let '(w, _) := acquire RMem w in
  let stdout := stdout ++ bytes "Password: " in
  if tty then
    match pass with Some _ => Stuck | None =>
    let '(line, stdin) := fgets_line (length stdin) stdin in
    line ← chop (line ++ [0]);
    pass ← region_cstr line;
    let '(w, _) := acquire RMem w in
    Done (w, stdin, stdout ++ [NEWLINE], user, Some pass)
    end
  else Done (w, stdin, stdout ++ [NEWLINE], user, pass).

(** The variables of [main]; [auth] is not assigned before an option assigns it. *)
Record settings := Settings {
  m_auth : option bool; m_ssl : bool;
  m_user : option (list Z); m_pass : option (list Z); m_host : option (list Z); m_port : Z }.
Definition defaults : settings := Settings None false None None None 0.

Fixpoint cli_options (tty : bool) (buff : region) (prog : list Z) (opts : list (Z * list Z)) (m : settings)
    w (stdin stdout : list Z) : outcome (world * list Z * list Z * ended settings) :=
  match opts with
  | [] => Done (w, stdin, stdout, Goes m)
  | (option, optarg) :: opts =>
      let next := cli_options tty buff prog opts in
      if option =? 97 then
        '(w, stdin, stdout, user, pass) ← cli_getpass tty buff w (m_pass m) stdin stdout;
        next (Settings (Some true) (m_ssl m) (Some user) pass (m_host m) (m_port m)) w stdin stdout
      else if option =? 112 then
        next (Settings (Some true) (m_ssl m) (m_user m) (Some optarg) (m_host m) (m_port m)) w stdin stdout
      else if option =? 117 then
        next (Settings (Some true) (m_ssl m) (Some optarg) (m_pass m) (m_host m) (m_port m)) w stdin stdout
      else if option =? 80 then
        port ← atoi optarg;
        next (Settings (m_auth m) (m_ssl m) (m_user m) (m_pass m) (m_host m) port) w stdin stdout
      else if option =? 72 then
        next (Settings (m_auth m) (m_ssl m) (m_user m) (m_pass m) (Some optarg) (m_port m)) w stdin stdout
      else if option =? 115 then
        next (Settings (m_auth m) true (m_user m) (m_pass m) (m_host m) (m_port m)) w stdin stdout
      else if option =? 118 then Done (w, stdin, stdout ++ cli_version, Exits (- EXIT_SUCCESS))
      else if option =? 104 then Done (w, stdin, stdout ++ cli_help prog, Exits (- EXIT_SUCCESS))
      else Done (w, stdin, stdout ++ cli_usage prog, Exits (- EXIT_FAILURE))
  end.

(** What is left when the process ends: its code, its resources, its strings, what it
    printed, and the connection as it was when it was closed. *)
Record finished := Finished {
  f_code : Z; f_world : world; f_heap : cheap; f_stdout : list Z; f_client : option client_t }.

(** The arrays of the functions that are called, before anything is stored in them. *)
Record arrays := Arrays { ar_buff : region; ar_tmp : region; ar_tmp1 : region }.

Definition cli_main (fuel qfuel : nat) (tty : bool) (ar : arrays) (prog : list Z) (opts : list (Z * list Z))
    w (h : cheap) (stdin : list Z) : outcome finished :=
  '(w, stdin, stdout, m) ← cli_options tty (ar_buff ar) prog opts defaults w stdin [];
  match m with
  | Exits code => Done (Finished code w h stdout None)
  | Goes m =>
      match m_host m with
      | None => Done (Finished (- EXIT_FAILURE) w h (stdout ++ cli_usage prog) None)
      | Some host =>
          if m_port m =? 0 then Done (Finished (- EXIT_FAILURE) w h (stdout ++ cli_usage prog) None)
          else
            auth ← deref (m_auth m);
            if auth && (bool_decide (m_pass m = None) || bool_decide (m_user m = None)) then
              Done (Finished (- EXIT_FAILURE) w h
                (stdout ++ text_line "Both a username and password have to be supplied to authenticate with a server." ++
                 text_line "" ++ cli_usage prog) None)
            else
              '(w, l, c) ← cli_connect w (ar_tmp ar) (ar_tmp1 ar) host (m_port m) (m_user m) (m_pass m) (m_ssl m) auth;
              let stdout := stdout ++ l in
              match c with
              | Exits code => Done (Finished code w h stdout None)
              | Goes c =>
                  '(client, h, stdin, stdout) ← cli_run fuel qfuel (k_client c) h stdin stdout;
                  w ← xfiredb_disconnect w (Some (set_client c client));
                  Done (Finished (- EXIT_SUCCESS) w h stdout (Some client))
              end
      end
  end.

(** ** Lines *)

Context {LS : StreamLaws S} {LT : StreamLaws T}.

(** A line that can be typed: the buffer has room for it and its newline. *)
Definition typed (q : list Z) : Prop := no_nul q ∧ NEWLINE ∉ q ∧ (length q ≤ 4093)%nat.

Lemma fgets_line_run n l rest :
  NEWLINE ∉ l → (length l < n)%nat → fgets_line n (l ++ NEWLINE :: rest) = (l ++ [NEWLINE], rest).
Proof.
  revert n. induction l as [|x l IH]; intros [|n] Hl Hn; simpl in Hn; try lia; cbn [app fgets_line]; [by rewrite Z.eqb_refl|].
  apply not_elem_of_cons in Hl as [Hx Hl]. rewrite (proj2 (Z.eqb_neq _ _)) by congruence. by rewrite IH by (done || lia).
Qed.

Lemma fgets_run q rest :
  typed q → ∃ x, fgets (xfiredb_zalloc 4096) 4095 (q ++ NEWLINE :: rest) = Done (q ++ NEWLINE :: 0 :: x, rest).
Proof.
  intros (Hnul & Hnl & Hlen). unfold fgets. rewrite fgets_line_run by (done || lia).
  destruct (q ++ [NEWLINE]) as [|y l] eqn:E; [by destruct q|]. rewrite <-E. clear y l E.
  assert (length (xfiredb_zalloc 4096) = Z.to_nat 4096) as Hz by apply length_replicate.
  unfold memcpy. rewrite Hz, !length_app. cbn [length]. rewrite decide_True by lia. rewrite bind_Done. eexists. do 2 f_equal.
  replace (Z.to_nat (Z.of_nat (length q + 1) + 1)) with (length ((q ++ [NEWLINE]) ++ [0])) by (rewrite !length_app; cbn [length]; lia).
  rewrite firstn_all, <-!app_assoc. done.
Qed.

Lemma chop_run q x : no_nul q → chop (q ++ NEWLINE :: 0 :: x) = Done (q ++ 0 :: 0 :: x).
Proof.
  intros Hq. unfold chop. replace (q ++ NEWLINE :: 0 :: x) with ((q ++ [NEWLINE]) ++ 0 :: x) by by rewrite <-app_assoc.
  rewrite region_strlen_app by (apply Forall_app; split; [done|by repeat constructor]).
  rewrite length_app, bind_Done. cbn [length]. rewrite (proj2 (Z.ltb_ge _ _)) by lia.
  replace (Z.to_nat (Z.of_nat (length q + 1) - 1)) with (length q) by lia. unfold store.
  rewrite decide_True by (rewrite !length_app; cbn [length]; lia). rewrite <-app_assoc, insert_app_r_alt, Nat.sub_diag by lia. done.
Qed.

(** ** Printing *)

(** What is printed for a text of a reply. *)
Definition shows (l : list Z) : list Z :=
  match decode l with
  | (XFIREDB_STRING, _, v) => print_line match v with inl _ => [] | inr t => t end
  | (XFIREDB_BOOL, _, v) => print_line (if bool_decide (v = inl 0) then bytes "(false)" else bytes "(true)")
  | (XFIREDB_FIXNUM, _, v) => print_line (bytes ("(" +:+ pretty match v with inl n => n | inr _ => 0 end +:+ ")"))
  | (XFIREDB_STATUS, st, v) =>
      if st =? XFIREDB_RESULT_NIL then print_line (bytes "(nil)")
      else match v with inl _ => print_line (bytes "(OK)") | inr t => print_line t end
  end.

Lemma atoi_range l n : atoi l = Done n → - 2 ^ 31 ≤ n < 2 ^ 31.
Proof. unfold atoi. case_match eqn:E; [|done]. intros [= <-]. apply andb_true_iff in E as [?%Z.leb_le ?%Z.ltb_lt]. done. Qed.

Lemma print_word h r l :
  text_ok l → decode l = (x_type r, x_status r, inl (x_data r)) → print_result h r = Done (shows l).
Proof.
  intros (Hne & Hnul & Hint) Hd. unfold shows. rewrite Hd. destruct r as [d ty st]. cbn [x_type x_status x_data] in *.
  destruct l as [|y t]; [done|]. cbn [decode] in Hd.
  destruct (y =? 43); [done|]. destruct (y =? 38).
  { injection Hd as <- _ Hd. cbn. unfold xfiredb_result_to_bool. cbn. subst d. by case_decide. }
  destruct (Z.eqb_spec y 37) as [->|].
  { injection Hd as <- _ Hd. cbn. unfold xfiredb_result_to_int. cbn [x_data]. destruct (Hint t eq_refl) as [n Hn]. rewrite Hn in Hd. subst d.
    pose proof (atoi_range _ _ Hn). rewrite s64_small by lia. done. }
  destruct (decide _); [by injection Hd as <- <- <-|]. destruct (decide _); [by injection Hd as <- <- <-|done].
Qed.

Lemma print_text h r l t x :
  decode l = (x_type r, x_status r, inr t) → c_strs h !! x_data r = Some (t ++ 0 :: x) → no_nul t →
  print_result h r = Done (shows l).
Proof.
  intros Hd Hr Ht. unfold shows. rewrite Hd. unfold print_result, result_text. rewrite Hr. cbn [deref]. rewrite !bind_Done, region_cstr_app by done.
  rewrite bind_Done. destruct r as [d ty st]. cbn [x_type x_status x_data] in *.
  destruct l as [|y l]; cbn [decode] in Hd; [by injection Hd as <- <- <-|].
  destruct (y =? 43); [by injection Hd as <- <- <-|]. destruct (y =? 38); [done|]. destruct (y =? 37); [done|].
  destruct (decide _); [done|]. destruct (decide _); [done|]. by injection Hd as <- <- <-.
Qed.

Lemma decode_text l st ty t : text_ok l → decode l = (ty, st, inr t) → no_nul t.
Proof.
  intros (_ & Hnul & _). destruct l as [|y l]; cbn [decode]; [by intros [= _ _ <-]|].
  assert (no_nul l) by by apply list.Forall_cons in Hnul as [_ ?].
  repeat (case_match; try done); intros [= _ _ <-]; done.
Qed.

Lemma print_shown h K0 rs ls K :
  shown rs ls K → c_strs h = K0 ∪ K → K0 ##ₘ K → Forall text_ok ls → print_results h rs = Done (concat (shows <$> ls)).
Proof.
  intros Hs Hh Hd Hok.
  assert (K ⊆ c_strs h) as Hsub by (rewrite Hh; by apply map_union_subseteq_r). clear Hh Hd.
  induction Hs as [|r rs l ls K Hr Hs IH|r rs l ls K t x Hr Hnz Hk Hs IH]; [done|..];
    apply list.Forall_cons in Hok as [Hl Hok]; cbn [print_results fmap list_fmap concat].
  - by rewrite (print_word h r l), bind_Done, IH, bind_Done.
  - rewrite (print_text h r l t x); [|done|by eapply lookup_weaken; [apply lookup_insert_eq|]|by eapply decode_text].
    rewrite bind_Done, IH, bind_Done; [done|done|]. etransitivity; [by apply insert_subseteq|done].
Qed.

(** ** A conversation

    The peer answers each query with the reply of some texts, and may send more at once;
    it goes on in the same way with any client that has sent the queries and read the
    replies.  The number is that of the buffers that reading the lines of sizes leaves
    behind, one for every 1022 bytes of each. *)
Inductive conversation (qfuel : nat) : client_t → list (list Z) → list (list (list Z)) → nat → Prop :=
  | talk_end client : conversation qfuel client [] [] 0
  | talk client q qs toks texts replies more n :
      sizes_ok toks (text_sizes texts) → Forall text_ok texts → no_nul more → (length (join 32 toks) < qfuel)%nat →
      answered client q (reply toks texts ++ more) →
      (∀ client', cl_ok client' → cl_flags client' = cl_flags client →
        cl_output client' = cl_output client ++ q ++ [NEWLINE] → cl_input client' = more →
        conversation qfuel client' qs replies n) →
      conversation qfuel client (q :: qs) (texts :: replies) (line_leaks toks + n).

Definition typed_lines (qs : list (list Z)) : list Z := concat ((λ q, q ++ [NEWLINE]) <$> qs).
Definition quit : list Z := bytes "quit".

(** What is printed: a prompt and the results for each line, and a last prompt. *)
Definition transcript (replies : list (list (list Z))) : list Z :=
  concat ((λ texts, prompt ++ concat (shows <$> texts)) <$> replies) ++ prompt.

Lemma cli_run_run fuel qfuel client h qs replies n more out :
  st_full S → st_full T → st_writes S → st_writes T → cl_ok client → below h →
  Forall (λ q, typed q ∧ q ≠ quit) qs → conversation qfuel client qs replies n → (length qs < fuel)%nat →
  ∃ client' h' X, cli_run fuel qfuel client h (typed_lines qs ++ quit ++ NEWLINE :: more) out =
      Done (client', h', more, out ++ transcript replies) ∧
    cl_ok client' ∧ cl_flags client' = cl_flags client ∧ cl_output client' = cl_output client ++ typed_lines qs ∧
    c_strs h' = c_strs h ∧ kept h h' X ∧ size X = n.
Proof.
  intros FS FT WS WT. revert client h qs replies n out. induction fuel as [|fuel IH]; intros client h qs replies n out Hok Hb Hqs Htalk Hf; [lia|].
  cbn [cli_run]. destruct Hqs as [|q qs [Hq Hne] Hqs].
  - inversion Htalk; subst. cbn [typed_lines fmap list_fmap concat app].
    destruct (fgets_run quit more) as [x ->]; [split; [|split]; [decide_by_compute|decide_by_compute|simpl; lia]|].
    rewrite bind_Done, chop_run, bind_Done, region_cstr_app, bind_Done by decide_by_compute. rewrite decide_True by done.
    exists client, h, ∅. unfold transcript. cbn. rewrite app_nil_r. split_and!; try done. apply kept_refl.
  - inversion Htalk as [|? ? ? toks texts replies' rest n' Hsz Htexts Hrest Hqf Hans Hnext]; subst.
    change (typed_lines (q :: qs)) with ((q ++ [NEWLINE]) ++ typed_lines qs). rewrite <-!app_assoc. cbn [app].
    destruct (fgets_run q (typed_lines qs ++ quit ++ NEWLINE :: more) Hq) as [x ->].
    destruct Hq as (Hnul & Hnl & Hlen).
    rewrite bind_Done, chop_run, bind_Done, region_cstr_app, bind_Done by done. rewrite decide_False by done.
    destruct (query_run junk qfuel client h q toks texts rest) as (client1 & h1 & rp & K & X & -> & [R1 R2 R3 R4 R5 R6 R7 R8 R9] & HX); try done.
    rewrite bind_Done. cbn [deref]. rewrite bind_Done, (print_shown h1 (c_strs h) (rp_results rp) texts K), bind_Done by done.
    destruct (free_results_run h h1 rp texts K X R5 (c_strs h) R6 R7 Hb R8 R9) as (h2 & -> & Hh2 & Hk2 & Hb2). rewrite bind_Done.
    specialize (R4 WS WT). simpl in Hf.
    destruct (IH client1 h2 qs replies' n' ((out ++ prompt) ++ concat (shows <$> texts))) as (client' & h' & Y & -> & ? & Hf' & Ho' & Hh' & Hk' & HY);
      [done|done|done|by apply Hnext|lia|].
    destruct (kept_trans _ _ _ _ _ Hb2 Hk2 Hk') as [Hk3 Hd].
    exists client', h', (Y ∪ X). unfold transcript. cbn [fmap list_fmap concat]. rewrite <-!app_assoc.
    split_and!; [done|done|by rewrite Hf'| |by rewrite Hh'|done|].
    + rewrite Ho', R4, <-!app_assoc. done.
    + rewrite size_union by (by symmetry). rewrite HX, HY. lia.
Qed.

(** ** Sessions *)

(** The flags of a client that authenticates, without SSL. *)
Definition auth_flags : Z := 11.

Definition rejected : list Z := text_line "Could not authenticate with the server!".

Lemma cli_connect_run w tmp tmp1 host port user pass text s client1 line rest :
  st_live S → st_live T → st_writes S → st_writes T → world_ok w → network_ok →
  length tmp = 64%nat → length tmp1 = 1024%nat →
  host_text auth_flags host = Some text → reached text port = Some s →
  auth_answered (Client s None auth_flags) client1 user pass line rest →
  ∃ w2, world_ok w2 ∧
    if bool_decide (line = bytes "OK") then
      ∃ c k0, cli_connect w tmp tmp1 host port (Some user) (Some pass) false true = Done (w2, [], Goes c) ∧
        gained w w2 c ∧ authenticated (Client s None auth_flags) line rest user pass k0 (k_client c)
    else
      cli_connect w tmp tmp1 host port (Some user) (Some pass) false true = Done (w2, rejected, Exits (-1)) ∧ w_live w2 = w_live w.
Proof.
  intros HS HT WS WT Hw Hnet Htmp Htmp1 Htext Hs Hans. unfold cli_connect.
  change (Z.lor (Z.lor XFIREDB_SOCK_STREAM XFIREDB_SOCK_RESOLV) XFIREDB_AUTH) with auth_flags.
  destruct (auth_open w tmp host text port auth_flags s) as (w1 & c & -> & Hw1 & Hg & Hc); try done.
  rewrite bind_Done. cbn [deref]. rewrite !bind_Done. rewrite <-Hc in Hans.
  destruct (auth_plain_run w1 tmp1 c user pass client1 line rest) as (w2 & k0 & k & -> & Hw2 & Hl2 & Ha); try done;
    [by apply Hg|by rewrite Hc|].
  rewrite bind_Done. destruct (authenticated_run _ _ _ _ _ _ _ WS WT Ha) as (Hk & Hf & _).
  pose proof (set_client_gained w w1 c k Hg Hk Hf) as (Hcc & Hl & Hd). destruct (bool_decide (line = bytes "OK")).
  - exists w2. split; [done|]. exists (set_client c k), k0. split; [done|]. rewrite Hc in Ha. split; [|done].
    split; [done|]. by rewrite Hl2.
  - change (negb (- XFIREDB_ERR =? - XFIREDB_OK)) with true. cbv iota.
    destruct (disconnect_run w2 _ _ Hcc ltac:(by rewrite Hl2) Hd) as (w3 & -> & Hl3 & Hn3). rewrite bind_Done.
    exists w3. split; [|done]. destruct Hw2 as [Hn2 Hw2]. split; [by rewrite Hn3|]. rewrite Hl3, Hn3. intros r Hr. apply Hw2. rewrite Hl2, Hl. set_solver.
Qed.

(** [main] with a host, a port, a name and a password. *)
Lemma cli_main_run fuel qfuel tty ar prog w h host port_text port user pass stdin :
  atoi port_text = Done port → port ≠ 0 →
  cli_main fuel qfuel tty ar prog [(72, host); (80, port_text); (117, user); (112, pass)] w h stdin =
    ('(w, l, c) ← cli_connect w (ar_tmp ar) (ar_tmp1 ar) host port (Some user) (Some pass) false true;
     match c with
     | Exits code => Done (Finished code w h l None)
     | Goes c =>
         '(client, h, _, stdout) ← cli_run fuel qfuel (k_client c) h stdin l;
         w ← xfiredb_disconnect w (Some (set_client c client));
         Done (Finished 0 w h stdout (Some client))
     end).
Proof.
  intros Hport Hp0. unfold cli_main. cbn [cli_options Z.eqb Pos.eqb]. rewrite Hport, bind_Done. cbn [m_auth m_ssl m_user m_pass m_host m_port defaults].
  rewrite bind_Done. cbn [m_auth m_ssl m_user m_pass m_host m_port]. by rewrite (proj2 (Z.eqb_neq _ _)) by done.
Qed.

(** C5: a session of the command line client without SSL that goes well.  It is started
    with a host, a port, a name and a password; the host name has an address and the host
    accepts; reads and writes are complete; the server answers the login with OK, and each
    query with a well-formed reply; and no line that is typed has more than 4093 bytes.
    Then [cli_main] sends the name and the password, the command that starts the stream,
    and exactly the lines that were typed; it prints, after a prompt for each line, what
    the texts of the reply show, and ends at the line [quit] with success.  The client's
    structures and socket, and the texts, results, arrays, queries and buffers of every
    query are given back, but for the buffers that [query_readline] loses: one for every
    1022 bytes of a line of sizes, and none when every line is shorter. *)
Theorem cli_session fuel qfuel tty ar prog w h host port_text port user pass text s client1 rest qs replies n more :
  st_full S → st_full T → st_writes S → st_writes T → world_ok w → network_ok → below h →
  length (ar_tmp ar) = 64%nat → length (ar_tmp1 ar) = 1024%nat →
  atoi port_text = Done port → port ≠ 0 → host_text auth_flags host = Some text → reached text port = Some s →
  auth_answered (Client s None auth_flags) client1 user pass (bytes "OK") rest →
  Forall (λ q, typed q ∧ q ≠ quit) qs → (length qs < fuel)%nat →
  (∀ k0 k num, cl_ok k0 → cl_flags k0 = auth_flags → cl_input k0 = rest → cl_output k0 = st_output s ++ auth_query user pass →
    client_write k0 XFIREDB_STREAM_COMMAND = Done (k, num) → conversation qfuel k qs replies n) →
  ∃ w' h' client' X, cli_main fuel qfuel tty ar prog [(72, host); (80, port_text); (117, user); (112, pass)] w h
      (typed_lines qs ++ quit ++ NEWLINE :: more) = Done (Finished 0 w' h' (transcript replies) (Some client')) ∧
    cl_output client' = st_output s ++ auth_query user pass ++ XFIREDB_STREAM_COMMAND ++ typed_lines qs ∧
    w_live w' = w_live w ∧ c_strs h' = c_strs h ∧ c_blocks h' = X ∪ c_blocks h ∧ X ## c_blocks h ∧ size X = n.
Proof.
  intros FS FT WS WT Hw Hnet Hb Htmp Htmp1 Hport Hp0 Htext Hs Hans Hqs Hf Htalk.
  rewrite (cli_main_run fuel qfuel tty ar prog w h host port_text port) by done.
  destruct (cli_connect_run w (ar_tmp ar) (ar_tmp1 ar) host port user pass text s client1 (bytes "OK") rest)
    as (w2 & Hw2 & c & k0 & -> & Hg & Ha); try done; [by apply full_live|by apply full_live|].
  rewrite bind_Done. destruct (authenticated_run _ _ _ _ _ _ _ WS WT Ha) as (Hk & Hkf & Hko & _). destruct Ha as [A1 A2 A3 A4 [num A5]].
  assert (cl_output (Client (T := T) s None auth_flags) = st_output s) as Hs0 by done. rewrite Hs0 in A4, Hko.
  specialize (Htalk k0 (k_client c) num A1 A2 A3 A4 A5).
  destruct (cli_run_run fuel qfuel (k_client c) h qs replies n more [] FS FT WS WT Hk Hb Hqs Htalk Hf)
    as (client' & h' & X & -> & Hok' & Hf' & Ho' & Hh' & HX & Hn).
  rewrite bind_Done. destruct (set_client_gained w w2 c client' Hg Hok' Hf') as (Hc & Hl & Hd).
  destruct (disconnect_run w2 _ _ Hc Hl Hd) as (w3 & -> & Hl3 & _). rewrite bind_Done.
  exists w3, h', client', X. split; [done|]. split; [rewrite Ho', Hko, <-!app_assoc; done|].
  split_and!; try done; [by apply HX|]. intros a Ha'. by eapply kept_old.
Qed.

(** A password that is not accepted: the client says so, gives everything back and
    ends with an error; nothing that was typed is sent. *)
Lemma cli_rejected fuel qfuel tty ar prog w h host port_text port user pass text s client1 line rest stdin :
  st_live S → st_live T → st_writes S → st_writes T → world_ok w → network_ok →
  length (ar_tmp ar) = 64%nat → length (ar_tmp1 ar) = 1024%nat →
  atoi port_text = Done port → port ≠ 0 → host_text auth_flags host = Some text → reached text port = Some s →
  auth_answered (Client s None auth_flags) client1 user pass line rest → line ≠ bytes "OK" →
  ∃ w', cli_main fuel qfuel tty ar prog [(72, host); (80, port_text); (117, user); (112, pass)] w h stdin =
      Done (Finished (-1) w' h rejected None) ∧ w_live w' = w_live w.
Proof.
  intros HS HT WS WT Hw Hnet Htmp Htmp1 Hport Hp0 Htext Hs Hans Hline.
  rewrite (cli_main_run fuel qfuel tty ar prog w h host port_text port) by done.
  destruct (cli_connect_run w (ar_tmp ar) (ar_tmp1 ar) host port user pass text s client1 line rest) as (w2 & Hw2 & Hr); try done.
  rewrite bool_decide_eq_false_2 in Hr by done. destruct Hr as [-> Hl]. rewrite bind_Done. by exists w2.
Qed.

(** ** Faults *)

(** When standard input ends without the line [quit], [fgets] leaves the cleared buffer
    as it is, and the terminator is written before the array. *)
Lemma cli_end_of_input fuel qfuel client h out : cli_run (Datatypes.S fuel) qfuel client h [] out = Stuck.
Proof. done. Qed.

(** Without a name and a password, [auth] is read before anything is stored in it. *)
Lemma cli_auth_unset fuel qfuel tty ar prog w h host port_text port stdin :
  atoi port_text = Done port → port ≠ 0 →
  cli_main fuel qfuel tty ar prog [(72, host); (80, port_text)] w h stdin = Stuck.
Proof.
  intros Hport Hp0. unfold cli_main. cbn [cli_options Z.eqb Pos.eqb]. rewrite Hport, bind_Done. cbn [m_auth m_ssl m_user m_pass m_host m_port defaults].
  rewrite bind_Done. cbn [m_auth m_ssl m_user m_pass m_host m_port]. by rewrite (proj2 (Z.eqb_neq _ _)) by done.
Qed.
End Cli.

(** ** A run *)

(** A peer whose replies are there from the start. *)
Lemma scripted_answer (k : xfiredb_client (conn false) (conn false)) q input :
  cl_flags k = auth_flags → cl_input k = input → answered k q input.
Proof.
  destruct k as [s t flags]. cbn. intros -> Hin. eexists _, _. split; [reflexivity|]. split; [|exact Hin].
  rewrite length_app. cbn [length]. lia.
Qed.

Lemma scripted_write (k0 k : xfiredb_client (conn false) (conn false)) l num :
  cl_flags k0 = auth_flags → client_write k0 l = Done (k, num) → cl_flags k = auth_flags ∧ cl_input k = cl_input k0.
Proof. destruct k0 as [s t flags]. cbn. intros ->. cbn. intros [= <- <-]. done. Qed.

Definition script : list Z := reply sizes2 texts2 ++ reply sizes2 texts2.

Lemma scripted_talk (k : xfiredb_client (conn false) (conn false)) :
  cl_flags k = auth_flags → cl_input k = script → conversation 4 k [bytes "LRANGE l 0 1"; bytes "LRANGE l 0 1"] [texts2; texts2] 0.
Proof.
  intros Hf Hin. apply (talk 4 k _ _ sizes2 texts2 _ (reply sizes2 texts2 ++ []) 0);
    [exact sizes2_ok|exact texts2_ok|decide_by_compute|simpl; lia|by apply scripted_answer; [|rewrite app_nil_r]|].
  intros k1 _ Hf1 _ Hin1. apply (talk 4 k1 _ _ sizes2 texts2 _ [] 0);
    [exact sizes2_ok|exact texts2_ok|by apply list.Forall_nil|simpl; lia|by apply scripted_answer; [rewrite Hf1|]|].
  intros k2 _ _ _ _. apply talk_end.
Qed.

Definition some_arrays : arrays := Arrays (replicate 1024 170) (replicate 64 170) (replicate 1024 170).

Lemma cli_session_witness :
  ∃ w' h' client' X, cli_main (H1 := one_host (bytes "OK" ++ NEWLINE :: script) 1) 170 3 4 false some_arrays (bytes "cli")
      [(72, bytes "db"); (80, bytes "7717"); (117, bytes "ann"); (112, bytes "pw")] no_resources no_texts
      (typed_lines [bytes "LRANGE l 0 1"; bytes "LRANGE l 0 1"] ++ quit ++ [NEWLINE]) =
      Done (Finished 0 w' h' (transcript [texts2; texts2]) (Some client')) ∧
    cl_output client' = [] ++ auth_query (bytes "ann") (bytes "pw") ++ XFIREDB_STREAM_COMMAND ++ typed_lines [bytes "LRANGE l 0 1"; bytes "LRANGE l 0 1"] ∧
    w_live w' = ∅ ∧ c_strs h' = ∅ ∧ c_blocks h' = X ∪ ∅ ∧ X ## ∅ ∧ size X = 0%nat.
Proof.
  refine (cli_session (H1 := one_host (bytes "OK" ++ NEWLINE :: script) 1) 170 3 4 false some_arrays (bytes "cli") no_resources no_texts
    (bytes "db") (bytes "7717") 7717 (bytes "ann") (bytes "pw") (bytes "127.0.0.1") (Conn (bytes "OK" ++ NEWLINE :: script) [] [])
    (Client (Conn (bytes "OK" ++ NEWLINE :: script) [] (auth_query (bytes "ann") (bytes "pw"))) None auth_flags) script
    [bytes "LRANGE l 0 1"; bytes "LRANGE l 0 1"] [texts2; texts2] 0 [] _ _ _ _ _ _ _ _ _ _ _ _ _ _ _ _ _);
    [exact conn_full|exact conn_full|done|done|exact no_resources_ok|apply one_host_ok|exact no_texts_below|done|done|reflexivity|done|
     reflexivity|reflexivity| | |simpl; lia|].
  - split; [by exists 12|]. split; [done|]. split; [decide_by_compute|simpl; lia].
  - repeat (constructor; [split; [split; [decide_by_compute|split; [decide_by_compute|simpl; lia]]|decide_by_compute]|]). constructor.
  - intros k0 k num _ Hf Hin _ Hw. destruct (scripted_write _ _ _ _ Hf Hw) as [Hf' Hin']. apply scripted_talk; congruence.
Defined.

(** What is on the screen. *)
Lemma cli_screen : transcript [texts2; texts2] =
  bytes "xfiredb> " ++ text_line "> hello" ++ text_line "> (42)" ++
  bytes "xfiredb> " ++ text_line "> hello" ++ text_line "> (42)" ++ bytes "xfiredb> ".
Proof. vm_compute. reflexivity. Qed.
