(* ===== verification/Chain.v ===== *)
(** * Chains of cells

    A linked structure is read through a partial function from an address to the
    next one: [forward[i]] of a skip list node, [next] or [prev] of a list node.
    [links f l] says that the cells lead along [l]. *)
From S2P Require Import Prelude.

Section Chain.
Context (f : loc → outcome loc).

Fixpoint links (l : list loc) : Prop :=
  match l with
  | a :: (b :: _) as t => f a = Done b ∧ links t
  | _ => True
  end.

Lemma links_app l1 a l2 : links (l1 ++ a :: l2) ↔ links (l1 ++ [a]) ∧ links (a :: l2).
Proof.
  induction l1 as [|x l1 IH].
  - simpl. destruct l2; simpl; tauto.
  - destruct l1 as [|y l1]; [simpl; tauto|]. simpl in *. rewrite IH. tauto.
Qed.
End Chain.

(** Links depend only on the cells of the sources. *)
Lemma links_frame f f' l b :
  (∀ a, a ∈ l → f' a = f a) → links f (l ++ [b]) → links f' (l ++ [b]).
Proof.
  induction l as [|a l IH]; [done|]. intros Hf.
  assert (∀ a0, a0 ∈ l → f' a0 = f a0) as Hf' by (intros; apply Hf; by right).
  destruct l as [|a' l]; simpl in *; rewrite Hf by (by left); [done|].
  intros [? ?]. split; [done|]. by apply IH.
Qed.

(** ** The last address of a chain that starts at [a] *)

Definition lastd (a : loc) (l : list loc) : loc := default a (list.last l).

Lemma lastd_cons a x l : lastd a (x :: l) = lastd x l.
Proof. unfold lastd. rewrite last_cons. by destruct (list.last l). Qed.

Lemma lastd_app a l1 x l2 : lastd a (l1 ++ x :: l2) = lastd x l2.
Proof. unfold lastd. rewrite last_app, last_cons. by destruct (list.last l2). Qed.

Lemma lastd_snoc a l x : lastd a (l ++ [x]) = x.
Proof. by rewrite lastd_app. Qed.

Lemma lastd_in a l : lastd a l ∈ a :: l.
Proof.
  revert a. induction l as [|x l IH]; intros a; [by left|]. rewrite lastd_cons. right. apply IH.
Qed.

Lemma before_split a xs : ∃ l1, a :: xs = l1 ++ [lastd a xs].
Proof.
  revert a. induction xs as [|x xs IH]; intros a; [by exists []|].
  destruct (IH x) as (l1 & Heq). exists (a :: l1). rewrite lastd_cons. simpl. by rewrite <-Heq.
Qed.

Lemma links_last f a xs b rest : links f (a :: xs ++ b :: rest) → f (lastd a xs) = Done b.
Proof.
  revert a. induction xs as [|x xs IH]; intros a; [by intros [? _]|].
  intros [_ Hl]. rewrite lastd_cons. by apply IH.
Qed.

(** ** Splicing a node in and out of a circular chain *)

Lemma links_splice_in f f' hdr xs ys node :
  NoDup (hdr :: xs ++ ys) → links f ((hdr :: xs) ++ ys ++ [hdr]) →
  f' (lastd hdr xs) = Done node → f' node = f (lastd hdr xs) →
  (∀ a, a ∈ hdr :: xs ++ ys → a ≠ lastd hdr xs → f' a = f a) →
  links f' ((hdr :: xs) ++ node :: ys ++ [hdr]).
Proof.
  intros Hnd Hl Hp Hn Hf. change (hdr :: xs ++ ys) with ((hdr :: xs) ++ ys) in *.
  destruct (before_split hdr xs) as (l1 & Heq). rewrite Heq in *. set (p := lastd hdr xs) in *.
  rewrite <-!app_assoc in *. cbn [app] in *.
  apply list.NoDup_app in Hnd as (_ & Hd1 & Hnd). apply list.NoDup_cons in Hnd as [Hd2 _].
  apply links_app in Hl as [Hl1 Hl2]. apply links_app. split.
  - eapply links_frame; [|exact Hl1]. intros a Ha. apply Hf; [set_solver|].
    intros ->. apply (Hd1 p Ha). by left.
  - split; [done|]. destruct ys as [|y ys]; simpl in *.
    + destruct Hl2 as [Hl2 _]. by rewrite Hn, Hl2.
    + destruct Hl2 as [Hl2 Hl3]. split; [by rewrite Hn, Hl2|].
      apply (links_frame f f' (y :: ys) hdr); [|done].
      intros a Ha. apply Hf; [set_solver|]. by intros ->.
Qed.

Lemma links_splice_out f f' hdr xs ys node :
  NoDup (hdr :: xs ++ node :: ys) → links f ((hdr :: xs) ++ node :: ys ++ [hdr]) →
  f' (lastd hdr xs) = f node →
  (∀ a, a ∈ hdr :: xs ++ ys → a ≠ lastd hdr xs → f' a = f a) →
  links f' ((hdr :: xs) ++ ys ++ [hdr]).
Proof.
  intros Hnd Hl Hp Hf. change (hdr :: xs ++ ?l) with ((hdr :: xs) ++ l) in *.
  destruct (before_split hdr xs) as (l1 & Heq). rewrite Heq in *. set (p := lastd hdr xs) in *.
  rewrite <-!app_assoc in *. cbn [app] in *.
  apply list.NoDup_app in Hnd as (_ & Hd1 & Hnd). apply list.NoDup_cons in Hnd as [Hd2 _].
  apply links_app in Hl as [Hl1 [Hpn Hl2]]. apply links_app. split.
  - eapply links_frame; [|exact Hl1]. intros a Ha. apply Hf; [set_solver|].
    intros ->. apply (Hd1 p Ha). by left.
  - destruct ys as [|y ys]; simpl in *.
    + destruct Hl2 as [Hl2 _]. by rewrite Hp, Hl2.
    + destruct Hl2 as [Hl2 Hl3]. split; [by rewrite Hp, Hl2|].
      apply (links_frame f f' (y :: ys) hdr); [|done].
      intros a Ha. apply Hf; [set_solver|]. intros ->. apply Hd2. set_solver.
Qed.
