(* ===== verification/Atomic.v ===== *)
(** * Atomic counters: [os/atomic.c] and the inline functions of [xfiredb/os.h]

    Each function is one critical section under the spin lock of the counter, so a
    counter is its value.  An update that overflows wraps. *)
From S2P Require Import Prelude.
Local Open Scope Z_scope.

Abbreviation atomic_t := Z (only parsing).
Abbreviation atomic64_t := Z (only parsing).

Definition atomic_init : atomic_t := 0.
Definition atomic_add (a : atomic_t) (val : Z) : atomic_t := s32 (a + val).
Definition atomic_sub (a : atomic_t) (val : Z) : atomic_t := s32 (a - val).
Definition atomic_get (a : atomic_t) : Z := a.
Definition atomic_inc (a : atomic_t) : atomic_t := atomic_add a 1.
Definition atomic_dec (a : atomic_t) : atomic_t := atomic_sub a 1.

Definition atomic64_init : atomic64_t := 0.
Definition atomic64_add (a : atomic64_t) (val : Z) : atomic64_t := s64 (a + val).
Definition atomic64_sub (a : atomic64_t) (val : Z) : atomic64_t := s64 (a - val).
Definition atomic64_get (a : atomic64_t) : Z := a.
Definition atomic64_inc (a : atomic64_t) : atomic64_t := atomic64_add a 1.
Definition atomic64_dec (a : atomic64_t) : atomic64_t := atomic64_sub a 1.

(** A counter that counts [n] things modulo 2^32. *)
Lemma atomic_inc_count n : atomic_inc (s32 n) = s32 (n + 1).
Proof. unfold atomic_inc, atomic_add. apply s32_add. Qed.

Lemma atomic_dec_count n : atomic_dec (s32 n) = s32 (n - 1).
Proof. unfold atomic_dec, atomic_sub. apply (s32_add n (-1)). Qed.
