(* ===== verification/Object.v ===== *)
(** * Objects and their expiry: [storage/object.c], [os/time.c]

    The clock is an argument: the time stamp that [xfiredb_time_stamp] returns. *)
From S2P Require Import Prelude Bitops.
Local Open Scope Z_scope.

(** ** Time *)

(** [clock_gettime] in milliseconds: seconds and nanoseconds, rounded to the
    nearest, halves up. *)
Definition xfiredb_time_stamp (tv_sec tv_nsec : Z) : Z :=
  let s := tv_sec in
  let ms := (tv_nsec + 500000) / 1000000 in
  let rv := s * 1000 in
  rv + ms.

(** [time_after(a, b)]: signed subtraction, which wraps. *)
Definition time_after (a b : Z) : bool := s64 (s64 b - a) <? 0.

(** The request that [xfiredb_sleep_ns] hands to [nanosleep]. *)
Definition xfiredb_sleep_ns (ns : Z) : Z * Z :=
  let secs := Z.quot ns 1000000000 in
  let ns := if secs =? 0 then ns else ns - secs * 1000000000 in
  (secs, ns).
Definition xfiredb_sleep_ms (ms : Z) : Z * Z := xfiredb_sleep_ns (ms * 1000000).

(** ** Objects *)

Record object := Object_ { obj_crea : Z; obj_exp : Z; obj_flags : register }.

Definition OBJECT_INTREE_FLAG : Z := 0.
Definition OBJECT_EXPIRED_FLAG : Z := 1.

Definition object_init (now : Z) : object := Object_ now 0 [0].
Definition object_alloc (now : Z) : object := object_init now.

Definition object_has_expired (now : Z) (obj : object) : outcome (object * bool) :=
  b ← __test_bit OBJECT_EXPIRED_FLAG (obj_flags obj);
  if negb (b =? 0) then Done (obj, true)
  else
    let rv := time_after now (obj_exp obj) in
    if rv then
      flags ← __set_bit OBJECT_EXPIRED_FLAG (obj_flags obj);
      Done (Object_ (obj_crea obj) (obj_exp obj) flags, rv)
    else Done (obj, rv).

Definition object_set_expiry (now : Z) (obj : object) (exp : Z) : outcome (object * Z) :=
  if exp =? 0 then Done (obj, - XFIREDB_ERR)
  else if time_after now exp then Done (obj, - XFIREDB_ERR)
  else
    flags ← __clear_bit OBJECT_EXPIRED_FLAG (obj_flags obj);
    Done (Object_ (obj_crea obj) exp flags, - XFIREDB_OK).

(** ** The expired flag *)

Definition flags_ok (obj : object) : Prop := bit_in OBJECT_EXPIRED_FLAG (obj_flags obj).
Definition flagged (obj : object) : bool := bit_val OBJECT_EXPIRED_FLAG (obj_flags obj).

Lemma object_init_flags now : flags_ok (object_init now) ∧ flagged (object_init now) = false.
Proof. split; [split; vm_compute; done|reflexivity]. Qed.

(** A time stamp in range: subtraction does not overflow. *)
Definition stamp (t : Z) : Prop := 0 ≤ t < 2 ^ 62.

Lemma time_after_spec a b : stamp a → stamp b → time_after a b = (b <? a).
Proof.
  unfold stamp, time_after. change (2 ^ 62) with 4611686018427387904. intros Ha Hb.
  rewrite (s64_small b) by (change (2 ^ 63) with 9223372036854775808; lia).
  rewrite s64_small by (change (2 ^ 63) with 9223372036854775808; lia). lia.
Qed.

Lemma has_expired_flagged now obj :
  flags_ok obj → flagged obj = true → object_has_expired now obj = Done (obj, true).
Proof.
  intros Hok Hf. unfold object_has_expired. rewrite __test_bit_in by done.
  rewrite bind_Done. unfold flagged in Hf. by rewrite Hf.
Qed.

Lemma has_expired_unflagged now obj :
  flags_ok obj → flagged obj = false →
  ∃ obj', object_has_expired now obj = Done (obj', time_after now (obj_exp obj)) ∧
    flags_ok obj' ∧ flagged obj' = time_after now (obj_exp obj) ∧ obj_exp obj' = obj_exp obj.
Proof.
  intros Hok Hf. unfold object_has_expired. rewrite __test_bit_in by done.
  rewrite bind_Done. unfold flagged in *. rewrite Hf. cbn [Z.b2z Z.eqb negb].
  destruct (time_after now (obj_exp obj)); [|by exists obj].
  destruct (__set_bit_in _ _ Hok) as (r & -> & Hlen & Hv & _). rewrite bind_Done. eexists. split; [done|].
  split_and!; [|done..]. destruct Hok as [? ?]. split; [done|]. simpl. by rewrite Hlen.
Qed.

(** An expiry date that is not zero and not in the past is accepted; from then
    on the object reports itself expired exactly at the times after that date, and
    once it has done so it stays expired whatever the clock says. *)
Lemma object_expiry_correct now obj exp :
  flags_ok obj → stamp now → stamp exp → exp ≠ 0 → now ≤ exp →
  ∃ obj', object_set_expiry now obj exp = Done (obj', - XFIREDB_OK) ∧
    ∀ t, stamp t → ∃ obj'', object_has_expired t obj' = Done (obj'', exp <? t) ∧
      (exp < t → ∀ t', object_has_expired t' obj'' = Done (obj'', true)).
Proof.
  intros Hok Hnow Hexp Hne Hle. unfold object_set_expiry.
  rewrite (proj2 (Z.eqb_neq _ _)), time_after_spec, (proj2 (Z.ltb_ge _ _)) by done.
  destruct (__clear_bit_in _ _ Hok) as (r & -> & Hlen & Hv & _). rewrite bind_Done. eexists. split; [done|].
  intros t Ht.
  destruct (has_expired_unflagged t (Object_ (obj_crea obj) exp r)) as (o & -> & Ho & Hf & _).
  { destruct Hok as [? ?]. split; [done|]. simpl. by rewrite Hlen. }
  { done. }
  cbn [obj_exp] in *. rewrite time_after_spec in * by done. exists o. split; [done|].
  intros Hlt t'. apply has_expired_flagged; [done|]. rewrite Hf. by apply Z.ltb_lt.
Qed.

Lemma object_expiry_correct_witness :
  ∃ obj', object_set_expiry 1000 (object_init 1000) 1500 = Done (obj', - XFIREDB_OK) ∧
    ∀ t, stamp t → ∃ obj'', object_has_expired t obj' = Done (obj'', 1500 <? t) ∧
      (1500 < t → ∀ t', object_has_expired t' obj'' = Done (obj'', true)).
Proof.
  apply (object_expiry_correct 1000 (object_init 1000) 1500).
  - apply object_init_flags.
  - split; [discriminate|reflexivity].
  - split; [discriminate|reflexivity].
  - discriminate.
  - discriminate.
Defined.

(** An object that was never given an expiry date, [exp] zero, is reported
    expired at every time after the epoch, although the header documents zero as
    "does not expire". *)
Lemma object_without_expiry_expires now t :
  stamp t → 0 < t → ∃ obj, object_has_expired t (object_init now) = Done (obj, true).
Proof.
  intros Ht Hpos. destruct (object_init_flags now) as [Hok Hf].
  destruct (has_expired_unflagged t (object_init now) Hok Hf) as (o & -> & _).
  exists o. cbn [obj_exp object_init]. rewrite time_after_spec by done. by rewrite (proj2 (Z.ltb_lt _ _)).
Qed.

Lemma object_without_expiry_expires_witness :
  ∃ obj, object_has_expired 1700000000000 (object_init 5) = Done (obj, true).
Proof.
  apply (object_without_expiry_expires 5 1700000000000).
  - split; [discriminate|reflexivity].
  - reflexivity.
Defined.
