(* ===== verification/Dict.v ===== *)
(** * The dictionary: [storage/dict.c]

    A hash table with two maps: the primary one and, while the table grows, the
    one the entries are being moved to.  A bucket is the chain of its entries in
    order, an entry carries the address it was allocated at, and a NULL array is
    the empty list.  Every operation is the sequence of its critical sections
    under [struct dict::lock]; the lock itself has no state.  This file holds the
    data, every operation and the facts about one map; [DictRehash] and
    [DictSpec] hold the theorems. *)
From S2P Require Import Prelude Murmur.
Local Open Scope Z_scope.

(** ** Data *)

Inductive dict_type_t := DICT_PTR | DICT_U64 | DICT_S64 | DICT_FLT.
Inductive dict_status_t := DICT_STATUS_NONE | DICT_STATUS_FREE.

#[export] Instance dict_type_eq_dec : EqDecision dict_type_t.
Proof. solve_decision. Defined.

(** [union entry_data] is eight bytes whatever its member: a 64-bit word. *)
Record dict_entry := DictEntry {
  e_addr : loc;
  e_key : string;
  e_value : Z;
  e_length : Z;
  e_type : dict_type_t }.

#[export] Instance dict_entry_eq_dec : EqDecision dict_entry.
Proof. solve_decision. Defined.

Record dict_map := DictMap {
  m_array : list (list dict_entry);
  m_size : Z;
  m_sizemask : Z;
  m_length : Z }.

Record dict := Dict {
  d_primary : dict_map;   (* map[PRIMARY_MAP] *)
  d_rehash : dict_map;    (* map[REHASH_MAP] *)
  d_status : dict_status_t;
  d_rehashidx : Z;
  d_rehashing : bool;
  d_iterators : Z }.

#[export] Instance dict_map_eq_dec : EqDecision dict_map.
Proof. solve_decision. Defined.
#[export] Instance dict_status_eq_dec : EqDecision dict_status_t.
Proof. solve_decision. Defined.
#[export] Instance dict_eq_dec : EqDecision dict.
Proof. solve_decision. Defined.

(** The two static variables that control expansion. *)
Record dict_globals := DictGlobals {
  dict_resize_ratio : Z;
  dict_can_expand : bool }.

Definition dict_globals_init : dict_globals := DictGlobals 5 true.
Definition dict_set_can_expand (g : dict_globals) (x : Z) : dict_globals :=
  DictGlobals (dict_resize_ratio g) (negb (x =? 0)).
Definition dict_set_resize_ratio (g : dict_globals) (r : Z) : dict_globals :=
  if r <? 0 then g else DictGlobals r (dict_can_expand g).

Definition DICT_MINIMAL_SIZE : Z := 4.
Definition PTR_SIZE : Z := 8.
Definition LONG_MAX : Z := 2 ^ 63 - 1.

(** An array of [n] NULL bucket heads; [xfiredb_zalloc] of [n * PTR_SIZE] bytes. *)
Definition bucket_array (n : Z) : list (list dict_entry) :=
  replicate (Z.to_nat (u64 (n * PTR_SIZE) / PTR_SIZE)) [].

Definition dict_reset : dict_map := DictMap [] 0 0 0.

Definition dict_init : dict :=
  {| d_primary := DictMap (bucket_array DICT_MINIMAL_SIZE) DICT_MINIMAL_SIZE (DICT_MINIMAL_SIZE - 1) 0;
     d_rehash := dict_reset;
     d_status := DICT_STATUS_NONE;
     d_rehashidx := 0;
     d_rehashing := false;
     d_iterators := 0 |}.

Definition dict_alloc : dict := dict_init.

Definition dict_is_rehashing (d : dict) : bool := d_rehashing d.
Definition dict_has_iterators (d : dict) : bool := negb (d_iterators d =? 0).

Definition dict_get_size (d : dict) : Z :=
  s64 (s64 (0 + m_length (d_primary d)) + m_length (d_rehash d)).

(** ** Buckets and chains *)

(** [hash & d->map[t].sizemask], stored in a [u32]. *)
Definition map_idx (m : dict_map) (key : string) : Z :=
  u32 (Z.land (dict_hash_key key DICT_SEED) (m_sizemask m)).

(** [d->map[t].array[idx]] *)
Definition bucket (m : dict_map) (idx : Z) : outcome (list dict_entry) :=
  if decide (0 ≤ idx) then deref (m_array m !! Z.to_nat idx) else Stuck.

Definition set_bucket (m : dict_map) (idx : Z) (b : list dict_entry) (len : Z) : dict_map :=
  DictMap (<[Z.to_nat idx := b]> (m_array m)) (m_size m) (m_sizemask m) len.

(** The [while(e)] loop that compares the key of each entry of a chain. *)
Fixpoint chain_find (key : string) (chain : list dict_entry) : option dict_entry :=
  match chain with
  | [] => None
  | e :: next => if strcmp_eq key (e_key e) then Some e else chain_find key next
  end.

(** The same loop with the unlinking of [__dict_delete]. *)
Fixpoint chain_unlink (key : string) (chain : list dict_entry)
    : option (dict_entry * list dict_entry) :=
  match chain with
  | [] => None
  | e :: next =>
      if strcmp_eq key (e_key e) then Some (e, next)
      else match chain_unlink key next with
           | Some (x, rest) => Some (x, e :: rest)
           | None => None
           end
  end.

(** ** Rehashing *)

(** The inner loop of [dict_rehash]: skip NULL buckets, at most [visits] of
    them.  Returns the index, the visits left and the chain found, if any. *)
Fixpoint skip_empty (visits : nat) (array : list (list dict_entry)) (idx : Z)
    : outcome (Z * nat * option (list dict_entry)) :=
  match array !! Z.to_nat idx with
  | None => Stuck
  | Some [] =>
      match visits with
      | O => OutOfFuel
      | S O => Done (idx + 1, O, None)
      | S visits' => skip_empty visits' array (idx + 1)
      end
  | Some chain => Done (idx, visits, Some chain)
  end.

(** The [while(likely(de))] loop: every entry of the chain goes to the front of
    its bucket in the rehash map. *)
Fixpoint move_chain (de : list dict_entry) (target : dict_map) (len : Z)
    : outcome (dict_map * Z) :=
  match de with
  | [] => Done (target, len)
  | e :: next =>
      let idx := map_idx target (e_key e) in
      b ← bucket target idx;
      move_chain next (set_bucket target idx (e :: b) (m_length target + 1)) (len - 1)
  end.

(** The outer loop; a failing [assert] is [Stuck]. *)
Fixpoint rehash_loop (num visits : nat) (d : dict) : outcome (dict * Z) :=
  match num with
  | O => Done (d, 1)
  | S num' =>
      let m0 := d_primary d in
      if m_length m0 >? 0 then
        if negb (m_size m0 >? d_rehashidx d) then Stuck else
        '(idx, visits', found) ← skip_empty visits (m_array m0) (d_rehashidx d);
        match found with
        | None =>
            Done (Dict m0 (d_rehash d) (d_status d) idx (d_rehashing d) (d_iterators d), 1)
        | Some chain =>
            '(m1, len) ← move_chain chain (d_rehash d) (m_length m0);
            let m0' := set_bucket m0 idx [] len in
            if len =? 0 then
              Done (Dict m1 dict_reset (d_status d) (-1) false (d_iterators d), 0)
            else
              rehash_loop num' visits'
                (Dict m0' m1 (d_status d) (idx + 1) (d_rehashing d) (d_iterators d))
        end
      else Done (d, 1)
  end.

Definition dict_rehash (d : dict) (num : nat) : outcome (dict * Z) :=
  if negb (d_rehashing d) then Done (d, 0) else rehash_loop num (num * 10) d.

Definition dict_rehash_step (d : dict) : outcome dict :=
  if dict_has_iterators d then Done d
  else '(d, _) ← dict_rehash d 1; Done d.

(** The prologue of every keyed operation. *)
Definition rehash_prologue (d : dict) : outcome dict :=
  if dict_is_rehashing d then dict_rehash_step d else Done d.

(** [dict_rehash_ms]: [clock] is the sequence of times read in the loop, and
    [start] the first one; the count of steps is returned. *)
Fixpoint dict_rehash_ms (fuel : nat) (start ms : Z) (clock : list Z) (num : Z) (d : dict)
    : outcome (dict * Z) :=
  match fuel with
  | O => OutOfFuel
  | S fuel' =>
      '(d, more) ← dict_rehash d 100;
      if more =? 0 then Done (d, num)
      else
        let num := num + 100 in
        match clock with
        | [] => OutOfFuel
        | now :: clock' =>
            if now - start >? ms then Done (d, num)
            else dict_rehash_ms fuel' start ms clock' num d
        end
  end.

(** ** Expansion *)

(** The next power of two, by smearing the top bit down (64-bit [long]). *)
Definition smear (x k : Z) : Z := Z.lor x (Z.shiftr x k).
Definition dict_real_size (size : Z) : Z :=
  if size >=? LONG_MAX then LONG_MAX
  else
    let size := u64 (size - 1) in
    let size := smear (smear (smear (smear (smear (smear size 1) 2) 4) 8) 16) 32 in
    u64 (size + 1).

Definition dict_expand (d : dict) (size : Z) : dict * Z :=
  let _size := dict_real_size size in
  if dict_is_rehashing d || (u64 (m_length (d_primary d)) >? size) then (d, - XFIREDB_ERR)
  else if u64 (m_size (d_primary d)) =? _size then (d, - XFIREDB_ERR)
  else
    let map := DictMap (bucket_array _size) (s64 _size) (u64 (_size - 1)) 0 in
    match m_array (d_primary d) with
    | [] =>
        (Dict map (d_rehash d) (d_status d) (d_rehashidx d) (d_rehashing d) (d_iterators d),
         - XFIREDB_OK)
    | _ =>
        (Dict (d_primary d) map (d_status d) 0 true (d_iterators d), - XFIREDB_OK)
    end.

Definition dict_should_expand (g : dict_globals) (d : dict) : bool :=
  (m_length (d_primary d) >=? m_size (d_primary d)) &&
  (dict_can_expand g ||
   (Z.quot (m_length (d_primary d)) (m_size (d_primary d)) <? dict_resize_ratio g)).

Definition dict_expand_if (g : dict_globals) (d : dict) : dict * Z :=
  if d_rehashing d then (d, - XFIREDB_OK)
  else if m_size (d_primary d) =? 0 then dict_expand d DICT_MINIMAL_SIZE
  else if dict_should_expand g d then dict_expand d (u64 (m_length (d_primary d) * 2))
  else (d, - XFIREDB_OK).

(** ** Insertion *)

(** -1 when the key exists already or the table cannot be expanded. *)
Definition dict_calc_index (g : dict_globals) (d : dict) (key : string) : outcome (dict * Z) :=
  let '(d, rv) := dict_expand_if g d in
  if rv =? -1 then Done (d, - XFIREDB_ERR)
  else
    let idx := map_idx (d_primary d) key in
    de ← bucket (d_primary d) idx;
    match chain_find key de with
    | Some _ => Done (d, - XFIREDB_ERR)
    | None =>
        if negb (d_rehashing d) then Done (d, s32 idx)
        else
          let idx := map_idx (d_rehash d) key in
          de ← bucket (d_rehash d) idx;
          match chain_find key de with
          | Some _ => Done (d, - XFIREDB_ERR)
          | None => Done (d, s32 idx)
          end
    end.

(** The locked part of [__dict_add]; [addr] is where the entry is allocated. *)
Definition dict_add_locked (g : dict_globals) (d : dict) (key : string) (addr : loc)
    : outcome (dict * option loc) :=
  '(d, index) ← dict_calc_index g d key;
  if index =? - XFIREDB_ERR then Done (d, None)
  else
    let entry := DictEntry addr key 0 0 DICT_PTR in
    if dict_is_rehashing d then
      next ← bucket (d_rehash d) index;
      Done (Dict (d_primary d)
              (set_bucket (d_rehash d) index (entry :: next) (m_length (d_rehash d) + 1))
              (d_status d) (d_rehashidx d) (d_rehashing d) (d_iterators d), Some addr)
    else
      next ← bucket (d_primary d) index;
      Done (Dict (set_bucket (d_primary d) index (entry :: next) (m_length (d_primary d) + 1))
              (d_rehash d)
              (d_status d) (d_rehashidx d) (d_rehashing d) (d_iterators d), Some addr).

Definition __dict_add (g : dict_globals) (d : dict) (key : string) (addr : loc)
    : outcome (dict * option loc) :=
  d ← rehash_prologue d;
  dict_add_locked g d key addr.

(** [load64 p] is the eight bytes at address [p]: what [*((u64* )data)] reads. *)
Definition dict_set_val (load64 : loc → Z) (e : dict_entry) (data : loc) (t : dict_type_t)
    : dict_entry :=
  let v := match t with DICT_PTR => data | _ => load64 data end in
  DictEntry (e_addr e) (e_key e) v (e_length e) (e_type e).

(** A write through an entry pointer, wherever the entry is linked. *)
Definition chain_write (addr : loc) (f : dict_entry → dict_entry) (chain : list dict_entry)
    : list dict_entry :=
  (λ e, if decide (e_addr e = addr) then f e else e) <$> chain.
Definition map_entry_write (addr : loc) (f : dict_entry → dict_entry) (m : dict_map) : dict_map :=
  DictMap (chain_write addr f <$> m_array m)
    (m_size m) (m_sizemask m) (m_length m).
Definition entry_write (addr : loc) (f : dict_entry → dict_entry) (d : dict) : dict :=
  Dict (map_entry_write addr f (d_primary d)) (map_entry_write addr f (d_rehash d))
    (d_status d) (d_rehashidx d) (d_rehashing d) (d_iterators d).

Definition set_length (size : Z) (e : dict_entry) : dict_entry :=
  DictEntry (e_addr e) (e_key e) (e_value e) size (e_type e).

Definition dict_get_entry_length (t : dict_type_t) : Z := 8.

Definition raw_dict_add (load64 : loc → Z) (g : dict_globals) (d : dict) (key : string)
    (data : loc) (t : dict_type_t) (size : Z) (addr : loc) : outcome (dict * Z) :=
  '(d, e) ← __dict_add g d key addr;
  match e with
  | None => Done (d, - XFIREDB_ERR)
  | Some e =>
      Done (entry_write e (λ x, set_length size (dict_set_val load64 x data t)) d, - XFIREDB_OK)
  end.

Definition dict_add (load64 : loc → Z) (g : dict_globals) (d : dict) (key : string)
    (data : loc) (t : dict_type_t) (addr : loc) : outcome (dict * Z) :=
  raw_dict_add load64 g d key data t (dict_get_entry_length t) addr.

(** ** Lookup and update *)

Definition dict_lookup_locked (d : dict) (key : string) : outcome (dict * option dict_entry) :=
  if m_size (d_primary d) =? 0 then Done (d, None)
  else
    b ← bucket (d_primary d) (map_idx (d_primary d) key);
    match chain_find key b with
    | Some e => Done (d, Some e)
    | None =>
        if negb (d_rehashing d) then Done (d, None)
        else
          b ← bucket (d_rehash d) (map_idx (d_rehash d) key);
          Done (d, chain_find key b)
    end.

Definition __dict_lookup (d : dict) (key : string) : outcome (dict * option dict_entry) :=
  d ← rehash_prologue d;
  dict_lookup_locked d key.

(** [*data] and [*size] keep their contents when the key is not found. *)
Definition dict_lookup (d : dict) (key : string) (data size : Z)
    : outcome (dict * Z * Z * Z) :=
  '(d, e) ← __dict_lookup d key;
  match e with
  | None => Done (d, - XFIREDB_ERR, data, size)
  | Some e => Done (d, - XFIREDB_OK, e_value e, e_length e)
  end.

Definition dict_key_available (d : dict) (key : string) : outcome (dict * bool) :=
  '(d, found, _, _) ← dict_lookup d key 0 0;
  Done (d, found =? - XFIREDB_OK).

Definition raw_dict_update (load64 : loc → Z) (g : dict_globals) (d : dict) (key : string)
    (data : loc) (t : dict_type_t) (l : Z) (addr : loc) : outcome (dict * Z) :=
  '(d, e) ← __dict_lookup d key;
  match e with
  | None => dict_add load64 g d key data t addr
  | Some e =>
      Done (entry_write (e_addr e) (λ x, set_length l (dict_set_val load64 x data t)) d,
            - XFIREDB_OK)
  end.

Definition dict_update (load64 : loc → Z) (g : dict_globals) (d : dict) (key : string)
    (data : loc) (t : dict_type_t) (addr : loc) : outcome (dict * Z) :=
  raw_dict_update load64 g d key data t (dict_get_entry_length t) addr.

(** ** Deletion *)

Definition dict_delete_locked (d : dict) (key : string) : outcome (dict * option dict_entry) :=
  if m_size (d_primary d) =? 0 then Done (d, None)
  else
    let idx := map_idx (d_primary d) key in
    b ← bucket (d_primary d) idx;
    match chain_unlink key b with
    | Some (e, rest) =>
        Done (Dict (set_bucket (d_primary d) idx rest (m_length (d_primary d) - 1)) (d_rehash d)
                (d_status d) (d_rehashidx d) (d_rehashing d) (d_iterators d), Some e)
    | None =>
        if negb (dict_is_rehashing d) then Done (d, None)
        else
          let idx := map_idx (d_rehash d) key in
          b ← bucket (d_rehash d) idx;
          match chain_unlink key b with
          | Some (e, rest) =>
              Done (Dict (d_primary d) (set_bucket (d_rehash d) idx rest (m_length (d_rehash d) - 1))
                      (d_status d) (d_rehashidx d) (d_rehashing d) (d_iterators d), Some e)
          | None => Done (d, None)
          end
    end.

Definition __dict_delete (d : dict) (key : string) : outcome (dict * option dict_entry) :=
  d ← rehash_prologue d;
  dict_delete_locked d key.

(** Returns the code, the contents of [*data] and the pointer that was released
    when [free] is set. *)
Definition dict_delete (d : dict) (key : string) (data : Z) (free : bool)
    : outcome (dict * Z * Z * option loc) :=
  '(d, e) ← __dict_delete d key;
  match e with
  | Some e =>
      if free then Done (d, - XFIREDB_OK, data, Some (e_value e))
      else Done (d, - XFIREDB_OK, e_value e, None)
  | None => Done (d, - XFIREDB_ERR, data, None)
  end.

(** ** Clearing *)

(** The loop of [__dict_clear]: releases the entries of each chain, bucket by
    bucket, while the length is positive; returns the addresses released. *)
Fixpoint clear_loop (array : list (list dict_entry)) (len : Z) : list loc :=
  match array with
  | [] => []
  | chain :: array' =>
      if len >? 0 then
        (e_addr <$> chain) ++ clear_loop array' (len - Z.of_nat (length chain))
      else []
  end.

Definition __dict_clear (m : dict_map) : dict_map * list loc :=
  (dict_reset, clear_loop (take (Z.to_nat (m_size m)) (m_array m)) (m_length m)).

Definition dict_clear (d : dict) : dict * Z * list loc :=
  let '(m0, freed0) := __dict_clear (d_primary d) in
  let '(m1, freed1) := __dict_clear (d_rehash d) in
  (Dict m0 m1 (d_status d) (-1) false (d_iterators d), - XFIREDB_OK, freed0 ++ freed1).

(** ** Invariant *)

(** One map: sizes are powers of two, the length counts the entries, and every
    entry is in the bucket its hash selects. *)
Record map_ok (m : dict_map) : Prop := {
  map_ok_size : m_size m = Z.of_nat (length (m_array m));
  map_ok_length : m_length m = Z.of_nat (length (concat (m_array m)));
  map_ok_null : m_array m = [] → m_sizemask m = 0;
  map_ok_mask : m_array m ≠ [] → ∃ k, 2 ≤ k ≤ 31 ∧ m_size m = 2 ^ k ∧ m_sizemask m = 2 ^ k - 1;
  map_ok_idx : ∀ i b e, m_array m !! i = Some b → e ∈ b → map_idx m (e_key e) = Z.of_nat i }.

Definition map_entries (m : dict_map) : list dict_entry := concat (m_array m).
Definition entries (d : dict) : list dict_entry :=
  map_entries (d_primary d) ++ map_entries (d_rehash d).

Record dict_ok (d : dict) : Prop := {
  dict_ok_primary : map_ok (d_primary d);
  dict_ok_rehash : map_ok (d_rehash d);
  dict_ok_idle : d_rehashing d = false → d_rehash d = dict_reset;
  dict_ok_busy : d_rehashing d = true →
    m_array (d_primary d) ≠ [] ∧ m_array (d_rehash d) ≠ [] ∧ 0 ≤ d_rehashidx d ∧
    ∀ i b, Z.of_nat i < d_rehashidx d → m_array (d_primary d) !! i = Some b → b = [];
  dict_ok_keys : NoDup (e_key <$> entries d);
  dict_ok_addrs : NoDup (e_addr <$> entries d) }.

(** The abstract dictionary: value and length of each key. *)
Definition entry_kv (e : dict_entry) : string * (Z * Z) := (e_key e, (e_value e, e_length e)).
Definition dict_abs (d : dict) : gmap string (Z * Z) := list_to_map (entry_kv <$> entries d).

(** ** One map *)

Lemma dict_reset_ok : map_ok dict_reset.
Proof. split; simpl; try done. Qed.

Lemma map_idx_range m key k :
  0 ≤ k ≤ 31 → m_sizemask m = 2 ^ k - 1 → 0 ≤ map_idx m key < 2 ^ k.
Proof.
  intros Hk Hm. unfold map_idx. rewrite Hm.
  replace (2 ^ k - 1) with (Z.ones k) by (rewrite Z.ones_equiv; lia).
  rewrite Z.land_ones by lia.
  pose proof (Z.mod_pos_bound (dict_hash_key key DICT_SEED) (2 ^ k) ltac:(lia)).
  pose proof (Z.pow_le_mono_r 2 k 32 ltac:(lia) ltac:(lia)).
  rewrite u32_small; lia.
Qed.

(** The bucket of a key exists in any map that has an array. *)
Lemma bucket_of_key m key :
  map_ok m → m_array m ≠ [] →
  ∃ b, bucket m (map_idx m key) = Done b ∧ m_array m !! Z.to_nat (map_idx m key) = Some b ∧
    0 ≤ map_idx m key < 2 ^ 31.
Proof.
  intros Hok Hne. destruct (map_ok_mask m Hok Hne) as (k & Hk & Hs & Hmask).
  pose proof (map_idx_range m key k ltac:(lia) Hmask) as Hr.
  pose proof (Z.pow_le_mono_r 2 k 31 ltac:(lia) ltac:(lia)).
  pose proof (map_ok_size m Hok).
  destruct (lookup_lt_is_Some_2 (m_array m) (Z.to_nat (map_idx m key))) as [b Hb]; [lia|].
  exists b. split_and!; [|done|lia..]. unfold bucket. rewrite decide_True by lia. by rewrite Hb.
Qed.

Lemma map_size_zero m : map_ok m → (m_size m =? 0) = true ↔ m_array m = [].
Proof.
  intros Hok. rewrite Z.eqb_eq, (map_ok_size m Hok). split; [|by intros ->].
  intros H. apply length_zero_iff_nil. lia.
Qed.

(** Every entry with a key is in the bucket of that key. *)
Lemma in_bucket_of_key m key b e :
  map_ok m → m_array m !! Z.to_nat (map_idx m key) = Some b → 0 ≤ map_idx m key →
  e ∈ map_entries m → e_key e = key → e ∈ b.
Proof.
  intros Hok Hb Hnn He Hk. apply elem_of_concat in He as (i & l & Hi & Hin).
  pose proof (map_ok_idx m Hok i l e Hi Hin) as Hidx. rewrite Hk in Hidx.
  assert (i = Z.to_nat (map_idx m key)) as -> by lia. congruence.
Qed.

Lemma bucket_subset m i b : m_array m !! i = Some b → b ⊆ map_entries m.
Proof. intros Hb e He. apply elem_of_concat. eauto. Qed.

(** Replacing one chain. *)
Lemma set_bucket_ok m i b b' len :
  map_ok m → 0 ≤ i → m_array m !! Z.to_nat i = Some b →
  (∀ e, e ∈ b' → map_idx m (e_key e) = i) →
  len = m_length m + Z.of_nat (length b') - Z.of_nat (length b) →
  map_ok (set_bucket m i b' len).
Proof.
  intros Hok Hi Hb Hidx Hlen. split; simpl.
  - by rewrite length_insert, (map_ok_size m Hok).
  - rewrite (concat_insert _ _ b) by done. rewrite Hlen, (map_ok_length m Hok).
    rewrite (concat_split _ _ b Hb). rewrite !length_app. lia.
  - intros H. apply (f_equal length) in H. rewrite length_insert in H.
    apply lookup_lt_Some in Hb. simpl in H. lia.
  - intros _. apply map_ok_mask; [done|]. intros Hn. by rewrite Hn in Hb.
  - intros j l e Hj He. change (map_idx (set_bucket m i b' len) (e_key e)) with (map_idx m (e_key e)).
    apply list_lookup_insert_Some in Hj as [(<- & <- & _)|[? Hj]].
    + rewrite Hidx by done. lia.
    + by eapply map_ok_idx.
Qed.

Lemma set_bucket_entries m i b b' len :
  m_array m !! Z.to_nat i = Some b →
  map_entries m ++ b' ≡ₚ map_entries (set_bucket m i b' len) ++ b.
Proof.
  intros Hb. unfold map_entries. simpl. rewrite (concat_insert _ _ b) by done.
  rewrite (concat_split _ _ b Hb). solve_Permutation.
Qed.

(** ** Chains *)

Lemma chain_find_Some key c e : chain_find key c = Some e → e ∈ c ∧ e_key e = key.
Proof.
  induction c as [|x c IH]; simpl; [done|]. case_match eqn:Hc.
  - intros [= ->]. apply strcmp_eq_true in Hc. split; [by left|done].
  - intros H. destruct (IH H). split; [by right|done].
Qed.

Lemma chain_find_None key c : chain_find key c = None ↔ ∀ e, e ∈ c → e_key e ≠ key.
Proof.
  induction c as [|x c IH]; simpl; [split; [intros _ e ?%not_elem_of_nil; done|done]|].
  case_match eqn:Hc.
  - split; [done|]. apply strcmp_eq_true in Hc. intros H. exfalso. by apply (H x); [left|].
  - apply strcmp_eq_false in Hc. rewrite IH. split.
    + intros H e [->|He]%elem_of_cons; [congruence|auto].
    + intros H e He. apply H. by right.
Qed.

Lemma chain_unlink_find key c :
  match chain_unlink key c with
  | Some (e, rest) => chain_find key c = Some e ∧ c ≡ₚ e :: rest ∧
      ∃ l1 l2, c = l1 ++ e :: l2 ∧ rest = l1 ++ l2
  | None => chain_find key c = None
  end.
Proof.
  induction c as [|x c IH]; simpl; [done|].
  destruct (strcmp_eq key (e_key x)); [split_and!; [done..|by exists [], c]|].
  destruct (chain_unlink key c) as [[e rest]|]; [|done].
  destruct IH as (? & Hp & l1 & l2 & -> & ->). split_and!; [done| |by exists (x :: l1), l2].
  rewrite Hp. apply Permutation_swap.
Qed.
