(* ===== verification/DictRehash.v ===== *)
(** * Incremental rehashing: correctness and progress

    The theorems about [dict_rehash], [dict_expand] and [dict_real_size] of
    [storage/dict.c]: moving entries between the two maps never loses, duplicates
    or changes one, stays inside the arrays, and ends. *)
From S2P Require Import Prelude Murmur Dict.
Local Open Scope Z_scope.

(** Two dictionaries with the same entries, wherever they are linked. *)
#[export] Instance dict_equiv : Equiv dict := λ d1 d2, entries d1 ≡ₚ entries d2.
#[export] Instance dict_equivalence : Equivalence (≡@{dict}).
Proof.
  split; unfold equiv, dict_equiv.
  - intros ?. reflexivity.
  - intros ???. by symmetry.
  - intros ??? ??. by etrans.
Qed.

Lemma dict_abs_equiv d1 d2 : dict_ok d1 → d1 ≡ d2 → dict_abs d1 = dict_abs d2.
Proof.
  intros Hok Heq. unfold dict_abs. apply list_to_map_proper.
  - rewrite <-list_fmap_compose. apply (dict_ok_keys d1 Hok).
  - by apply fmap_Permutation.
Qed.

(** ** [dict_real_size] *)

(** Smearing doubles the span over which the bits have been or-ed. *)
Definition smeared (x m y : Z) : Prop :=
  ∀ n, 0 ≤ n → Z.testbit y n = true ↔ ∃ j, 0 ≤ j < m ∧ Z.testbit x (n + j) = true.

Lemma smeared_start x : smeared x 1 x.
Proof.
  intros n Hn. split; [intros ?; exists 0; by rewrite Z.add_0_r|].
  intros (j & Hj & H). by replace (n + j) with n in H by lia.
Qed.

Lemma smeared_step x m y : 0 ≤ m → smeared x m y → smeared x (2 * m) (smear y m).
Proof.
  intros Hm Hs n Hn. unfold smear. rewrite Z.lor_spec, Z.shiftr_spec, orb_true_iff by done.
  rewrite (Hs n), (Hs (n + m)) by lia. split.
  - intros [(j & Hj & H)|(j & Hj & H)]; [exists j; split; [lia|done]|].
    exists (m + j). split; [lia|]. by rewrite Z.add_assoc.
  - intros (j & Hj & H). destruct (Z.lt_ge_cases j m); [left; exists j; split; [lia|done]|].
    right. exists (j - m). split; [lia|]. by replace (n + m + (j - m)) with (n + j) by lia.
Qed.

Lemma smear_all x :
  0 ≤ x < 2 ^ 63 →
  smeared x 64 (smear (smear (smear (smear (smear (smear x 1) 2) 4) 8) 16) 32).
Proof.
  intros _. apply (smeared_step x 32), (smeared_step x 16), (smeared_step x 8),
    (smeared_step x 4), (smeared_step x 2), (smeared_step x 1); try lia. apply smeared_start.
Qed.

Lemma smear_nonneg x k : 0 ≤ x → 0 ≤ smear x k.
Proof. intros. unfold smear. apply Z.lor_nonneg. split; [done|]. by apply Z.shiftr_nonneg. Qed.

(** A number whose set bits are exactly those up to the top bit of [x]. *)
Lemma smeared_value x y :
  0 < x < 2 ^ 63 → 0 ≤ y → smeared x 64 y → y = 2 ^ (Z.log2 x + 1) - 1.
Proof.
  intros Hx Hy Hs. pose proof (Z.log2_nonneg x).
  assert (Z.log2 x < 63) by (apply Z.log2_lt_pow2; lia).
  replace (2 ^ (Z.log2 x + 1) - 1) with (Z.ones (Z.log2 x + 1)) by (rewrite Z.ones_equiv; lia).
  apply Z.bits_inj'; intros n Hn. apply eq_true_iff_eq. rewrite (Hs n Hn).
  rewrite Z.testbit_ones_nonneg, Z.ltb_lt by lia. split.
  - intros (j & Hj & Hb). destruct (Z.lt_ge_cases (Z.log2 x) (n + j)) as [Hlt|]; [|lia].
    by rewrite Z.bits_above_log2 in Hb by lia.
  - intros Hle. exists (Z.log2 x - n). split; [lia|].
    replace (n + (Z.log2 x - n)) with (Z.log2 x) by lia. apply Z.bit_log2. lia.
Qed.

Lemma dict_real_size_pow2 size :
  2 ≤ size ≤ 2 ^ 62 → dict_real_size size = 2 ^ Z.log2_up size.
Proof.
  intros Hs. unfold dict_real_size.
  change (2 ^ 62) with 4611686018427387904 in *.
  assert ((size >=? LONG_MAX) = false) as ->.
  { unfold LONG_MAX. change (2 ^ 63) with 9223372036854775808. lia. }
  rewrite (u64_small (size - 1)) by (change (2 ^ 64) with 18446744073709551616; lia).
  assert (0 < size - 1 < 2 ^ 63) as Hx by (change (2 ^ 63) with 9223372036854775808; lia).
  rewrite (smeared_value (size - 1) (smear _ 32));
    [|done|repeat apply smear_nonneg; lia|apply smear_all; lia].
  rewrite Z.sub_add. unfold Z.log2_up. rewrite (proj2 (Z.compare_lt_iff 1 size)) by lia.
  replace (Z.pred size) with (size - 1) by lia. rewrite <-Z.add_1_r.
  assert (Z.log2 (size - 1) < 62) by (apply Z.log2_lt_pow2; [lia|];
    change (2 ^ 62) with 4611686018427387904; lia).
  pose proof (Z.log2_nonneg (size - 1)).
  apply u64_small. split; [by apply Z.pow_nonneg|]. apply Z.pow_lt_mono_r; lia.
Qed.

(** ** Moving one chain *)

Lemma move_chain_ok de m len :
  map_ok m → m_array m ≠ [] →
  ∃ m', move_chain de m len = Done (m', len - Z.of_nat (length de)) ∧ map_ok m' ∧
    m_array m' ≠ [] ∧ map_entries m' ≡ₚ de ++ map_entries m.
Proof.
  revert m len. induction de as [|e de IH]; intros m len Hok Hne.
  { exists m. simpl. by rewrite Z.sub_0_r. }
  destruct (bucket_of_key m (e_key e) Hok Hne) as (b & Hb & Hlk & Hr).
  cbn [move_chain]. rewrite Hb, bind_Done.
  set (m1 := set_bucket m _ _ _).
  assert (map_ok m1) as Hok1.
  { apply set_bucket_ok with b; [done|lia|done| |simpl; lia].
    intros x [->|Hx]%elem_of_cons; [done|].
    rewrite (map_ok_idx m Hok _ _ _ Hlk Hx). lia. }
  assert (m_array m1 ≠ []) as Hne1.
  { intros H. apply (f_equal length) in H. simpl in H. rewrite length_insert in H.
    apply lookup_lt_Some in Hlk. lia. }
  destruct (IH m1 (len - 1) Hok1 Hne1) as (m' & -> & ? & ? & Hp).
  exists m'. split_and!; [|done..|].
  - f_equal. f_equal. simpl. lia.
  - rewrite Hp. assert (map_entries m1 ≡ₚ e :: map_entries m) as ->.
    { apply (Permutation_app_inv_r b).
      pose proof (set_bucket_entries m _ b (e :: b) (m_length m + 1) Hlk) as Hset.
      fold m1 in Hset. rewrite <-Hset. solve_Permutation. }
    solve_Permutation.
Qed.

(** ** The scan for a chain *)

(** Every bucket below [idx] is empty. *)
Definition empty_below (array : list (list dict_entry)) (idx : Z) : Prop :=
  ∀ i b, Z.of_nat i < idx → array !! i = Some b → b = [].

Lemma chain_ahead array idx :
  concat array ≠ [] → empty_below array idx → 0 ≤ idx →
  ∃ j b, array !! j = Some b ∧ b ≠ [] ∧ idx ≤ Z.of_nat j < Z.of_nat (length array).
Proof.
  intros Hne Hbelow Hidx. destruct (concat array) as [|e l] eqn:Hc; [done|].
  assert (e ∈ concat array) as (j & b & Hj & Hb)%elem_of_concat by (rewrite Hc; by left).
  exists j, b. assert (b ≠ []) by (intros ->; by apply not_elem_of_nil in Hb).
  split_and!; [done|done| |apply lookup_lt_Some in Hj; lia].
  destruct (Z.le_gt_cases idx (Z.of_nat j)); [done|]. by rewrite (Hbelow j b) in *.
Qed.

Lemma skip_empty_ok visits array idx :
  (1 ≤ visits)%nat → 0 ≤ idx → concat array ≠ [] → empty_below array idx →
  ∃ idx' v r, skip_empty visits array idx = Done (idx', v, r) ∧ empty_below array idx' ∧
    match r with
    | Some b => idx ≤ idx' ∧ array !! Z.to_nat idx' = Some b ∧ b ≠ [] ∧ (1 ≤ v)%nat
    | None => idx < idx'
    end.
Proof.
  revert idx. induction visits as [|visits IH]; intros idx Hv Hidx Hne Hbelow; [lia|].
  destruct (chain_ahead array idx Hne Hbelow Hidx) as (j & bj & Hj & Hbj & Hr).
  destruct (lookup_lt_is_Some_2 array (Z.to_nat idx)) as [b Hb]; [lia|].
  cbn [skip_empty]. rewrite Hb. destruct b as [|e b].
  - assert (empty_below array (idx + 1)) as Hbelow'.
    { intros i b Hi Hlk. destruct (decide (Z.of_nat i = idx)) as [Heq|].
      - rewrite <-Heq, Nat2Z.id in Hb. congruence.
      - apply (Hbelow i b); [lia|done]. }
    destruct visits as [|visits].
    + exists (idx + 1), 0%nat, None. split_and!; [done|done|lia].
    + destruct (IH (idx + 1)) as (idx' & v & r & -> & ? & Hcase); [lia|lia|done|done|].
      exists idx', v, r. split_and!; [done|done|]. destruct r; [intuition lia|lia].
  - exists idx, (S visits), (Some (e :: b)). split_and!; try done; lia.
Qed.

(** ** One bucket of work *)

(** The state after the chain at [idx] has moved, and the state after the last
    one has: the rehash map becomes the primary one. *)
Definition moved (d : dict) (m1 : dict_map) (idx len : Z) : dict :=
  Dict (set_bucket (d_primary d) idx [] len) m1 (d_status d) (idx + 1) true (d_iterators d).
Definition swapped (d : dict) (m1 : dict_map) : dict :=
  Dict m1 dict_reset (d_status d) (-1) false (d_iterators d).

Lemma dict_ok_equiv d d' :
  dict_ok d → d' ≡ d → map_ok (d_primary d') → map_ok (d_rehash d') →
  (d_rehashing d' = false → d_rehash d' = dict_reset) →
  (d_rehashing d' = true →
     m_array (d_primary d') ≠ [] ∧ m_array (d_rehash d') ≠ [] ∧ 0 ≤ d_rehashidx d' ∧
     empty_below (m_array (d_primary d')) (d_rehashidx d')) →
  dict_ok d'.
Proof.
  intros Hok Heq ????. split; try done.
  - unfold equiv, dict_equiv in Heq. rewrite Heq. apply (dict_ok_keys d Hok).
  - unfold equiv, dict_equiv in Heq. rewrite Heq. apply (dict_ok_addrs d Hok).
Qed.

Lemma moved_ok d m1 idx b :
  dict_ok d → d_rehashing d = true → 0 ≤ idx → m_array (d_primary d) !! Z.to_nat idx = Some b →
  empty_below (m_array (d_primary d)) idx → map_ok m1 → m_array m1 ≠ [] →
  map_entries m1 ≡ₚ b ++ map_entries (d_rehash d) →
  dict_ok (moved d m1 idx (m_length (d_primary d) - Z.of_nat (length b))) ∧
  moved d m1 idx (m_length (d_primary d) - Z.of_nat (length b)) ≡ d.
Proof.
  intros Hok Hre Hidx Hb Hbelow Hm1 Hne Hp.
  set (d' := moved _ _ _ _).
  assert (d' ≡ d) as Heq.
  { unfold equiv, dict_equiv, entries. simpl. rewrite Hp.
    pose proof (set_bucket_entries (d_primary d) idx b [] (m_length (d_primary d) - Z.of_nat (length b)) Hb) as Hset.
    rewrite app_nil_r in Hset. rewrite Hset. by rewrite app_assoc. }
  split; [|done]. apply (dict_ok_equiv d); try done.
  - apply set_bucket_ok with b; [apply (dict_ok_primary d Hok)|done|done| |simpl; lia].
    intros e He. by apply not_elem_of_nil in He.
  - intros _. destruct (dict_ok_busy d Hok Hre) as (Hp0 & _ & _ & _). split_and!; [|done|simpl; lia|].
    + simpl. intros H. apply (f_equal length) in H. rewrite length_insert in H.
      apply lookup_lt_Some in Hb. simpl in H. lia.
    + intros i c Hi Hc. simpl in Hi, Hc.
      apply list_lookup_insert_Some in Hc as [(<- & <- & _)|[Hne' Hc]]; [done|].
      apply (Hbelow i c); [lia|done].
Qed.

Lemma swapped_ok d m1 idx b :
  dict_ok d → 0 ≤ idx → m_array (d_primary d) !! Z.to_nat idx = Some b →
  m_length (d_primary d) - Z.of_nat (length b) = 0 → map_ok m1 →
  map_entries m1 ≡ₚ b ++ map_entries (d_rehash d) →
  dict_ok (swapped d m1) ∧ swapped d m1 ≡ d.
Proof.
  intros Hok Hidx Hb Hlen Hm1 Hp.
  assert (map_entries (d_primary d) = b) as Hb'.
  { pose proof (map_ok_length _ (dict_ok_primary d Hok)) as Hl. unfold map_entries.
    rewrite (concat_split _ _ _ Hb) in *. rewrite !length_app in Hl.
    destruct (concat (take _ _)); [|simpl in Hl; lia].
    destruct (concat (drop _ _)); [|simpl in Hl; lia]. by rewrite app_nil_r. }
  assert (swapped d m1 ≡ d) as Heq.
  { unfold equiv, dict_equiv, entries. simpl. rewrite Hb', Hp. unfold map_entries. simpl.
    by rewrite app_nil_r. }
  split; [|done]. by apply (dict_ok_equiv d).
Qed.

(** ** The loop *)

Record rehash_result (d d' : dict) (r : Z) : Prop := {
  rr_ok : dict_ok d';
  rr_equiv : d' ≡ d;
  rr_iterators : d_iterators d' = d_iterators d;
  rr_status : d_status d' = d_status d;
  rr_end :
    (r = 0 ∧ d_rehashing d' = false) ∨
    (r = 1 ∧ d_rehashing d' = true ∧ m_size (d_primary d') = m_size (d_primary d) ∧
     d_rehashidx d ≤ d_rehashidx d' ∧
     (0 < m_length (d_primary d) → 0 < m_length (d_primary d'))) }.

Lemma primary_nonempty d :
  dict_ok d → 0 < m_length (d_primary d) → concat (m_array (d_primary d)) ≠ [].
Proof.
  intros Hok Hlen H. rewrite (map_ok_length _ (dict_ok_primary d Hok)), H in Hlen. simpl in Hlen. lia.
Qed.

Lemma rehash_loop_ok num visits d :
  dict_ok d → d_rehashing d = true → (1 ≤ visits)%nat →
  ∃ d' r, rehash_loop num visits d = Done (d', r) ∧ rehash_result d d' r ∧
    ((0 < num)%nat → 0 < m_length (d_primary d) → r = 1 → d_rehashidx d < d_rehashidx d').
Proof.
  revert visits d. induction num as [|num IH]; intros visits d Hok Hre Hv; cbn [rehash_loop].
  { exists d, 1. split_and!; [done| |lia]. split; try done. right. split_and!; done. }
  destruct (Z.gtb_spec (m_length (d_primary d)) 0) as [Hlen|Hlen]; cycle 1.
  { exists d, 1. split_and!; [done| |lia]. split; try done. right. split_and!; done. }
  destruct (dict_ok_busy d Hok Hre) as (Hne0 & Hne1 & Hidx & Hbelow).
  pose proof (primary_nonempty d Hok ltac:(lia)) as Hent.
  destruct (chain_ahead _ _ Hent Hbelow Hidx) as (j & bj & _ & _ & Hj).
  rewrite <-(map_ok_size _ (dict_ok_primary d Hok)) in Hj.
  destruct (Z.gtb_spec (m_size (d_primary d)) (d_rehashidx d)); [|lia]. cbn [negb].
  destruct (skip_empty_ok visits _ _ Hv Hidx Hent Hbelow) as (idx & v & r & -> & Hb & Hcase).
  rewrite bind_Done. destruct r as [b|].
  - destruct Hcase as (Hle & Hlk & Hbne & Hv').
    destruct (move_chain_ok b (d_rehash d) (m_length (d_primary d)) (dict_ok_rehash d Hok) Hne1)
      as (m1 & -> & Hm1 & Hm1ne & Hp). rewrite bind_Done.
    pose proof (map_ok_length _ (dict_ok_primary d Hok)) as Hl.
    rewrite (concat_split _ _ _ Hlk), !length_app in Hl.
    case_match eqn:Hz.
    + apply Z.eqb_eq in Hz. exists (swapped d m1), 0.
      destruct (swapped_ok d m1 idx b) as [? ?]; try done; try lia.
      split_and!; [done| |lia]. split; try done. by left.
    + apply Z.eqb_neq in Hz.
      destruct (moved_ok d m1 idx b) as [Hok' Heq']; try done; try lia.
      unfold moved in *. rewrite Hre. destruct (IH v _ Hok' eq_refl Hv') as (d' & r & -> & Hrr & Hprog).
      exists d', r. split; [done|]. destruct Hrr as [R1 R2 R3 R4 R5]. simpl in *.
      split.
      * split; try done; [by etrans|].
        destruct R5 as [|(? & ? & ? & ? & R)]; [by left|right].
        split_and!; try done; [lia|]. intros _. apply R. lia.
      * intros _ _ ->. destruct R5 as [[? _]|(_ & _ & _ & ? & _)]; [done|lia].
  - eexists _, 1. split; [done|]. rewrite Hre. split; [|simpl; lia].
    assert (dict_ok (Dict (d_primary d) (d_rehash d) (d_status d) idx true (d_iterators d))) as Hok'.
    { apply (dict_ok_equiv d); try done;
        [unfold equiv, dict_equiv; done|apply (dict_ok_primary d Hok)|apply (dict_ok_rehash d Hok)|].
      intros _. split_and!; try done. simpl. lia. }
    split; try done; [unfold equiv, dict_equiv; done|].
    right. split_and!; try done. simpl. lia.
Qed.

Lemma dict_rehash_ok d num :
  dict_ok d → (0 < num)%nat →
  ∃ d' r, dict_rehash d num = Done (d', r) ∧ rehash_result d d' r ∧
    (0 < m_length (d_primary d) → r = 1 → d_rehashidx d < d_rehashidx d').
Proof.
  intros Hok Hnum. unfold dict_rehash. destruct (d_rehashing d) eqn:Hre; simpl.
  - destruct (rehash_loop_ok num (num * 10) d Hok Hre ltac:(lia)) as (d' & r & ? & ? & ?).
    exists d', r. split_and!; auto.
  - exists d, 0. split_and!; [done| |done]. split; try done. by left.
Qed.

Lemma rehash_prologue_ok d :
  dict_ok d → ∃ d', rehash_prologue d = Done d' ∧ dict_ok d' ∧ d' ≡ d ∧
    d_iterators d' = d_iterators d ∧ d_status d' = d_status d.
Proof.
  intros Hok. unfold rehash_prologue, dict_rehash_step.
  destruct (dict_is_rehashing d); [|by exists d].
  destruct (dict_has_iterators d); [by exists d|].
  destruct (dict_rehash_ok d 1 Hok ltac:(lia)) as (d' & r & -> & [] & _). by exists d'.
Qed.


Lemma rehashidx_bound d :
  dict_ok d → d_rehashing d = true → 0 < m_length (d_primary d) →
  0 ≤ d_rehashidx d < m_size (d_primary d).
Proof.
  intros Hok Hre Hlen. destruct (dict_ok_busy d Hok Hre) as (_ & _ & Hidx & Hbelow).
  destruct (chain_ahead _ _ (primary_nonempty d Hok Hlen) Hbelow Hidx) as (j & b & _ & _ & Hj).
  rewrite (map_ok_size _ (dict_ok_primary d Hok)). lia.
Qed.

(** ** Properties *)

(** C17: [dict_rehash] is invisible to the users of the dictionary: on every
    well-formed dictionary and for every number of steps it stays inside its
    arrays and returns, keeps the dictionary well-formed with exactly the same
    entries, and answers 0 only when no rehash is in progress any more. *)
Theorem dict_rehash_correct d num :
  dict_ok d → (0 < num)%nat →
  ∃ d' r, dict_rehash d num = Done (d', r) ∧ dict_ok d' ∧ dict_abs d' = dict_abs d ∧
    entries d' ≡ₚ entries d ∧ (r = 0 ↔ d_rehashing d' = false) ∧ (r = 0 ∨ r = 1).
Proof.
  intros Hok Hnum. destruct (dict_rehash_ok d num Hok Hnum) as (d' & r & -> & [] & _).
  exists d', r. split_and!; [done|done| |done| |].
  - symmetry. apply dict_abs_equiv; [done|]. by symmetry.
  - destruct rr_end0 as [[-> ?]|(-> & -> & _)]; split; done.
  - destruct rr_end0 as [[-> ?]|(-> & _)]; auto.
Qed.

Lemma dict_init_ok : dict_ok dict_init.
Proof.
  split; simpl; try done.
  - split; simpl; try done.
    + intros _. exists 2. done.
    + intros i b e Hi He. apply (lookup_replicate_1 4 [] b i) in Hi as [-> _].
      by apply not_elem_of_nil in He.
  - apply NoDup_nil_2.
  - apply NoDup_nil_2.
Qed.

Lemma dict_rehash_correct_witness :
  dict_ok dict_init ∧ ∃ d' r, dict_rehash dict_init 100 = Done (d', r) ∧ dict_ok d' ∧
    dict_abs d' = dict_abs dict_init ∧ entries d' ≡ₚ entries dict_init ∧
    (r = 0 ↔ d_rehashing d' = false) ∧ (r = 0 ∨ r = 1).
Proof.
  split; [exact dict_init_ok|].
  exact (dict_rehash_correct dict_init 100 dict_init_ok (Nat.lt_0_succ 99)).
Defined.

(** C18: the worker's rehash ends: when the primary map of a rehash that is under way
    still holds an entry, [dict_rehash_ms] returns, and unless its time is up it has completed
    the rehash; at most one call per remaining bucket is needed. *)
Theorem dict_rehash_ms_completes fuel start ms clock num d :
  dict_ok d → (d_rehashing d = true → 0 < m_length (d_primary d)) →
  (Z.to_nat (m_size (d_primary d) - d_rehashidx d) < fuel)%nat → (fuel ≤ length clock)%nat →
  ∃ d' n, dict_rehash_ms fuel start ms clock num d = Done (d', n) ∧
    dict_ok d' ∧ d' ≡ d ∧
    (d_rehashing d' = false ∨ ∃ now, now ∈ clock ∧ now - start > ms).
Proof.
  revert clock num d. induction fuel as [|fuel IH]; intros clock num d Hok Hlen Hfuel Hclock; [lia|].
  cbn [dict_rehash_ms].
  destruct (dict_rehash_ok d 100 Hok ltac:(lia)) as (d' & r & Hr & [] & Hprog).
  rewrite Hr, bind_Done. destruct rr_end0 as [[-> Hre']|(-> & Hre' & Hsize & _ & Hlen')].
  - exists d', num. simpl. split_and!; auto.
  - simpl. destruct clock as [|now clock]; [simpl in Hclock; lia|].
    assert (d_rehashing d = true) as Hre.
    { unfold dict_rehash in Hr. destruct (d_rehashing d); [done|]. simpl in Hr. congruence. }
    specialize (Hlen Hre). specialize (Hlen' Hlen). specialize (Hprog Hlen eq_refl).
    pose proof (rehashidx_bound d Hok Hre Hlen).
    destruct (Z.gtb_spec (now - start) ms).
    + exists d', (num + 100). split_and!; try done. right. exists now. split; [by left|lia].
    + destruct (IH clock (num + 100) d') as (d'' & n & -> & ? & ? & Hend);
        [done|done|rewrite Hsize; lia|simpl in Hclock; lia|].
      exists d'', n. split_and!; [done|done|by etrans|].
      destruct Hend as [|(t & ? & ?)]; [by left|right]. exists t. split; [by right|done].
Qed.


(** [dict_real_size] rounds up to a power of two: for every size from 2 to
    2^62 the result is the least power of two that is not below it. *)
Lemma dict_real_size_least size :
  2 ≤ size ≤ 2 ^ 62 →
  ∃ k, 0 ≤ k ≤ 62 ∧ dict_real_size size = 2 ^ k ∧ size ≤ 2 ^ k ∧
    ∀ j, 0 ≤ j → size ≤ 2 ^ j → 2 ^ k ≤ 2 ^ j.
Proof.
  intros Hs. exists (Z.log2_up size). pose proof (Z.log2_up_nonneg size).
  split_and!; [done| |by apply dict_real_size_pow2|apply Z.log2_up_spec; lia|].
  - change 62 with (Z.log2_up (2 ^ 62)). apply Z.log2_up_le_mono. lia.
  - intros j Hj Hle. apply Z.pow_le_mono_r; [done|].
    rewrite <-(Z.log2_up_pow2 j) by done. by apply Z.log2_up_le_mono.
Qed.

Lemma dict_real_size_least_witness :
  (2 ≤ 35 ≤ 2 ^ 62) ∧ ∃ k, 0 ≤ k ≤ 62 ∧ dict_real_size 35 = 2 ^ k ∧ 35 ≤ 2 ^ k ∧
    ∀ j, 0 ≤ j → 35 ≤ 2 ^ j → 2 ^ k ≤ 2 ^ j.
Proof.
  assert (2 ≤ 35 ≤ 2 ^ 62) as H by (split; vm_compute; discriminate).
  split; [exact H|exact (dict_real_size_least 35 H)].
Defined.

(** ** Expansion *)

Lemma bucket_array_ok k :
  2 ≤ k ≤ 31 → map_ok (DictMap (bucket_array (2 ^ k)) (s64 (2 ^ k)) (u64 (2 ^ k - 1)) 0) ∧
  bucket_array (2 ^ k) ≠ [] ∧ concat (bucket_array (2 ^ k)) = [].
Proof.
  intros Hk. pose proof (Z.pow_le_mono_r 2 k 31 ltac:(lia) ltac:(lia)) as Hhi.
  pose proof (Z.pow_le_mono_r 2 2 k ltac:(lia) ltac:(lia)) as Hlo.
  change (2 ^ 31) with 2147483648 in Hhi. change (2 ^ 2) with 4 in Hlo.
  assert (bucket_array (2 ^ k) = replicate (Z.to_nat (2 ^ k)) []) as Harr.
  { unfold bucket_array, PTR_SIZE.
    rewrite u64_small by (change (2 ^ 64) with 18446744073709551616; lia).
    by rewrite Z.div_mul by done. }
  rewrite Harr. rewrite concat_replicate_nil.
  rewrite s64_small by (change (2 ^ 63) with 9223372036854775808; lia).
  rewrite u64_small by (change (2 ^ 64) with 18446744073709551616; lia).
  split_and!; [|by destruct (Z.to_nat (2 ^ k)) eqn:?; [lia|]|done].
  split; simpl.
  - rewrite length_replicate. lia.
  - by rewrite concat_replicate_nil.
  - destruct (Z.to_nat (2 ^ k)) eqn:?; [lia|done].
  - intros _. by exists k.
  - intros i b e Hi He. apply lookup_replicate_1 in Hi as [-> _]. by apply not_elem_of_nil in He.
Qed.

Lemma dict_expand_ok d size :
  dict_ok d → d_rehashing d = false → 2 ≤ size → 4 ≤ size ≤ 2 ^ 31 →
  dict_ok (dict_expand d size).1 ∧ (dict_expand d size).1 ≡ d ∧
  d_iterators (dict_expand d size).1 = d_iterators d ∧
  ((dict_expand d size).2 = - XFIREDB_OK → m_array (d_primary (dict_expand d size).1) ≠ []).
Proof.
  intros Hok Hre _ Hs. unfold dict_expand, dict_is_rehashing. rewrite Hre. cbn [orb].
  assert (d ≡ d) by done.
  change (2 ^ 31) with 2147483648 in Hs.
  assert (2 ≤ size ≤ 2 ^ 62) by (change (2 ^ 62) with 4611686018427387904; lia).
  rewrite dict_real_size_pow2 by done.
  assert (2 ≤ Z.log2_up size ≤ 31) as Hk.
  { split; [change 2 with (Z.log2_up 4) at 1|change 31 with (Z.log2_up 2147483648)];
      apply Z.log2_up_le_mono; lia. }
  destruct (bucket_array_ok _ Hk) as (Hmok & Hmne & Hment).
  case_match; [split_and!; done|]. case_match; [split_and!; done|].
  destruct (m_array (d_primary d)) as [|b bs] eqn:Harr; simpl.
  - split_and!; try done.
    + apply (dict_ok_equiv d); simpl.
      * done.
      * unfold equiv, dict_equiv, entries, map_entries. simpl. by rewrite Hment, Harr.
      * done.
      * apply (dict_ok_rehash d Hok).
      * intros _. by apply (dict_ok_idle d Hok).
      * congruence.
    + unfold equiv, dict_equiv, entries, map_entries. simpl. by rewrite Hment, Harr.
  - assert (d_rehash d = dict_reset) as Hidle by by apply (dict_ok_idle d Hok).
    split_and!; try done; [|unfold equiv, dict_equiv, entries, map_entries; simpl; by rewrite Hment, Hidle|congruence].
    apply (dict_ok_equiv d); simpl.
    + done.
    + unfold equiv, dict_equiv, entries, map_entries. simpl. by rewrite Hment, Hidle.
    + apply (dict_ok_primary d Hok).
    + done.
    + done.
    + intros _. split_and!; [congruence|done|done|]. intros i c Hi. lia.
Qed.
