(* ===== verification/DictSpec.v ===== *)
(** * The dictionary implements a finite map

    Functional correctness of the keyed operations of [storage/dict.c] against
    [dict_abs], a [gmap] from keys to (value, length), whether or not a rehash is
    in progress, and the interleavings of the operations with the worker. *)
From S2P Require Import Prelude Murmur Dict DictRehash.
Local Open Scope Z_scope.

(** ** The abstract map *)

Definition key_in (key : string) (d : dict) : Prop := ∃ e, e ∈ entries d ∧ e_key e = key.

(** What an observer that reads [f] of each entry sees; [dict_abs] reads the value
    and the length, [dict_live] the whole entry. *)
Definition dict_view {A} (f : dict_entry → A) (d : dict) : gmap string A :=
  list_to_map ((λ e, (e_key e, f e)) <$> entries d).
Definition dict_live (d : dict) : gmap string dict_entry := dict_view id d.

Section View.
Context {A : Type} (f : dict_entry → A).

Lemma view_keys_nodup d : dict_ok d → NoDup (((λ e, (e_key e, f e)) <$> entries d).*1).
Proof. intros Hok. rewrite <-list_fmap_compose. apply (dict_ok_keys d Hok). Qed.

Lemma dict_view_lookup d e : dict_ok d → e ∈ entries d → dict_view f d !! e_key e = Some (f e).
Proof.
  intros Hok He. apply elem_of_list_to_map_1; [by apply view_keys_nodup|].
  apply list_elem_of_fmap. by exists e.
Qed.

Lemma dict_view_None d key : ¬ key_in key d ↔ dict_view f d !! key = None.
Proof.
  unfold dict_view. rewrite <-not_elem_of_list_to_map, <-list_fmap_compose, list_elem_of_fmap.
  unfold key_in. split; intros H; intros (e & ? & ?); apply H; exists e; split; done.
Qed.

Lemma dict_view_equiv d1 d2 : dict_ok d1 → d1 ≡ d2 → dict_view f d1 = dict_view f d2.
Proof.
  intros Hok Heq. apply list_to_map_proper; [by apply view_keys_nodup|].
  by apply fmap_Permutation.
Qed.

Lemma dict_view_insert d d' e :
  dict_ok d' → entries d' ≡ₚ e :: entries d → dict_view f d' = <[e_key e := f e]> (dict_view f d).
Proof.
  intros Hok Hp. unfold dict_view.
  rewrite (list_to_map_proper _ ((λ e, (e_key e, f e)) <$> (e :: entries d)));
    [done|by apply view_keys_nodup|by apply fmap_Permutation].
Qed.

Lemma dict_view_delete d d' e :
  dict_ok d → entries d ≡ₚ e :: entries d' → dict_view f d' = delete (e_key e) (dict_view f d).
Proof.
  intros Hok Hp. unfold dict_view.
  rewrite (list_to_map_proper ((λ e, (e_key e, f e)) <$> entries d)
             ((λ e, (e_key e, f e)) <$> (e :: entries d')));
    [|by apply view_keys_nodup|by apply fmap_Permutation].
  simpl. rewrite delete_insert_id; [done|]. apply not_elem_of_list_to_map.
  pose proof (dict_ok_keys d Hok) as Hnd. rewrite Hp in Hnd. simpl in Hnd.
  apply list.NoDup_cons in Hnd as [Hnd _]. by rewrite <-list_fmap_compose.
Qed.

Lemma dict_view_update d d' e e' l :
  dict_ok d → dict_ok d' → entries d ≡ₚ e :: l → entries d' ≡ₚ e' :: l → e_key e' = e_key e →
  dict_view f d' = <[e_key e := f e']> (dict_view f d).
Proof.
  intros Hok Hok' Hp Hp' Hk. unfold dict_view.
  rewrite (list_to_map_proper ((λ e, (e_key e, f e)) <$> entries d)
             ((λ e, (e_key e, f e)) <$> (e :: l)));
    [|by apply view_keys_nodup|by apply fmap_Permutation].
  rewrite (list_to_map_proper ((λ e, (e_key e, f e)) <$> entries d')
             ((λ e, (e_key e, f e)) <$> (e' :: l)));
    [|by apply view_keys_nodup|by apply fmap_Permutation].
  simpl. by rewrite Hk, insert_insert_eq.
Qed.

Lemma dict_view_size d : dict_ok d → size (dict_view f d) = length (entries d).
Proof.
  intros Hok. unfold dict_view. rewrite map_size_list_to_map by by apply view_keys_nodup.
  by rewrite length_fmap.
Qed.
End View.

(** [dict_abs] and [dict_live] are views. *)
Definition entry_val (e : dict_entry) : Z * Z := (e_value e, e_length e).
Lemma dict_abs_view d : dict_abs d = dict_view entry_val d.
Proof. done. Qed.
Lemma dict_live_view d : dict_live d = dict_view id d.
Proof. done. Qed.

(** ** Linking and unlinking one entry *)

Lemma map_entries_insert m idx b e :
  m_array m !! Z.to_nat idx = Some b →
  map_entries (set_bucket m idx (e :: b) (m_length m + 1)) ≡ₚ e :: map_entries m.
Proof.
  intros Hb. apply (Permutation_app_inv_r b).
  rewrite <-(set_bucket_entries m idx b (e :: b) _ Hb). solve_Permutation.
Qed.

Lemma map_entries_unlink m idx b e rest :
  m_array m !! Z.to_nat idx = Some b → b ≡ₚ e :: rest →
  map_entries m ≡ₚ e :: map_entries (set_bucket m idx rest (m_length m - 1)).
Proof.
  intros Hb Hp. apply (Permutation_app_inv_r rest).
  rewrite (set_bucket_entries m idx b rest (m_length m - 1) Hb), Hp. solve_Permutation.
Qed.

Lemma map_insert_ok m key b e :
  map_ok m → m_array m ≠ [] → m_array m !! Z.to_nat (map_idx m key) = Some b → 0 ≤ map_idx m key →
  e_key e = key → map_ok (set_bucket m (map_idx m key) (e :: b) (m_length m + 1)).
Proof.
  intros Hok Hne Hb Hnn Hkey. apply set_bucket_ok with b; try done; [|simpl; lia].
  intros x [->|Hx]%elem_of_cons; [by rewrite Hkey|].
  rewrite (map_ok_idx m Hok _ _ _ Hb Hx). lia.
Qed.

Lemma map_unlink_ok m key b e rest :
  map_ok m → m_array m !! Z.to_nat (map_idx m key) = Some b → 0 ≤ map_idx m key →
  b ≡ₚ e :: rest → map_ok (set_bucket m (map_idx m key) rest (m_length m - 1)).
Proof.
  intros Hok Hb Hnn Hp. apply set_bucket_ok with b; try done.
  - intros x Hx. rewrite (map_ok_idx m Hok _ _ x Hb); [lia|]. rewrite Hp. by right.
  - rewrite Hp. simpl. lia.
Qed.

(** Both maps may shrink or one may grow by an entry; what is left of [dict_ok]
    follows from the permutation. *)
Lemma empty_below_unlink array idx i b rest :
  empty_below array idx → array !! i = Some b → (b = [] → rest = []) →
  empty_below (<[i := rest]> array) idx.
Proof.
  intros Hbelow Hb Hrest j c Hj Hc.
  apply list_lookup_insert_Some in Hc as [(<- & <- & _)|[? Hc]]; [|by apply (Hbelow j)].
  apply Hrest. by apply (Hbelow i).
Qed.

Lemma insert_ne_nil {A} (l : list A) i x : l ≠ [] → <[i := x]> l ≠ [].
Proof. by destruct l, i. Qed.

(** ** Expansion on demand *)

Lemma dict_expand_if_ok g d :
  dict_ok d → m_length (d_primary d) < 2 ^ 30 →
  dict_ok (dict_expand_if g d).1 ∧ (dict_expand_if g d).1 ≡ d ∧
  d_iterators (dict_expand_if g d).1 = d_iterators d ∧
  (dict_expand_if g d).2 = - XFIREDB_OK ∧ m_array (d_primary (dict_expand_if g d).1) ≠ [].
Proof.
  intros Hok Hlen. unfold dict_expand_if.
  pose proof (map_ok_length _ (dict_ok_primary d Hok)) as Hl.
  change (2 ^ 30) with 1073741824 in Hlen.
  assert (u64 (m_length (d_primary d)) = m_length (d_primary d)) as Hu.
  { apply u64_small. change (2 ^ 64) with 18446744073709551616. lia. }
  destruct (d_rehashing d) eqn:Hre.
  { destruct (dict_ok_busy d Hok Hre) as (? & _). done. }
  destruct (m_size (d_primary d) =? 0) eqn:Hz.
  - destruct (dict_expand_ok d DICT_MINIMAL_SIZE Hok Hre) as (? & ? & ? & Hne);
      [done|split; done|].
    assert ((dict_expand d DICT_MINIMAL_SIZE).2 = - XFIREDB_OK) as Hrv; [|by split_and!; auto].
    apply map_size_zero in Hz; [|apply (dict_ok_primary d Hok)].
    unfold dict_expand, dict_is_rehashing. rewrite Hre, Hu, Hl, (map_ok_size _ (dict_ok_primary d Hok)), Hz.
    done.
  - assert (m_array (d_primary d) ≠ []) as Hne.
    { intros H. apply map_size_zero in H; [congruence|apply (dict_ok_primary d Hok)]. }
    destruct (dict_should_expand g d) eqn:Hsh; [|done].
    apply andb_true_iff in Hsh as [Hge _]. apply Z.geb_le in Hge.
    destruct (map_ok_mask _ (dict_ok_primary d Hok) Hne) as (k & Hk & Hsz & _).
    pose proof (Z.pow_le_mono_r 2 2 k ltac:(lia) ltac:(lia)). change (2 ^ 2) with 4 in *.
    rewrite u64_small by (change (2 ^ 64) with 18446744073709551616; lia).
    set (n := m_length (d_primary d) * 2) in *.
    destruct (dict_expand_ok d n Hok Hre) as (? & ? & ? & Hne');
      [lia|change (2 ^ 31) with 2147483648; lia|].
    assert ((dict_expand d n).2 = - XFIREDB_OK) as Hrv; [|by split_and!; auto].
    unfold dict_expand, dict_is_rehashing. rewrite Hre, Hu. cbn [orb].
    rewrite dict_real_size_pow2 by (change (2 ^ 62) with 4611686018427387904; lia).
    destruct (Z.log2_up_spec n ltac:(lia)) as [_ Hup].
    destruct (Z.gtb_spec (m_length (d_primary d)) n); [lia|].
    rewrite u64_small by (change (2 ^ 64) with 18446744073709551616; lia).
    destruct (Z.eqb_spec (m_size (d_primary d)) (2 ^ Z.log2_up n)); [lia|].
    by destruct (m_array (d_primary d)).
Qed.

(** ** Where a key is looked for *)

(** The map new entries go to. *)
Definition target (d : dict) : dict_map := if d_rehashing d then d_rehash d else d_primary d.

Lemma key_in_maps d key :
  dict_ok d → key_in key d →
  (∃ e, e ∈ map_entries (d_primary d) ∧ e_key e = key) ∨
  d_rehashing d = true ∧ ∃ e, e ∈ map_entries (d_rehash d) ∧ e_key e = key.
Proof.
  intros Hok (e & [He|He]%elem_of_app & Hkey); [left; by exists e|].
  destruct (d_rehashing d) eqn:Hre; [right; split; [done|by exists e]|].
  rewrite (dict_ok_idle d Hok Hre) in He. by apply not_elem_of_nil in He.
Qed.

Lemma chain_search m key b :
  map_ok m → m_array m !! Z.to_nat (map_idx m key) = Some b → 0 ≤ map_idx m key →
  match chain_find key b with
  | Some e => e ∈ map_entries m ∧ e_key e = key
  | None => ∀ e, e ∈ map_entries m → e_key e ≠ key
  end.
Proof.
  intros Hok Hb Hnn. destruct (chain_find key b) as [e|] eqn:Hf.
  - apply chain_find_Some in Hf as [??]. split; [by eapply bucket_subset|done].
  - intros e He Hkey. rewrite chain_find_None in Hf. apply (Hf e); [|done].
    by eapply in_bucket_of_key.
Qed.

Lemma dict_calc_index_ok g d key :
  dict_ok d → m_length (d_primary d) < 2 ^ 30 →
  ∃ d' idx, dict_calc_index g d key = Done (d', idx) ∧ dict_ok d' ∧ d' ≡ d ∧
    d_iterators d' = d_iterators d ∧
    ((idx = -1 ∧ key_in key d') ∨
     (idx = map_idx (target d') key ∧ 0 ≤ idx ∧ ¬ key_in key d' ∧ m_array (target d') ≠ [] ∧
      ∃ b, bucket (target d') idx = Done b ∧ m_array (target d') !! Z.to_nat idx = Some b)).
Proof.
  intros Hok Hlen. unfold dict_calc_index.
  destruct (dict_expand_if_ok g d Hok Hlen) as (Hok' & Heq & Hit & Hrv & Hne).
  destruct (dict_expand_if g d) as [d' rv]. cbn [fst snd] in *. subst rv.
  change (- XFIREDB_OK =? -1) with false. cbn iota.
  destruct (bucket_of_key _ key (dict_ok_primary d' Hok') Hne) as (b & Hb & Hlk & Hr).
  pose proof (chain_search _ key b (dict_ok_primary d' Hok') Hlk ltac:(lia)) as Hs.
  rewrite Hb, bind_Done. destruct (chain_find key b) as [e|].
  { exists d', (-1). split_and!; try done. left. split; [done|]. exists e.
    destruct Hs. split; [apply elem_of_app; by left|done]. }
  destruct (d_rehashing d') eqn:Hre; cbn [negb].
  - destruct (dict_ok_busy d' Hok' Hre) as (_ & Hne1 & _ & _).
    destruct (bucket_of_key _ key (dict_ok_rehash d' Hok') Hne1) as (b1 & Hb1 & Hlk1 & Hr1).
    pose proof (chain_search _ key b1 (dict_ok_rehash d' Hok') Hlk1 ltac:(lia)) as Hs1.
    rewrite Hb1, bind_Done. destruct (chain_find key b1) as [e|].
    { exists d', (-1). split_and!; try done. left. split; [done|]. exists e.
      destruct Hs1. split; [apply elem_of_app; by right|done]. }
    exists d', (s32 (map_idx (d_rehash d') key)). split_and!; try done. right.
    unfold target. rewrite Hre, s32_small by lia.
    split_and!; [done|lia| |done|by exists b1].
    intros [(e & ? & ?)|[_ (e & ? & ?)]]%key_in_maps; [by apply (Hs e)|by apply (Hs1 e)|done].
  - exists d', (s32 (map_idx (d_primary d') key)). split_and!; try done. right.
    unfold target. rewrite Hre, s32_small by lia.
    split_and!; [done|lia| |done|by exists b].
    intros [(e & ? & ?)|[? _]]%key_in_maps; [by apply (Hs e)|congruence|done].
Qed.

(** ** The locked sections *)

(** Linking an entry in the target map. *)
Lemma dict_link_ok d key addr b :
  dict_ok d → ¬ key_in key d → addr ∉ e_addr <$> entries d → m_array (target d) ≠ [] →
  m_array (target d) !! Z.to_nat (map_idx (target d) key) = Some b → 0 ≤ map_idx (target d) key →
  let e := DictEntry addr key 0 0 DICT_PTR in
  let m := set_bucket (target d) (map_idx (target d) key) (e :: b) (m_length (target d) + 1) in
  let d' := if d_rehashing d
            then Dict (d_primary d) m (d_status d) (d_rehashidx d) (d_rehashing d) (d_iterators d)
            else Dict m (d_rehash d) (d_status d) (d_rehashidx d) (d_rehashing d) (d_iterators d) in
  dict_ok d' ∧ entries d' ≡ₚ e :: entries d.
Proof.
  intros Hok Hkey Haddr Hne Hb Hnn e m d'.
  assert (map_ok m) as Hm.
  { apply map_insert_ok; try done. unfold target.
    destruct (d_rehashing d); [apply (dict_ok_rehash d Hok)|apply (dict_ok_primary d Hok)]. }
  assert (m_array m ≠ []) as Hmne by by apply insert_ne_nil.
  pose proof (map_entries_insert (target d) _ b e Hb) as Hp. fold m in Hp.
  assert (entries d' ≡ₚ e :: entries d) as Hent.
  { subst d'. unfold target in Hp. unfold entries.
    destruct (d_rehashing d); simpl; rewrite Hp; solve_Permutation. }
  split; [|done]. split.
  - subst d'. destruct (d_rehashing d); [apply (dict_ok_primary d Hok)|done].
  - subst d'. destruct (d_rehashing d); [done|apply (dict_ok_rehash d Hok)].
  - subst d'. destruct (d_rehashing d) eqn:Hre; simpl; [congruence|]. intros _.
    by apply (dict_ok_idle d Hok).
  - subst d'. destruct (d_rehashing d) eqn:Hre; simpl; [|congruence]. intros _.
    destruct (dict_ok_busy d Hok Hre) as (? & _ & ? & ?). by split_and!.
  - rewrite Hent. simpl. apply list.NoDup_cons. split; [|apply (dict_ok_keys d Hok)].
    intros (x & Hx & ?)%list_elem_of_fmap. apply Hkey. by exists x.
  - rewrite Hent. simpl. apply list.NoDup_cons. split; [done|apply (dict_ok_addrs d Hok)].
Qed.

Lemma dict_add_locked_ok g d key addr :
  dict_ok d → m_length (d_primary d) < 2 ^ 30 → addr ∉ e_addr <$> entries d →
  ∃ d' r, dict_add_locked g d key addr = Done (d', r) ∧ dict_ok d' ∧
    d_iterators d' = d_iterators d ∧
    ((key_in key d ∧ r = None ∧ d' ≡ d) ∨
     (¬ key_in key d ∧ r = Some addr ∧
      entries d' ≡ₚ DictEntry addr key 0 0 DICT_PTR :: entries d)).
Proof.
  intros Hok Hlen Haddr. unfold dict_add_locked.
  destruct (dict_calc_index_ok g d key Hok Hlen) as (d1 & idx & -> & Hok1 & Heq & Hit & Hcase).
  rewrite bind_Done. destruct Hcase as [[-> (e & He & Hk)]|(-> & Hnn & Hkey & Hne & b & Hb & Hlk)].
  - exists d1, None. change (-1 =? - XFIREDB_ERR) with true. split_and!; try done. left.
    split_and!; try done. exists e. split; [|done]. unfold equiv, dict_equiv in Heq. by rewrite <-Heq.
  - destruct (Z.eqb_spec (map_idx (target d1) key) (- XFIREDB_ERR)) as [Hm|_];
      [change (- XFIREDB_ERR) with (-1) in Hm; lia|].
    unfold equiv, dict_equiv in Heq.
    destruct (dict_link_ok d1 key addr b) as [Hok' Hent]; try done.
    { by rewrite Heq. }
    unfold target in *. unfold dict_is_rehashing.
    assert (¬ key_in key d) as Hkd.
    { intros (e & He & Hk). apply Hkey. exists e. by rewrite Heq. }
    destruct (d_rehashing d1) eqn:Hre; rewrite Hb, bind_Done; eexists _, (Some addr);
      (split; [done|]); (split; [done|]); (split; [done|]); right;
      (split_and!; [done..|]); by rewrite Hent, Heq.
Qed.

Lemma dict_lookup_locked_ok d key :
  dict_ok d →
  ∃ r, dict_lookup_locked d key = Done (d, r) ∧
    match r with
    | Some e => e ∈ entries d ∧ e_key e = key
    | None => ¬ key_in key d
    end.
Proof.
  intros Hok. unfold dict_lookup_locked.
  destruct (m_size (d_primary d) =? 0) eqn:Hz.
  { exists None. split; [done|]. apply map_size_zero in Hz; [|apply (dict_ok_primary d Hok)].
    intros [(e & He & ?)|[Hre _]]%key_in_maps; [| |done].
    - unfold map_entries in He. rewrite Hz in He. by apply not_elem_of_nil in He.
    - by destruct (dict_ok_busy d Hok Hre) as (? & _). }
  assert (m_array (d_primary d) ≠ []) as Hne.
  { intros H. apply map_size_zero in H; [congruence|apply (dict_ok_primary d Hok)]. }
  destruct (bucket_of_key _ key (dict_ok_primary d Hok) Hne) as (b & Hb & Hlk & Hr).
  pose proof (chain_search _ key b (dict_ok_primary d Hok) Hlk ltac:(lia)) as Hs.
  rewrite Hb, bind_Done. destruct (chain_find key b) as [e|].
  { exists (Some e). split; [done|]. destruct Hs. split; [apply elem_of_app; by left|done]. }
  destruct (d_rehashing d) eqn:Hre; cbn [negb].
  - destruct (dict_ok_busy d Hok Hre) as (_ & Hne1 & _ & _).
    destruct (bucket_of_key _ key (dict_ok_rehash d Hok) Hne1) as (b1 & Hb1 & Hlk1 & Hr1).
    pose proof (chain_search _ key b1 (dict_ok_rehash d Hok) Hlk1 ltac:(lia)) as Hs1.
    rewrite Hb1, bind_Done. exists (chain_find key b1). split; [done|].
    destruct (chain_find key b1) as [e|].
    + destruct Hs1. split; [apply elem_of_app; by right|done].
    + intros [(e & ? & ?)|[_ (e & ? & ?)]]%key_in_maps; [by apply (Hs e)|by apply (Hs1 e)|done].
  - exists None. split; [done|].
    intros [(e & ? & ?)|[? _]]%key_in_maps; [by apply (Hs e)|congruence|done].
Qed.

Lemma chain_unlink_search m key b :
  map_ok m → m_array m !! Z.to_nat (map_idx m key) = Some b → 0 ≤ map_idx m key →
  match chain_unlink key b with
  | Some (e, rest) => e_key e = key ∧ b ≡ₚ e :: rest ∧ (b = [] → rest = [])
  | None => ∀ e, e ∈ map_entries m → e_key e ≠ key
  end.
Proof.
  intros Hok Hb Hnn. pose proof (chain_search m key b Hok Hb Hnn) as Hs.
  pose proof (chain_unlink_find key b) as Hu.
  destruct (chain_unlink key b) as [[e rest]|]; [|by rewrite Hu in Hs].
  destruct Hu as (Hf & ? & _). rewrite Hf in Hs. destruct Hs. split_and!; [done..|].
  by intros ->.
Qed.

(** Unlinking from either map keeps the invariant. *)
Lemma dict_unlink_primary_ok d key b e rest :
  let m := set_bucket (d_primary d) (map_idx (d_primary d) key) rest (m_length (d_primary d) - 1) in
  let d' := Dict m (d_rehash d) (d_status d) (d_rehashidx d) (d_rehashing d) (d_iterators d) in
  dict_ok d → m_array (d_primary d) !! Z.to_nat (map_idx (d_primary d) key) = Some b →
  0 ≤ map_idx (d_primary d) key → b ≡ₚ e :: rest → (b = [] → rest = []) →
  dict_ok d' ∧ entries d ≡ₚ e :: entries d'.
Proof.
  intros m d' Hok Hb Hnn Hp Hnil.
  assert (entries d ≡ₚ e :: entries d') as Hent.
  { unfold entries. simpl. by rewrite (map_entries_unlink _ _ b e rest Hb Hp). }
  split; [|done]. split; simpl.
  - by eapply map_unlink_ok; [apply (dict_ok_primary d Hok)|done..].
  - apply (dict_ok_rehash d Hok).
  - apply (dict_ok_idle d Hok).
  - intros Hre. destruct (dict_ok_busy d Hok Hre) as (? & ? & ? & ?).
    split_and!; [by apply insert_ne_nil|done..|]. by eapply empty_below_unlink.
  - pose proof (dict_ok_keys d Hok) as H. rewrite Hent in H. by apply list.NoDup_cons in H as [_ ?].
  - pose proof (dict_ok_addrs d Hok) as H. rewrite Hent in H. by apply list.NoDup_cons in H as [_ ?].
Qed.

Lemma dict_unlink_rehash_ok d key b e rest :
  let m := set_bucket (d_rehash d) (map_idx (d_rehash d) key) rest (m_length (d_rehash d) - 1) in
  let d' := Dict (d_primary d) m (d_status d) (d_rehashidx d) (d_rehashing d) (d_iterators d) in
  dict_ok d → d_rehashing d = true →
  m_array (d_rehash d) !! Z.to_nat (map_idx (d_rehash d) key) = Some b →
  0 ≤ map_idx (d_rehash d) key → b ≡ₚ e :: rest →
  dict_ok d' ∧ entries d ≡ₚ e :: entries d'.
Proof.
  intros m d' Hok Hre Hb Hnn Hp.
  assert (entries d ≡ₚ e :: entries d') as Hent.
  { unfold entries. simpl. rewrite (map_entries_unlink _ _ b e rest Hb Hp). solve_Permutation. }
  split; [|done]. split; simpl.
  - apply (dict_ok_primary d Hok).
  - by eapply map_unlink_ok; [apply (dict_ok_rehash d Hok)|done..].
  - congruence.
  - intros _. destruct (dict_ok_busy d Hok Hre) as (? & ? & ? & ?).
    split_and!; [done|by apply insert_ne_nil|done..].
  - pose proof (dict_ok_keys d Hok) as H. rewrite Hent in H. by apply list.NoDup_cons in H as [_ ?].
  - pose proof (dict_ok_addrs d Hok) as H. rewrite Hent in H. by apply list.NoDup_cons in H as [_ ?].
Qed.

Lemma dict_delete_locked_ok d key :
  dict_ok d →
  ∃ d' r, dict_delete_locked d key = Done (d', r) ∧ dict_ok d' ∧ d_iterators d' = d_iterators d ∧
    match r with
    | Some e => e_key e = key ∧ entries d ≡ₚ e :: entries d'
    | None => ¬ key_in key d ∧ d' = d
    end.
Proof.
  intros Hok. unfold dict_delete_locked.
  destruct (m_size (d_primary d) =? 0) eqn:Hz.
  { exists d, None. destruct (dict_lookup_locked_ok d key Hok) as (r & Hr & Hspec).
    unfold dict_lookup_locked in Hr. rewrite Hz in Hr. injection Hr as <-. done. }
  assert (m_array (d_primary d) ≠ []) as Hne.
  { intros H. apply map_size_zero in H; [congruence|apply (dict_ok_primary d Hok)]. }
  destruct (bucket_of_key _ key (dict_ok_primary d Hok) Hne) as (b & Hb & Hlk & Hr).
  pose proof (chain_unlink_search _ key b (dict_ok_primary d Hok) Hlk ltac:(lia)) as Hs.
  rewrite Hb, bind_Done. destruct (chain_unlink key b) as [[e rest]|].
  { destruct Hs as (? & ? & ?). eexists _, (Some e). split; [done|].
    destruct (dict_unlink_primary_ok d key b e rest) as [? ?]; [done..|lia|done|done|]. done. }
  unfold dict_is_rehashing. destruct (d_rehashing d) eqn:Hre; cbn [negb].
  - destruct (dict_ok_busy d Hok Hre) as (_ & Hne1 & _ & _).
    destruct (bucket_of_key _ key (dict_ok_rehash d Hok) Hne1) as (b1 & Hb1 & Hlk1 & Hr1).
    pose proof (chain_unlink_search _ key b1 (dict_ok_rehash d Hok) Hlk1 ltac:(lia)) as Hs1.
    rewrite Hb1, bind_Done. destruct (chain_unlink key b1) as [[e rest]|].
    + destruct Hs1 as (? & ? & ?). eexists _, (Some e). split; [done|].
      pose proof (dict_unlink_rehash_ok d key b1 e rest) as Hun. cbv zeta in Hun. rewrite Hre in Hun.
      destruct Hun as [? ?]; [done..|lia|done|]. done.
    + exists d, None. split_and!; try done.
      intros [(e & ? & ?)|[_ (e & ? & ?)]]%key_in_maps; [by apply (Hs e)|by apply (Hs1 e)|done].
  - exists d, None. split_and!; try done.
    intros [(e & ? & ?)|[? _]]%key_in_maps; [by apply (Hs e)|congruence|done].
Qed.

(** ** Writing through an entry pointer *)

(** A write changes the value, the length or the type. *)
Definition keeps_identity (f : dict_entry → dict_entry) : Prop :=
  ∀ e, e_key (f e) = e_key e ∧ e_addr (f e) = e_addr e.

Lemma chain_write_nil addr f b : chain_write addr f b = [] ↔ b = [].
Proof. by destruct b. Qed.

Lemma chain_write_fst {A} addr f (g : dict_entry → A) b :
  (∀ e, g (f e) = g e) → g <$> chain_write addr f b = g <$> b.
Proof.
  intros Hg. unfold chain_write. rewrite <-list_fmap_compose.
  apply list_fmap_ext. intros i e _. simpl. case_decide; [by rewrite Hg|done].
Qed.

Lemma chain_write_other addr f l : addr ∉ e_addr <$> l → chain_write addr f l = l.
Proof.
  intros Hn. unfold chain_write. rewrite <-(list_fmap_id l) at 2. apply list_fmap_ext.
  intros i e Hi. rewrite decide_False; [done|]. intros <-. apply Hn.
  apply list_elem_of_fmap. exists e. split; [done|]. by eapply list_elem_of_lookup_2.
Qed.

Lemma entry_write_entries addr f d :
  entries (entry_write addr f d) = chain_write addr f (entries d).
Proof.
  unfold entries, map_entries, chain_write. simpl. rewrite fmap_app, <-!concat_fmap. done.
Qed.

Lemma map_entry_write_ok addr f m :
  keeps_identity f → map_ok m → map_ok (map_entry_write addr f m).
Proof.
  intros Hf [H1 H2 H3 H4 H5]. split; simpl.
  - by rewrite length_fmap.
  - unfold chain_write. by rewrite concat_fmap, length_fmap.
  - intros Hn. apply H3. by destruct (m_array m).
  - intros Hn. apply H4. intros Hm. by rewrite Hm in Hn.
  - intros i b e Hi He. change (map_idx (map_entry_write addr f m)) with (map_idx m).
    apply list_lookup_fmap_Some in Hi as (b0 & -> & Hb0).
    apply list_elem_of_fmap in He as (e0 & -> & He0).
    replace (e_key _) with (e_key e0); [by eapply H5|].
    case_decide; [|done]. by destruct (Hf e0).
Qed.

Lemma entry_write_ok addr f d e l :
  dict_ok d → keeps_identity f → entries d ≡ₚ e :: l → e_addr e = addr →
  dict_ok (entry_write addr f d) ∧ entries (entry_write addr f d) ≡ₚ f e :: l.
Proof.
  intros Hok Hf Hp Haddr. pose proof (dict_ok_addrs d Hok) as Hnd.
  split.
  - split; simpl.
    + apply map_entry_write_ok, (dict_ok_primary d Hok). done.
    + apply map_entry_write_ok, (dict_ok_rehash d Hok). done.
    + intros Hre. by rewrite (dict_ok_idle d Hok Hre).
    + intros Hre. destruct (dict_ok_busy d Hok Hre) as (H0 & H1 & ? & Hb). split_and!.
      * by destruct (m_array (d_primary d)).
      * by destruct (m_array (d_rehash d)).
      * done.
      * intros i b Hi (b0 & -> & Hb0)%list_lookup_fmap_Some. by rewrite (Hb i b0).
    + rewrite entry_write_entries, chain_write_fst by apply Hf. apply (dict_ok_keys d Hok).
    + rewrite entry_write_entries, chain_write_fst by apply Hf. apply (dict_ok_addrs d Hok).
  - rewrite entry_write_entries.
    assert (chain_write addr f (entries d) ≡ₚ chain_write addr f (e :: l)) as ->
      by by apply fmap_Permutation.
    rewrite Hp in Hnd. simpl in Hnd. apply list.NoDup_cons in Hnd as [Hn _].
    change (chain_write addr f (e :: l))
      with ((if decide (e_addr e = addr) then f e else e) :: chain_write addr f l).
    rewrite decide_True by done. rewrite chain_write_other; [done|]. by rewrite <-Haddr.
Qed.

Lemma set_val_keeps load64 data t size :
  keeps_identity (λ x, set_length size (dict_set_val load64 x data t)).
Proof. by intros e. Qed.
