(* ===== verification/DictSections.v ===== *)
(** * Interleavings of dictionary operations

    Every operation of [storage/dict.c] is a sequence of critical sections under
    [struct dict::lock], and one unlocked write through the entry pointer that
    [__dict_add] and [__dict_lookup] return.  Threads (the callers and the rehash
    worker) interleave at these points, so a concurrent execution is a list of
    sections.  It refines the same list run on a finite map of live entries. *)
From S2P Require Import Prelude Murmur Dict DictRehash DictSpec.
Local Open Scope Z_scope.

Inductive section :=
  | SecRehash (num : nat)                  (* [dict_rehash]: a step, or the worker *)
  | SecAdd (key : string) (addr : loc)     (* the locked part of [__dict_add] *)
  | SecLookup (key : string)               (* the locked part of [__dict_lookup] *)
  | SecDelete (key : string)               (* the locked part of [__dict_delete] *)
  | SecWrite (addr : loc) (data : loc) (t : dict_type_t) (size : Z)
  | SecClear.

Inductive section_result :=
  | RNone
  | RAdded (r : option loc)
  | REntry (r : option dict_entry).

#[export] Instance section_result_eq_dec : EqDecision section_result.
Proof. solve_decision. Defined.

(** The live entry at an address. *)
Definition entry_at (addr : loc) (l : list dict_entry) : option dict_entry :=
  snd <$> list_find (λ e, e_addr e = addr) l.

Section Sections.
Context (load64 : loc → Z) (g : dict_globals).

(** The write of [raw_dict_add] and [raw_dict_update]: to an entry that another
    thread has released it is undefined. *)
Definition write_section (d : dict) (addr data : loc) (t : dict_type_t) (size : Z) : outcome dict :=
  _ ← deref (entry_at addr (entries d));
  Done (entry_write addr (λ x, set_length size (dict_set_val load64 x data t)) d).

Definition run_section (s : section) (d : dict) : outcome (dict * section_result) :=
  match s with
  | SecRehash num => '(d, _) ← dict_rehash d num; Done (d, RNone)
  | SecAdd key addr => '(d, r) ← dict_add_locked g d key addr; Done (d, RAdded r)
  | SecLookup key => '(d, r) ← dict_lookup_locked d key; Done (d, REntry r)
  | SecDelete key => '(d, r) ← dict_delete_locked d key; Done (d, REntry r)
  | SecWrite addr data t size => d ← write_section d addr data t size; Done (d, RNone)
  | SecClear => let '(d, _, _) := dict_clear d in Done (d, RNone)
  end.

Fixpoint run_sections (ss : list section) (d : dict) : outcome (dict * list section_result) :=
  match ss with
  | [] => Done (d, [])
  | s :: ss =>
      '(d, r) ← run_section s d;
      '(d, rs) ← run_sections ss d;
      Done (d, r :: rs)
  end.

(** The same sections on a finite map.  An address is only allocated when no
    live entry has it. *)
Definition spec_section (s : section) (m : gmap string dict_entry)
    : outcome (gmap string dict_entry * section_result) :=
  match s with
  | SecRehash _ => Done (m, RNone)
  | SecAdd key addr =>
      match entry_at addr (map_to_list m).*2 with
      | Some _ => Stuck
      | None =>
          match m !! key with
          | Some _ => Done (m, RAdded None)
          | None => Done (<[key := DictEntry addr key 0 0 DICT_PTR]> m, RAdded (Some addr))
          end
      end
  | SecLookup key => Done (m, REntry (m !! key))
  | SecDelete key => Done (delete key m, REntry (m !! key))
  | SecWrite addr data t size =>
      e ← deref (entry_at addr (map_to_list m).*2);
      Done (<[e_key e := set_length size (dict_set_val load64 e data t)]> m, RNone)
  | SecClear => Done (∅, RNone)
  end.

Fixpoint spec_sections (ss : list section) (m : gmap string dict_entry)
    : outcome (gmap string dict_entry * list section_result) :=
  match ss with
  | [] => Done (m, [])
  | s :: ss =>
      '(m, r) ← spec_section s m;
      '(m, rs) ← spec_sections ss m;
      Done (m, r :: rs)
  end.

(** *** The live entries *)

Lemma entry_at_Some addr l e :
  NoDup (e_addr <$> l) → entry_at addr l = Some e ↔ e ∈ l ∧ e_addr e = addr.
Proof.
  intros Hnd. unfold entry_at. split.
  - intros ([i x] & (Hi & Hx & _)%list_find_Some & ->)%fmap_Some_1. simpl.
    split; [by eapply list_elem_of_lookup_2|done].
  - intros [He Ha]. destruct (list_find (λ e, e_addr e = addr) l) as [[i x]|] eqn:Hf.
    + apply list_find_Some in Hf as (Hi & Hx & _). simpl. f_equal.
      apply list_elem_of_lookup_1 in He as [j Hj].
      assert (i = j) as ->; [|congruence].
      eapply (NoDup_lookup (e_addr <$> l)); [done|rewrite list_lookup_fmap, Hi; by simpl|].
      rewrite list_lookup_fmap, Hj. simpl. congruence.
    + apply list_find_None in Hf. by eapply list.Forall_forall in Hf.
Qed.

Lemma entry_at_None addr l : entry_at addr l = None ↔ addr ∉ e_addr <$> l.
Proof.
  unfold entry_at. rewrite fmap_None, list_find_None, list.Forall_forall, list_elem_of_fmap.
  naive_solver.
Qed.

Lemma dict_live_entries d : dict_ok d → (map_to_list (dict_live d)).*2 ≡ₚ entries d.
Proof.
  intros Hok. rewrite dict_live_view. unfold dict_view.
  rewrite map_to_list_to_map by by apply view_keys_nodup.
  by rewrite <-list_fmap_compose, list_fmap_id.
Qed.

Lemma entry_at_perm addr l1 l2 :
  NoDup (e_addr <$> l1) → l1 ≡ₚ l2 → entry_at addr l1 = entry_at addr l2.
Proof.
  intros Hnd Hp. assert (NoDup (e_addr <$> l2)) as Hnd2 by by rewrite <-Hp.
  apply option_eq. intros e. by rewrite !entry_at_Some, Hp by done.
Qed.

Lemma entry_at_live addr d :
  dict_ok d → entry_at addr (map_to_list (dict_live d)).*2 = entry_at addr (entries d).
Proof.
  intros Hok. symmetry. apply entry_at_perm; [apply (dict_ok_addrs d Hok)|].
  by rewrite dict_live_entries.
Qed.

Lemma live_lookup d e : dict_ok d → e ∈ entries d → dict_live d !! e_key e = Some e.
Proof. apply (dict_view_lookup id). Qed.

(** *** One section *)

Lemma run_section_ok s d m' r :
  dict_ok d → Z.of_nat (length (entries d)) < 2 ^ 30 → spec_section s (dict_live d) = Done (m', r) →
  ∃ d', run_section s d = Done (d', r) ∧ dict_ok d' ∧ dict_live d' = m' ∧
    (length (entries d') ≤ S (length (entries d)))%nat.
Proof.
  intros Hok Hlen Hspec. destruct s as [num|key addr|key|key|addr data t sz|]; cbn [spec_section run_section] in *.
  - injection Hspec as <- <-. destruct num as [|num].
    { exists d. split; [|split_and!; [done..|lia]]. unfold dict_rehash. by destruct (d_rehashing d). }
    destruct (dict_rehash_ok d (S num) Hok ltac:(lia)) as (d' & x & -> & [Hok' Heq _ _ _] & _).
    exists d'. split_and!; [done..|by apply (dict_view_equiv id)|].
    rewrite (Heq : entries d' ≡ₚ entries d). lia.
  - rewrite entry_at_live in Hspec by done.
    destruct (entry_at addr (entries d)) eqn:Hat; [done|]. apply entry_at_None in Hat.
    destruct (dict_add_locked_ok g d key addr Hok) as (d' & x & -> & Hok' & _ & Hcase);
      [|done|].
    { unfold entries, map_entries in Hlen. rewrite length_app in Hlen.
      rewrite (map_ok_length _ (dict_ok_primary d Hok)). lia. }
    exists d'. destruct Hcase as [((e & He & <-) & -> & Heq)|(Hn & -> & Hp)].
    + rewrite live_lookup in Hspec by done. injection Hspec as <- <-.
      split_and!; [done..|by apply (dict_view_equiv id)|rewrite (Heq : entries d' ≡ₚ entries d); lia].
    + apply (dict_view_None id) in Hn. rewrite dict_live_view, Hn in Hspec. injection Hspec as <- <-.
      split_and!; [done..| |rewrite Hp; simpl; lia].
      by apply (dict_view_insert id d d' _ Hok' Hp).
  - injection Hspec as <- <-. destruct (dict_lookup_locked_ok d key Hok) as (x & -> & Hx).
    exists d. split_and!; [|done..|lia]. rewrite bind_Done. do 3 f_equal. destruct x as [e|].
    + destruct Hx as [He <-]. symmetry. by apply live_lookup.
    + symmetry. by apply (dict_view_None id).
  - injection Hspec as <- <-. destruct (dict_delete_locked_ok d key Hok) as (d' & x & -> & Hok' & _ & Hx).
    exists d'. rewrite bind_Done. destruct x as [e|].
    + destruct Hx as [<- Hp]. rewrite live_lookup by (done || (rewrite Hp; by left)).
      split_and!; [done..|by apply (dict_view_delete id d d' e Hok Hp)|rewrite Hp; simpl; lia].
    + destruct Hx as [Hn ->]. apply (dict_view_None id) in Hn. rewrite !dict_live_view, Hn.
      split_and!; [done..|by rewrite delete_id|lia].
  - rewrite entry_at_live in Hspec by done. unfold write_section.
    destruct (entry_at addr (entries d)) as [e|] eqn:Hat; [|done].
    injection Hspec as <- <-. apply entry_at_Some in Hat as [He Ha]; [|apply (dict_ok_addrs d Hok)].
    apply elem_of_Permutation in He as (rest & Hp).
    destruct (entry_write_ok addr _ d e rest Hok (set_val_keeps load64 data t sz) Hp Ha)
      as [Hok' Hp'].
    eexists. split; [done|]. split_and!; [done| |].
    + by apply (dict_view_update id d _ e _ rest Hok Hok' Hp Hp').
    + rewrite Hp', Hp. simpl. lia.
  - injection Hspec as <- <-. eexists. split; [done|]. split_and!; [|done|simpl; lia].
    split; simpl; try done; constructor.
Qed.

Lemma sections_simulation ss d m' rs :
  dict_ok d → Z.of_nat (length (entries d) + length ss) < 2 ^ 30 →
  spec_sections ss (dict_live d) = Done (m', rs) →
  ∃ d', run_sections ss d = Done (d', rs) ∧ dict_ok d' ∧ dict_live d' = m'.
Proof.
  revert d m' rs. induction ss as [|s ss IH]; intros d m' rs Hok Hlen Hspec.
  { injection Hspec as <- <-. by exists d. }
  cbn [spec_sections] in Hspec. apply outcome_bind_Done in Hspec as ([m1 r] & Hs & Hspec).
  apply outcome_bind_Done in Hspec as ([m2 rs'] & Hss & [= <- <-]). simpl in Hlen.
  destruct (run_section_ok s d m1 r Hok ltac:(lia) Hs) as (d1 & Hr & Hok1 & <- & Hl).
  destruct (IH d1 m2 rs' Hok1 ltac:(lia) Hss) as (d' & Hr' & ? & ?).
  exists d'. cbn [run_sections]. by rewrite Hr, bind_Done, Hr', bind_Done.
Qed.
(** C14: every interleaving of critical sections of concurrent dictionary
    operations, with the rehash worker among them, runs without a fault and is
    a refinement of the same sections on a finite map of live entries: each
    section returns what it returns there, and the invariant and the
    correspondence hold at the end.  The run on the finite map fixes what a
    caller has to guarantee: an allocation returns an address that no live entry
    has, and a value is written to a live entry. *)
Theorem dict_sections_refine ss d m' rs :
  dict_ok d → Z.of_nat (length (entries d) + length ss) < 2 ^ 30 →
  spec_sections ss (dict_live d) = Done (m', rs) →
  ∃ d', run_sections ss d = Done (d', rs) ∧ dict_ok d' ∧ dict_live d' = m'.
Proof. apply sections_simulation. Qed.

(** *** A dictionary that can no longer grow *)

(** Rehashing, with nothing left in the primary map. *)
Definition drained (d : dict) : Prop :=
  d_rehashing d = true ∧ m_length (d_primary d) = 0 ∧ map_entries (d_primary d) = [].

Lemma drained_rehash d num : drained d → dict_rehash d num = Done (d, 1).
Proof.
  intros (Hre & Hlen & _). unfold dict_rehash. rewrite Hre. destruct num; [done|].
  cbn [negb rehash_loop]. by rewrite Hlen.
Qed.

Lemma bucket_drained m idx b : map_entries m = [] → bucket m idx = Done b → b = [].
Proof.
  intros Hm. unfold bucket. case_decide; [|done]. intros Hb%deref_Done.
  by eapply concat_nil_lookup.
Qed.

Lemma set_bucket_size m idx b len : m_size (set_bucket m idx b len) = m_size m.
Proof. done. Qed.

Lemma calc_index_drained d d' key idx :
  drained d → dict_calc_index g d key = Done (d', idx) → d' = d.
Proof.
  intros (Hre & _ & _). unfold dict_calc_index, dict_expand_if. rewrite Hre.
  change (- XFIREDB_OK =? -1) with false. cbn iota zeta. intros H.
  apply outcome_bind_Done in H as (b & _ & H). case_match; [congruence|].
  rewrite Hre in H. cbn [negb] in H. apply outcome_bind_Done in H as (b1 & _ & H). case_match; congruence.
Qed.

Lemma drained_section s d d' r :
  s ≠ SecClear → drained d → run_section s d = Done (d', r) →
  drained d' ∧ m_size (d_rehash d') = m_size (d_rehash d).
Proof.
  intros Hs Hd Hrun. pose proof Hd as (Hre & Hlen & Hent).
  destruct s as [num|key addr|key|key|addr data t sz|]; cbn [run_section] in Hrun; [..|done].
  - rewrite drained_rehash in Hrun by done. by injection Hrun as <- <-.
  - apply outcome_bind_Done in Hrun as ([d1 x] & Hadd & [= <- <-]). unfold dict_add_locked in Hadd.
    apply outcome_bind_Done in Hadd as ([d2 idx] & Hidx & Hadd).
    apply (calc_index_drained d) in Hidx as ->; [|done]. case_match; [by injection Hadd as <- <-|].
    unfold dict_is_rehashing in Hadd. rewrite Hre in Hadd.
    apply outcome_bind_Done in Hadd as (b & _ & [= <- <-]). by split.
  - apply outcome_bind_Done in Hrun as ([d1 x] & Hl & [= <- <-]). unfold dict_lookup_locked in Hl.
    case_match; [by injection Hl as <- <-|]. apply outcome_bind_Done in Hl as (b & _ & Hl).
    case_match; [by injection Hl as <- <-|]. rewrite Hre in Hl. cbn [negb] in Hl.
    by apply outcome_bind_Done in Hl as (b1 & _ & [= <- <-]).
  - apply outcome_bind_Done in Hrun as ([d1 x] & Hl & [= <- <-]). unfold dict_delete_locked in Hl.
    case_match; [by injection Hl as <- <-|]. apply outcome_bind_Done in Hl as (b & Hb & Hl).
    apply bucket_drained in Hb as ->; [|done]. cbn [chain_unlink] in Hl.
    unfold dict_is_rehashing in Hl. rewrite Hre in Hl. cbn [negb] in Hl.
    apply outcome_bind_Done in Hl as (b1 & _ & Hl).
    by case_match; [case_match|]; injection Hl as <- <-.
  - apply outcome_bind_Done in Hrun as (d1 & Hw & [= <- <-]). unfold write_section in Hw.
    apply outcome_bind_Done in Hw as (? & _ & [= <-]). split; [|done]. split_and!; [done..|].
    unfold map_entries in *. simpl. unfold chain_write. by rewrite concat_fmap, Hent.
Qed.

Lemma drained_sections ss d d' rs :
  SecClear ∉ ss → drained d → run_sections ss d = Done (d', rs) →
  drained d' ∧ m_size (d_rehash d') = m_size (d_rehash d).
Proof.
  revert d rs. induction ss as [|s ss IH]; intros d rs Hs Hd Hrun.
  { by injection Hrun as <- <-. }
  apply not_elem_of_cons in Hs as [Hs Hss]. cbn [run_sections] in Hrun.
  apply outcome_bind_Done in Hrun as ([d1 r] & Hr & Hrun).
  apply outcome_bind_Done in Hrun as ([d2 rs'] & Hrs & [= <- <-]).
  destruct (drained_section s d d1 r) as [Hd1 <-]; [done..|]. by eapply IH.
Qed.
End Sections.

(** ** A concrete run *)

(** Four keys fill the initial table, a fifth starts the rehash. *)
Definition fill : list section :=
  [SecAdd "a" 1001; SecWrite 1001 7 DICT_PTR 8; SecAdd "f" 1002; SecAdd "i" 1003; SecAdd "b" 1004;
   SecAdd "c" 1005].
Definition sample_run : outcome (dict * list section_result) :=
  run_sections (λ _, 0) dict_globals_init fill dict_init.
Definition sample : dict := match sample_run with Done (d, _) => d | _ => dict_init end.

Lemma fill_spec :
  ∃ m rs, spec_sections (λ _, 0) fill (dict_live dict_init) = Done (m, rs).
Proof. eexists _, _. vm_compute. reflexivity. Qed.

Lemma sample_ok : dict_ok sample ∧ d_rehashing sample = true ∧ length (entries sample) = 5%nat.
Proof.
  destruct fill_spec as (m & rs & Hspec).
  destruct (sections_simulation (λ _, 0) dict_globals_init fill dict_init m rs dict_init_ok)
    as (d & Hrun & Hok & _); [done|exact Hspec|].
  split; [unfold sample, sample_run; by rewrite Hrun|split; vm_compute; reflexivity].
Qed.

Lemma dict_sections_refine_witness :
  let ss := [SecRehash 1; SecDelete "b"; SecWrite 1002 9 DICT_PTR 8; SecLookup "f"; SecAdd "a" 1006] in
  ∃ m' rs d', spec_sections (λ _, 0) ss (dict_live sample) = Done (m', rs) ∧
    run_sections (λ _, 0) dict_globals_init ss sample = Done (d', rs) ∧ dict_ok d' ∧ dict_live d' = m'.
Proof.
  intros ss.
  destruct (spec_sections (λ _, 0) ss (dict_live sample)) as [[m' rs]| |] eqn:Hs;
    [|exfalso; vm_compute in Hs; discriminate..].
  destruct (dict_sections_refine (λ _, 0) dict_globals_init ss sample m' rs) as (d' & ? & ? & ?).
  - exact (proj1 sample_ok).
  - rewrite (proj2 (proj2 sample_ok)). reflexivity.
  - exact Hs.
  - exists m', rs, d'. auto.
Defined.

(** C33: the rehash can get stuck for good.  From a new dictionary, five
    insertions, one rehash step and one deletion reach a state in which the rehash
    is marked as running and the primary map is empty: from then on [dict_rehash]
    reports work left and does nothing, and no sequence of sections short of
    clearing the dictionary finishes the rehash or gives the new map a larger
    array. *)
Theorem dict_rehash_livelock :
  ∃ d rs,
    run_sections (λ _, 0) dict_globals_init (fill ++ [SecRehash 1; SecDelete "b"]) dict_init = Done (d, rs) ∧
    (∀ num, dict_rehash d num = Done (d, 1)) ∧
    ∀ load64 g ss d' rs', SecClear ∉ ss → run_sections load64 g ss d = Done (d', rs') →
      d_rehashing d' = true ∧ (∀ num, dict_rehash d' num = Done (d', 1)) ∧
      m_size (d_rehash d') = m_size (d_rehash d).
Proof.
  destruct (run_sections (λ _, 0) dict_globals_init (fill ++ [SecRehash 1; SecDelete "b"]) dict_init)
    as [[d rs]| |] eqn:Hrun; [|exfalso; vm_compute in Hrun; discriminate..].
  assert (drained d) as Hd.
  { vm_compute in Hrun. injection Hrun as <- _. by repeat split. }
  exists d, rs. split_and!; [done|intros; by apply drained_rehash|].
  intros load64 g ss d' rs' Hss Hrun'. destruct (drained_sections load64 g ss d d' rs' Hss Hd Hrun').
  split_and!; [apply H|intros; by apply drained_rehash|done].
Qed.
