(* ===== verification/DictOps.v ===== *)
(** * The dictionary operations: functional correctness

    Each operation of [storage/dict.c], from its rehashing prologue to the value
    it returns, against the finite map [dict_abs]; and a refinement of every
    interleaving of the critical sections of concurrent operations. *)
From S2P Require Import Prelude Murmur Dict DictRehash DictSpec DictSections.
Local Open Scope Z_scope.

(** ** Sizes *)

Lemma length_entries d :
  dict_ok d → Z.of_nat (length (entries d)) = m_length (d_primary d) + m_length (d_rehash d) ∧
    0 ≤ m_length (d_primary d) ∧ 0 ≤ m_length (d_rehash d).
Proof.
  intros Hok. pose proof (map_ok_length _ (dict_ok_primary d Hok)).
  pose proof (map_ok_length _ (dict_ok_rehash d Hok)).
  unfold entries, map_entries. rewrite length_app. lia.
Qed.

Lemma primary_below d n :
  dict_ok d → Z.of_nat (size (dict_abs d)) < n → m_length (d_primary d) < n.
Proof.
  intros Hok. rewrite dict_abs_view, dict_view_size by done.
  pose proof (length_entries d Hok). lia.
Qed.

Lemma dict_equiv_entries d1 d2 : d1 ≡ d2 → entries d1 ≡ₚ entries d2.
Proof. done. Qed.

(** What [dict_set_val] stores: the pointer itself, or the word it points to. *)
Definition stored (load64 : loc → Z) (data : loc) (t : dict_type_t) : Z :=
  match t with DICT_PTR => data | _ => load64 data end.

Section Ops.
Context (load64 : loc → Z) (g : dict_globals).

Lemma dict_insert_run d key data t sz addr :
  dict_ok d → Z.of_nat (size (dict_abs d)) < 2 ^ 30 → addr ∉ e_addr <$> entries d →
  ∃ d' r, raw_dict_add load64 g d key data t sz addr = Done (d', r) ∧ dict_ok d' ∧
    d_iterators d' = d_iterators d ∧
    match dict_abs d !! key with
    | Some _ => r = - XFIREDB_ERR ∧ d' ≡ d
    | None => r = - XFIREDB_OK ∧
        entries d' ≡ₚ DictEntry addr key (stored load64 data t) sz DICT_PTR :: entries d
    end.
Proof.
  intros Hok Hsz Haddr. unfold raw_dict_add, __dict_add.
  destruct (rehash_prologue_ok d Hok) as (d1 & -> & Hok1 & Heq & Hit & _).
  rewrite bind_Done. rewrite <-(dict_abs_equiv d1 d Hok1 Heq) in *.
  destruct (dict_add_locked_ok g d1 key addr Hok1) as (d2 & r & -> & Hok2 & Hit2 & Hcase).
  { by apply primary_below. }
  { by rewrite (dict_equiv_entries _ _ Heq). }
  rewrite bind_Done. destruct Hcase as [((e & He & Hk) & -> & Heq2)|(Hn & -> & Hent)].
  - exists d2, (- XFIREDB_ERR). rewrite dict_abs_view, <-Hk, (dict_view_lookup entry_val d1 e Hok1 He).
    split_and!; try done; [congruence|]. by etrans.
  - apply (dict_view_None entry_val) in Hn. rewrite dict_abs_view, Hn.
    destruct (entry_write_ok addr (λ x, set_length sz (dict_set_val load64 x data t)) d2 _ _
      Hok2 (set_val_keeps load64 data t sz) Hent eq_refl) as [Hok3 Hent3].
    eexists _, (- XFIREDB_OK). split; [done|]. split_and!; try done; [simpl; congruence|].
    rewrite Hent3, (dict_equiv_entries _ _ Heq). by destruct t.
Qed.

(** Inserting into a dictionary ([raw_dict_add]) that holds fewer than
    2^30 keys, whether or not a rehash is under way, returns [-XFIREDB_ERR] and
    changes nothing when the key is present; otherwise it returns [-XFIREDB_OK]
    and maps the key to the value and size given, and no other key changes. The
    invariant is kept in both cases. *)
Lemma raw_dict_add_correct d key data t sz addr :
  dict_ok d → Z.of_nat (size (dict_abs d)) < 2 ^ 30 → addr ∉ e_addr <$> entries d →
  ∃ d' r, raw_dict_add load64 g d key data t sz addr = Done (d', r) ∧ dict_ok d' ∧
    match dict_abs d !! key with
    | Some _ => r = - XFIREDB_ERR ∧ dict_abs d' = dict_abs d
    | None => r = - XFIREDB_OK ∧ dict_abs d' = <[key := (stored load64 data t, sz)]> (dict_abs d)
    end.
Proof.
  intros Hok Hsz Haddr.
  destruct (dict_insert_run d key data t sz addr Hok Hsz Haddr) as (d' & r & ? & Hok' & _ & Hcase).
  exists d', r. split_and!; [done..|]. destruct (dict_abs d !! key); destruct Hcase as [? Hp];
    (split; [done|]); [by apply dict_abs_equiv|].
  by apply (dict_view_insert entry_val d d' _ Hok' Hp).
Qed.
End Ops.

(** ** Lookup *)

Lemma dict_lookup_run d key :
  dict_ok d →
  ∃ d' r, __dict_lookup d key = Done (d', r) ∧ dict_ok d' ∧ d' ≡ d ∧
    d_iterators d' = d_iterators d ∧ dict_live d !! key = r ∧
    match r with Some e => e ∈ entries d' ∧ e_key e = key | None => ¬ key_in key d' end.
Proof.
  intros Hok. unfold __dict_lookup.
  destruct (rehash_prologue_ok d Hok) as (d1 & -> & Hok1 & Heq & Hit & _).
  rewrite bind_Done. destruct (dict_lookup_locked_ok d1 key Hok1) as (r & -> & Hr).
  exists d1, r. split_and!; try done.
  rewrite dict_live_view, <-(dict_view_equiv id d1 d Hok1 Heq). destruct r as [e|].
  - destruct Hr as [He <-]. apply (dict_view_lookup id d1 e Hok1 He).
  - by apply (dict_view_None id).
Qed.

Lemma dict_abs_live d key : dict_abs d !! key = entry_val <$> dict_live d !! key.
Proof.
  unfold dict_abs, dict_live, dict_view. rewrite <-lookup_fmap, <-list_to_map_fmap.
  by rewrite <-list_fmap_compose.
Qed.

Lemma dict_lookup_spec d key data sz :
  dict_ok d →
  ∃ d', dict_lookup d key data sz =
      Done (match dict_abs d !! key with
            | Some (v, l) => (d', - XFIREDB_OK, v, l)
            | None => (d', - XFIREDB_ERR, data, sz)
            end) ∧
    dict_ok d' ∧ dict_abs d' = dict_abs d.
Proof.
  intros Hok. unfold dict_lookup.
  destruct (dict_lookup_run d key Hok) as (d' & r & -> & Hok' & Heq & _ & Hr & _).
  exists d'. rewrite bind_Done, dict_abs_live, Hr.
  split_and!; [by destruct r|done|by apply dict_abs_equiv].
Qed.

(** [dict_lookup] returns [-XFIREDB_OK] with the value and length of the
    key when the dictionary maps it, and [-XFIREDB_ERR] with the output arguments
    untouched when it does not; it faults in neither case and the contents of the
    dictionary stay the same, although one step of a rehash may run. *)
Lemma dict_lookup_correct d key data sz :
  dict_ok d →
  ∃ d', dict_lookup d key data sz =
      Done (match dict_abs d !! key with
            | Some (v, l) => (d', - XFIREDB_OK, v, l)
            | None => (d', - XFIREDB_ERR, data, sz)
            end) ∧
    dict_ok d' ∧ dict_abs d' = dict_abs d.
Proof. apply dict_lookup_spec. Qed.

(** ** Update *)

Lemma dict_update_run load64 g d key data t l addr :
  dict_ok d → Z.of_nat (size (dict_abs d)) < 2 ^ 30 → addr ∉ e_addr <$> entries d →
  ∃ d', raw_dict_update load64 g d key data t l addr = Done (d', - XFIREDB_OK) ∧ dict_ok d' ∧
    dict_abs d' =
      <[key := (stored load64 data t, match dict_abs d !! key with Some _ => l | None => 8 end)]> (dict_abs d).
Proof.
  intros Hok Hsz Haddr. unfold raw_dict_update.
  destruct (dict_lookup_run d key Hok) as (d1 & r & -> & Hok1 & Heq & _ & Hr & Hmem).
  rewrite bind_Done. rewrite <-(dict_abs_equiv d1 d Hok1 Heq) in *.
  destruct r as [e|].
  - destruct Hmem as [He <-]. apply elem_of_Permutation in He as (rest & Hp).
    destruct (entry_write_ok (e_addr e) (λ x, set_length l (dict_set_val load64 x data t)) d1 e rest
      Hok1 (set_val_keeps load64 data t l) Hp eq_refl) as [Hok2 Hent2].
    assert (dict_abs d1 !! e_key e = Some (entry_val e)) as ->.
    { apply (dict_view_lookup entry_val d1 e Hok1). rewrite Hp. by left. }
    eexists. split_and!; [done..|].
    rewrite dict_abs_view. rewrite (dict_view_update entry_val d1 _ e _ rest Hok1 Hok2 Hp Hent2) by done.
    by destruct t.
  - assert (dict_abs d1 !! key = None) as Hnone by by apply (dict_view_None entry_val).
    unfold dict_add.
    destruct (dict_insert_run load64 g d1 key data t (dict_get_entry_length t) addr Hok1)
      as (d2 & r & -> & Hok2 & _ & Hcase); [done|by rewrite (dict_equiv_entries _ _ Heq)|].
    rewrite Hnone in Hcase. destruct Hcase as [-> Hent]. exists d2. split_and!; [done..|].
    rewrite Hnone.
    by apply (dict_view_insert entry_val d1 d2 _ Hok2 Hent).
Qed.

(** [raw_dict_update] always succeeds on a dictionary of fewer than 2^30
    keys.  A key that is present gets the new value and the length [l]; a key that
    is absent is inserted with the length of an entry word, 8, whatever [l] was. *)
Lemma raw_dict_update_correct load64 g d key data t l addr :
  dict_ok d → Z.of_nat (size (dict_abs d)) < 2 ^ 30 → addr ∉ e_addr <$> entries d →
  ∃ d', raw_dict_update load64 g d key data t l addr = Done (d', - XFIREDB_OK) ∧ dict_ok d' ∧
    dict_abs d' =
      <[key := (stored load64 data t, match dict_abs d !! key with Some _ => l | None => 8 end)]> (dict_abs d).
Proof. apply dict_update_run. Qed.

(** ** Deletion *)

Lemma dict_delete_run d key data free :
  dict_ok d →
  ∃ d', dict_delete d key data free =
      Done (match dict_abs d !! key with
            | Some (v, _) =>
                if free then (d', - XFIREDB_OK, data, Some v) else (d', - XFIREDB_OK, v, None)
            | None => (d', - XFIREDB_ERR, data, None)
            end) ∧
    dict_ok d' ∧ dict_abs d' = delete key (dict_abs d).
Proof.
  intros Hok. unfold dict_delete, __dict_delete.
  destruct (rehash_prologue_ok d Hok) as (d1 & -> & Hok1 & Heq & _ & _).
  rewrite bind_Done, <-(dict_abs_equiv d1 d Hok1 Heq).
  destruct (dict_delete_locked_ok d1 key Hok1) as (d2 & r & -> & Hok2 & _ & Hr).
  rewrite bind_Done. exists d2. destruct r as [e|].
  - destruct Hr as [<- Hp].
    assert (dict_abs d1 !! e_key e = Some (entry_val e)) as ->.
    { apply (dict_view_lookup entry_val d1 e Hok1). rewrite Hp. by left. }
    split_and!; [by destruct free|done|].
    by apply (dict_view_delete entry_val d1 d2 e Hok1 Hp).
  - destruct Hr as [Hn ->]. apply (dict_view_None entry_val) in Hn.
    rewrite dict_abs_view, Hn. split_and!; [done..|]. symmetry. by apply delete_id.
Qed.

(** [dict_delete] removes exactly the given key.  When the dictionary maps
    it to a value the call returns [-XFIREDB_OK] and either hands the value out or,
    with [free] set, releases that pointer and leaves the output alone; when it
    does not, the call returns [-XFIREDB_ERR], releases nothing and the contents
    stay the same. *)
Lemma dict_delete_correct d key data free :
  dict_ok d →
  ∃ d', dict_delete d key data free =
      Done (match dict_abs d !! key with
            | Some (v, _) =>
                if free then (d', - XFIREDB_OK, data, Some v) else (d', - XFIREDB_OK, v, None)
            | None => (d', - XFIREDB_ERR, data, None)
            end) ∧
    dict_ok d' ∧ dict_abs d' = delete key (dict_abs d).
Proof. apply dict_delete_run. Qed.

(** ** Size and clearing *)

Lemma clear_loop_all array :
  clear_loop array (Z.of_nat (length (concat array))) = e_addr <$> concat array.
Proof.
  induction array as [|c array IH]; simpl; [done|]. rewrite length_app, fmap_app.
  destruct (Z.gtb_spec (Z.of_nat (length c + length (concat array))) 0) as [|Hz].
  - f_equal. rewrite <-IH. f_equal. lia.
  - destruct c; [|simpl in Hz; lia]. destruct (concat array); [done|simpl in Hz; lia].
Qed.

Lemma __dict_clear_all m : map_ok m → (__dict_clear m).2 = e_addr <$> map_entries m.
Proof.
  intros Hok. unfold __dict_clear. simpl. rewrite (map_ok_size m Hok), (map_ok_length m Hok).
  rewrite Nat2Z.id, take_ge by done. apply clear_loop_all.
Qed.

Lemma dict_clear_run d :
  dict_ok d →
  ∃ d' freed, dict_clear d = (d', - XFIREDB_OK, freed) ∧ freed = e_addr <$> entries d ∧
    NoDup freed ∧ dict_ok d' ∧ dict_abs d' = ∅ ∧ dict_get_size d' = 0 ∧
    d_rehashing d' = false ∧ d_iterators d' = d_iterators d.
Proof.
  intros Hok. unfold dict_clear.
  pose proof (__dict_clear_all _ (dict_ok_primary d Hok)) as H0.
  pose proof (__dict_clear_all _ (dict_ok_rehash d Hok)) as H1.
  assert ((__dict_clear (d_primary d)).1 = dict_reset) as Hr0 by done.
  assert ((__dict_clear (d_rehash d)).1 = dict_reset) as Hr1 by done.
  destruct (__dict_clear (d_primary d)) as [m0 f0], (__dict_clear (d_rehash d)) as [m1 f1].
  simpl in *. subst. eexists _, _. split; [done|].
  rewrite <-fmap_app. fold (entries d). split_and!; try done; [apply (dict_ok_addrs d Hok)|].
  split; simpl; try done; constructor.
Qed.

(** [dict_clear] releases every entry of both maps exactly once, and leaves
    an empty dictionary that is not rehashing, satisfies the invariant and has
    size 0. *)
Lemma dict_clear_correct d :
  dict_ok d →
  ∃ d' freed, dict_clear d = (d', - XFIREDB_OK, freed) ∧ freed = e_addr <$> entries d ∧
    NoDup freed ∧ dict_ok d' ∧ dict_abs d' = ∅ ∧ dict_get_size d' = 0 ∧
    d_rehashing d' = false ∧ d_iterators d' = d_iterators d.
Proof. apply dict_clear_run. Qed.

Lemma dict_get_size_run d :
  dict_ok d → Z.of_nat (size (dict_abs d)) < 2 ^ 63 →
  dict_get_size d = Z.of_nat (size (dict_abs d)).
Proof.
  intros Hok. rewrite dict_abs_view, dict_view_size by done.
  destruct (length_entries d Hok) as (-> & ? & ?).
  change (2 ^ 63) with 9223372036854775808. intros ?. unfold dict_get_size.
  rewrite (s64_small (0 + _)) by (change (2 ^ 63) with 9223372036854775808; lia).
  rewrite s64_small by (change (2 ^ 63) with 9223372036854775808; lia). lia.
Qed.

(** [dict_get_size] is the number of keys, during a rehash too. *)
Lemma dict_get_size_correct d :
  dict_ok d → Z.of_nat (size (dict_abs d)) < 2 ^ 63 →
  dict_get_size d = Z.of_nat (size (dict_abs d)).
Proof. apply dict_get_size_run. Qed.

(** ** The theorems at a dictionary in the middle of a rehash *)

#[local] Opaque sample.

Lemma sample_size : Z.of_nat (size (dict_abs sample)) < 2 ^ 30.
Proof.
  rewrite dict_abs_view, dict_view_size by apply sample_ok.
  destruct sample_ok as (_ & _ & ->). done.
Qed.

Lemma sample_fresh : 2001 ∉ e_addr <$> entries sample.
Proof. decide_by_compute. Qed.

Lemma raw_dict_add_correct_witness :
  ∃ d' r, raw_dict_add (λ _, 0) dict_globals_init sample "z" 77 DICT_PTR 3 2001 = Done (d', r) ∧
    dict_ok d' ∧
    match dict_abs sample !! "z" with
    | Some _ => r = - XFIREDB_ERR ∧ dict_abs d' = dict_abs sample
    | None => r = - XFIREDB_OK ∧
        dict_abs d' = <["z" := (stored (λ _, 0) 77 DICT_PTR, 3)]> (dict_abs sample)
    end.
Proof.
  apply (raw_dict_add_correct (λ _, 0) dict_globals_init sample).
  - exact (proj1 sample_ok).
  - exact sample_size.
  - exact sample_fresh.
Defined.

Lemma dict_lookup_correct_witness :
  ∃ d', dict_lookup sample "a" 0 0 =
      Done (match dict_abs sample !! "a" with
            | Some (v, l) => (d', - XFIREDB_OK, v, l)
            | None => (d', - XFIREDB_ERR, 0, 0)
            end) ∧
    dict_ok d' ∧ dict_abs d' = dict_abs sample.
Proof. apply (dict_lookup_correct sample "a" 0 0), sample_ok. Defined.

Lemma raw_dict_update_correct_witness :
  ∃ d', raw_dict_update (λ _, 0) dict_globals_init sample "b" 5 DICT_PTR 6 2001 =
      Done (d', - XFIREDB_OK) ∧ dict_ok d' ∧
    dict_abs d' = <["b" := (stored (λ _, 0) 5 DICT_PTR,
                            match dict_abs sample !! "b" with Some _ => 6 | None => 8 end)]> (dict_abs sample).
Proof.
  apply (raw_dict_update_correct (λ _, 0) dict_globals_init sample).
  - exact (proj1 sample_ok).
  - exact sample_size.
  - exact sample_fresh.
Defined.

Lemma dict_delete_correct_witness :
  ∃ d', dict_delete sample "c" 0 false =
      Done (match dict_abs sample !! "c" with
            | Some (v, _) => (d', - XFIREDB_OK, v, None)
            | None => (d', - XFIREDB_ERR, 0, None)
            end) ∧
    dict_ok d' ∧ dict_abs d' = delete "c" (dict_abs sample).
Proof. apply (dict_delete_correct sample "c" 0 false), sample_ok. Defined.

Lemma dict_clear_correct_witness :
  ∃ d' freed, dict_clear sample = (d', - XFIREDB_OK, freed) ∧ freed = e_addr <$> entries sample ∧
    NoDup freed ∧ dict_ok d' ∧ dict_abs d' = ∅ ∧ dict_get_size d' = 0 ∧
    d_rehashing d' = false ∧ d_iterators d' = d_iterators sample.
Proof. apply (dict_clear_correct sample), sample_ok. Defined.

Lemma dict_get_size_correct_witness :
  dict_get_size sample = Z.of_nat (size (dict_abs sample)).
Proof.
  apply (dict_get_size_correct sample).
  - apply sample_ok.
  - pose proof sample_size as H. change (2 ^ 30) with 1073741824 in H.
    change (2 ^ 63) with 9223372036854775808. lia.
Defined.
