(* ===== verification/DictIter.v ===== *)
(** * Dictionary iterators: [storage/dict.c]

    An iterator holds two entry pointers, so reading [e->next] looks the entry up
    in the dictionary as it is at that moment; a pointer to a released entry makes
    the read undefined. *)
From S2P Require Import Prelude Murmur Dict DictRehash DictSpec DictSections.
Local Open Scope Z_scope.

(** ** Data *)

Record dict_iterator := DictIterator {
  it_e : option loc;
  it_e_next : option loc;
  it_idx : Z;
  it_table : Z;
  it_safe : bool }.

#[export] Instance dict_iterator_eq_dec : EqDecision dict_iterator.
Proof. solve_decision. Defined.

Definition dict_create_iterator : dict_iterator := DictIterator None None (-1) 0 false.

Definition set_iterators (d : dict) (n : Z) : dict :=
  Dict (d_primary d) (d_rehash d) (d_status d) (d_rehashidx d) (d_rehashing d) n.

Definition dict_get_safe_iterator (d : dict) : dict * dict_iterator :=
  (set_iterators d (s32 (d_iterators d + 1)), DictIterator None None (-1) 0 true).
Definition dict_get_iterator (d : dict) : dict * dict_iterator := (d, dict_create_iterator).
Definition dict_iterator_free (d : dict) (it : dict_iterator) : dict :=
  if it_safe it then set_iterators d (s32 (d_iterators d - 1)) else d.

(** [d->map[it->table]] *)
Definition it_map (d : dict) (table : Z) : dict_map :=
  if table =? 0 then d_primary d else d_rehash d.

(** [e->next] for the entry at an address, wherever it is linked. *)
Fixpoint chain_next (addr : loc) (chain : list dict_entry) : option (option loc) :=
  match chain with
  | [] => None
  | e :: next =>
      if decide (e_addr e = addr) then Some (e_addr <$> head next) else chain_next addr next
  end.
Fixpoint chains_next (addr : loc) (chains : list (list dict_entry)) : option (option loc) :=
  match chains with
  | [] => None
  | c :: chains =>
      match chain_next addr c with Some r => Some r | None => chains_next addr chains end
  end.
Definition entry_next (d : dict) (addr : loc) : outcome (option loc) :=
  deref (chains_next addr (m_array (d_primary d) ++ m_array (d_rehash d))).

(** ** Stepping *)

(** The end of one round of the loop: return the entry, if there is one. *)
Definition it_arrive (d : dict) (e : option loc) (idx table : Z) (it : dict_iterator)
    : outcome (dict_iterator * option loc) :=
  match e with
  | Some a => next ← entry_next d a; Done (DictIterator e next idx table (it_safe it), e)
  | None => Done (DictIterator e (it_e_next it) idx table (it_safe it), None)
  end.

Fixpoint iterator_next_loop (fuel : nat) (d : dict) (it : dict_iterator)
    : outcome (dict_iterator * option loc) :=
  match fuel with
  | O => OutOfFuel
  | S fuel' =>
      match it_e it with
      | None =>
          let idx := it_idx it + 1 in
          if idx >=? m_size (it_map d (it_table it)) then
            if d_rehashing d && (it_table it =? 0) then
              b ← bucket (d_rehash d) 0;
              '(it, e) ← it_arrive d (e_addr <$> head b) 0 (it_table it + 1) it;
              match e with Some _ => Done (it, e) | None => iterator_next_loop fuel' d it end
            else Done (DictIterator None (it_e_next it) idx (it_table it) (it_safe it), None)
          else
            b ← bucket (it_map d (it_table it)) idx;
            '(it, e) ← it_arrive d (e_addr <$> head b) idx (it_table it) it;
            match e with Some _ => Done (it, e) | None => iterator_next_loop fuel' d it end
      | Some _ =>
          '(it, e) ← it_arrive d (it_e_next it) (it_idx it) (it_table it) it;
          match e with Some _ => Done (it, e) | None => iterator_next_loop fuel' d it end
      end
  end.

(** Fuel: one round for each bucket, one to leave a chain and one for the end. *)
Definition it_fuel (d : dict) : nat :=
  length (m_array (d_primary d)) + length (m_array (d_rehash d)) + 3.

Definition dict_iterator_next (d : dict) (it : dict_iterator) : outcome (dict_iterator * option loc) :=
  iterator_next_loop (it_fuel d) d it.

(** [entry_prev]: rolls the chain out until the entry is found. *)
Fixpoint entry_prev_walk (chain : list dict_entry) (e : loc) : option loc :=
  match chain with
  | x :: (y :: _) as next =>
      if decide (e_addr y = e) then Some (e_addr x) else entry_prev_walk next e
  | _ => None
  end.
Definition entry_prev (chain : list dict_entry) (e : loc) : option loc :=
  match chain with
  | x :: _ => if decide (e_addr x = e) then None else entry_prev_walk chain e
  | [] => None
  end.

Fixpoint iterator_prev_loop (fuel : nat) (d : dict) (it : dict_iterator)
    : outcome (dict_iterator * option loc) :=
  match fuel with
  | O => OutOfFuel
  | S fuel' =>
      match it_e it with
      | None =>
          let idx := it_idx it - 1 in
          let idx := if idx =? -2 then m_size (it_map d (it_table it)) - 1 else idx in
          if (idx <=? -1) || (idx >=? m_size (it_map d (it_table it))) then
            if d_rehashing d && (it_table it =? 0) then
              let idx := m_size (d_rehash d) - 1 in
              b ← bucket (d_rehash d) idx;
              let e := e_addr <$> list.last b in
              let it := DictIterator e (it_e_next it) idx (it_table it + 1) (it_safe it) in
              match e with Some _ => Done (it, e) | None => iterator_prev_loop fuel' d it end
            else Done (DictIterator None (it_e_next it) idx (it_table it) (it_safe it), None)
          else
            b ← bucket (it_map d (it_table it)) idx;
            let e := e_addr <$> list.last b in
            let it := DictIterator e (it_e_next it) idx (it_table it) (it_safe it) in
            match e with Some _ => Done (it, e) | None => iterator_prev_loop fuel' d it end
      | Some a =>
          b ← bucket (it_map d (it_table it)) (it_idx it);
          let e := if decide (e_addr <$> head b = Some a) then None else entry_prev b a in
          let it := DictIterator e (it_e_next it) (it_idx it) (it_table it) (it_safe it) in
          match e with Some _ => Done (it, e) | None => iterator_prev_loop fuel' d it end
      end
  end.

Definition dict_iterator_prev (d : dict) (it : dict_iterator) : outcome (dict_iterator * option loc) :=
  iterator_prev_loop (it_fuel d) d it.

(** The client's loop: call [step] until it returns NULL. *)
Fixpoint drain (step : dict_iterator → outcome (dict_iterator * option loc)) (fuel : nat)
    (it : dict_iterator) : outcome (list loc) :=
  match fuel with
  | O => OutOfFuel
  | S fuel' =>
      '(it, e) ← step it;
      match e with
      | None => Done []
      | Some a => l ← drain step fuel' it; Done (a :: l)
      end
  end.

Example sample_forward :
  drain (dict_iterator_next sample) 9 dict_create_iterator = Done (e_addr <$> entries sample).
Proof. vm_compute. reflexivity. Qed.
Example sample_backward :
  drain (dict_iterator_prev sample) 9 dict_create_iterator
  = Done (e_addr <$> (reverse (map_entries (d_primary sample)) ++ reverse (map_entries (d_rehash sample)))).
Proof. vm_compute. reflexivity. Qed.

(** ** A traversal visits every entry once *)

Definition buckets (d : dict) : list (list dict_entry) := m_array (d_primary d) ++ m_array (d_rehash d).

Lemma buckets_entries d : concat (buckets d) = entries d.
Proof. unfold buckets. by rewrite concat_app. Qed.

Lemma chain_next_at l1 e l2 :
  NoDup (e_addr <$> l1 ++ e :: l2) → chain_next (e_addr e) (l1 ++ e :: l2) = Some (e_addr <$> head l2).
Proof.
  induction l1 as [|x l1 IH]; simpl; [by rewrite decide_True|].
  intros [Hx Hnd]%list.NoDup_cons. rewrite decide_False; [auto|].
  intros Heq. apply Hx. rewrite Heq, fmap_app. simpl. set_solver.
Qed.

Lemma chain_next_other a c : a ∉ e_addr <$> c → chain_next a c = None.
Proof.
  induction c as [|x c IH]; simpl; [done|]. intros [Hx Hc]%not_elem_of_cons.
  rewrite decide_False by congruence. auto.
Qed.

Lemma chains_next_at cs i l1 e l2 :
  NoDup (e_addr <$> concat cs) → cs !! i = Some (l1 ++ e :: l2) →
  chains_next (e_addr e) cs = Some (e_addr <$> head l2).
Proof.
  revert i. induction cs as [|c cs IH]; intros [|i]; simpl; [done..| |].
  - intros Hnd [= ->]. rewrite fmap_app in Hnd. apply list.NoDup_app in Hnd as (Hnd & _ & _).
    by rewrite chain_next_at.
  - rewrite fmap_app. intros (_ & Hdisj & Hnd)%list.NoDup_app Hi.
    rewrite chain_next_other; [by eapply IH|]. intros Hin. apply (Hdisj _ Hin).
    apply list_elem_of_fmap. exists e. split; [done|]. apply elem_of_concat. exists i, (l1 ++ e :: l2).
    split; [done|]. set_solver.
Qed.

(** Before bucket [k]: where the next bucket the iterator reads is. *)
Record it_before (d : dict) (it : dict_iterator) (k : nat) : Prop := {
  ib_table : it_table it = 0 ∨ it_table it = 1;
  ib_idx : -1 ≤ it_idx it;
  ib_pos : Z.of_nat k = it_idx it + 1 +
    (if it_table it =? 0 then 0 else Z.of_nat (length (m_array (d_primary d))));
  ib_low : it_table it = 0 → (k ≤ length (m_array (d_primary d)))%nat }.

(** What is still to come: the rest of the current chain, then the buckets. *)
Definition it_rest (d : dict) (it : dict_iterator) (rest : list dict_entry) : Prop :=
  ∃ k l1 l2, it_before d it k ∧ rest = l2 ++ concat (drop k (buckets d)) ∧
    match it_e it with
    | None => l2 = []
    | Some _ => it_e_next it = e_addr <$> head l2 ∧ ∃ i, k = S i ∧ buckets d !! i = Some (l1 ++ l2)
    end.

(** The iterator has just returned [e]. *)
Definition it_last (d : dict) (it : dict_iterator) (e : dict_entry) (rest : list dict_entry) : Prop :=
  ∃ i l1 l2, it_before d it (S i) ∧ it_e it = Some (e_addr e) ∧ it_e_next it = e_addr <$> head l2 ∧
    buckets d !! i = Some (l1 ++ e :: l2) ∧ rest = l2 ++ concat (drop (S i) (buckets d)).

Lemma it_last_rest d it e rest : it_last d it e rest → it_rest d it rest.
Proof.
  intros (i & l1 & l2 & Hb & He & Hn & Hi & ->). exists (S i), (l1 ++ [e]), l2. split_and!; [done..|].
  rewrite He. split; [done|]. exists i. by rewrite <-app_assoc.
Qed.

Section Traversal.
Context (d : dict) (Hok : dict_ok d).

Lemma entry_next_at i l1 e l2 :
  buckets d !! i = Some (l1 ++ e :: l2) → entry_next d (e_addr e) = Done (e_addr <$> head l2).
Proof.
  intros Hi. unfold entry_next. fold (buckets d). rewrite (chains_next_at _ i l1 e l2); [done| |done].
  rewrite buckets_entries. apply (dict_ok_addrs d Hok).
Qed.

(** One round at the start of a bucket. *)
Lemma next_bucket it k fuel b :
  it_before d it k → it_e it = None → buckets d !! k = Some b →
  ∃ idx table, it_before d (DictIterator None None idx table (it_safe it)) (S k) ∧
    iterator_next_loop (S fuel) d it =
      ('(it, e) ← it_arrive d (e_addr <$> head b) idx table it;
       match e with Some _ => Done (it, e) | None => iterator_next_loop fuel d it end).
Proof.
  intros [Ht Hidx Hpos Hlow] He Hb. cbn [iterator_next_loop]. rewrite He.
  pose proof (map_ok_size _ (dict_ok_primary d Hok)) as Hs0.
  pose proof (map_ok_size _ (dict_ok_rehash d Hok)) as Hs1.
  pose proof (lookup_lt_Some _ _ _ Hb) as Hlt. unfold buckets in Hb, Hlt. rewrite length_app in Hlt.
  destruct Ht as [Ht|Ht]; rewrite Ht in *; unfold it_map; cbn [Z.eqb] in *.
  - destruct (Z.geb_spec (it_idx it + 1) (m_size (d_primary d))).
    + destruct (d_rehashing d) eqn:Hre; cycle 1.
      { rewrite (dict_ok_idle d Hok Hre) in Hlt. simpl in Hlt. specialize (Hlow eq_refl). lia. }
      assert (k = length (m_array (d_primary d))) as -> by (specialize (Hlow eq_refl); lia).
      rewrite lookup_app_r, Nat.sub_diag in Hb by done.
      unfold bucket. rewrite decide_True by done. change (Z.to_nat 0) with 0%nat. rewrite Hb.
      exists 0, 1. split; [split; simpl; lia|done].
    + rewrite lookup_app_l in Hb by lia. unfold bucket. rewrite decide_True by lia.
      replace (Z.to_nat (it_idx it + 1)) with k by lia. rewrite Hb.
      exists (it_idx it + 1), 0. split; [split; simpl; lia|done].
  - destruct (Z.geb_spec (it_idx it + 1) (m_size (d_rehash d))); [lia|].
    rewrite lookup_app_r in Hb by lia. unfold bucket. rewrite decide_True by lia.
    replace (Z.to_nat (it_idx it + 1)) with (k - length (m_array (d_primary d)))%nat by lia. rewrite Hb.
    exists (it_idx it + 1), 1. split; [split; simpl; lia|done].
Qed.

Lemma next_end it k fuel :
  it_before d it k → it_e it = None → (length (buckets d) ≤ k)%nat →
  ∃ it', iterator_next_loop (S fuel) d it = Done (it', None).
Proof.
  intros [Ht Hidx Hpos Hlow] He Hk. cbn [iterator_next_loop]. rewrite He.
  pose proof (map_ok_size _ (dict_ok_primary d Hok)) as Hs0.
  pose proof (map_ok_size _ (dict_ok_rehash d Hok)) as Hs1.
  unfold buckets in Hk. rewrite length_app in Hk.
  destruct Ht as [Ht|Ht]; rewrite Ht in *; unfold it_map; cbn [Z.eqb] in *.
  - specialize (Hlow eq_refl). rewrite (proj2 (Z.geb_le _ _)) by lia.
    destruct (d_rehashing d) eqn:Hre; [|by eexists].
    destruct (dict_ok_busy d Hok Hre) as (_ & Hne & _ & _).
    destruct (m_array (d_rehash d)); [done|simpl in Hk; lia].
  - rewrite (proj2 (Z.geb_le _ _)) by lia. rewrite andb_false_r. by eexists.
Qed.

Lemma next_from_bucket fuel it k :
  it_before d it k → it_e it = None → (length (buckets d) - k < fuel)%nat →
  ∃ it', iterator_next_loop fuel d it = Done (it', e_addr <$> head (concat (drop k (buckets d)))) ∧
    ∀ e rest, concat (drop k (buckets d)) = e :: rest → it_last d it' e rest.
Proof.
  revert it k. induction fuel as [|fuel IH]; intros it k Hb He Hf; [lia|].
  destruct (buckets d !! k) as [b|] eqn:Hk; cycle 1.
  { apply lookup_ge_None in Hk. destruct (next_end it k fuel Hb He Hk) as (it' & ->).
    exists it'. rewrite drop_ge by done. by split. }
  destruct (next_bucket it k fuel b Hb He Hk) as (idx & table & [B1 B2 B3 B4] & ->).
  simpl in B1, B2, B3, B4. pose proof (lookup_lt_Some _ _ _ Hk).
  rewrite (drop_S _ _ _ Hk). destruct b as [|e b]; simpl.
  - destruct (IH (DictIterator None (it_e_next it) idx table (it_safe it)) (S k)) as (it' & -> & ?);
      [by split|done|lia|]. by exists it'.
  - unfold it_arrive. rewrite (entry_next_at k [] e b Hk). simpl. eexists. split; [done|]. intros e' rest [= <- <-].
    exists k, [], b. by split_and!; [split|..].
Qed.

Lemma dict_iterator_next_ok it rest :
  it_rest d it rest →
  ∃ it', dict_iterator_next d it = Done (it', e_addr <$> head rest) ∧
    ∀ e rest', rest = e :: rest' → it_last d it' e rest'.
Proof.
  intros (k & l1 & l2 & Hb & -> & Hcase). unfold dict_iterator_next, it_fuel.
  replace (_ + 3)%nat with (S (length (buckets d) + 2)) by (unfold buckets; rewrite length_app; lia).
  destruct (it_e it) as [a|] eqn:He; cycle 1.
  { subst l2. rewrite app_nil_l. apply next_from_bucket; [done|done|lia]. }
  destruct Hcase as (Hnext & i & -> & Hi). destruct Hb as [B1 B2 B3 B4].
  cbn [iterator_next_loop]. rewrite He, Hnext. destruct l2 as [|e l2]; simpl.
  - destruct (next_from_bucket (length (buckets d) + 2)
      (DictIterator None (it_e_next it) (it_idx it) (it_table it) (it_safe it)) (S i))
      as (it' & Hr & ?); [by split|done|lia|]. exists it'. by rewrite Hr.
  - unfold it_arrive. rewrite (entry_next_at i l1 e l2 Hi). simpl. eexists. split; [done|]. intros e' rest' [= <- <-].
    exists i, l1, l2. by split_and!; [split|..].
Qed.

Lemma drain_next it rest fuel :
  it_rest d it rest → (length rest < fuel)%nat →
  drain (dict_iterator_next d) fuel it = Done (e_addr <$> rest).
Proof.
  revert it rest. induction fuel as [|fuel IH]; intros it rest Hr Hf; [lia|]. cbn [drain].
  destruct (dict_iterator_next_ok it rest Hr) as (it' & -> & Hr'). rewrite bind_Done.
  destruct rest as [|e rest]; simpl; [done|]. rewrite (IH it' rest); [done| |simpl in Hf; lia].
  by eapply it_last_rest, Hr'.
Qed.

Lemma it_rest_start safe : it_rest d (DictIterator None None (-1) 0 safe) (entries d).
Proof.
  exists 0%nat, [], []. split_and!; [split; simpl; lia|by rewrite drop_0, <-buckets_entries|done].
Qed.
End Traversal.

(** *** Deleting the entry that was returned *)

Lemma chain_unlink_at l1 e l2 :
  NoDup (e_key <$> l1 ++ e :: l2) → chain_unlink (e_key e) (l1 ++ e :: l2) = Some (e, l1 ++ l2).
Proof.
  induction l1 as [|x l1 IH]; simpl; unfold strcmp_eq; [by rewrite bool_decide_true|].
  intros [Hx Hnd]%list.NoDup_cons. rewrite bool_decide_false; [by rewrite IH|].
  intros Heq. apply Hx. rewrite <-Heq, fmap_app. set_solver.
Qed.

(** Where no rehash runs, an iterator, safe or not, goes on over the deletion of the
    entry it has just returned. *)
Lemma delete_last d it e rest data :
  dict_ok d → d_rehashing d = false → it_last d it e rest →
  ∃ d', dict_delete d (e_key e) data false = Done (d', - XFIREDB_OK, e_value e, None) ∧ dict_ok d' ∧
    d_rehashing d' = false ∧ entries d ≡ₚ e :: entries d' ∧ it_rest d' it rest.
Proof.
  intros Hok Hre (i & l1 & l2 & [B1 B2 B3 B4] & He & Hn & Hi & ->).
  assert (m_array (d_rehash d) = []) as Hr by (by rewrite (dict_ok_idle d Hok Hre)).
  assert (buckets d = m_array (d_primary d)) as Hbs by (unfold buckets; by rewrite Hr, app_nil_r).
  rewrite Hbs in *. assert (e ∈ l1 ++ e :: l2) as Hin by set_solver.
  pose proof (map_ok_idx _ (dict_ok_primary d Hok) i _ e Hi Hin) as Hidx.
  assert (m_array (d_primary d) ≠ []) as Hne by (intros E; by rewrite E in Hi).
  assert (chain_unlink (e_key e) (l1 ++ e :: l2) = Some (e, l1 ++ l2)) as Hun.
  { apply chain_unlink_at. pose proof (dict_ok_keys d Hok) as Hk. unfold entries, map_entries in Hk. rewrite Hr, app_nil_r in Hk.
    rewrite (concat_split _ _ _ Hi), !fmap_app in Hk. apply list.NoDup_app in Hk as (_ & _ & Hk).
    apply list.NoDup_app in Hk as (Hk & _ & _). by rewrite fmap_app. }
  destruct (dict_unlink_primary_ok d (e_key e) (l1 ++ e :: l2) e (l1 ++ l2)) as [Hok' Hent];
    [done|by rewrite Hidx, Nat2Z.id|lia|solve_Permutation|by destruct l1|].
  eexists. unfold dict_delete, __dict_delete, rehash_prologue, dict_is_rehashing, dict_delete_locked.
  rewrite Hre, bind_Done. rewrite (proj2 (Z.eqb_neq _ _)).
  2:{ rewrite (map_ok_size _ (dict_ok_primary d Hok)). destruct (m_array (d_primary d)); [done|]. simpl. lia. }
  assert (bucket (d_primary d) (map_idx (d_primary d) (e_key e)) = Done (l1 ++ e :: l2)) as ->.
  { unfold bucket. rewrite Hidx, decide_True by lia. by rewrite Nat2Z.id, Hi. }
  rewrite bind_Done, Hun, bind_Done.
  rewrite <-Hre, Hidx in *. split; [done|]. split; [done|]. split; [done|]. split; [done|].
  exists (S i), l1, l2. unfold buckets. cbn [d_primary d_rehash set_bucket m_array]. rewrite Hr, app_nil_r, Nat2Z.id.
  split; [split; cbn [d_primary set_bucket m_array]; rewrite ?length_insert; done|].
  rewrite drop_insert_lt by lia. split; [done|]. rewrite He. split; [done|]. exists i. split; [done|].
  apply list_lookup_insert_eq. by eapply lookup_lt_Some.
Qed.

(** The loop over [dict_iterator_next] of a dictionary that nobody changes
    returns every entry of both maps, each exactly once and bucket by bucket, then
    NULL; it never follows a dangling pointer.  One call more than the number of
    entries is enough. *)
Lemma dict_iterator_next_visits d :
  dict_ok d →
  (∀ it, it = dict_create_iterator ∨ it = (dict_get_safe_iterator d).2 →
    drain (dict_iterator_next d) (S (length (entries d))) it = Done (e_addr <$> entries d)) ∧
  NoDup (e_addr <$> entries d).
Proof.
  intros Hok. split; [|apply (dict_ok_addrs d Hok)].
  intros it [->| ->]; apply drain_next; first [done|lia|by apply it_rest_start].
Qed.

Lemma dict_iterator_next_visits_witness :
  (∀ it, it = dict_create_iterator ∨ it = (dict_get_safe_iterator sample).2 →
    drain (dict_iterator_next sample) (S (length (entries sample))) it = Done (e_addr <$> entries sample)) ∧
  NoDup (e_addr <$> entries sample).
Proof. apply (dict_iterator_next_visits sample), sample_ok. Defined.

(** ** Safe iterators *)

Lemma iterators_block d : d_iterators d ≠ 0 → rehash_prologue d = Done d.
Proof.
  intros Hi. unfold rehash_prologue, dict_rehash_step, dict_has_iterators.
  rewrite (proj2 (Z.eqb_neq _ _) Hi). by destruct (dict_is_rehashing d).
Qed.

(** A safe iterator stops the callers of the keyed operations from moving
    entries, so that a lookup leaves the dictionary exactly as it was.  It does not
    stop the rehash worker, which never looks at the iterators: there is a
    dictionary with a safe iterator that has returned one entry such that, after a
    pass of the worker, the rest of the traversal returns that entry again and
    misses two keys. *)
Lemma safe_iterator_stops_callers_only :
  (∀ d key, d_iterators d ≠ 0 → dict_ok d → ∃ r, __dict_lookup d key = Done (d, r)) ∧
  (∃ d it1 it2 e1 d' rest, dict_get_safe_iterator sample = (d, it1) ∧ d_iterators d = 1 ∧
    dict_iterator_next d it1 = Done (it2, Some e1) ∧ dict_rehash d 100 = Done (d', 0) ∧
    drain (dict_iterator_next d') 9 it2 = Done rest ∧ e1 ∈ rest ∧
    length (filter (λ e, e_addr e ∉ e1 :: rest) (entries d')) = 2%nat).
Proof.
  split.
  - intros d key Hi Hok. unfold __dict_lookup. rewrite iterators_block by done. rewrite bind_Done.
    destruct (dict_lookup_locked_ok d key Hok) as (r & -> & _). by exists r.
  - eexists _, _, _, _, _, _. split; [vm_compute; reflexivity|].
    split; [reflexivity|]. split; [vm_compute; reflexivity|]. split; [vm_compute; reflexivity|].
    split; [vm_compute; reflexivity|]. split; [decide_by_compute|vm_compute; reflexivity].
Qed.
