(* ===== verification/DictThread.v ===== *)
(** * The rehash worker and the end of a dictionary: [storage/dict.c]

    Every dictionary has a thread, [dict_rehash_worker], and [dict_free] stops it.  The
    state below has the program point of both; every locked section is one step, so
    the lock is held between steps only by the worker. *)
From S2P Require Import Prelude Murmur Dict DictRehash DictSpec DictSections.
Local Open Scope Z_scope.

(** ** The threads *)

(** [dict_rehash_worker]: before it takes the lock, with the lock before the first
    test, in [xfiredb_cond_wait], with the lock before the second test, with the lock
    before [dict_rehash_ms], and after the thread has ended. *)
Inductive rphase := RLock | RTest | RWait | RCheck | RRehash | RExit.
#[export] Instance rphase_eq_dec : EqDecision rphase.
Proof. solve_decision. Defined.

(** [dict_free]: before it releases the arrays, before it takes the lock, in the join,
    and after the lock is destroyed. *)
Inductive fphase := FArrays | FLock | FJoin | FDone.

(** The worker leaves its loop by [break], with the lock. *)
Definition holds_lock (w : rphase) : bool :=
  match w with RLock | RWait => false | RTest | RCheck | RRehash | RExit => true end.

Record dsys := Dsys { ds_dict : dict; ds_worker : rphase; ds_free : fphase }.

(** Released arrays: any access to a bucket is undefined, the sizes are still there. *)
Definition free_map (m : dict_map) : dict_map := DictMap [] (m_size m) (m_sizemask m) (m_length m).
Definition free_arrays (d : dict) : dict :=
  Dict (free_map (d_primary d)) (free_map (d_rehash d)) (d_status d) (d_rehashidx d) (d_rehashing d) (d_iterators d).
Definition set_status (st : dict_status_t) (d : dict) : dict :=
  Dict (d_primary d) (d_rehash d) st (d_rehashidx d) (d_rehashing d) (d_iterators d).

Definition is_freed (d : dict) : bool := bool_decide (d_status d = DICT_STATUS_FREE).

(** One step of [dict_rehash_worker]; [fuel], [start] and [clock] are the length of the
    loop of [dict_rehash_ms] and the times it reads.  [None]: it waits or has ended. *)
Definition rehash_worker_step (fuel : nat) (start : Z) (clock : list Z) (s : dsys) : option (outcome dsys) :=
  let '(Dsys d w f) := s in
  match w with
  | RLock => Some (Done (Dsys d RTest f))
  | RTest => Some (Done (Dsys d (if negb (dict_is_rehashing d) && negb (is_freed d) then RWait else RCheck) f))
  | RWait => None
  | RCheck => Some (Done (Dsys d (if is_freed d then RExit else RRehash) f))
  | RRehash => Some ('(d, _) ← dict_rehash_ms fuel start 2 clock 0 d; Done (Dsys d RLock f))
  | RExit => None
  end.

(** [xfiredb_cond_signal], or a wake-up without a signal. *)
Definition wake (w : rphase) : rphase := match w with RWait => RCheck | _ => w end.

(** One step of [dict_free]; [None]: it waits for the lock or the thread, or has returned. *)
Definition dict_free_step (s : dsys) : option dsys :=
  let '(Dsys d w f) := s in
  match f with
  | FArrays => Some (Dsys (free_arrays d) w FLock)
  | FLock => if holds_lock w then None else Some (Dsys (set_status DICT_STATUS_FREE d) (wake w) FJoin)
  | FJoin => if decide (w = RExit) then Some (Dsys d w FDone) else None
  | FDone => None
  end.

Inductive dstep (s : dsys) : dsys → Prop :=
  | dstep_worker fuel start clock s' : rehash_worker_step fuel start clock s = Some (Done s') → dstep s s'
  | dstep_free s' : dict_free_step s = Some s' → dstep s s'
  | dstep_wake : ds_worker s = RWait → dstep s (Dsys (ds_dict s) RCheck (ds_free s)).

(** ** Without a rehash *)

(** [dict_free] is called on [d], which is not being rehashed. *)
Record quiet (s : dsys) : Prop := {
  qu_rehash : d_rehashing (ds_dict s) = false;
  qu_status : d_status (ds_dict s) = DICT_STATUS_FREE ↔ ds_free s = FJoin ∨ ds_free s = FDone;
  qu_wait : ds_worker s = RWait → d_status (ds_dict s) ≠ DICT_STATUS_FREE;
  qu_exit : ds_worker s = RExit → d_status (ds_dict s) = DICT_STATUS_FREE;
  qu_done : ds_free s = FDone → ds_worker s = RExit }.

Lemma quiet_rehash d fuel start clock :
  d_rehashing d = false → dict_rehash_ms (S fuel) start 2 clock 0 d = Done (d, 0).
Proof. intros Hd. cbn [dict_rehash_ms]. unfold dict_rehash. by rewrite Hd. Qed.

Lemma quiet_worker fuel start clock s o :
  quiet s → rehash_worker_step (S fuel) start clock s = Some o → ∃ s', o = Done s' ∧ quiet s'.
Proof.
  destruct s as [d w f]. intros [Q1 Q2 Q3 Q4 Q5]. cbn in *. unfold is_freed, dict_is_rehashing. rewrite Q1. cbn.
  destruct w; intros H; simplify_eq/=; try (eexists; split; [done|]).
  - split; cbn; try done. intros Hf. by specialize (Q5 Hf).
  - case_bool_decide; (split; cbn; try done); intros Hf; by specialize (Q5 Hf).
  - case_bool_decide; (split; cbn; try done); intros Hf; by specialize (Q5 Hf).
  - unfold dict_rehash. rewrite Q1. cbn. eexists. split; [done|]. split; cbn; try done. intros Hf. by specialize (Q5 Hf).
Qed.

Lemma quiet_step s s' : quiet s → dstep s s' → quiet s'.
Proof.
  intros Hq Hs. destruct Hs as [[|fuel] start clock s' Hs|s' Hs|Hw].
  - destruct s as [d w f]. destruct Hq as [Q1 Q2 Q3 Q4 Q5]. cbn in *. destruct w; simplify_eq/=.
    all: try (split; cbn; try done; intros Hf; by specialize (Q5 Hf)).
    + unfold is_freed, dict_is_rehashing in *. rewrite Q1. cbn. case_bool_decide; (split; cbn; try done); intros Hf; by specialize (Q5 Hf).
    + unfold is_freed in *. case_bool_decide; (split; cbn; try done); intros Hf; by specialize (Q5 Hf).
  - destruct (quiet_worker fuel start clock s (Done s') Hq Hs) as (? & [= <-] & ?). done.
  - destruct s as [d w f]. destruct Hq as [Q1 Q2 Q3 Q4 Q5]. cbn in *. destruct f; simplify_eq/=.
    + split; cbn; [done|split; [intros Hf; by apply Q2 in Hf as [?|?]|by intros [?|?]]|done|done|done].
    + destruct w; simplify_eq/=; (split; cbn; [done|split; [by left|done]|done|done|done]).
    + case_decide; simplify_eq/=. split; cbn; [done|split; [by right|]|done|done|done]. intros _. apply Q2. by left.
  - destruct s as [d w f]. destruct Hq as [Q1 Q2 Q3 Q4 Q5]. cbn in *. split; cbn; try done. intros Hf. specialize (Q5 Hf). congruence.
Qed.

Lemma quiet_reach s s' : quiet s → rtc dstep s s' → quiet s'.
Proof. intros Hq. induction 1; eauto using quiet_step. Qed.

Lemma worker_run fuel start clock s s' s2 :
  rehash_worker_step fuel start clock s = Some (Done s') → rtc dstep s' s2 → rtc dstep s s2.
Proof. intros H Hr. eapply rtc_l; [by eapply dstep_worker|done]. Qed.

(** The worker reaches a point where it does not hold the lock. *)
Lemma worker_lets_go d w f :
  quiet (Dsys d w f) → d_status d ≠ DICT_STATUS_FREE →
  ∃ w', rtc dstep (Dsys d w f) (Dsys d w' f) ∧ holds_lock w' = false.
Proof.
  intros [Q1 _ _ Q4 _] Hst. cbn in *. assert (is_freed d = false) as Hf by (unfold is_freed; by rewrite bool_decide_false).
  assert (rtc dstep (Dsys d RRehash f) (Dsys d RLock f)) as Hre.
  { eapply (worker_run 1 0 []); [|apply rtc_refl]. cbn [rehash_worker_step]. by rewrite quiet_rehash. }
  destruct w.
  - exists RLock. by split; [apply rtc_refl|].
  - exists RWait. split; [|done]. eapply (worker_run 1 0 []); [|apply rtc_refl]. cbn. unfold dict_is_rehashing. by rewrite Q1, Hf.
  - exists RWait. by split; [apply rtc_refl|].
  - exists RLock. split; [|done]. eapply (worker_run 1 0 []); [cbn; by rewrite Hf|exact Hre].
  - by exists RLock.
  - specialize (Q4 eq_refl). done.
Qed.

(** The worker ends once the status says so. *)
Lemma worker_ends d w f :
  quiet (Dsys d w f) → d_status d = DICT_STATUS_FREE → rtc dstep (Dsys d w f) (Dsys d RExit f).
Proof.
  intros [Q1 _ Q3 _ _] Hst. cbn in *. assert (is_freed d = true) as Hf by (unfold is_freed; by rewrite bool_decide_true).
  assert (rtc dstep (Dsys d RCheck f) (Dsys d RExit f)) as Hc.
  { eapply (worker_run 1 0 []); [cbn; by rewrite Hf|apply rtc_refl]. }
  assert (rtc dstep (Dsys d RTest f) (Dsys d RExit f)) as Ht.
  { eapply (worker_run 1 0 []); [cbn; rewrite Hf, andb_false_r; done|exact Hc]. }
  assert (rtc dstep (Dsys d RLock f) (Dsys d RExit f)) as Hl by (eapply (worker_run 1 0 []); [done|exact Ht]).
  destruct w; try done; [by specialize (Q3 eq_refl)|]. eapply (worker_run 1 0 []); [|exact Hl].
  cbn [rehash_worker_step]. by rewrite quiet_rehash.
Qed.

Lemma free_run s s1 s2 : dict_free_step s = Some s1 → rtc dstep s1 s2 → rtc dstep s s2.
Proof. intros H Hr. eapply rtc_l; [by apply dstep_free|done]. Qed.

Lemma free_returns s : quiet s → ∃ s', rtc dstep s s' ∧ ds_free s' = FDone.
Proof.
  assert (∀ d w, quiet (Dsys d w FJoin) → ∃ s', rtc dstep (Dsys d w FJoin) s' ∧ ds_free s' = FDone) as Hjoin.
  { intros d w Hq. exists (Dsys d RExit FDone). split; [|done]. pose proof Hq as [_ Q2 _ _ _].
    etransitivity; [apply (worker_ends _ _ _ Hq); apply Q2; by left|]. by eapply free_run; [|apply rtc_refl]. }
  assert (∀ d w, quiet (Dsys d w FLock) → ∃ s', rtc dstep (Dsys d w FLock) s' ∧ ds_free s' = FDone) as Hlock.
  { intros d w Hq. pose proof Hq as [_ Q2 _ _ _]. cbn in Q2.
    destruct (worker_lets_go d w FLock Hq) as (w' & Hr & Hw); [by intros Hf; apply Q2 in Hf as [?|?]|].
    assert (dict_free_step (Dsys d w' FLock) = Some (Dsys (set_status DICT_STATUS_FREE d) (wake w') FJoin)) as Hstep by (cbn; by rewrite Hw).
    pose proof (quiet_step _ _ (quiet_reach _ _ Hq Hr) (dstep_free _ _ Hstep)) as Hq'.
    destruct (Hjoin _ _ Hq') as (s' & Hr' & Hd). exists s'. split; [|done]. etransitivity; [exact Hr|]. by eapply free_run. }
  destruct s as [d w f]. intros Hq. destruct f; [|by apply Hlock|by apply Hjoin|by eexists; split; [apply rtc_refl|]].
  assert (dict_free_step (Dsys d w FArrays) = Some (Dsys (free_arrays d) w FLock)) as Hstep by done.
  destruct (Hlock _ _ (quiet_step _ _ Hq (dstep_free _ _ Hstep))) as (s' & Hr & Hd). exists s'. split; [|done]. by eapply free_run.
Qed.

Definition faults (s : dsys) : Prop := ∃ fuel start clock, rehash_worker_step fuel start clock s = Some Stuck.

(** C30: a dictionary that is not being rehashed can be freed at any moment.  Wherever
    its worker is when [dict_free] is called, and however the two threads are
    interleaved, with wake-ups that nobody asked for too, the worker never touches the
    released arrays, and there is always a schedule on which [dict_free] returns.  But
    the worker leaves its loop without unlocking: the lock is destroyed while it is
    held. *)
Theorem dict_free_returns d w s :
  d_rehashing d = false → d_status d ≠ DICT_STATUS_FREE → w ≠ RExit → rtc dstep (Dsys d w FArrays) s →
  ¬ faults s ∧ (∃ s', rtc dstep s s' ∧ ds_free s' = FDone) ∧
  (ds_free s = FDone → holds_lock (ds_worker s) = true).
Proof.
  intros Hre Hst Hw Hr. assert (quiet s) as Hq.
  { eapply quiet_reach; [|exact Hr]. split; cbn; [done|split; [done|by intros [?|?]]|done|done|done]. }
  split; [|split; [by apply free_returns|intros Hd; by rewrite (qu_done _ Hq Hd)]].
  intros ([|fuel] & start & clock & Hf).
  - destruct s as [d' w' f]. destruct w'; cbn in Hf; discriminate.
  - by destruct (quiet_worker fuel start clock s Stuck Hq Hf) as (? & ? & _).
Qed.

(** C31: a dictionary that is being rehashed cannot.  [dict_free] releases the arrays
    before it takes the lock and before it tells the worker to end, so that there is a
    schedule on which the worker goes on moving entries of the released arrays. *)
Theorem dict_free_races :
  ∃ d s, dict_ok d ∧ d_rehashing d = true ∧ rtc dstep (Dsys d RLock FArrays) s ∧ faults s.
Proof.
  exists sample, (Dsys (free_arrays sample) RRehash FLock). split_and!; [apply sample_ok|apply sample_ok| |].
  - eapply free_run; [done|]. eapply (worker_run 1 0 []); [done|]. eapply (worker_run 1 0 []); [vm_compute; reflexivity|].
    eapply (worker_run 1 0 []); [vm_compute; reflexivity|]. apply rtc_refl.
  - exists 1%nat, 0, []. vm_compute. reflexivity.
Qed.

Definition freed_dict : dict := set_status DICT_STATUS_FREE (free_arrays dict_alloc).

Lemma dict_free_returns_witness :
  ¬ faults (Dsys freed_dict RExit FDone) ∧
  (∃ s', rtc dstep (Dsys freed_dict RExit FDone) s' ∧ ds_free s' = FDone) ∧ (FDone = FDone → holds_lock RExit = true).
Proof.
  apply (dict_free_returns dict_alloc RTest (Dsys freed_dict RExit FDone)); [reflexivity|discriminate|discriminate|].
  eapply (worker_run 1 0 []); [vm_compute; reflexivity|]. do 2 (eapply free_run; [vm_compute; reflexivity|]).
  eapply (worker_run 1 0 []); [vm_compute; reflexivity|]. eapply free_run; [vm_compute; reflexivity|]. apply rtc_refl.
Defined.
