(* ===== verification/Jobs.v ===== *)
(** * The table of background jobs: [os/bg.c]

    A job is a structure with a thread; the table maps names to jobs and is a
    dictionary.  What a job's thread does is in [Worker]; here a join returns when the
    thread exists, and joining a thread that was never created is undefined. *)
From S2P Require Import Prelude Murmur Dict DictRehash DictSpec DictSections DictOps DictIter.
Local Open Scope Z_scope.

(** ** Data *)

(** [struct job]; [bj_tp] is the thread, [None] for NULL. *)
Record bg_job := BgJob {
  bj_name : string;
  bj_stamp : Z;
  bj_done : bool;
  bj_handle : Z;
  bj_arg : Z;
  bj_tp : option Z }.

(** [job_db], the jobs by address, and, no part of the program, the jobs whose
    condition was signalled and the threads that were joined. *)
Record bg := Bg {
  bg_db : dict;
  bg_jobs : gmap loc bg_job;
  bg_woken : list loc;
  bg_joined : list Z }.

Definition set_db (d : dict) (s : bg) : bg := Bg d (bg_jobs s) (bg_woken s) (bg_joined s).
Definition set_jobs (jobs : gmap loc bg_job) (s : bg) : bg := Bg (bg_db s) jobs (bg_woken s) (bg_joined s).
Definition add_woken (a : loc) (s : bg) : bg := Bg (bg_db s) (bg_jobs s) (bg_woken s ++ [a]) (bg_joined s).
Definition add_joined (t : Z) (s : bg) : bg := Bg (bg_db s) (bg_jobs s) (bg_woken s) (bg_joined s ++ [t]).

(** ** Starting *)

(** The value of the build, in [scripts/options.cmake]. *)
Definition XFIREDB_STACK_SIZE : Z := 2097152.

(** [while(stack < XFIREDB_STACK_SIZE) stack *= 2;] *)
Fixpoint stack_loop (fuel : nat) (stack : Z) : outcome Z :=
  match fuel with
  | O => OutOfFuel
  | S fuel' => if stack <? XFIREDB_STACK_SIZE then stack_loop fuel' (u64 (stack * 2)) else Done stack
  end.

(** [attr_stack]: the stack size of the default thread attributes.  Returns the module
    and [bg_proc_stack]. *)
Definition bg_processes_init (fuel : nat) (attr_stack : Z) : outcome (bg * Z) :=
  let job_db := dict_alloc in
  let stack := if attr_stack =? 0 then 1 else attr_stack in
  stack ← stack_loop fuel stack;
  Done (Bg job_db ∅ [] [], stack).

(** ** Jobs *)

Section Jobs.
Context (load64 : loc → Z) (g : dict_globals).

(** [job], [addr]: the addresses the allocator gives for the structure and for the
    entry; [now]: the clock; [thread]: what [pthread_create] starts, if it does. *)
Definition bg_process_create (name : string) (handle arg : Z) (job addr : loc) (now : Z) (thread : option Z) (s : bg)
    : outcome (bg * option loc) :=
  '(d, _) ← dict_add load64 g (bg_db s) name job DICT_PTR addr;
  let s := set_jobs (<[job := BgJob name now false handle arg thread]> (bg_jobs s)) (set_db d s) in
  match thread with
  | None => Done (s, None)
  | Some _ => Done (s, Some job)
  end.

(** [data] and [tmp] are uninitialised locals. *)
Definition bg_process_signal (name : string) (data tmp : Z) (s : bg) : outcome (bg * Z) :=
  '(d, rv, data, _) ← dict_lookup (bg_db s) name data tmp;
  let s := set_db d s in
  if negb (rv =? 0) then Done (s, - XFIREDB_ERR)
  else if data =? NULL then Done (s, - XFIREDB_ERR)
  else
    _ ← deref (bg_jobs s !! data);
    Done (add_woken data s, - XFIREDB_OK).

Definition __bg_process_stop (job : loc) (s : bg) : outcome (bg * Z) :=
  if job =? NULL then Done (s, - XFIREDB_ERR)
  else
    j ← deref (bg_jobs s !! job);
    let j := BgJob (bj_name j) (bj_stamp j) true (bj_handle j) (bj_arg j) (bj_tp j) in
    let s := add_woken job (set_jobs (<[job := j]> (bg_jobs s)) s) in
    tp ← deref (bj_tp j);
    let s := add_joined tp s in
    Done (set_jobs (delete job (bg_jobs s)) s, - XFIREDB_OK).

Definition bg_process_stop (name : string) (data : Z) (s : bg) : outcome (bg * Z) :=
  '(d, rv, data, _) ← dict_delete (bg_db s) name data false;
  let s := set_db d s in
  if negb (rv =? 0) then Done (s, - XFIREDB_ERR) else __bg_process_stop data s.

(** ** Stopping the module *)

(** [e->key]. *)
Definition entry_key (d : dict) (a : loc) : outcome string :=
  e ← deref (list_find (λ e, e_addr e = a) (entries d));
  Done (e_key e.2).

(** The [while(e)] loop; [continue] goes on with the same entry. *)
Fixpoint exit_loop (fuel : nat) (data : Z) (it : dict_iterator) (e : option loc) (s : bg) : outcome bg :=
  match fuel with
  | O => OutOfFuel
  | S fuel' =>
      match e with
      | None => Done s
      | Some a =>
          key ← entry_key (bg_db s) a;
          '(d, rv, data, _) ← dict_delete (bg_db s) key data false;
          let s := set_db d s in
          if negb (rv =? 0) then exit_loop fuel' data it e s
          else if data =? NULL then exit_loop fuel' data it e s
          else
            '(s, _) ← __bg_process_stop data s;
            '(it, e) ← dict_iterator_next (bg_db s) it;
            exit_loop fuel' data it e s
      end
  end.

(** Returns the module before [dict_free]; [dict_iterator_free] of an iterator that is
    not safe only releases it. *)
Definition bg_processes_exit (fuel : nat) (data : Z) (s : bg) : outcome bg :=
  let '(d, it) := dict_get_iterator (bg_db s) in
  '(it, e) ← dict_iterator_next d it;
  exit_loop fuel data it e (set_db d s).
End Jobs.

(** ** The table as a finite map *)

Definition table (s : bg) : gmap string loc := fst <$> dict_abs (bg_db s).

(** Every name leads to a job with that name and a thread, and every job has a name. *)
Record bg_ok (s : bg) (m : gmap string loc) : Prop := {
  bg_dict : dict_ok (bg_db s);
  bg_table : table s = m;
  bg_named : ∀ name a, m !! name = Some a → a ≠ NULL ∧ ∃ j, bg_jobs s !! a = Some j ∧ bj_name j = name ∧ is_Some (bj_tp j);
  bg_all : ∀ a j, bg_jobs s !! a = Some j → m !! bj_name j = Some a }.

(** The code that reports whether a job was found. *)
Definition code (o : option loc) : Z := match o with Some _ => - XFIREDB_OK | None => - XFIREDB_ERR end.

Lemma table_lookup s name : table s !! name = fst <$> dict_abs (bg_db s) !! name.
Proof. apply lookup_fmap. Qed.

(** The threads of the jobs [l], in order. *)
Definition threads_of (s : bg) (l : list loc) : list Z := omap (λ a, j ← bg_jobs s !! a; bj_tp j) l.

Lemma stack_loop_run k stack fuel :
  0 < stack < 2 ^ 63 → XFIREDB_STACK_SIZE ≤ stack * 2 ^ Z.of_nat k → (k < fuel)%nat →
  ∃ i, stack_loop fuel stack = Done (stack * 2 ^ Z.of_nat i) ∧ (i ≤ k)%nat ∧ XFIREDB_STACK_SIZE ≤ stack * 2 ^ Z.of_nat i ∧
    (i = 0%nat ∨ stack * 2 ^ Z.of_nat i < 2 * XFIREDB_STACK_SIZE).
Proof.
  revert stack fuel. induction k as [|k IH]; intros stack [|fuel] Hs Hk Hf; try lia; cbn [stack_loop].
  - rewrite (proj2 (Z.ltb_ge _ _)) by lia. exists 0%nat. rewrite Z.mul_1_r in *. split; [done|]. split; [lia|]. split; [lia|by left].
  - destruct (Z.ltb_spec stack XFIREDB_STACK_SIZE) as [Hlt|Hge].
    + unfold XFIREDB_STACK_SIZE in Hlt. rewrite u64_small by lia.
      rewrite Nat2Z.inj_succ, Z.pow_succ_r in Hk by lia.
      destruct (IH (stack * 2) fuel) as (i & -> & Hi & Hge & Hcase); [lia|lia|lia|].
      exists (S i). rewrite Nat2Z.inj_succ, Z.pow_succ_r by lia.
      replace (stack * (2 * 2 ^ Z.of_nat i)) with (stack * 2 * 2 ^ Z.of_nat i) by lia.
      split; [done|]. split; [lia|]. split; [done|]. right. destruct Hcase as [->|?]; [|done].
      rewrite Z.mul_1_r. unfold XFIREDB_STACK_SIZE. lia.
    + exists 0%nat. rewrite Z.mul_1_r. split; [done|]. split; [lia|]. split; [done|by left].
Qed.

Section Laws.
Context (load64 : loc → Z) (g : dict_globals).

Lemma create_run name handle arg job addr now thread s m :
  bg_ok s m → Z.of_nat (size m) < 2 ^ 30 → addr ∉ e_addr <$> entries (bg_db s) → m !! name = None →
  ∃ d', bg_process_create load64 g name handle arg job addr now thread s =
      Done (Bg d' (<[job := BgJob name now false handle arg thread]> (bg_jobs s)) (bg_woken s) (bg_joined s), _ ← thread; Some job) ∧
    dict_ok d' ∧ fst <$> dict_abs d' = <[name := job]> m.
Proof.
  intros [B1 B2 B3 B4] Hsz Ha Hn. unfold bg_process_create.
  assert (dict_abs (bg_db s) !! name = None) as Hnone.
  { rewrite <-B2, table_lookup in Hn. by apply fmap_None in Hn. }
  destruct (dict_insert_run load64 g (bg_db s) name job DICT_PTR (dict_get_entry_length DICT_PTR) addr B1) as (d' & r & E & Hok & _ & Hcase);
    [by rewrite <-B2 in Hsz; unfold table in Hsz; rewrite map_size_fmap in Hsz|done|].
  rewrite Hnone in Hcase. destruct Hcase as [-> Hent]. unfold dict_add. rewrite E, bind_Done.
  exists d'. split; [by destruct thread|]. split; [done|].
  rewrite (dict_abs_view d'), (dict_view_insert entry_val (bg_db s) d' _ Hok Hent), fmap_insert, <-B2. done.
Qed.

Lemma create_ok name handle arg job addr now t s m :
  bg_ok s m → m !! name = None → Z.of_nat (size m) < 2 ^ 30 → addr ∉ e_addr <$> entries (bg_db s) →
  job ≠ NULL → bg_jobs s !! job = None →
  ∃ s', bg_process_create load64 g name handle arg job addr now (Some t) s = Done (s', Some job) ∧ bg_ok s' (<[name := job]> m).
Proof.
  intros Hok Hn Hsz Ha Hnz Hj.
  destruct (create_run name handle arg job addr now (Some t) s m Hok Hsz Ha Hn) as (d' & -> & Hok' & Ht).
  eexists. split; [done|]. destruct Hok as [B1 B2 B3 B4]. split; cbn; [done..| |].
  - intros name' a [[<- <-]|[Hne Hm]]%lookup_insert_Some.
    + split; [done|]. eexists. rewrite lookup_insert_eq. split; [done|]. split; [done|by eexists].
    + destruct (B3 _ _ Hm) as (? & j & Hj' & ? & ?). split; [done|]. exists j. rewrite lookup_insert_ne by congruence. done.
  - intros a j [[<- <-]|[Hne Hj']]%lookup_insert_Some; cbn; [apply lookup_insert_eq|].
    specialize (B4 _ _ Hj'). rewrite lookup_insert_ne by congruence. done.
Qed.

Lemma signal_run name data tmp s m :
  bg_ok s m →
  ∃ s', bg_process_signal name data tmp s = Done (s', code (m !! name)) ∧ bg_ok s' m ∧
    bg_woken s' = bg_woken s ++ option_list (m !! name) ∧ bg_joined s' = bg_joined s ∧ bg_jobs s' = bg_jobs s.
Proof.
  intros [B1 B2 B3 B4]. unfold bg_process_signal.
  destruct (dict_lookup_spec (bg_db s) name data tmp B1) as (d' & -> & Hok & Habs). rewrite bind_Done.
  assert (table (set_db d' s) = m) as Ht by (unfold table; cbn; by rewrite Habs).
  pose proof (table_lookup s name) as Hl. rewrite B2 in Hl.
  destruct (dict_abs (bg_db s) !! name) as [[a l]|]; cbn [fmap option_fmap option_map fst] in Hl; rewrite Hl; cbn.
  - destruct (B3 _ _ Hl) as (Hnz & j & Hj & _). rewrite (proj2 (Z.eqb_neq _ _) Hnz), Hj. cbn [deref]. rewrite bind_Done.
    eexists. split; [done|]. split_and!; [by split|done..].
  - eexists. split; [done|]. cbn. rewrite app_nil_r. split_and!; [by split|done..].
Qed.

(** One job is stopped and released. *)
Lemma stop_run s m d' name a :
  bg_ok s m → m !! name = Some a → dict_ok d' → fst <$> dict_abs d' = delete name m →
  ∃ s', __bg_process_stop a (set_db d' s) = Done (s', - XFIREDB_OK) ∧ bg_ok s' (delete name m) ∧ bg_db s' = d' ∧
    bg_joined s' = bg_joined s ++ threads_of s [a] ∧ bg_jobs s' = delete a (bg_jobs s).
Proof.
  intros [B1 B2 B3 B4] Ha Hok Ht. destruct (B3 _ _ Ha) as (Hnz & j & Hj & Hname & t & Htp). unfold __bg_process_stop.
  rewrite (proj2 (Z.eqb_neq _ _) Hnz). cbn. rewrite Hj. cbn. rewrite Htp. cbn. eexists. split; [done|].
  unfold threads_of. cbn. rewrite ?Hj. cbn. rewrite ?Htp, ?delete_insert_eq. split; [|done]. split; cbn; rewrite ?delete_insert_eq; [done..| |].
  - intros name' a' [Hne Ha']%lookup_delete_Some. destruct (B3 _ _ Ha') as (? & j' & Hj' & Hn' & ?). split; [done|].
    exists j'. split; [|done]. rewrite lookup_delete_ne; [done|]. intros <-. congruence.
  - intros a' j' [Hne Hj']%lookup_delete_Some. specialize (B4 _ _ Hj'). rewrite lookup_delete_ne; [done|].
    intros Heq. congruence.
Qed.

Lemma bg_stop_run name data s m :
  bg_ok s m →
  ∃ s', bg_process_stop name data s = Done (s', code (m !! name)) ∧ bg_ok s' (delete name m) ∧
    bg_joined s' = bg_joined s ++ threads_of s (option_list (m !! name)).
Proof.
  intros Hok. pose proof Hok as [B1 B2 B3 B4]. unfold bg_process_stop.
  destruct (dict_delete_run (bg_db s) name data false B1) as (d' & -> & Hok' & Habs). rewrite bind_Done.
  pose proof (table_lookup s name) as Hl. rewrite B2 in Hl.
  assert (fst <$> dict_abs d' = delete name m) as Ht by (by rewrite Habs, fmap_delete, <-B2).
  destruct (dict_abs (bg_db s) !! name) as [[a l]|]; cbn [fmap option_fmap option_map fst] in Hl; rewrite Hl; cbn [negb Z.eqb Z.opp XFIREDB_OK XFIREDB_ERR].
  - destruct (stop_run s m d' name a Hok Hl Hok' Ht) as (s' & -> & Hs' & _ & Hj & _). by exists s'.
  - eexists. split; [done|]. cbn. rewrite app_nil_r. split; [|done]. rewrite delete_id by done.
    rewrite delete_id in Ht by done. by split.
Qed.
End Laws.

(** ** Stopping everything *)

Lemma entry_key_at d e : dict_ok d → e ∈ entries d → entry_key d (e_addr e) = Done (e_key e).
Proof.
  intros Hok Hin. unfold entry_key. pose proof (dict_ok_addrs d Hok) as Hnd.
  assert (∃ i, list_find (λ x, e_addr x = e_addr e) (entries d) = Some (i, e)) as (i & ->); [|done].
  induction (entries d) as [|x l IH]; [by apply elem_of_nil in Hin|].
  rewrite fmap_cons in Hnd. apply list.NoDup_cons in Hnd as [Hx Hnd]. cbn [list_find].
  apply elem_of_cons in Hin as [->|Hin]; [rewrite decide_True by done; by exists 0%nat|].
  rewrite decide_False; [destruct (IH Hin Hnd) as (i & ->); by exists (S i)|].
  intros Heq. apply Hx. rewrite Heq. by apply list_elem_of_fmap_2.
Qed.

Lemma table_entry s m e : bg_ok s m → e ∈ entries (bg_db s) → m !! e_key e = Some (e_value e).
Proof.
  intros [B1 B2 _ _] He. rewrite <-B2, table_lookup, dict_abs_view. by rewrite (dict_view_lookup entry_val _ e B1 He).
Qed.

Lemma threads_of_delete s s' a l : bg_jobs s' = delete a (bg_jobs s) → a ∉ l → threads_of s' l = threads_of s l.
Proof.
  intros Hj. unfold threads_of. induction l as [|b l IH]; [done|]. intros [Hb Hl]%not_elem_of_cons. cbn.
  rewrite IH by done. by rewrite Hj, lookup_delete_ne.
Qed.

Lemma threads_of_cons s a l : threads_of s (a :: l) = threads_of s [a] ++ threads_of s l.
Proof. unfold threads_of. cbn. by destruct (_ ≫= _). Qed.

(** The jobs of different entries are different. *)
Lemma entry_jobs_differ s m e rest :
  bg_ok s m → entries (bg_db s) ≡ₚ e :: rest → e_value e ∉ e_value <$> rest.
Proof.
  intros Hok Hp (x & Hv & Hx)%list_elem_of_fmap. pose proof Hok as [B1 _ B3 _].
  pose proof (table_entry s m e Hok ltac:(rewrite Hp; by left)) as He.
  pose proof (table_entry s m x Hok ltac:(rewrite Hp; by right)) as Hx'.
  destruct (B3 _ _ He) as (_ & j & Hj & Hn & _). destruct (B3 _ _ Hx') as (_ & j' & Hj' & Hn' & _).
  pose proof (dict_ok_keys _ B1) as Hk. rewrite Hp, fmap_cons in Hk. apply list.NoDup_cons in Hk as [Hk _].
  apply Hk. rewrite <-Hn. assert (j = j') as -> by congruence. rewrite Hn'. by apply list_elem_of_fmap_2.
Qed.

Lemma no_jobs s : bg_ok s ∅ → bg_jobs s = ∅.
Proof.
  intros [_ _ _ B4]. apply map_empty. intros a. destruct (bg_jobs s !! a) as [j|] eqn:E; [|done].
  specialize (B4 _ _ E). by rewrite lookup_empty in B4.
Qed.

(** One round: the entry's job is stopped, and the iterator goes on. *)
Lemma exit_step fuel data it e rest s m :
  bg_ok s m → d_rehashing (bg_db s) = false → it_last (bg_db s) it e rest → entries (bg_db s) ≡ₚ e :: rest →
  ∃ s1 it', exit_loop (S fuel) data it (Some (e_addr e)) s = exit_loop fuel (e_value e) it' (e_addr <$> head rest) s1 ∧
    bg_ok s1 (delete (e_key e) m) ∧ d_rehashing (bg_db s1) = false ∧ entries (bg_db s1) ≡ₚ rest ∧
    (∀ e' r, rest = e' :: r → it_last (bg_db s1) it' e' r) ∧
    bg_joined s1 = bg_joined s ++ threads_of s [e_value e] ∧ bg_jobs s1 = delete (e_value e) (bg_jobs s).
Proof.
  intros Hok Hre Hit Hp. pose proof Hok as [B1 B2 B3 _]. assert (e ∈ entries (bg_db s)) as He by (rewrite Hp; by left).
  pose proof (table_entry s m e Hok He) as Hm. destruct (B3 _ _ Hm) as [Hnz _].
  destruct (delete_last (bg_db s) it e rest data B1 Hre Hit) as (d' & Hdel & Hok' & Hre' & Hp' & Hrest).
  assert (fst <$> dict_abs d' = delete (e_key e) m) as Ht
    by (rewrite dict_abs_view, (dict_view_delete entry_val (bg_db s) d' e B1 Hp'), fmap_delete, <-B2; done).
  destruct (stop_run s m d' _ _ Hok Hm Hok' Ht) as (s1 & Hstop & Hok1 & Hdb & Hjoin & Hjobs).
  destruct (dict_iterator_next_ok d' Hok' it rest Hrest) as (it' & Hnext & Hlast).
  exists s1, it'. cbn [exit_loop]. rewrite (entry_key_at _ _ B1 He), bind_Done, Hdel, bind_Done.
  change (negb (- XFIREDB_OK =? 0)) with false. cbn iota. rewrite (proj2 (Z.eqb_neq _ _) Hnz), Hstop, bind_Done, Hdb, Hnext, bind_Done.
  split_and!; try done. rewrite Hp in Hp'. by apply Permutation_cons_inv in Hp'.
Qed.

Lemma exit_loop_run fuel data it e rest s m :
  bg_ok s m → d_rehashing (bg_db s) = false → it_last (bg_db s) it e rest → entries (bg_db s) ≡ₚ e :: rest →
  (S (length rest) < fuel)%nat →
  ∃ s', exit_loop fuel data it (Some (e_addr e)) s = Done s' ∧ bg_ok s' ∅ ∧
    bg_joined s' = bg_joined s ++ threads_of s (e_value <$> e :: rest).
Proof.
  revert data it e s m fuel. induction rest as [|e' rest IH]; intros data it e s m [|fuel] Hok Hre Hit Hp Hf; try (simpl in Hf; lia);
    destruct (exit_step fuel data it e _ s m Hok Hre Hit Hp) as (s1 & it' & -> & Hok1 & Hre1 & Hp1 & Hlast & Hjoin & Hjobs).
  - destruct fuel as [|fuel]; [simpl in Hf; lia|]. exists s1. split; [done|]. split; [|done].
    assert (delete (e_key e) m = ∅) as <-; [|done]. rewrite <-(bg_table _ _ Hok1). unfold table, dict_abs.
    apply Permutation_nil_r in Hp1. by rewrite Hp1.
  - destruct (IH (e_value e) it' e' s1 _ fuel Hok1 Hre1 (Hlast _ _ eq_refl) Hp1) as (s' & E & Hok' & Hj); [simpl in Hf; lia|].
    exists s'. split; [done|]. split; [done|]. rewrite Hj, Hjoin, <-app_assoc. f_equal.
    change (e_value <$> e :: e' :: rest) with (e_value e :: (e_value <$> e' :: rest)).
    rewrite (threads_of_cons s (e_value e) (e_value <$> e' :: rest)). f_equal. apply (threads_of_delete _ _ _ _ Hjobs).
    eapply entry_jobs_differ; [exact Hok|exact Hp].
Qed.

(** ** What the module promises *)

Section Promises.
Context (load64 : loc → Z) (g : dict_globals).

(** C32: the table of background jobs is a map from names to jobs.  A new module is the
    empty map, with a stack size that is the system's doubled until it is large enough.
    Creating a job under a name that is not used adds it; signalling wakes the job of
    the name, and reports an error exactly when there is none; stopping takes the job
    out, joins its thread, once, and releases it, and reports an error exactly when
    there is none. *)
Theorem bg_jobs_refine s m :
  bg_ok s m →
  (∀ stack, 0 ≤ stack < 2 ^ 63 → ∃ s0 k, bg_processes_init 23 stack = Done (s0, Z.max 1 stack * 2 ^ k) ∧ bg_ok s0 ∅ ∧ 0 ≤ k ∧
     XFIREDB_STACK_SIZE ≤ Z.max 1 stack * 2 ^ k ∧ (k = 0 ∨ Z.max 1 stack * 2 ^ k < 2 * XFIREDB_STACK_SIZE)) ∧
  (∀ name handle arg job addr now t, m !! name = None → Z.of_nat (size m) < 2 ^ 30 → addr ∉ e_addr <$> entries (bg_db s) →
     job ≠ NULL → bg_jobs s !! job = None →
     ∃ s', bg_process_create load64 g name handle arg job addr now (Some t) s = Done (s', Some job) ∧ bg_ok s' (<[name := job]> m)) ∧
  (∀ name data tmp, ∃ s', bg_process_signal name data tmp s = Done (s', code (m !! name)) ∧
     bg_ok s' m ∧ bg_woken s' = bg_woken s ++ option_list (m !! name)) ∧
  (∀ name data, ∃ s', bg_process_stop name data s = Done (s', code (m !! name)) ∧
     bg_ok s' (delete name m) ∧ bg_joined s' = bg_joined s ++ threads_of s (option_list (m !! name))).
Proof.
  intros Hok. split_and!.
  - intros stack Hs. unfold bg_processes_init.
    assert ((if stack =? 0 then 1 else stack) = Z.max 1 stack) as ->.
    { destruct (Z.eqb_spec stack 0) as [->|]; [done|lia]. }
    destruct (stack_loop_run 22 (Z.max 1 stack) 23) as (i & -> & Hi & Hge & Hcase); [lia| |lia|].
    { change (2 ^ Z.of_nat 22) with 4194304. unfold XFIREDB_STACK_SIZE. lia. }
    rewrite bind_Done. eexists _, (Z.of_nat i). split; [done|]. split; [split; [apply dict_init_ok|done..]|].
    split_and!; [lia|done|]. destruct Hcase as [->|?]; [by left|by right].
  - intros name handle arg job addr now t Hn Hsz Ha Hnz Hj. by apply create_ok.
  - intros name data tmp. destruct (signal_run name data tmp s m Hok) as (s' & ? & ? & ? & _). by exists s'.
  - intros name data. destruct (bg_stop_run name data s m Hok) as (s' & ? & ? & ?). by exists s'.
Qed.

(** Stopping the module stops every job, once.  When no rehash of the table is
    under way, the loop of [bg_processes_exit], which deletes the entries under its own
    iterator, ends: it never takes its [continue] branches, nor follows an entry that
    is gone; every job's thread is joined exactly once, in the order of the table, and
    no job is left. *)
Lemma bg_processes_exit_stops_all data s m :
  bg_ok s m → d_rehashing (bg_db s) = false →
  ∃ s', bg_processes_exit (S (size m)) data s = Done s' ∧ bg_ok s' ∅ ∧ bg_jobs s' = ∅ ∧
    bg_joined s' = bg_joined s ++ threads_of s (e_value <$> entries (bg_db s)) ∧
    (e_value <$> entries (bg_db s) : list loc) ≡ₚ (map_to_list m).*2.
Proof.
  intros Hok Hre. pose proof Hok as [B1 B2 B3 B4]. unfold bg_processes_exit, dict_get_iterator.
  assert ((e_value <$> entries (bg_db s) : list loc) ≡ₚ (map_to_list m).*2) as Hperm.
  { rewrite <-B2. unfold table. rewrite dict_abs_view. unfold dict_view. rewrite <-list_to_map_fmap, map_to_list_to_map.
    - by rewrite <-!list_fmap_compose.
    - rewrite <-!list_fmap_compose. apply (dict_ok_keys _ B1). }
  assert (length (entries (bg_db s)) = size m) as Hlen.
  { rewrite <-length_map_to_list, <-(length_fmap snd), <-Hperm. by rewrite length_fmap. }
  destruct (dict_iterator_next_ok (bg_db s) B1 dict_create_iterator (entries (bg_db s))) as (it & Hnext & Hlast);
    [by apply it_rest_start|]. rewrite Hnext, bind_Done.
  change (set_db (bg_db s) s) with (Bg (bg_db s) (bg_jobs s) (bg_woken s) (bg_joined s)). destruct s as [d jobs woken joined].
  cbn [bg_db bg_jobs bg_woken bg_joined] in *. destruct (entries d) as [|e rest] eqn:Hent.
  - assert (m = ∅) as -> by (apply map_size_empty_iff; by rewrite <-Hlen). eexists. split; [done|]. split; [done|].
    split; [by apply (no_jobs _ Hok)|]. split; [|done]. cbn. by rewrite app_nil_r.
  - destruct (exit_loop_run (S (size m)) data it e rest _ m Hok Hre) as (s' & E & Hok' & Hj);
      [by apply Hlast|cbn; by rewrite Hent|simpl in Hlen; lia|].
    exists s'. split; [exact E|]. split; [done|]. split; [by apply no_jobs|]. by split.
Qed.

(** Two failures of [bg_process_create] are not handled.  Under a name that is
    taken it reports success, but the new job is in no table: signals go to the old
    one, and nothing can stop the new one.  When its thread cannot be created it
    returns NULL and leaves the job in the table, and stopping it joins a thread that
    does not exist. *)
Lemma bg_create_faults s m name handle arg job addr now :
  bg_ok s m → Z.of_nat (size m) < 2 ^ 30 → addr ∉ e_addr <$> entries (bg_db s) → bg_jobs s !! job = None → job ≠ NULL →
  (∀ t, is_Some (m !! name) → ∃ s', bg_process_create load64 g name handle arg job addr now (Some t) s = Done (s', Some job) ∧
     table s' = m ∧ is_Some (bg_jobs s' !! job) ∧ ∀ n, m !! n ≠ Some job) ∧
  (m !! name = None → ∃ s', bg_process_create load64 g name handle arg job addr now None s = Done (s', None) ∧
     table s' !! name = Some job ∧ ∀ data, bg_process_stop name data s' = Stuck).
Proof.
  intros Hok Hsz Ha Hj Hnz. pose proof Hok as [B1 B2 B3 B4]. split.
  - intros t [a Hm]. unfold bg_process_create, dict_add.
    pose proof (table_lookup s name) as Hl. rewrite B2, Hm in Hl.
    destruct (dict_insert_run load64 g (bg_db s) name job DICT_PTR (dict_get_entry_length DICT_PTR) addr B1) as (d' & r & -> & Hok' & _ & Hcase);
      [by rewrite <-B2 in Hsz; unfold table in Hsz; rewrite map_size_fmap in Hsz|done|].
    destruct (dict_abs (bg_db s) !! name) as [v|]; [|done]. destruct Hcase as [-> Heq]. rewrite bind_Done.
    eexists. split; [done|]. cbn. split; [unfold table; cbn; by rewrite (dict_abs_equiv d' (bg_db s))|].
    rewrite lookup_insert_eq. split; [by eexists|]. intros n Hn. destruct (B3 _ _ Hn) as (_ & j & ? & _). congruence.
  - intros Hn. destruct (create_run load64 g name handle arg job addr now None s m Hok Hsz Ha Hn) as (d' & -> & Hok' & Ht).
    eexists. split; [done|]. unfold table. cbn. rewrite Ht, lookup_insert_eq. split; [done|]. intros data.
    unfold bg_process_stop. cbn. destruct (dict_delete_run d' name data false Hok') as (d2 & -> & _).
    pose proof (lookup_fmap fst (dict_abs d') name) as Hl. rewrite Ht, lookup_insert_eq in Hl.
    destruct (dict_abs d' !! name) as [[v l]|]; [|done]. cbn in Hl. injection Hl as <-. cbn. unfold __bg_process_stop.
    rewrite (proj2 (Z.eqb_neq _ _) Hnz). cbn. by rewrite lookup_insert_eq.
Qed.
End Promises.

(** ** Runs *)

(** The engine's worker and one more job. *)
Definition no_jobs_yet : bg := Bg dict_alloc ∅ [] [].
Definition run_create (name : string) (job addr t : Z) (s : bg) : bg :=
  match bg_process_create (λ _, 0) dict_globals_init name 1 0 job addr 0 (Some t) s with Done (s, _) => s | _ => s end.
Definition two_jobs : bg := run_create "dump-worker" 102 902 12 (run_create "bio-worker" 101 901 11 no_jobs_yet).

Lemma two_jobs_ok : bg_ok two_jobs {["bio-worker" := 101; "dump-worker" := 102]}.
Proof.
  destruct (create_ok (λ _, 0) dict_globals_init "bio-worker" 1 0 101 901 0 11 no_jobs_yet ∅) as (s1 & E1 & H1);
    [split; [apply dict_init_ok|done..]|done|done|decide_by_compute|done|done|].
  assert (s1 = run_create "bio-worker" 101 901 11 no_jobs_yet) as -> by (unfold run_create; by rewrite E1).
  destruct (create_ok (λ _, 0) dict_globals_init "dump-worker" 1 0 102 902 0 12 _ _ H1) as (s2 & E2 & H2);
    [done|done|decide_by_compute|done|done|].
  assert (s2 = two_jobs) as <- by (unfold two_jobs; unfold run_create at 1; by rewrite E2).
  by rewrite insert_insert_ne in H2 by done.
Qed.

Lemma bg_jobs_refine_witness :
  ∃ s', bg_process_stop "bio-worker" 0 two_jobs = Done (s', 0) ∧ bg_ok s' (delete "bio-worker" {["bio-worker" := 101; "dump-worker" := 102]}) ∧
    bg_joined s' = [11].
Proof.
  destruct (bg_jobs_refine (λ _, 0) dict_globals_init two_jobs _ two_jobs_ok) as (_ & _ & _ & H).
  exact (H "bio-worker" 0).
Defined.

Lemma bg_processes_exit_stops_all_witness :
  ∃ s', bg_processes_exit 3 0 two_jobs = Done s' ∧ bg_ok s' ∅ ∧ bg_jobs s' = ∅ ∧
    bg_joined s' = [] ++ threads_of two_jobs (e_value <$> entries (bg_db two_jobs)) ∧
    (e_value <$> entries (bg_db two_jobs) : list loc) ≡ₚ
      (map_to_list ({["bio-worker" := 101; "dump-worker" := 102]} : gmap string loc)).*2.
Proof. apply (bg_processes_exit_stops_all 0 two_jobs _ two_jobs_ok). reflexivity. Defined.

Lemma bg_create_faults_witness :
  ∃ s', bg_process_create (λ _, 0) dict_globals_init "bio-worker" 1 0 103 903 0 (Some 13) two_jobs = Done (s', Some 103) ∧
    table s' = {["bio-worker" := 101; "dump-worker" := 102]} ∧ is_Some (bg_jobs s' !! 103) ∧
    ∀ n, ({["bio-worker" := 101; "dump-worker" := 102]} : gmap string loc) !! n ≠ Some 103.
Proof.
  destruct (bg_create_faults (λ _, 0) dict_globals_init two_jobs _ "bio-worker" 1 0 103 903 0 two_jobs_ok) as [H _];
    [reflexivity|decide_by_compute|reflexivity|discriminate|].
  apply H. by eexists.
Defined.
