(* ===== verification/Database.v ===== *)
(** * The database: [storage/database.c]

    A database is a name and a dictionary of container pointers.  [KVStore] is what
    it relies on: a finite map from keys to words under insertion, update, lookup and
    deletion; the dictionary is an instance. *)
From S2P Require Import Prelude Murmur Mem Dict DictRehash DictSpec DictSections DictOps.
Local Open Scope Z_scope.

(** ** What a database asks of its store *)

Class KVStore (D : Type) := {
  kv_alloc : D;
  kv_add : D → string → loc → loc → outcome (D * Z);       (* key, value, entry address *)
  kv_update : D → string → loc → loc → outcome (D * Z);
  kv_lookup : D → string → Z → Z → outcome (D * Z * Z * Z);
  kv_delete : D → string → Z → outcome (D * Z * Z * option loc);
  kv_size : D → Z;
  kv_clear : D → D * Z * list loc;
  kv_rep : D → gmap string Z → Prop;
  kv_fresh : D → loc → Prop }.

Class KVStoreLaws (D : Type) `{KVStore D} : Prop := {
  kv_alloc_rep : kv_rep kv_alloc ∅;
  kv_add_ok d m key v addr :
    kv_rep d m → Z.of_nat (size m) < 2 ^ 30 → kv_fresh d addr →
    ∃ d', kv_add d key v addr =
        Done (d', match m !! key with Some _ => - XFIREDB_ERR | None => - XFIREDB_OK end) ∧
      kv_rep d' (match m !! key with Some _ => m | None => <[key := v]> m end);
  kv_update_ok d m key v addr :
    kv_rep d m → Z.of_nat (size m) < 2 ^ 30 → kv_fresh d addr →
    ∃ d', kv_update d key v addr = Done (d', - XFIREDB_OK) ∧ kv_rep d' (<[key := v]> m);
  kv_lookup_ok d m key data sz :
    kv_rep d m →
    ∃ d' sz', kv_lookup d key data sz =
        Done (d', match m !! key with Some _ => - XFIREDB_OK | None => - XFIREDB_ERR end,
              default data (m !! key), sz') ∧ kv_rep d' m;
  kv_delete_ok d m key data :
    kv_rep d m →
    ∃ d', kv_delete d key data =
        Done (d', match m !! key with Some _ => - XFIREDB_OK | None => - XFIREDB_ERR end,
              default data (m !! key), None) ∧ kv_rep d' (delete key m);
  kv_size_ok d m : kv_rep d m → Z.of_nat (size m) < 2 ^ 63 → kv_size d = Z.of_nat (size m);
  kv_clear_ok d m : kv_rep d m →
    ∃ d' freed, kv_clear d = (d', - XFIREDB_OK, freed) ∧ kv_rep d' ∅ ∧ length freed = size m }.

(** ** The dictionary is such a store *)

Section DictStore.
Context (load64 : loc → Z) (g : dict_globals).

#[local] Instance dict_store : KVStore dict := {|
  kv_alloc := dict_alloc;
  kv_add := λ d key v addr, dict_add load64 g d key v DICT_PTR addr;
  kv_update := λ d key v addr, dict_update load64 g d key v DICT_PTR addr;
  kv_lookup := dict_lookup;
  kv_delete := λ d key data, dict_delete d key data false;
  kv_size := dict_get_size;
  kv_clear := dict_clear;
  kv_rep := λ d m, dict_ok d ∧ m = fst <$> dict_abs d;
  kv_fresh := λ d addr, addr ∉ e_addr <$> entries d |}.

Lemma abs_fst d key : (fst <$> dict_abs d) !! key = fst <$> dict_abs d !! key.
Proof. apply lookup_fmap. Qed.

#[local] Instance dict_store_laws : KVStoreLaws dict.
Proof.
  split.
  - split; [exact dict_init_ok|reflexivity].
  - intros d m key v addr [Hok ->] Hsz Hf. rewrite map_size_fmap in Hsz.
    destruct (dict_insert_run load64 g d key v DICT_PTR (dict_get_entry_length DICT_PTR) addr)
      as (d' & r & Hadd & Hok' & _ & Hcase); [done..|].
    exists d'. rewrite abs_fst. destruct (dict_abs d !! key) as [[v' l]|] eqn:Hk; simpl in *;
      destruct Hcase as [-> Hent]; (split; [done|]); (split; [done|]).
    + by rewrite (dict_abs_equiv d' d).
    + by rewrite (dict_abs_view d'), (dict_view_insert entry_val d d' _ Hok' Hent), fmap_insert.
  - intros d m key v addr [Hok ->] Hsz Hf. rewrite map_size_fmap in Hsz.
    destruct (dict_update_run load64 g d key v DICT_PTR (dict_get_entry_length DICT_PTR) addr)
      as (d' & Hup & Hok' & Habs); [done..|].
    exists d'. split; [done|]. split; [done|]. by rewrite Habs, fmap_insert.
  - intros d m key data sz [Hok ->].
    destruct (dict_lookup_spec d key data sz Hok) as (d' & Hl & Hok' & Habs).
    rewrite abs_fst. simpl. rewrite Hl.
    destruct (dict_abs d !! key) as [[v l]|]; simpl; (eexists d', _; split; [done|]); by split; rewrite ?Habs.
  - intros d m key data [Hok ->].
    destruct (dict_delete_run d key data false Hok) as (d' & Hd & Hok' & Habs).
    rewrite abs_fst. simpl. rewrite Hd. exists d'.
    destruct (dict_abs d !! key) as [[v l]|]; simpl; (split; [done|]); by split; rewrite ?Habs, ?fmap_delete.
  - intros d m [Hok ->]. rewrite map_size_fmap. by apply dict_get_size_run.
  - intros d m [Hok ->]. rewrite map_size_fmap.
    destruct (dict_clear_run d Hok) as (d' & freed & Hc & -> & _ & Hok' & Habs & _).
    exists d', (e_addr <$> entries d). split; [done|]. split; [by split; rewrite ?Habs|].
    by rewrite length_fmap, dict_abs_view, dict_view_size.
Qed.
End DictStore.

(** ** Databases *)

Record database (D : Type) := Database { db_name : region; db_container : D }.
Arguments Database {D} _ _.
Arguments db_name {D} _.
Arguments db_container {D} _.

Section Operations.
Context `{KVStore D} (malloc : D → loc).

Definition db_alloc (name : string) : outcome (database D) :=
  let l := strlen name + 1 in
  r ← memcpy (xfiredb_zalloc l) (cstr_region name) l;
  Done (Database r kv_alloc).

Definition db_update (db : database D) (key : string) (c : loc) : outcome (database D * Z) :=
  '(d, rv) ← kv_update (db_container db) key c (malloc (db_container db));
  Done (Database (db_name db) d, rv).

Definition db_store (db : database D) (key : string) (c : loc) : outcome (database D * Z) :=
  '(d, rv) ← kv_add (db_container db) key c (malloc (db_container db));
  Done (Database (db_name db) d, rv).

(** [val] is the uninitialised local; it is copied to [*data] in any case. *)
Definition db_delete (db : database D) (key : string) (val : Z) : outcome (database D * Z * Z) :=
  '(d, rv, data, _) ← kv_delete (db_container db) key val;
  Done (Database (db_name db) d, rv, data).

Definition db_lookup (db : database D) (key : string) (val tmp data : Z) : outcome (database D * Z * Z) :=
  '(d, rv, v, _) ← kv_lookup (db_container db) key val tmp;
  if negb (rv =? - XFIREDB_OK) then Done (Database (db_name db) d, rv, data)
  else Done (Database (db_name db) d, rv, v).

Definition db_get_size (db : database D) : Z := kv_size (db_container db).

(** [db_free]: the entries released by [dict_clear]. *)
Definition db_free (db : database D) : list loc :=
  let '(_, _, freed) := kv_clear (db_container db) in freed.

(** A program over a database: what callers do with it. *)
Inductive db_op :=
  | DbStore (key : string) (c : loc)
  | DbUpdate (key : string) (c : loc)
  | DbLookup (key : string)
  | DbDelete (key : string)
  | DbSize.

(** One operation: the return code and the pointer that [*data] ends up with. *)
Definition run_op (op : db_op) (db : database D) : outcome (database D * (Z * Z)) :=
  match op with
  | DbStore key c => '(db, rv) ← db_store db key c; Done (db, (rv, 0))
  | DbUpdate key c => '(db, rv) ← db_update db key c; Done (db, (rv, 0))
  | DbLookup key => '(db, rv, data) ← db_lookup db key 0 0 0; Done (db, (rv, data))
  | DbDelete key => '(db, rv, data) ← db_delete db key 0; Done (db, (rv, data))
  | DbSize => Done (db, (- XFIREDB_OK, db_get_size db))
  end.

Fixpoint run_ops (ops : list db_op) (db : database D) : outcome (database D * list (Z * Z)) :=
  match ops with
  | [] => Done (db, [])
  | op :: ops =>
      '(db, r) ← run_op op db;
      '(db, rs) ← run_ops ops db;
      Done (db, r :: rs)
  end.

(** The same program on a finite map from keys to pointers. *)
Definition code_of (o : option Z) : Z := match o with Some _ => - XFIREDB_OK | None => - XFIREDB_ERR end.

Definition spec_op (op : db_op) (m : gmap string Z) : gmap string Z * (Z * Z) :=
  match op with
  | DbStore key c =>
      match m !! key with
      | Some _ => (m, (- XFIREDB_ERR, 0))
      | None => (<[key := c]> m, (- XFIREDB_OK, 0))
      end
  | DbUpdate key c => (<[key := c]> m, (- XFIREDB_OK, 0))
  | DbLookup key => (m, (code_of (m !! key), default 0 (m !! key)))
  | DbDelete key => (delete key m, (code_of (m !! key), default 0 (m !! key)))
  | DbSize => (m, (- XFIREDB_OK, Z.of_nat (size m)))
  end.

Fixpoint spec_ops (ops : list db_op) (m : gmap string Z) : gmap string Z * list (Z * Z) :=
  match ops with
  | [] => (m, [])
  | op :: ops => let '(m, r) := spec_op op m in let '(m, rs) := spec_ops ops m in (m, r :: rs)
  end.
End Operations.

(** ** A database is a finite map, over any store *)

Section Refinement.
Context `{HK : KVStore D} {HL : KVStoreLaws D}.
(** The allocator returns an address that no live entry has. *)
Context (malloc : D → loc) (Hmalloc : ∀ d, kv_fresh d (malloc d)).

Lemma run_op_ok op (db : database D) m :
  kv_rep (db_container db) m → Z.of_nat (size m) < 2 ^ 30 →
  ∃ db', run_op malloc op db = Done (db', (spec_op op m).2) ∧
    kv_rep (db_container db') (spec_op op m).1 ∧ (size (spec_op op m).1 ≤ S (size m))%nat ∧
    db_name db' = db_name db.
Proof.
  intros Hrep Hsz. destruct op as [key c|key c|key|key|]; cbn [run_op spec_op].
  - unfold db_store. destruct (kv_add_ok _ m key c (malloc (db_container db)) Hrep Hsz (Hmalloc _))
      as (d & -> & Hrep'). simpl. eexists. split; [by destruct (m !! key)|].
    destruct (m !! key); simpl; split_and!; try done; [lia|].
    apply size_insert_le.
  - unfold db_update. destruct (kv_update_ok _ m key c (malloc (db_container db)) Hrep Hsz (Hmalloc _))
      as (d & -> & Hrep'). simpl. eexists. split_and!; try done. simpl.
    apply size_insert_le.
  - unfold db_lookup. destruct (kv_lookup_ok _ m key 0 0 Hrep) as (d & sz & -> & Hrep').
    rewrite bind_Done. eexists. split; [by destruct (m !! key)|]. by destruct (m !! key); split_and!; try done; simpl; lia.
  - unfold db_delete. destruct (kv_delete_ok _ m key 0 Hrep) as (d & -> & Hrep').
    rewrite bind_Done. eexists. split; [by destruct (m !! key)|]. split_and!; try done. simpl.
    pose proof (size_delete_le m key). lia.
  - exists db. unfold db_get_size. rewrite (kv_size_ok _ m Hrep); [split_and!; try done; simpl; lia|].
    change (2 ^ 30) with 1073741824 in Hsz. change (2 ^ 63) with 9223372036854775808. lia.
Qed.

Lemma run_ops_ok ops (db : database D) m :
  kv_rep (db_container db) m → Z.of_nat (size m + length ops) < 2 ^ 30 →
  ∃ db', run_ops malloc ops db = Done (db', (spec_ops ops m).2) ∧
    kv_rep (db_container db') (spec_ops ops m).1 ∧ db_name db' = db_name db.
Proof.
  revert db m. induction ops as [|op ops IH]; intros db m Hrep Hsz; [by exists db|].
  cbn [run_ops spec_ops]. simpl in Hsz.
  destruct (run_op_ok op db m Hrep ltac:(lia)) as (db1 & -> & Hrep1 & Hl & Hn1).
  destruct (spec_op op m) as [m1 r]. cbn [fst snd] in *. rewrite bind_Done.
  destruct (IH db1 m1 Hrep1 ltac:(lia)) as (db2 & -> & Hrep2 & Hn2).
  destruct (spec_ops ops m1) as [m2 rs]. rewrite bind_Done. exists db2. split_and!; [done..|congruence].
Qed.
End Refinement.

Lemma db_alloc_ok `{KVStore D} name :
  db_alloc (D := D) name = Done (Database (cstr_region name) kv_alloc).
Proof.
  unfold db_alloc. assert (strlen name + 1 = Z.of_nat (length (cstr_region name))) as Hl.
  { unfold strlen, cstr_region. rewrite length_app, length_bytes. simpl. lia. }
  rewrite Hl, memcpy_all; [done|]. unfold xfiredb_zalloc. by rewrite length_replicate, Nat2Z.id.
Qed.

(** C16: a database behaves as a finite map from keys to pointers.  From
    [db_alloc] on, every sequence of fewer than 2^30 [db_store], [db_update],
    [db_lookup], [db_delete] and [db_get_size] calls runs without a fault and returns
    the codes and pointers that the same calls return on a finite map, for any store
    that keeps the promises of [KVStore] and any allocator that returns unused
    addresses. *)
Theorem database_refines_map `{HK : KVStore D} {HL : KVStoreLaws D} (malloc : D → loc) name ops :
  (∀ d, kv_fresh d (malloc d)) → Z.of_nat (length ops) < 2 ^ 30 →
  ∃ db db', db_alloc name = Done db ∧ run_ops malloc ops db = Done (db', (spec_ops ops ∅).2) ∧
    kv_rep (db_container db') (spec_ops ops ∅).1.
Proof.
  intros Hm Hl. exists (Database (cstr_region name) kv_alloc).
  destruct (run_ops_ok malloc Hm ops (Database (cstr_region name) kv_alloc) ∅) as (db' & Hr & Hrep & _).
  - exact kv_alloc_rep.
  - by rewrite map_size_empty.
  - exists db'. split; [apply db_alloc_ok|done].
Qed.

(** An allocator for the dictionary: above every live entry. *)
Definition next_addr (d : dict) : loc := foldr Z.max 0 (e_addr <$> entries d) + 1.

Lemma next_addr_fresh d : next_addr d ∉ e_addr <$> entries d.
Proof.
  assert (∀ l a, a ∈ l → a < foldr Z.max 0 l + 1) as Hmax.
  { induction l as [|x l IH]; intros a Ha; simpl; [by apply not_elem_of_nil in Ha|].
    apply elem_of_cons in Ha as [->|Ha]; [lia|]. specialize (IH a Ha). lia. }
  intros Hin. specialize (Hmax _ _ Hin). unfold next_addr in Hmax. lia.
Qed.

Definition db_sample_ops : list db_op :=
  [DbStore "k1" 101; DbStore "k2" 102; DbStore "k1" 103; DbLookup "k1"; DbUpdate "k2" 104;
   DbDelete "k1"; DbLookup "k1"; DbLookup "k2"; DbSize].

Lemma database_refines_map_witness :
  let HK := dict_store (λ _, 0) dict_globals_init in
  ∃ db db', db_alloc "db0" = Done db ∧
    run_ops next_addr db_sample_ops db = Done (db', (spec_ops db_sample_ops ∅).2) ∧
    kv_rep (db_container db') (spec_ops db_sample_ops ∅).1.
Proof.
  intros HK.
  apply (database_refines_map (HK := HK) (HL := dict_store_laws (λ _, 0) dict_globals_init)
    next_addr "db0" db_sample_ops).
  - exact next_addr_fresh.
  - reflexivity.
Defined.
