(* ===== verification/DictWorked.v ===== *)
(** * The dictionary beside its rehash worker

    The worker thread of a dictionary moves entries between any two locked sections of
    a caller: [dict_rehash_ms] locks for each of its calls of [dict_rehash].  Here an
    operation is the sequence of its sections, as in [DictSections], and before each of
    them the worker makes as many calls as a schedule says.  Such a dictionary keeps the
    laws of [KVStore], for every schedule: the database and the engine cannot tell. *)
From S2P Require Import Prelude Murmur Dict DictRehash DictSpec DictSections DictOps Database.
Local Open Scope Z_scope.

(** The number of calls the worker makes before each of the next sections. *)
Record worked := Worked { wd : dict; passes : list nat }.

Fixpoint run_passes (n : nat) (d : dict) : outcome dict :=
  match n with
  | O => Done d
  | S n => '(d, _) ← dict_rehash d 100; run_passes n d
  end.
Definition worker (w : worked) : outcome worked :=
  match passes w with
  | [] => Done w
  | n :: ns => d ← run_passes n (wd w); Done (Worked d ns)
  end.

(** One section of the caller, with what the worker does before it. *)
Definition locked {A} (section : dict → outcome (dict * A)) (w : worked) : outcome (worked * A) :=
  w ← worker w;
  '(d, r) ← section (wd w);
  Done (Worked d (passes w), r).
Definition prologue (w : worked) : outcome (worked * unit) :=
  locked (λ d, d ← rehash_prologue d; Done (d, tt)) w.

Section Worked.
Context (load64 : loc → Z) (g : dict_globals) (schedule : list nat).

(** [dict_add]: the value is written through the pointer after the lock is released. *)
Definition worked_add (w : worked) (key : string) (data : loc) (t : dict_type_t) (addr : loc) : outcome (worked * Z) :=
  '(w, _) ← prologue w;
  '(w, e) ← locked (λ d, dict_add_locked g d key addr) w;
  match e with
  | None => Done (w, - XFIREDB_ERR)
  | Some e =>
      '(w, _) ← locked (λ d, d ← write_section load64 d e data t (dict_get_entry_length t); Done (d, tt)) w;
      Done (w, - XFIREDB_OK)
  end.

Definition worked_find (w : worked) (key : string) : outcome (worked * option dict_entry) :=
  '(w, _) ← prologue w;
  locked (λ d, dict_lookup_locked d key) w.

(** [dict_lookup]: the value is read through the pointer after the lock is released. *)
Definition worked_lookup (w : worked) (key : string) (data size : Z) : outcome (worked * Z * Z * Z) :=
  '(w, e) ← worked_find w key;
  match e with
  | None => Done (w, - XFIREDB_ERR, data, size)
  | Some e =>
      '(w, e) ← locked (λ d, e ← deref (entry_at (e_addr e) (entries d)); Done (d, e)) w;
      Done (w, - XFIREDB_OK, e_value e, e_length e)
  end.

Definition worked_update (w : worked) (key : string) (data : loc) (t : dict_type_t) (addr : loc) : outcome (worked * Z) :=
  '(w, e) ← worked_find w key;
  match e with
  | None => worked_add w key data t addr
  | Some e =>
      '(w, _) ← locked (λ d, d ← write_section load64 d (e_addr e) data t (dict_get_entry_length t); Done (d, tt)) w;
      Done (w, - XFIREDB_OK)
  end.

(** [dict_delete]: the entry is unlinked, so its value is the caller's to read. *)
Definition worked_delete (w : worked) (key : string) (data : Z) (free : bool) : outcome (worked * Z * Z * option loc) :=
  '(w, _) ← prologue w;
  '(w, e) ← locked (λ d, dict_delete_locked d key) w;
  match e with
  | None => Done (w, - XFIREDB_ERR, data, None)
  | Some e => if free then Done (w, - XFIREDB_OK, data, Some (e_value e)) else Done (w, - XFIREDB_OK, e_value e, None)
  end.

Definition worked_clear (w : worked) : worked * Z * list loc :=
  let '(d, rv, freed) := dict_clear (wd w) in (Worked d (passes w), rv, freed).

(** ** The worker changes nothing that can be seen *)

Lemma run_passes_ok n d : dict_ok d → ∃ d', run_passes n d = Done d' ∧ dict_ok d' ∧ d' ≡ d.
Proof.
  revert d. induction n as [|n IH]; intros d Hok; [by exists d|]. cbn [run_passes].
  destruct (dict_rehash_ok d 100 Hok ltac:(lia)) as (d1 & r & -> & [Hok1 Heq1 _ _ _] & _). rewrite bind_Done.
  destruct (IH d1 Hok1) as (d' & ? & ? & ?). exists d'. split_and!; [done..|by etrans].
Qed.

Lemma worker_ok w : dict_ok (wd w) → ∃ w', worker w = Done w' ∧ dict_ok (wd w') ∧ wd w' ≡ wd w.
Proof.
  intros Hok. unfold worker. destruct (passes w) as [|n ns]; [by exists w|].
  destruct (run_passes_ok n (wd w) Hok) as (d' & -> & ? & ?). by exists (Worked d' ns).
Qed.

(** A section is run on a dictionary with the same entries. *)
Lemma locked_ok {A} (section : dict → outcome (dict * A)) w (Q : dict → A → Prop) :
  dict_ok (wd w) →
  (∀ d, dict_ok d → d ≡ wd w → ∃ d' r, section d = Done (d', r) ∧ Q d' r) →
  ∃ w' r, locked section w = Done (w', r) ∧ Q (wd w') r.
Proof.
  intros Hok Hs. unfold locked. destruct (worker_ok w Hok) as (w1 & -> & Hok1 & Heq1).
  destruct (Hs (wd w1) Hok1 Heq1) as (d' & r & E & HQ). rewrite bind_Done, E, bind_Done. by exists (Worked d' (passes w1)), r.
Qed.

Lemma prologue_ok w : dict_ok (wd w) → ∃ w', prologue w = Done (w', tt) ∧ dict_ok (wd w') ∧ wd w' ≡ wd w.
Proof.
  intros Hok. destruct (locked_ok (λ d, d ← rehash_prologue d; Done (d, tt)) w (λ d _, dict_ok d ∧ d ≡ wd w) Hok) as (w' & [] & ? & ?);
    [|by exists w'].
  intros d Hd Heq. destruct (rehash_prologue_ok d Hd) as (d' & -> & ? & ? & _). rewrite bind_Done. exists d', tt.
  split_and!; [done..|by etrans].
Qed.

Lemma write_section_ok d addr e rest data t sz :
  dict_ok d → entries d ≡ₚ e :: rest → e_addr e = addr →
  ∃ d', write_section load64 d addr data t sz = Done d' ∧ dict_ok d' ∧
    entries d' ≡ₚ set_length sz (dict_set_val load64 e data t) :: rest.
Proof.
  intros Hok Hp Ha. unfold write_section.
  assert (entry_at addr (entries d) = Some e) as -> by (apply entry_at_Some; [apply (dict_ok_addrs d Hok)|split; [rewrite Hp; by left|done]]).
  destruct (entry_write_ok addr _ d e rest Hok (set_val_keeps load64 data t sz) Hp Ha). by eexists.
Qed.

Definition worked_rep (w : worked) (m : gmap string Z) : Prop := dict_ok (wd w) ∧ m = fst <$> dict_abs (wd w).

Lemma rep_lookup d key : (fst <$> dict_abs d) !! key = e_value <$> dict_live d !! key.
Proof. rewrite lookup_fmap, dict_abs_live. by destruct (dict_live d !! key). Qed.

Lemma live_equiv d1 d2 : dict_ok d1 → d1 ≡ d2 → dict_live d1 = dict_live d2.
Proof. rewrite !dict_live_view. apply dict_view_equiv. Qed.

(** Looking a key up: the entry, if there is one. *)
Lemma worked_find_ok w key :
  dict_ok (wd w) →
  ∃ w' r, worked_find w key = Done (w', r) ∧ dict_ok (wd w') ∧ wd w' ≡ wd w ∧ dict_live (wd w) !! key = r ∧
    match r with Some e => e ∈ entries (wd w') ∧ e_key e = key | None => ¬ key_in key (wd w') end.
Proof.
  intros Hok. unfold worked_find. destruct (prologue_ok w Hok) as (w1 & -> & Hok1 & Heq1). rewrite bind_Done.
  destruct (locked_ok (λ d, dict_lookup_locked d key) w1 (λ d r, dict_ok d ∧ d ≡ wd w1 ∧
    match r with Some e => e ∈ entries d ∧ e_key e = key | None => ¬ key_in key d end) Hok1) as (w2 & r & -> & Hok2 & Heq2 & Hr).
  { intros d Hd Heq. destruct (dict_lookup_locked_ok d key Hd) as (r & -> & Hr). by exists d, r. }
  assert (wd w2 ≡ wd w) as Heq by by etrans.
  exists w2, r. split_and!; try done. rewrite <-(live_equiv (wd w2) (wd w)) by done. destruct r as [e|].
  - destruct Hr as [He <-]. by apply live_lookup.
  - rewrite dict_live_view. by apply (dict_view_None id).
Qed.

(** An entry that was found is still there, wherever the worker has moved it. *)
Lemma worked_write_ok w e data t :
  dict_ok (wd w) → e ∈ entries (wd w) →
  ∃ w', locked (λ d, d ← write_section load64 d (e_addr e) data t (dict_get_entry_length t); Done (d, tt)) w = Done (w', tt) ∧
    dict_ok (wd w') ∧ dict_abs (wd w') = <[e_key e := (stored load64 data t, dict_get_entry_length t)]> (dict_abs (wd w)).
Proof.
  intros Hok He. apply elem_of_Permutation in He as (rest & Hp).
  destruct (locked_ok (λ d, d ← write_section load64 d (e_addr e) data t (dict_get_entry_length t); Done (d, tt)) w
    (λ d _, dict_ok d ∧ entries d ≡ₚ set_length (dict_get_entry_length t) (dict_set_val load64 e data t) :: rest) Hok) as (w' & [] & E & Hok' & Hent).
  { intros d Hd Heq. destruct (write_section_ok d (e_addr e) e rest data t (dict_get_entry_length t) Hd) as (d' & -> & ? & ?);
      [by rewrite (dict_equiv_entries _ _ Heq)|done|]. rewrite bind_Done. by exists d', tt. }
  exists w'. split; [done|]. split; [done|]. rewrite !dict_abs_view.
  rewrite (dict_view_update entry_val (wd w) (wd w') e _ rest Hok Hok' Hp Hent) by done. by destruct t.
Qed.

Lemma worked_add_ok w key data t addr :
  dict_ok (wd w) → Z.of_nat (size (dict_abs (wd w))) < 2 ^ 30 → addr ∉ e_addr <$> entries (wd w) →
  ∃ w', worked_add w key data t addr =
      Done (w', match dict_abs (wd w) !! key with Some _ => - XFIREDB_ERR | None => - XFIREDB_OK end) ∧ dict_ok (wd w') ∧
    dict_abs (wd w') = match dict_abs (wd w) !! key with
                       | Some _ => dict_abs (wd w)
                       | None => <[key := (stored load64 data t, dict_get_entry_length t)]> (dict_abs (wd w))
                       end.
Proof.
  intros Hok Hsz Hf. unfold worked_add. destruct (prologue_ok w Hok) as (w1 & -> & Hok1 & Heq1). rewrite bind_Done.
  rewrite <-(dict_abs_equiv _ _ Hok1 Heq1) in *. rewrite <-(dict_equiv_entries _ _ Heq1) in Hf.
  destruct (locked_ok (λ d, dict_add_locked g d key addr) w1 (λ d r, dict_ok d ∧
    ((key_in key (wd w1) ∧ r = None ∧ d ≡ wd w1) ∨
     (¬ key_in key (wd w1) ∧ r = Some addr ∧ entries d ≡ₚ DictEntry addr key 0 0 DICT_PTR :: entries (wd w1)))) Hok1)
    as (w2 & r & -> & Hok2 & Hcase).
  { intros d Hd Heq. pose proof (dict_equiv_entries _ _ Heq) as Hp.
    destruct (dict_add_locked_ok g d key addr Hd) as (d' & r & -> & Hd' & _ & Hc);
      [apply primary_below; [done|by rewrite (dict_abs_equiv d (wd w1))]|by rewrite Hp|].
    exists d', r. split; [done|]. split; [done|]. unfold key_in in *. setoid_rewrite Hp in Hc.
    destruct Hc as [(? & ? & ?)|(? & ? & Hc)]; [left|right]; split_and!; try done. by etrans. }
  rewrite bind_Done. destruct Hcase as [((e & He & <-) & -> & Heq2)|(Hn & -> & Hent)].
  - assert (dict_abs (wd w1) !! e_key e = Some (entry_val e)) as -> by (rewrite dict_abs_view; by apply dict_view_lookup).
    exists w2. split_and!; [done..|]. by apply dict_abs_equiv.
  - apply (dict_view_None entry_val) in Hn. rewrite <-dict_abs_view in Hn. rewrite Hn.
    destruct (worked_write_ok w2 (DictEntry addr key 0 0 DICT_PTR) data t Hok2) as (w3 & E & Hok3 & Habs); [rewrite Hent; by left|].
    cbn [e_addr e_key] in E, Habs. rewrite E, bind_Done. exists w3. split_and!; [done..|]. rewrite Habs.
    rewrite !dict_abs_view, (dict_view_insert entry_val (wd w1) (wd w2) _ Hok2 Hent). by rewrite insert_insert_eq.
Qed.

Lemma worked_lookup_ok w key data sz :
  dict_ok (wd w) →
  ∃ w', worked_lookup w key data sz =
      Done (match dict_abs (wd w) !! key with
            | Some (v, l) => (w', - XFIREDB_OK, v, l)
            | None => (w', - XFIREDB_ERR, data, sz)
            end) ∧ dict_ok (wd w') ∧ wd w' ≡ wd w.
Proof.
  intros Hok. unfold worked_lookup. destruct (worked_find_ok w key Hok) as (w1 & r & -> & Hok1 & Heq1 & Hr & Hin).
  rewrite bind_Done, dict_abs_live, Hr. destruct r as [e|]; [|by exists w1]. destruct Hin as [He _].
  destruct (locked_ok (λ d, e ← deref (entry_at (e_addr e) (entries d)); Done (d, e)) w1 (λ d x, dict_ok d ∧ d ≡ wd w1 ∧ x = e) Hok1)
    as (w2 & x & -> & Hok2 & Heq2 & ->).
  { intros d Hd Heq. assert (entry_at (e_addr e) (entries d) = Some e) as ->; [|by exists d, e].
    apply entry_at_Some; [apply (dict_ok_addrs d Hd)|]. by rewrite (dict_equiv_entries _ _ Heq). }
  rewrite bind_Done. exists w2. split_and!; [done..|by etrans].
Qed.

Lemma worked_update_ok w key data t addr :
  dict_ok (wd w) → Z.of_nat (size (dict_abs (wd w))) < 2 ^ 30 → addr ∉ e_addr <$> entries (wd w) →
  ∃ w', worked_update w key data t addr = Done (w', - XFIREDB_OK) ∧ dict_ok (wd w') ∧
    dict_abs (wd w') = <[key := (stored load64 data t, dict_get_entry_length t)]> (dict_abs (wd w)).
Proof.
  intros Hok Hsz Hf. unfold worked_update. destruct (worked_find_ok w key Hok) as (w1 & r & -> & Hok1 & Heq1 & Hr & Hin).
  rewrite bind_Done. pose proof (dict_abs_equiv _ _ Hok1 Heq1) as Habs. destruct r as [e|].
  - destruct Hin as [He <-]. destruct (worked_write_ok w1 e data t Hok1 He) as (w2 & -> & Hok2 & Habs2). rewrite bind_Done.
    exists w2. by rewrite Habs2, Habs.
  - destruct (worked_add_ok w1 key data t addr Hok1) as (w2 & -> & Hok2 & Habs2);
      [by rewrite Habs|by rewrite (dict_equiv_entries _ _ Heq1)|].
    rewrite Habs, dict_abs_live, Hr in *. cbn [fmap option_fmap option_map] in *. exists w2. by rewrite Habs2.
Qed.

Lemma worked_delete_ok w key data free :
  dict_ok (wd w) →
  ∃ w', worked_delete w key data free =
      Done (match dict_abs (wd w) !! key with
            | Some (v, _) => if free then (w', - XFIREDB_OK, data, Some v) else (w', - XFIREDB_OK, v, None)
            | None => (w', - XFIREDB_ERR, data, None)
            end) ∧ dict_ok (wd w') ∧ dict_abs (wd w') = delete key (dict_abs (wd w)).
Proof.
  intros Hok. unfold worked_delete. destruct (prologue_ok w Hok) as (w1 & -> & Hok1 & Heq1). rewrite bind_Done.
  destruct (locked_ok (λ d, dict_delete_locked d key) w1 (λ d r, dict_ok d ∧ dict_abs d = delete key (dict_abs (wd w1)) ∧
    (e_value <$> r) = fst <$> dict_abs (wd w1) !! key) Hok1) as (w2 & r & -> & Hok2 & Habs2 & Hr).
  { intros d Hd Heq. destruct (dict_delete_locked_ok d key Hd) as (d' & r & -> & Hd' & _ & Hc). exists d', r. split; [done|]. split; [done|].
    rewrite <-(dict_abs_equiv d (wd w1)) by done. rewrite (dict_abs_view d), (dict_abs_view d'). destruct r as [e|].
    - destruct Hc as [<- Hp]. rewrite (dict_view_delete entry_val d d' e Hd Hp).
      rewrite (dict_view_lookup entry_val d e Hd); [done|]. rewrite Hp. by left.
    - destruct Hc as [Hn ->]. apply (dict_view_None entry_val) in Hn. rewrite Hn. split; [by rewrite delete_id|done]. }
  rewrite bind_Done, <-(dict_abs_equiv _ _ Hok1 Heq1). exists w2. rewrite Habs2.
  destruct r as [e|], (dict_abs (wd w1) !! key) as [[v l]|]; try done. injection Hr as ->. split; [by destruct free|done].
Qed.

(** ** The laws of a store *)

#[local] Instance worked_store : KVStore worked := {|
  kv_alloc := Worked dict_alloc schedule;
  kv_add := λ w key v addr, worked_add w key v DICT_PTR addr;
  kv_update := λ w key v addr, worked_update w key v DICT_PTR addr;
  kv_lookup := worked_lookup;
  kv_delete := λ w key data, worked_delete w key data false;
  kv_size := λ w, dict_get_size (wd w);
  kv_clear := worked_clear;
  kv_rep := worked_rep;
  kv_fresh := λ w addr, addr ∉ e_addr <$> entries (wd w) |}.

#[local] Instance worked_store_laws : KVStoreLaws worked.
Proof.
  split.
  - split; [exact dict_init_ok|reflexivity].
  - intros w m key v addr [Hok ->] Hsz Hf. rewrite map_size_fmap in Hsz. rewrite abs_fst.
    destruct (worked_add_ok w key v DICT_PTR addr Hok Hsz Hf) as (w' & E & Hok' & Habs). exists w'. cbn [kv_add worked_store]. rewrite E.
    split; [by destruct (dict_abs (wd w) !! key)|]. split; [done|]. rewrite Habs.
    destruct (dict_abs (wd w) !! key); [done|]. by rewrite fmap_insert.
  - intros w m key v addr [Hok ->] Hsz Hf. rewrite map_size_fmap in Hsz.
    destruct (worked_update_ok w key v DICT_PTR addr Hok Hsz Hf) as (w' & E & Hok' & Habs). exists w'. split; [done|].
    split; [done|]. by rewrite Habs, fmap_insert.
  - intros w m key data sz [Hok ->]. rewrite abs_fst. destruct (worked_lookup_ok w key data sz Hok) as (w' & E & Hok' & Heq).
    cbn [kv_lookup worked_store]. rewrite E.
    destruct (dict_abs (wd w) !! key) as [[v l]|]; (eexists w', _; split; [done|]); (split; [done|]); by rewrite (dict_abs_equiv _ _ Hok' Heq).
  - intros w m key data [Hok ->]. rewrite abs_fst. destruct (worked_delete_ok w key data false Hok) as (w' & E & Hok' & Habs).
    cbn [kv_delete worked_store]. rewrite E. exists w'.
    destruct (dict_abs (wd w) !! key) as [[v l]|]; (split; [done|]); (split; [done|]); by rewrite Habs, fmap_delete.
  - intros w m [Hok ->]. rewrite map_size_fmap. by apply dict_get_size_run.
  - intros w m [Hok ->]. rewrite map_size_fmap. cbn [kv_clear worked_store]. unfold worked_clear.
    destruct (dict_clear_run (wd w) Hok) as (d' & freed & -> & -> & _ & Hok' & Habs & _).
    exists (Worked d' (passes w)), (e_addr <$> entries (wd w)). split; [done|]. split; [by split; cbn [wd]; rewrite ?Habs|].
    by rewrite length_fmap, dict_abs_view, dict_view_size.
Qed.
End Worked.
