(* ===== verification/DictCalls.v ===== *)
(** * Well-formed dictionaries

    Every call of the interface of [storage/dict.c], as one type, with the types of the
    values it may store and the memory those values point to; a dictionary that is well
    formed stays so, and no call on it faults as long as only live pointers are released. *)
From S2P Require Import Prelude Murmur Dict DictRehash DictSpec DictOps DictIter Database.
From stdpp Require Import pretty.
Local Open Scope Z_scope.

Inductive call :=
  | CallAdd (key : string) (data : loc) (t : dict_type_t) (size : Z)
  | CallUpdate (key : string) (data : loc) (t : dict_type_t) (size : Z)
  | CallLookup (key : string)
  | CallAvailable (key : string)
  | CallDelete (key : string) (free : bool)
  | CallClear
  | CallRehash (num : nat)
  | CallIterator (safe : bool)
  | CallIteratorFree (it : dict_iterator).

(** What a program keeps next to a dictionary: the memory it has allocated for values.
    [xfiredb_free] of anything else is undefined, but for [NULL]. *)
Definition free_value (p : loc) (live : gset loc) : outcome (gset loc) :=
  if p =? NULL then Done live else if decide (p ∈ live) then Done (live ∖ {[p]}) else Stuck.

Section Calls.
Context (load64 : loc → Z) (g : dict_globals) (malloc : dict → loc).

(** The outputs that are read when nothing was stored in them are zero here; no call
    looks at them. *)
Definition run_call (c : call) (d : dict) (live : gset loc) : outcome (dict * gset loc) :=
  match c with
  | CallAdd key data t size => '(d, _) ← raw_dict_add load64 g d key data t size (malloc d); Done (d, live)
  | CallUpdate key data t size => '(d, _) ← raw_dict_update load64 g d key data t size (malloc d); Done (d, live)
  | CallLookup key => '(d, _, _, _) ← dict_lookup d key 0 0; Done (d, live)
  | CallAvailable key => '(d, _) ← dict_key_available d key; Done (d, live)
  | CallDelete key free =>
      '(d, _, _, freed) ← dict_delete d key 0 free;
      live ← match freed with Some p => free_value p live | None => Done live end;
      Done (d, live)
  | CallClear => let '(d, _, _) := dict_clear d in Done (d, live)
  | CallRehash num => '(d, _) ← dict_rehash d num; Done (d, live)
  | CallIterator safe => let '(d, _) := (if safe then dict_get_safe_iterator else dict_get_iterator) d in Done (d, live)
  | CallIteratorFree it => Done (dict_iterator_free d it, live)
  end.

Fixpoint run_calls (cs : list call) (d : dict) (live : gset loc) : outcome (dict * gset loc) :=
  match cs with
  | [] => Done (d, live)
  | c :: cs => '(d, live) ← run_call c d live; run_calls cs d live
  end.

(** ** What the caller knows

    The values and the types it gave them; the dictionary does not keep the types. *)
Abbreviation typed := (gmap string (Z * dict_type_t)).

Definition knows (m : typed) (d : dict) : Prop := fst <$> m = fst <$> dict_abs d.

Definition known_after (m : typed) (c : call) : typed :=
  match c with
  | CallAdd key data t _ => match m !! key with Some _ => m | None => <[key := (stored load64 data t, t)]> m end
  | CallUpdate key data t _ => <[key := (stored load64 data t, t)]> m
  | CallDelete key _ => delete key m
  | CallClear => ∅
  | _ => m
  end.
Definition live_after (m : typed) (live : gset loc) (c : call) : gset loc :=
  match c with
  | CallDelete key true => match m !! key with Some (v, _) => if v =? NULL then live else live ∖ {[v]} | None => live end
  | _ => live
  end.

(** The rule in the comment on [dict_delete]: only a pointer can be released with its
    entry, and it must be live. *)
Definition call_ok (m : typed) (live : gset loc) (c : call) : Prop :=
  match c with
  | CallDelete key true => ∀ v t, m !! key = Some (v, t) → t = DICT_PTR ∧ (v = NULL ∨ v ∈ live)
  | _ => True
  end.
Fixpoint calls_ok (m : typed) (live : gset loc) (cs : list call) : Prop :=
  match cs with [] => True | c :: cs => call_ok m live c ∧ calls_ok (known_after m c) (live_after m live c) cs end.

Context (Hmalloc : ∀ d, malloc d ∉ e_addr <$> entries d).

Lemma set_iterators_ok d n : dict_ok d → dict_ok (set_iterators d n) ∧ dict_abs (set_iterators d n) = dict_abs d.
Proof. by intros []. Qed.

Lemma knows_lookup m d key : knows m d → fst <$> m !! key = fst <$> dict_abs d !! key.
Proof. intros H. by rewrite <-!lookup_fmap, H. Qed.
Lemma knows_size m d : knows m d → size m = size (dict_abs d).
Proof. intros H. by rewrite <-(map_size_fmap fst m), H, map_size_fmap. Qed.
Lemma knows_insert m d d' key v t l :
  knows m d → dict_abs d' = <[key := (v, l)]> (dict_abs d) → knows (<[key := (v, t)]> m) d'.
Proof. unfold knows. intros H ->. by rewrite !fmap_insert, H. Qed.

(** Deleting, with or without the value. *)
Lemma delete_call_ok m live key free d :
  dict_ok d → knows m d → call_ok m live (CallDelete key free) →
  ∃ d', run_call (CallDelete key free) d live = Done (d', live_after m live (CallDelete key free)) ∧ dict_ok d' ∧
    knows (delete key m) d'.
Proof.
  intros Hok Hk Hc. cbn [run_call]. destruct (dict_delete_run d key 0 free Hok) as (d' & -> & Hok' & Habs). exists d'.
  assert (knows (delete key m) d') as Hk' by (unfold knows; by rewrite Habs, !fmap_delete, Hk).
  pose proof (knows_lookup m d key Hk) as Hl. split_and!; [|done..].
  destruct (dict_abs d !! key) as [[v l]|], (m !! key) as [[v' t]|] eqn:Hm; simplify_option_eq; destruct free;
    cbn -[free_value]; rewrite ?Hm; try done.
  destruct (Hc v t Hm) as [_ Hv]. unfold free_value. destruct (Z.eqb_spec v NULL); [done|].
  by rewrite decide_True by naive_solver.
Qed.

Lemma run_call_ok c d m live :
  dict_ok d → knows m d → call_ok m live c → Z.of_nat (size m) < 2 ^ 30 →
  ∃ d', run_call c d live = Done (d', live_after m live c) ∧ dict_ok d' ∧ knows (known_after m c) d'.
Proof.
  intros Hok Hk Hc Hsz. rewrite (knows_size _ _ Hk) in Hsz.
  destruct c as [key data t sz|key data t sz|key|key|key free| |num|safe|it]; cbn [known_after];
    [| | | |by apply delete_call_ok|..]; cbn [run_call live_after].
  - destruct (raw_dict_add_correct load64 g d key data t sz (malloc d) Hok Hsz (Hmalloc d)) as (d' & r & -> & Hok' & Hr). exists d'.
    split; [done|]. split; [done|]. pose proof (knows_lookup m d key Hk) as Hl.
    destruct (dict_abs d !! key), (m !! key); simplify_option_eq; destruct Hr as [_ Habs]; [unfold knows; by rewrite Habs|].
    by eapply knows_insert.
  - destruct (dict_update_run load64 g d key data t sz (malloc d) Hok Hsz (Hmalloc d)) as (d' & -> & Hok' & Habs). exists d'.
    split; [done|]. split; [done|]. by eapply knows_insert.
  - destruct (dict_lookup_spec d key 0 0 Hok) as (d' & -> & Hok' & Habs). exists d'. unfold knows. rewrite Habs.
    by split; [destruct (dict_abs d !! key) as [[]|]|].
  - unfold dict_key_available. destruct (dict_lookup_spec d key 0 0 Hok) as (d' & -> & Hok' & Habs). exists d'. unfold knows. rewrite Habs.
    by split; [destruct (dict_abs d !! key) as [[]|]|].
  - destruct (dict_clear_run d Hok) as (d' & freed & -> & _ & _ & Hok' & Habs & _). exists d'. unfold knows. by rewrite Habs, !fmap_empty.
  - destruct num as [|num].
    + exists d. split; [|done]. unfold dict_rehash. by destruct (d_rehashing d).
    + destruct (dict_rehash_ok d (S num) Hok ltac:(lia)) as (d' & r & -> & [Hok' Heq _ _ _] & _). exists d'.
      unfold knows. by rewrite (dict_abs_equiv d' d) by done.
  - destruct safe; [|by exists d].
    destruct (set_iterators_ok d (s32 (d_iterators d + 1)) Hok) as [? Habs]. eexists. split; [done|]. split; [done|]. unfold knows. by rewrite Habs.
  - unfold dict_iterator_free. destruct (it_safe it); [|by exists d].
    destruct (set_iterators_ok d (s32 (d_iterators d - 1)) Hok) as [? Habs]. eexists. split; [done|]. split; [done|]. unfold knows. by rewrite Habs.
Qed.

Lemma known_size m c : (size (known_after m c) ≤ S (size m))%nat.
Proof.
  destruct c; cbn [known_after]; try (case_match; [lia|]); rewrite ?map_size_empty; try lia;
    first [apply size_insert_le|etrans; [apply size_delete_le|lia]].
Qed.

(** What the memory is after a sequence. *)
Fixpoint lives (m : typed) (live : gset loc) (cs : list call) : gset loc :=
  match cs with [] => live | c :: cs => lives (known_after m c) (live_after m live c) cs end.

Lemma run_calls_ok cs d m live :
  dict_ok d → knows m d → calls_ok m live cs → Z.of_nat (size m + length cs) ≤ 2 ^ 30 →
  ∃ d', run_calls cs d live = Done (d', lives m live cs) ∧ dict_ok d' ∧ knows (foldl known_after m cs) d'.
Proof.
  revert d m live. induction cs as [|c cs IH]; intros d m live Hok Hk Hcs Hsz; [by exists d|].
  destruct Hcs as [Hc Hcs]. cbn [run_calls length foldl lives] in *. 
  destruct (run_call_ok c d m live Hok Hk Hc ltac:(lia)) as (d1 & -> & Hok1 & Hk1). rewrite bind_Done.
  apply IH; try done. pose proof (known_size m c). lia.
Qed.

(** C15: well-formed dictionaries do not go wrong.  From a well-formed dictionary, whatever
    calls are made, in whatever order, with values of whatever types, and with rehashing
    and iterators in between, no call faults, the dictionary stays well formed and its
    values are those of the calls, as long as fewer than 2^30 keys can be in it and a
    deletion that is asked to release the value finds nothing at the key, or a value that
    was stored as a pointer and is [NULL] or live: the rule in the comment on
    [dict_delete].  Well formed: every entry is in the bucket of its hash in one of the
    two maps, the lengths and masks are right, the buckets before the rehash index are
    empty, and no key and no address is there twice.  The rule is needed: afterwards,
    releasing any value that is neither [NULL] nor live is a fault. *)
Theorem calls_well_formed cs d m live :
  dict_ok d → knows m d → calls_ok m live cs → Z.of_nat (size m + length cs) ≤ 2 ^ 30 →
  ∃ d', run_calls cs d live = Done (d', lives m live cs) ∧ dict_ok d' ∧ knows (foldl known_after m cs) d' ∧
    ∀ key v l, dict_abs d' !! key = Some (v, l) → v ≠ NULL → v ∉ lives m live cs →
      run_call (CallDelete key true) d' (lives m live cs) = Stuck.
Proof.
  intros Hok Hk Hcs Hsz. destruct (run_calls_ok cs d m live Hok Hk Hcs Hsz) as (d' & E & Hok' & Hk'). exists d'.
  split_and!; [done..|]. intros key v l Hv Hn Hl. cbn [run_call].
  destruct (dict_delete_run d' key 0 true Hok') as (d2 & -> & _). rewrite Hv, bind_Done. cbn -[free_value].
  unfold free_value. rewrite (proj2 (Z.eqb_neq v NULL)) by done. by rewrite decide_False.
Qed.
End Calls.

(** The pointer 2 is live and is released with its key; the number 1 is deleted with its
    key and not released. *)
Definition calls9 : list call :=
  [CallAdd "a" 1 DICT_U64 8; CallIterator true; CallUpdate "b" 2 DICT_PTR 3; CallAdd "c" 3 DICT_FLT 8; CallAdd "d" 4 DICT_PTR 8;
   CallAdd "e" 5 DICT_S64 8; CallIteratorFree (DictIterator None None (-1) 0 true); CallDelete "a" false; CallDelete "b" true;
   CallRehash 100; CallDelete "x" true].

Lemma calls9_ok : calls_ok (λ p, p) ∅ {[2]} calls9.
Proof. repeat split; cbn; intros; simplify_map_eq; (done || by right; set_solver). Qed.

Lemma calls_well_formed_witness :
  ∃ d', run_calls (λ p, p) dict_globals_init next_addr calls9 dict_init {[2]} = Done (d', lives (λ p, p) ∅ {[2]} calls9) ∧ dict_ok d' ∧
    knows (foldl (known_after (λ p, p)) ∅ calls9) d' ∧
    ∀ key v l, dict_abs d' !! key = Some (v, l) → v ≠ NULL → v ∉ lives (λ p, p) ∅ {[2]} calls9 →
      run_call (λ p, p) dict_globals_init next_addr (CallDelete key true) d' (lives (λ p, p) ∅ {[2]} calls9) = Stuck.
Proof.
  apply (calls_well_formed (λ p, p) dict_globals_init next_addr next_addr_fresh calls9 dict_init ∅ {[2]} dict_init_ok);
    [vm_compute; reflexivity|exact calls9_ok|vm_compute; discriminate].
Defined.

(** ** A rehash that takes the worker two rounds

    After 257 keys the dictionary is being rehashed from 256 buckets to 512, and no entry
    has been moved: more buckets hold entries than one call of [dict_rehash] moves. *)
Definition calls257 : list call := (λ i, CallAdd (pretty (N.of_nat i)) 1 DICT_PTR 8) <$> seq 0 257.
Definition dict257 : dict :=
  match run_calls (λ p, p) dict_globals_init next_addr calls257 dict_init ∅ with Done (d, _) => d | _ => dict_init end.

Lemma dict257_ok : dict_ok dict257.
Proof.
  destruct (run_calls_ok (λ p, p) dict_globals_init next_addr next_addr_fresh calls257 dict_init ∅ ∅ dict_init_ok) as (d & E & Hok & _).
  - vm_compute. reflexivity.
  - unfold calls257. generalize (seq 0 257). intros l. generalize (∅ : gmap string (Z * dict_type_t)), (∅ : gset loc).
    induction l as [|i l IH]; intros m live; cbn; [done|]. split; [done|apply IH].
  - vm_compute. discriminate.
  - unfold dict257. by rewrite E.
Qed.

Lemma dict_rehash_ms_completes_witness :
  d_rehashing dict257 = true ∧ m_length (d_primary dict257) = 256 ∧
  dict_rehash_ms 300 0 2 (replicate 300 0) 0 dict257 ≠ dict_rehash_ms 300 0 (-1) (replicate 300 0) 0 dict257 ∧
  ∃ d' n, dict_rehash_ms 300 0 2 (replicate 300 0) 0 dict257 = Done (d', n) ∧ dict_ok d' ∧ d' ≡ dict257 ∧
    (d_rehashing d' = false ∨ ∃ now, now ∈ replicate 300 0 ∧ now - 0 > 2).
Proof.
  split; [vm_compute; reflexivity|]. split; [vm_compute; reflexivity|]. split; [vm_compute; discriminate|].
  apply (dict_rehash_ms_completes 300 0 2 (replicate 300 0) 0 dict257).
  - exact dict257_ok.
  - intros _. vm_compute. reflexivity.
  - vm_compute. repeat constructor.
  - apply le_n.
Defined.
