(* ===== verification/Skiplist.v ===== *)
(** * The skip list: [storage/skiplist.c]

    Nodes live in a heap, [forward] arrays hold addresses, and the list is
    circular at every level through the header, whose key is NULL and whose hash is
    the largest 32-bit value.  A read of a NULL pointer, of a key that is not
    there or of a [forward] cell outside the array is a fault. *)
From S2P Require Import Prelude Murmur.
Local Open Scope Z_scope.

(** ** Data *)

Record skiplist_node := SkiplistNode {
  sn_key : option string;
  sn_hash : Z;
  sn_forward : option (list loc) }.

Abbreviation sheap := (gmap loc skiplist_node).

Record skiplist := Skiplist {
  sl_header : loc;
  sl_level : nat;
  sl_size : Z }.

#[export] Instance skiplist_node_eq_dec : EqDecision skiplist_node.
Proof. solve_decision. Defined.
#[export] Instance skiplist_eq_dec : EqDecision skiplist.
Proof. solve_decision. Defined.

Definition SKIPLIST_MAX_LEVELS : nat := 6.
Definition SKIPLIST_MAX_SIZE : Z := 0xFFFFFFFF.

(** A node the caller has allocated and cleared. *)
Definition node_zero : skiplist_node := SkiplistNode None 0 None.

(** [raw_skiplist_init]; [node] is the address of the header. *)
Definition raw_skiplist_init (h : sheap) (node : loc) : sheap * skiplist :=
  (<[node := SkiplistNode None SKIPLIST_MAX_SIZE (Some (replicate (SKIPLIST_MAX_LEVELS + 1) node))]> h,
   Skiplist node 1 0).

Definition skiplist_init (h : sheap) (node : loc) : sheap * skiplist := raw_skiplist_init h node.

(** [raw_skiplist_alloc]: no list for a probability above 1. *)
Definition raw_skiplist_alloc (h : sheap) (prob_above_1 : bool) (node : loc) : option (sheap * skiplist) :=
  if prob_above_1 then None else Some (raw_skiplist_init h node).
Definition skiplist_alloc (h : sheap) (node : loc) : option (sheap * skiplist) :=
  raw_skiplist_alloc h false node.

Definition skiplist_destroy (h : sheap) (l : skiplist) : outcome sheap :=
  hd ← deref (h !! sl_header l);
  match sn_forward hd with
  | None => Done h
  | Some _ => Done (delete (sl_header l) h)
  end.

(** [skiplist_rand_level]: [coin i] is [skiplist_rand() < l->prob] at the i-th draw. *)
Fixpoint skiplist_rand_level (coin : nat → bool) (max height : nat) : nat :=
  match max with
  | O => height
  | S max' =>
      let height := S height in
      match max' with
      | O => height
      | _ => if coin height then skiplist_rand_level coin max' height else height
      end
  end.

(** ** Reading and writing nodes *)

(** [n->forward[i]] *)
Definition fwd (h : sheap) (n : loc) (i : nat) : outcome loc :=
  nd ← deref (h !! n);
  f ← deref (sn_forward nd);
  deref (f !! i).

Definition set_fwd (h : sheap) (n : loc) (i : nat) (v : loc) : outcome sheap :=
  nd ← deref (h !! n);
  f ← deref (sn_forward nd);
  if decide (i < length f)%nat
  then Done (<[n := SkiplistNode (sn_key nd) (sn_hash nd) (Some (<[i := v]> f))]> h)
  else Stuck.

Definition node_hash (h : sheap) (n : loc) : outcome Z := nd ← deref (h !! n); Done (sn_hash nd).

(** [n->key] as an argument of [strcmp]. *)
Definition node_key (h : sheap) (n : loc) : outcome string := nd ← deref (h !! n); deref (sn_key nd).

(** ** Searching *)

(** [while(node->forward[i]->hash < hash) node = node->forward[i];] *)
Fixpoint walk_lt (fuel : nat) (h : sheap) (i : nat) (hash : Z) (node : loc) : outcome loc :=
  match fuel with
  | O => OutOfFuel
  | S fuel' =>
      next ← fwd h node i;
      nhash ← node_hash h next;
      if nhash <? hash then walk_lt fuel' h i hash next else Done node
  end.

(** [while(strcmp(node->forward[1]->key, key)) node = node->forward[1];] *)
Fixpoint walk_key (fuel : nat) (h : sheap) (key : string) (node : loc) : outcome loc :=
  match fuel with
  | O => OutOfFuel
  | S fuel' =>
      next ← fwd h node 1;
      k ← node_key h next;
      if strcmp_eq k key then Done node else walk_key fuel' h key next
  end.

(** The [for] loop over the levels [i] to 1 around a walk; the second result is
    [update[1 .. i]]. *)
Fixpoint descend (walk : nat → loc → outcome loc) (i : nat) (node : loc) : outcome (loc * list loc) :=
  match i with
  | O => Done (node, [])
  | S i' =>
      node ← walk i node;
      '(last, update) ← descend walk i' node;
      Done (last, update ++ [node])
  end.

Definition walk_fuel (h : sheap) : nat := S (size h).

Definition skiplist_search (h : sheap) (l : skiplist) (key : string) : outcome (option loc) :=
  let hash := skiplist_hash_key key SKIPLIST_SEED in
  '(node, _) ← descend (λ i, walk_lt (walk_fuel h) h i hash) (sl_level l) (sl_header l);
  next ← fwd h node 1;
  nhash ← node_hash h next;
  if nhash =? hash then
    k ← node_key h next;
    node ← (if strcmp_eq k key then Done node else walk_key (walk_fuel h) h key node);
    next ← fwd h node 1;
    nhash ← node_hash h next;
    if nhash =? hash then Done (Some next) else Done None
  else Done None.

(** ** Insertion *)

(** The loop that links the node at the levels [i], [i + 1], ... *)
Fixpoint link_levels (h : sheap) (node : loc) (i : nat) (update : list loc) : outcome sheap :=
  match update with
  | [] => Done h
  | u :: update' =>
      next ← fwd h u i;
      h ← set_fwd h node i next;
      h ← set_fwd h u i node;
      link_levels h node (S i) update'
  end.

Definition skiplist_insert (coin : nat → bool) (h : sheap) (l : skiplist) (key : string) (node : loc)
    : outcome (sheap * skiplist * Z) :=
  let hash := skiplist_hash_key key SKIPLIST_SEED in
  '(carriage, update) ← descend (λ i, walk_lt (walk_fuel h) h i hash) (sl_level l) (sl_header l);
  carriage ← fwd h carriage 1;
  c ← deref (h !! carriage);
  if match sn_key c with Some k => strcmp_eq k key | None => false end then Done (h, l, - XFIREDB_OK)
  else
    let level := skiplist_rand_level coin SKIPLIST_MAX_LEVELS 0 in
    let update := update ++ replicate (level - sl_level l) (sl_header l) in
    nd ← deref (h !! node);
    let h := <[node := SkiplistNode (Some key) hash (Some (replicate (level + 1) NULL))]> h in
    h ← link_levels h node 1 (take level update);
    Done (h, Skiplist (sl_header l) (Nat.max level (sl_level l)) (s32 (sl_size l + 1)), - XFIREDB_OK).

(** ** Deletion *)

(** [while(x->forward[i]->hash <= hash)] with the [break] on the key itself. *)
Fixpoint walk_le (fuel : nat) (h : sheap) (i : nat) (hash : Z) (key : string) (x : loc) : outcome loc :=
  match fuel with
  | O => OutOfFuel
  | S fuel' =>
      next ← fwd h x i;
      nhash ← node_hash h next;
      if nhash <=? hash then
        stop ← (if nhash =? hash then k ← node_key h next; Done (strcmp_eq k key) else Done false);
        if stop : bool then Done x else walk_le fuel' h i hash key next
      else Done x
  end.

Fixpoint unlink_levels (h : sheap) (x : loc) (i : nat) (update : list loc) : outcome sheap :=
  match update with
  | [] => Done h
  | u :: update' =>
      next ← fwd h u i;
      if decide (next = x) then
        xnext ← fwd h x i;
        h ← set_fwd h u i xnext;
        unlink_levels h x (S i) update'
      else Done h
  end.

(** [while(list->level > 1 && list->header->forward[list->level] == list->header)
    list->level--;] *)
Fixpoint lower_level (h : sheap) (header : loc) (level : nat) : outcome nat :=
  match level with
  | O => Done O
  | S level' =>
      if decide (1 < level)%nat then
        f ← fwd h header level;
        if decide (f = header) then lower_level h header level' else Done level
      else Done level
  end.

Definition skiplist_node_destroy (h : sheap) (n : loc) : outcome sheap :=
  nd ← deref (h !! n);
  Done (<[n := SkiplistNode None (sn_hash nd) None]> h).

Definition skiplist_delete (h : sheap) (l : skiplist) (key : string) : outcome (sheap * skiplist * Z) :=
  let hash := skiplist_hash_key key SKIPLIST_SEED in
  '(x, update) ← descend (λ i, walk_le (walk_fuel h) h i hash key) (sl_level l) (sl_header l);
  next ← fwd h x 1;
  nhash ← node_hash h next;
  if nhash =? hash then
    nd ← deref (h !! next);
    if match sn_key nd with Some k => strcmp_eq k key | None => false end then
      h ← unlink_levels h next 1 update;
      h ← skiplist_node_destroy h next;
      level ← lower_level h (sl_header l) (sl_level l);
      Done (h, Skiplist (sl_header l) level (s32 (sl_size l - 1)), - XFIREDB_OK)
    else Done (h, l, - XFIREDB_ERR)
  else Done (h, l, - XFIREDB_ERR).

(** ** Iteration *)

Record skiplist_iterator := SkiplistIterator {
  si_current : option loc;
  si_prev : option loc }.

Definition skiplist_iterator_new (l : skiplist) : skiplist_iterator :=
  SkiplistIterator (Some (sl_header l)) (Some (sl_header l)).

Definition skiplist_iterator_next (h : sheap) (l : skiplist) (it : skiplist_iterator)
    : outcome (skiplist_iterator * option loc) :=
  c ← deref (si_current it);
  n ← fwd h c 1;
  let cur := if decide (n = sl_header l) then None else Some n in
  Done (SkiplistIterator cur (si_current it), cur).

Definition skiplist_iterator_delete (h : sheap) (l : skiplist) (it : skiplist_iterator)
    : outcome (sheap * skiplist * skiplist_iterator * option loc) :=
  c ← deref (si_current it);
  key ← node_key h c;
  '(h, l, rv) ← skiplist_delete h l key;
  if negb (rv =? - XFIREDB_OK) then Done (h, l, it, si_current it)
  else Done (h, l, SkiplistIterator (si_prev it) (si_prev it), si_prev it).

Definition skiplist_size (l : skiplist) : Z := sl_size l.
