(* ===== verification/SkiplistSpec.v ===== *)
(** * The skip list implements a finite map from keys to nodes

    The nodes of a list, in order, with their keys and heights determine every
    [forward] cell: level [i] links the nodes of height [i] and more, from the
    header back to the header.  Search, insertion and deletion are proved against
    that picture for keys whose hashes do not collide; what happens when they do is
    at the end. *)
From S2P Require Import Prelude Murmur Chain Skiplist.
From stdpp Require Import sorting.
Local Open Scope Z_scope.

(** ** The abstract list *)

Record snode := Snode { n_loc : loc; n_key : string; n_height : nat }.

Definition key_hash (key : string) : Z := skiplist_hash_key key SKIPLIST_SEED.
Definition n_hash (x : snode) : Z := key_hash (n_key x).

Definition lvl (i : nat) (ns : list snode) : list loc :=
  n_loc <$> filter (λ x, (i ≤ n_height x)%nat) ns.

(** The cells [forward[i]]. *)
Definition cells (h : sheap) (i : nat) : loc → outcome loc := λ n, fwd h n i.

Definition heap_node (h : sheap) (x : snode) : Prop :=
  ∃ f, h !! n_loc x = Some (SkiplistNode (Some (n_key x)) (n_hash x) (Some f)) ∧
    length f = S (n_height x).

Definition heap_header (h : sheap) (hdr : loc) : Prop :=
  ∃ f, h !! hdr = Some (SkiplistNode None SKIPLIST_MAX_SIZE (Some f)) ∧ length f = 7%nat.

Record sl_ok (h : sheap) (l : skiplist) (ns : list snode) : Prop := {
  sl_ok_header : heap_header h (sl_header l);
  sl_ok_level : (1 ≤ sl_level l ≤ 6)%nat;
  sl_ok_nodes : ∀ x, x ∈ ns → heap_node h x ∧ (1 ≤ n_height x ≤ sl_level l)%nat ∧
    n_hash x < SKIPLIST_MAX_SIZE;
  sl_ok_locs : NoDup (sl_header l :: (n_loc <$> ns));
  sl_ok_sorted : StronglySorted (λ x y, n_hash x < n_hash y) ns;
  sl_ok_links : ∀ i, (1 ≤ i ≤ 6)%nat → links (cells h i) (sl_header l :: lvl i ns ++ [sl_header l]);
  sl_ok_size : sl_size l = s32 (Z.of_nat (length ns)) }.

(** The level of a list of these nodes when no level is empty. *)
Definition top_level (ns : list snode) : nat := Nat.max 1 (max_list_with n_height ns).

Definition sl_abs (ns : list snode) : gmap string loc := list_to_map ((λ x, (n_key x, n_loc x)) <$> ns).

(** A key the list can hold next to its own: its hash is not the one of the header
    and no other key in the list has it. *)
Definition collision_free (ns : list snode) (key : string) : Prop :=
  key_hash key < SKIPLIST_MAX_SIZE ∧ ∀ x, x ∈ ns → n_hash x = key_hash key → n_key x = key.

(** ** Cells *)

Lemma fwd_Done h n i v :
  fwd h n i = Done v ↔ ∃ nd f, h !! n = Some nd ∧ sn_forward nd = Some f ∧ f !! i = Some v.
Proof.
  unfold fwd. split.
  - intros H. apply outcome_bind_Done in H as (nd & Hn%deref_Done & H).
    apply outcome_bind_Done in H as (f & Hf%deref_Done & H%deref_Done). by exists nd, f.
  - intros (nd & f & -> & Hf & Hi). simpl. rewrite Hf. simpl. by rewrite Hi.
Qed.

(** What a node is besides its links: stable under writes to [forward] cells. *)
Definition same_shape (h h' : sheap) : Prop :=
  ∀ n, match h !! n, h' !! n with
       | Some a, Some b => sn_key a = sn_key b ∧ sn_hash a = sn_hash b ∧
           (length <$> sn_forward a) = (length <$> sn_forward b)
       | None, None => True
       | _, _ => False
       end.

Lemma same_shape_refl h : same_shape h h.
Proof. intros n. by destruct (h !! n). Qed.

Lemma same_shape_trans h1 h2 h3 : same_shape h1 h2 → same_shape h2 h3 → same_shape h1 h3.
Proof.
  intros H1 H2 n. specialize (H1 n). specialize (H2 n).
  destruct (h1 !! n), (h2 !! n), (h3 !! n); try done.
  destruct H1 as (-> & -> & ->). by destruct H2 as (-> & -> & ->).
Qed.

Lemma same_shape_node h h' x : same_shape h h' → heap_node h x → heap_node h' x.
Proof.
  intros Hs (f & Hx & Hl). specialize (Hs (n_loc x)). rewrite Hx in Hs.
  unfold heap_node. destruct (h' !! n_loc x) as [[k hs fw]|]; [|done]. simpl in Hs.
  destruct Hs as (<- & <- & Hf). destruct fw as [f'|]; [|done]. injection Hf as Hf.
  exists f'. split; [done|lia].
Qed.

Lemma same_shape_header h h' hdr : same_shape h h' → heap_header h hdr → heap_header h' hdr.
Proof.
  intros Hs (f & Hx & Hl). specialize (Hs hdr). rewrite Hx in Hs.
  unfold heap_header. destruct (h' !! hdr) as [[k hs fw]|]; [|done]. simpl in Hs.
  destruct Hs as (<- & <- & Hf). destruct fw as [f'|]; [|done]. injection Hf as Hf.
  exists f'. split; [done|lia].
Qed.

(** A write changes one cell. *)
Lemma set_fwd_Done h n i v w :
  fwd h n i = Done w →
  ∃ h', set_fwd h n i v = Done h' ∧ same_shape h h' ∧ fwd h' n i = Done v ∧
    ∀ m j, (m, j) ≠ (n, i) → fwd h' m j = fwd h m j.
Proof.
  intros (nd & f & Hn & Hf & Hi)%fwd_Done. unfold set_fwd. rewrite Hn. simpl. rewrite Hf. simpl.
  pose proof (lookup_lt_Some _ _ _ Hi) as Hlt. rewrite decide_True by done. eexists. split; [done|].
  split_and!.
  - intros m. destruct (decide (m = n)) as [->|].
    + rewrite Hn, lookup_insert_eq. simpl. rewrite Hf. simpl. by rewrite length_insert.
    + rewrite lookup_insert_ne by done. apply same_shape_refl.
  - apply fwd_Done. eexists _, _. rewrite lookup_insert_eq. split_and!; [done..|].
    by apply list_lookup_insert_eq.
  - intros m j Hne. unfold fwd. destruct (decide (m = n)) as [->|]; [|by rewrite lookup_insert_ne].
    rewrite lookup_insert_eq, Hn. simpl. rewrite Hf. simpl. rewrite list_lookup_insert_ne; [done|].
    congruence.
Qed.

(** ** Walking *)

Lemma walk_lt_run fuel h i H a xs b rest hb :
  links (cells h i) (a :: xs ++ b :: rest) → (∀ x, x ∈ xs → ∃ hx, node_hash h x = Done hx ∧ hx < H) →
  node_hash h b = Done hb → H ≤ hb → (length xs < fuel)%nat →
  walk_lt fuel h i H a = Done (lastd a xs).
Proof.
  revert a xs. induction fuel as [|fuel IH]; intros a xs Hl Hxs Hb Hge Hf; [lia|]. cbn [walk_lt].
  destruct xs as [|x xs].
  - destruct Hl as [Hn _]. rewrite (Hn : fwd h a i = _), bind_Done, Hb, bind_Done. by rewrite (proj2 (Z.ltb_ge _ _)).
  - destruct Hl as [Hn Hl]. rewrite (Hn : fwd h a i = _), bind_Done. destruct (Hxs x) as (hx & Hx & Hlt); [by left|].
    rewrite Hx, bind_Done, (proj2 (Z.ltb_lt _ _)) by done. rewrite lastd_cons.
    apply IH; [done| |done..|simpl in Hf; lia]. intros y Hy. apply Hxs. by right.
Qed.

Lemma walk_le_run fuel h i H key a xs b rest :
  links (cells h i) (a :: xs ++ b :: rest) → (∀ x, x ∈ xs → ∃ hx, node_hash h x = Done hx ∧ hx < H) →
  (∃ hb, node_hash h b = Done hb ∧ (H < hb ∨ hb = H ∧ node_key h b = Done key)) →
  (length xs < fuel)%nat → walk_le fuel h i H key a = Done (lastd a xs).
Proof.
  revert a xs. induction fuel as [|fuel IH]; intros a xs Hl Hxs (hb & Hb & Hcase) Hf; [lia|].
  cbn [walk_le]. destruct xs as [|x xs].
  - destruct Hl as [Hn _]. rewrite (Hn : fwd h a i = _), bind_Done, Hb, bind_Done.
    destruct Hcase as [Hlt|[-> Hk]]; [by rewrite (proj2 (Z.leb_gt _ _))|].
    rewrite Z.leb_refl, Z.eqb_refl, Hk, !bind_Done, strcmp_eq_refl. done.
  - destruct Hl as [Hn Hl]. rewrite (Hn : fwd h a i = _), bind_Done. destruct (Hxs x) as (hx & Hx & Hlt); [by left|].
    rewrite Hx, bind_Done, (proj2 (Z.leb_le _ _)), (proj2 (Z.eqb_neq hx H)), bind_Done by lia.
    rewrite lastd_cons. apply IH; [done| |by exists hb|simpl in Hf; lia].
    intros y Hy. apply Hxs. by right.
Qed.

(** Descending the levels, when each walk ends at its [pred i]. *)
Lemma descend_run walk (pred : nat → loc) (start : nat → list loc) i a :
  (∀ j b, (1 ≤ j ≤ i)%nat → b ∈ start j → walk j b = Done (pred j)) →
  (∀ j, (1 ≤ j < i)%nat → pred (S j) ∈ start j) → (1 ≤ i)%nat → a ∈ start i →
  descend walk i a = Done (pred 1%nat, pred <$> seq 1 i).
Proof.
  revert a. induction i as [|i IH]; intros a Hw Hs Hi Ha; [lia|]. cbn [descend].
  rewrite (Hw (S i) a), bind_Done by (done || lia). destruct i as [|i]; [done|].
  rewrite IH; [|intros; apply Hw; [lia|done]|intros; apply Hs; lia|lia|apply Hs; lia].
  rewrite bind_Done. by rewrite (seq_S (S i)), fmap_app.
Qed.

(** ** The nodes around a hash *)

Lemma sorted_split ns H :
  StronglySorted (λ x y, n_hash x < n_hash y) ns →
  ∃ lo hi, ns = lo ++ hi ∧ (∀ x, x ∈ lo → n_hash x < H) ∧ (∀ x, x ∈ hi → H ≤ n_hash x).
Proof.
  induction 1 as [|x ns Hs IH Hx].
  { exists [], []. split_and!; [done|intros x Hx; by apply not_elem_of_nil in Hx..]. }
  destruct (Z.lt_ge_cases (n_hash x) H) as [Hlt|Hge].
  - destruct IH as (lo & hi & -> & Hlo & Hhi). exists (x :: lo), hi. split_and!; [done| |done].
    intros y [->|Hy]%elem_of_cons; auto.
  - exists [], (x :: ns). split_and!; [done|intros y Hy; by apply not_elem_of_nil in Hy|].
    intros y [->|Hy]%elem_of_cons; [done|]. rewrite list.Forall_forall in Hx. specialize (Hx y Hy). lia.
Qed.

Lemma lvl_app i l1 l2 : lvl i (l1 ++ l2) = lvl i l1 ++ lvl i l2.
Proof. unfold lvl. by rewrite filter_app, fmap_app. Qed.

Lemma elem_of_lvl i ns a : a ∈ lvl i ns ↔ ∃ x, x ∈ ns ∧ n_loc x = a ∧ (i ≤ n_height x)%nat.
Proof.
  unfold lvl. rewrite list_elem_of_fmap. split.
  - intros (x & -> & [? ?]%list_elem_of_filter). by exists x.
  - intros (x & ? & <- & ?). exists x. split; [done|]. by apply list_elem_of_filter.
Qed.

Lemma lvl_mono i j ns a : (i ≤ j)%nat → a ∈ lvl j ns → a ∈ lvl i ns.
Proof. rewrite !elem_of_lvl. intros ? (x & ? & ? & ?). exists x. split_and!; [done..|lia]. Qed.

Lemma length_lvl i ns : (length (lvl i ns) ≤ length ns)%nat.
Proof. unfold lvl. rewrite length_fmap. apply length_filter. Qed.

Lemma nodup_size {A} (h : gmap loc A) (l : list loc) :
  NoDup l → (∀ x, x ∈ l → is_Some (h !! x)) → (length l ≤ size h)%nat.
Proof.
  intros Hnd Hin. rewrite <-size_dom, <-(size_list_to_set (C := gset loc) l Hnd).
  apply subseteq_size. intros x Hx%elem_of_list_to_set. by apply elem_of_dom, Hin.
Qed.

Section Around.
Context (h : sheap) (l : skiplist) (lo hi : list snode) (H : Z).
Context (Hok : sl_ok h l (lo ++ hi)).
Context (Hlo : ∀ x, x ∈ lo → n_hash x < H) (Hhi : ∀ x, x ∈ hi → H ≤ n_hash x).
Context (Hmax : H ≤ SKIPLIST_MAX_SIZE).

(** The last node before the hash at a level. *)
Definition pred (i : nat) : loc := lastd (sl_header l) (lvl i lo).
Definition before (i : nat) : list loc := sl_header l :: lvl i lo.

Lemma hash_of_node x : x ∈ lo ++ hi → node_hash h (n_loc x) = Done (n_hash x).
Proof. intros Hx. destruct (sl_ok_nodes _ _ _ Hok x Hx) as ((f & Hf & _) & _). unfold node_hash. by rewrite Hf. Qed.

Lemma key_of_node x : x ∈ lo ++ hi → node_key h (n_loc x) = Done (n_key x).
Proof. intros Hx. destruct (sl_ok_nodes _ _ _ Hok x Hx) as ((f & Hf & _) & _). unfold node_key. by rewrite Hf. Qed.

Lemma hash_of_header : node_hash h (sl_header l) = Done SKIPLIST_MAX_SIZE.
Proof. destruct (sl_ok_header _ _ _ Hok) as (f & Hf & _). unfold node_hash. by rewrite Hf. Qed.

Lemma pred_before i : pred i ∈ before i.
Proof. apply lastd_in. Qed.

Lemma pred_below j : pred (S j) ∈ before j.
Proof.
  pose proof (pred_before (S j)) as [->|Hp]%elem_of_cons; [by left|]. right.
  eapply lvl_mono; [|done]. lia.
Qed.

Lemma lvl_lo_hash i a : a ∈ lvl i lo → ∃ ha, node_hash h a = Done ha ∧ ha < H.
Proof.
  intros (x & Hx & <- & _)%elem_of_lvl. exists (n_hash x). split; [|by apply Hlo].
  apply hash_of_node. set_solver.
Qed.

(** The node after [pred i]. *)
Definition after (i : nat) : list loc := lvl i hi ++ [sl_header l].

Lemma after_head i : ∃ b rest, after i = b :: rest ∧
  (b = sl_header l ∨ ∃ x, x ∈ hi ∧ n_loc x = b).
Proof.
  unfold after. destruct (lvl i hi) as [|b rest] eqn:Hl; simpl; [by exists (sl_header l), []; eauto|].
  exists b, (rest ++ [sl_header l]). split; [done|]. right.
  assert (b ∈ lvl i hi) as (x & ? & ? & _)%elem_of_lvl by (rewrite Hl; by left). by exists x.
Qed.

Lemma links_before i : (1 ≤ i ≤ 6)%nat → links (cells h i) (before i ++ after i).
Proof.
  intros Hi. pose proof (sl_ok_links _ _ _ Hok i Hi) as Hl. rewrite lvl_app in Hl.
  unfold before, after. by rewrite <-app_assoc in Hl.
Qed.

(** From any node before the hash, the cells lead to [pred i] and then on. *)
Lemma links_from i a :
  (1 ≤ i ≤ 6)%nat → a ∈ before i →
  ∃ xs, links (cells h i) (a :: xs ++ after i) ∧ lastd a xs = pred i ∧
    (∀ x, x ∈ xs → ∃ hx, node_hash h x = Done hx ∧ hx < H) ∧ (length xs ≤ length lo)%nat.
Proof.
  intros Hi Ha. pose proof (links_before i Hi) as Hl. pose proof (length_lvl i lo) as Hlen.
  apply list_elem_of_split in Ha as (l1 & xs & Heq). rewrite Heq, <-app_assoc in Hl.
  exists xs. split_and!.
  - simpl in Hl. by apply links_app in Hl as [_ ?].
  - unfold pred, before in *. destruct l1 as [|y l1]; simpl in Heq; injection Heq as -> Heq; [by rewrite Heq|].
    by rewrite Heq, lastd_app.
  - intros x Hx. apply (lvl_lo_hash i). unfold before in Heq. destruct l1; simpl in Heq;
      injection Heq as <- Heq; rewrite Heq; set_solver.
  - unfold before in Heq. apply (f_equal length) in Heq. rewrite length_app in Heq. simpl in Heq. lia.
Qed.

Lemma fuel_enough : (length lo < walk_fuel h)%nat.
Proof.
  unfold walk_fuel. assert (length (n_loc <$> lo ++ hi) ≤ size h)%nat as Hle.
  { apply nodup_size; [by pose proof (sl_ok_locs _ _ _ Hok) as [_ ?]%list.NoDup_cons|].
    intros a (x & -> & Hx)%list_elem_of_fmap.
    destruct (sl_ok_nodes _ _ _ Hok x Hx) as ((f & -> & _) & _). done. }
  rewrite length_fmap, length_app in Hle. lia.
Qed.

Lemma fwd_pred i : (1 ≤ i ≤ 6)%nat → ∃ b rest, after i = b :: rest ∧ fwd h (pred i) i = Done b.
Proof.
  intros Hi. pose proof (links_before i Hi) as Hl.
  destruct (after_head i) as (b & rest & Ha & _). exists b, rest. split; [done|].
  rewrite Ha in Hl. exact (links_last (cells h i) (sl_header l) (lvl i lo) b rest Hl).
Qed.

Lemma descend_lt :
  descend (λ i, walk_lt (walk_fuel h) h i H) (sl_level l) (sl_header l)
  = Done (pred 1, pred <$> seq 1 (sl_level l)).
Proof.
  pose proof (sl_ok_level _ _ _ Hok) as Hlv.
  apply (descend_run _ pred before); [|intros; apply pred_below|lia|by left].
  intros j a Hj Ha. destruct (links_from j a ltac:(lia) Ha) as (xs & Hl & <- & Hxs & Hlen).
  destruct (after_head j) as (b & rest & Hb & Hcase). rewrite Hb in Hl.
  assert (∃ hb, node_hash h b = Done hb ∧ H ≤ hb) as (hb & ? & ?).
  { destruct Hcase as [->|(x & Hx & <-)]; [exists SKIPLIST_MAX_SIZE; split; [apply hash_of_header|lia]|].
    exists (n_hash x). split; [apply hash_of_node; set_solver|by apply Hhi]. }
  eapply walk_lt_run; try done. pose proof fuel_enough. lia.
Qed.
End Around.

(** ** The abstract map *)

Lemma sorted_keys ns : StronglySorted (λ x y, n_hash x < n_hash y) ns → NoDup (n_key <$> ns).
Proof.
  induction 1 as [|x ns Hs IH Hx]; simpl; [constructor|]. apply list.NoDup_cons. split; [|done].
  intros (y & Hk & Hy)%list_elem_of_fmap. rewrite list.Forall_forall in Hx. specialize (Hx y Hy).
  simpl in Hx. unfold n_hash in Hx. rewrite Hk in Hx. lia.
Qed.

Lemma sl_abs_lookup h l ns x : sl_ok h l ns → x ∈ ns → sl_abs ns !! n_key x = Some (n_loc x).
Proof.
  intros Hok Hx. apply elem_of_list_to_map_1.
  - rewrite <-list_fmap_compose. apply sorted_keys, (sl_ok_sorted _ _ _ Hok).
  - apply list_elem_of_fmap. by exists x.
Qed.

Lemma sl_abs_None ns key : sl_abs ns !! key = None ↔ ∀ x, x ∈ ns → n_key x ≠ key.
Proof.
  unfold sl_abs. rewrite <-not_elem_of_list_to_map, <-list_fmap_compose, list_elem_of_fmap. simpl.
  naive_solver.
Qed.

(** Where the key is, once the nodes are split at its hash. *)
Lemma split_cases ns lo hi key :
  ns = lo ++ hi → collision_free ns key → StronglySorted (λ x y, n_hash x < n_hash y) ns →
  (∀ x, x ∈ lo → n_hash x < key_hash key) → (∀ x, x ∈ hi → key_hash key ≤ n_hash x) →
  (∃ t hi', hi = t :: hi' ∧ n_key t = key ∧ ∀ x, x ∈ hi' → key_hash key < n_hash x) ∨
  ((∀ x, x ∈ hi → key_hash key < n_hash x) ∧ sl_abs ns !! key = None).
Proof.
  intros -> [_ Hcf] Hs Hlo Hhi.
  destruct (decide (Exists (λ x, n_hash x = key_hash key) hi)) as [(t & Ht & Heq)%list.Exists_exists|Hno].
  - left. apply list_elem_of_split in Ht as (l1 & l2 & ->).
    assert (l1 = []) as ->.
    { destruct l1 as [|y l1]; [done|]. exfalso.
      apply StronglySorted_app in Hs as (_ & _ & Hs).
      apply StronglySorted_inv in Hs as [_ Hy]. rewrite list.Forall_forall in Hy.
      specialize (Hy t ltac:(set_solver)). specialize (Hhi y ltac:(set_solver)). simpl in Hy. lia. }
    exists t, l2. split_and!; [done|apply Hcf; [set_solver|done]|].
    apply StronglySorted_app in Hs as (_ & _ & Hs). apply StronglySorted_inv in Hs as [_ Hy].
    rewrite list.Forall_forall in Hy. intros x Hx. specialize (Hy x Hx). simpl in Hy. lia.
  - right. assert (∀ x, x ∈ hi → key_hash key < n_hash x) as Hgt.
    { intros x Hx. specialize (Hhi x Hx). destruct (decide (n_hash x = key_hash key)); [|lia].
      exfalso. apply Hno. apply list.Exists_exists. by exists x. }
    split; [done|]. apply sl_abs_None. intros x [Hx|Hx]%elem_of_app Hk.
    + specialize (Hlo x Hx). unfold n_hash in Hlo. rewrite Hk in Hlo. lia.
    + specialize (Hgt x Hx). unfold n_hash in Hgt. rewrite Hk in Hgt. lia.
Qed.

Lemma lvl_1 h l ns hi : sl_ok h l ns → (∀ x, x ∈ hi → x ∈ ns) → lvl 1 hi = n_loc <$> hi.
Proof.
  intros Hok Hin. unfold lvl. f_equal. induction hi as [|x hi IH]; [done|].
  rewrite filter_cons, decide_True; [|destruct (sl_ok_nodes _ _ _ Hok x) as (_ & ? & _); [set_solver|lia]].
  f_equal. apply IH. set_solver.
Qed.

(** The cell that all three operations read after descending. *)
Lemma fwd_pred_1 h l lo hi :
  sl_ok h l (lo ++ hi) →
  fwd h (pred l lo 1) 1 = Done (match hi with x :: _ => n_loc x | [] => sl_header l end).
Proof.
  intros Hok. destruct (fwd_pred h l lo hi Hok 1 ltac:(lia)) as (b & rest & Ha & ->).
  unfold after in Ha. rewrite (lvl_1 h l (lo ++ hi) hi Hok) in Ha by set_solver.
  destruct hi; simpl in Ha; by injection Ha as <- _.
Qed.

Lemma skiplist_search_run h l ns key :
  sl_ok h l ns → collision_free ns key → skiplist_search h l key = Done (sl_abs ns !! key).
Proof.
  intros Hok Hcf. pose proof Hcf as [Hmax _].
  destruct (sorted_split ns (key_hash key) (sl_ok_sorted _ _ _ Hok)) as (lo & hi & -> & Hlo & Hhi).
  unfold skiplist_search. fold (key_hash key). cbv zeta.
  rewrite (descend_lt h l lo hi (key_hash key)), bind_Done by (done || lia).
  rewrite (fwd_pred_1 h l lo hi Hok), bind_Done.
  destruct (split_cases _ lo hi key eq_refl Hcf (sl_ok_sorted _ _ _ Hok) Hlo Hhi)
    as [(t & hi' & -> & Hk & Hhi')|[Hgt Hnone]].
  - assert (t ∈ lo ++ t :: hi') as Ht by set_solver.
    rewrite (hash_of_node h l lo (t :: hi') Hok t Ht), bind_Done.
    unfold n_hash. rewrite Hk, Z.eqb_refl, (key_of_node h l lo (t :: hi') Hok t Ht), bind_Done, Hk, strcmp_eq_refl, bind_Done.
    rewrite (fwd_pred_1 h l lo (t :: hi') Hok), bind_Done.
    rewrite (hash_of_node h l lo (t :: hi') Hok t Ht), bind_Done. unfold n_hash. rewrite Hk, Z.eqb_refl.
    by rewrite <-Hk, (sl_abs_lookup h l _ t Hok Ht).
  - rewrite Hnone. assert (∃ b, node_hash h match hi with [] => sl_header l | x :: _ => n_loc x end = Done b ∧
      key_hash key < b) as (b & -> & Hb).
    { destruct hi as [|x hi].
      - exists SKIPLIST_MAX_SIZE. split; [by apply (hash_of_header h l lo [] Hok)|done].
      - exists (n_hash x). split; [apply (hash_of_node h l lo (x :: hi) Hok x); set_solver|].
        apply Hgt. by left. }
    rewrite bind_Done, (proj2 (Z.eqb_neq _ _)) by lia. done.
Qed.

(** [skiplist_search] finds exactly the node stored under the key, whatever
    the heights of the nodes, and returns NULL when there is none; it terminates and
    never follows a NULL link. It needs the hash of the key to be below that of the
    header and not shared with another key of the list. *)
Lemma skiplist_search_correct h l ns key :
  sl_ok h l ns → collision_free ns key → skiplist_search h l key = Done (sl_abs ns !! key).
Proof. apply skiplist_search_run. Qed.

(** ** Splicing a node in and out *)

Lemma lvl_nodup hdr i ns : NoDup (hdr :: (n_loc <$> ns)) → NoDup (hdr :: lvl i ns).
Proof.
  intros Hnd. eapply sublist_NoDup; [exact Hnd|]. apply sublist_skip. unfold lvl.
  clear Hnd. induction ns as [|x ns IH]; [done|]. rewrite filter_cons. case_decide; simpl.
  - by apply sublist_skip.
  - by apply sublist_cons.
Qed.

(** The two loops over [update]. *)
Lemma link_levels_run (p : nat → loc) node len h i :
  (∀ j, (i ≤ j < i + len)%nat → p j ≠ node ∧ (∃ w, fwd h (p j) j = Done w) ∧ ∃ w, fwd h node j = Done w) →
  ∃ h', link_levels h node i (p <$> seq i len) = Done h' ∧ same_shape h h' ∧
    (∀ j, (i ≤ j < i + len)%nat → fwd h' (p j) j = Done node ∧ fwd h' node j = fwd h (p j) j) ∧
    (∀ a j, (j < i ∨ i + len ≤ j)%nat ∨ (a ≠ p j ∧ a ≠ node) → fwd h' a j = fwd h a j).
Proof.
  revert h i. induction len as [|len IH]; intros h i Hp.
  { exists h. split_and!; [done|apply same_shape_refl|lia|done]. }
  cbn [seq fmap list_fmap link_levels].
  destruct (Hp i ltac:(lia)) as (Hne & (w & Hw) & (v & Hv)). rewrite Hw, bind_Done.
  destruct (set_fwd_Done h node i w v Hv) as (h1 & -> & Hs1 & Hn1 & Hf1). rewrite bind_Done.
  destruct (set_fwd_Done h1 (p i) i node w) as (h2 & -> & Hs2 & Hn2 & Hf2); [rewrite Hf1; congruence|].
  rewrite bind_Done.
  assert (∀ a j, j ≠ i → fwd h2 a j = fwd h a j) as Hother.
  { intros a j Hj. by rewrite Hf2, Hf1 by congruence. }
  destruct (IH h2 (S i)) as (h' & -> & Hs & Hin & Hout).
  { intros j Hj. destruct (Hp j ltac:(lia)) as (? & ? & ?). rewrite !Hother by lia. done. }
  exists h'. split_and!; [done|by do 2 (eapply same_shape_trans; [done|])| |].
  - intros j Hj. destruct (decide (j = i)) as [->|].
    + rewrite !Hout by (left; lia). rewrite Hn2, Hw. split; [done|]. rewrite Hf2 by congruence. done.
    + destruct (Hin j ltac:(lia)) as [-> ->]. by rewrite Hother by lia.
  - intros a j Hcase. destruct (decide (j = i)) as [->|].
    + rewrite Hout by (left; lia). destruct Hcase as [|[??]]; [lia|]. by rewrite Hf2, Hf1 by congruence.
    + rewrite Hout, Hother; [done|done|]. destruct Hcase; [left; lia|by right].
Qed.

Lemma unlink_levels_run (p : nat → loc) t ht len h i :
  (i ≤ S ht)%nat → (S ht ≤ i + len)%nat →
  (∀ j, (i ≤ j ≤ ht)%nat → p j ≠ t ∧ fwd h (p j) j = Done t ∧ ∃ w, fwd h t j = Done w) →
  ((S ht < i + len)%nat → ∃ w, fwd h (p (S ht)) (S ht) = Done w ∧ w ≠ t) →
  ∃ h', unlink_levels h t i (p <$> seq i len) = Done h' ∧ same_shape h h' ∧
    (∀ j, (i ≤ j ≤ ht)%nat → fwd h' (p j) j = fwd h t j) ∧
    (∀ a j, (j < i ∨ ht < j)%nat ∨ a ≠ p j → fwd h' a j = fwd h a j).
Proof.
  revert h i. induction len as [|len IH]; intros h i Hi Hlen Hp Hstop.
  { exists h. split_and!; [done|apply same_shape_refl|lia|done]. }
  cbn [seq fmap list_fmap unlink_levels]. destruct (decide (i = S ht)) as [->|Hne].
  { destruct Hstop as (w & -> & ?); [lia|]. rewrite bind_Done, decide_False by done.
    exists h. split_and!; [done|apply same_shape_refl|lia|done]. }
  destruct (Hp i ltac:(lia)) as (Hpt & Hw & (v & Hv)).
  rewrite Hw, bind_Done, decide_True, Hv, bind_Done by done.
  destruct (set_fwd_Done h (p i) i v t Hw) as (h1 & -> & Hs1 & Hn1 & Hf1). rewrite bind_Done.
  assert (∀ a j, j ≠ i → fwd h1 a j = fwd h a j) as Hother by (intros; apply Hf1; congruence).
  destruct (IH h1 (S i)) as (h' & -> & Hs & Hin & Hout); [lia|lia| | |].
  { intros j Hj. destruct (Hp j ltac:(lia)) as (? & ? & ?). by rewrite !Hother by lia. }
  { intros Hlt. rewrite Hother by lia. apply Hstop. lia. }
  exists h'. split_and!; [done|by eapply same_shape_trans| |].
  - intros j Hj. destruct (decide (j = i)) as [->|]; [rewrite Hout by (left; lia); congruence|].
    by rewrite Hin, Hother by lia.
  - intros a j Hcase. destruct (decide (j = i)) as [->|].
    + rewrite Hout by (left; lia). apply Hf1. destruct Hcase; [lia|congruence].
    + rewrite Hout, Hother; [done|done|]. destruct Hcase; [left; lia|by right].
Qed.

(** ** Insertion *)

Lemma rand_level_range coin : (1 ≤ skiplist_rand_level coin SKIPLIST_MAX_LEVELS 0 ≤ 6)%nat.
Proof. unfold SKIPLIST_MAX_LEVELS. simpl. repeat case_match; lia. Qed.

Lemma sorted_insert ns lo hi x :
  ns = lo ++ hi → StronglySorted (λ x y, n_hash x < n_hash y) ns →
  (∀ y, y ∈ lo → n_hash y < n_hash x) → (∀ y, y ∈ hi → n_hash x < n_hash y) →
  StronglySorted (λ x y, n_hash x < n_hash y) (lo ++ x :: hi).
Proof.
  intros -> (Hc & Hs1 & Hs2)%StronglySorted_app Hlo Hhi. apply StronglySorted_app. split_and!; [|done|].
  - intros a b Ha [->|Hb]%elem_of_cons; [by apply Hlo|by apply Hc].
  - constructor; [done|]. apply list.Forall_forall. auto.
Qed.

Lemma sorted_delete lo x hi :
  StronglySorted (λ x y, n_hash x < n_hash y) (lo ++ x :: hi) →
  StronglySorted (λ x y, n_hash x < n_hash y) (lo ++ hi).
Proof.
  intros (Hc & Hs1 & Hs2)%StronglySorted_app. apply StronglySorted_inv in Hs2 as [Hs2 _].
  apply StronglySorted_app. split_and!; [|done..]. intros a b Ha Hb. apply Hc; set_solver.
Qed.

(** Above the level of the list there is only the header. *)
Lemma pred_above h l lo hi i : sl_ok h l (lo ++ hi) → (sl_level l < i)%nat → pred l lo i = sl_header l.
Proof.
  intros Hok Hi. unfold pred. destruct (lvl i lo) as [|a t] eqn:Hl; [done|]. exfalso.
  assert (a ∈ lvl i lo) as (x & Hx & _ & Hh)%elem_of_lvl by (rewrite Hl; by left).
  destruct (sl_ok_nodes _ _ _ Hok x) as (_ & ? & _); [set_solver|lia].
Qed.

Lemma update_full h l lo hi level :
  sl_ok h l (lo ++ hi) →
  take level ((pred l lo <$> seq 1 (sl_level l)) ++ replicate (level - sl_level l) (sl_header l))
  = pred l lo <$> seq 1 level.
Proof.
  intros Hok. assert (replicate (level - sl_level l) (sl_header l)
    = pred l lo <$> seq (1 + sl_level l) (level - sl_level l)) as ->.
  { apply list_eq. intros i. rewrite list_lookup_fmap.
    destruct (decide (i < level - sl_level l)%nat).
    - rewrite lookup_replicate_2, lookup_seq_lt by done. simpl. f_equal. symmetry.
      eapply pred_above; [done|lia].
    - assert (replicate (level - sl_level l) (sl_header l) !! i = None) as ->
        by (apply lookup_replicate_None; lia). by rewrite lookup_seq_ge by lia. }
  rewrite <-fmap_app, <-seq_app, <-fmap_take, take_seq. f_equal. f_equal. lia.
Qed.

Definition inserted (coin : nat → bool) (node : loc) (key : string) : snode :=
  Snode node key (skiplist_rand_level coin SKIPLIST_MAX_LEVELS 0).

Section Insert.
Context (coin : nat → bool) (h : sheap) (l : skiplist) (lo hi : list snode) (key : string) (node : loc).
Context (Hok : sl_ok h l (lo ++ hi)).
Context (Hlo : ∀ x, x ∈ lo → n_hash x < key_hash key) (Hhi : ∀ x, x ∈ hi → key_hash key < n_hash x).
Context (Hmax : key_hash key < SKIPLIST_MAX_SIZE).
Context (Hnode : node ∉ sl_header l :: (n_loc <$> lo ++ hi)).

Let new := inserted coin node key.
Let level := n_height new.
Let h0 : sheap :=
  <[node := SkiplistNode (Some key) (key_hash key) (Some (replicate (level + 1) NULL))]> h.

Lemma fresh_fwd a i : a ≠ node → fwd h0 a i = fwd h a i.
Proof. intros Ha. unfold fwd, h0. by rewrite lookup_insert_ne. Qed.

Lemma fresh_node_fwd i : (i ≤ level)%nat → fwd h0 node i = Done NULL.
Proof.
  intros Hi. apply fwd_Done. unfold h0. eexists _, _. rewrite lookup_insert_eq.
  split_and!; [done..|]. apply lookup_replicate_2. lia.
Qed.

Lemma pred_not_node i : pred l lo i ≠ node.
Proof.
  intros Heq. apply Hnode. rewrite <-Heq. unfold pred. pose proof (lastd_in (sl_header l) (lvl i lo)) as Hin.
  apply elem_of_cons in Hin as [->|(x & ? & <- & _)%elem_of_lvl]; [by left|right].
  apply list_elem_of_fmap. exists x. split; [done|set_solver].
Qed.

Lemma insert_links :
  ∃ h', link_levels h0 node 1 (pred l lo <$> seq 1 level) = Done h' ∧ same_shape h0 h' ∧
    ∀ i, (1 ≤ i ≤ 6)%nat →
      links (cells h' i) (sl_header l :: lvl i (lo ++ new :: hi) ++ [sl_header l]).
Proof.
  pose proof (rand_level_range coin) as Hlv. change (1 ≤ level ≤ 6)%nat in Hlv.
  destruct (link_levels_run (pred l lo) node level h0 1) as (h' & -> & Hs & Hin & Hout).
  { intros i Hi. split_and!; [apply pred_not_node| |exists NULL; apply fresh_node_fwd; lia].
    rewrite fresh_fwd by apply pred_not_node.
    destruct (fwd_pred h l lo hi Hok i ltac:(lia)) as (b & _ & _ & ->). by exists b. }
  exists h'. split_and!; [done..|]. intros i Hi.
  pose proof (links_before h l lo hi Hok i Hi) as Hl.
  pose proof (lvl_nodup _ i _ (sl_ok_locs _ _ _ Hok)) as Hnd. rewrite lvl_app in Hnd |- *.
  assert (∀ a, a ∈ sl_header l :: lvl i lo ++ lvl i hi → a ≠ node) as Hne.
  { intros a Ha ->. apply Hnode. rewrite <-lvl_app in Ha.
    apply elem_of_cons in Ha as [->|(x & ? & <- & _)%elem_of_lvl]; [by left|right].
    apply list_elem_of_fmap. by exists x. }
  unfold lvl at 2. rewrite filter_cons. fold (lvl i hi). rewrite <-app_assoc.
  change (n_height new) with level. case_decide; cbn [fmap list_fmap app].
  - apply (links_splice_in (cells h i) (cells h' i) (sl_header l) (lvl i lo) (lvl i hi) node); [done|done|..].
    + apply Hin. lia.
    + unfold cells. destruct (Hin i ltac:(lia)) as [_ ->]. apply fresh_fwd, pred_not_node.
    + intros a Ha Hap. unfold cells. rewrite Hout by (right; split; [done|by apply Hne]). by apply fresh_fwd, Hne.
  - rewrite app_assoc. apply (links_frame (cells h i) (cells h' i) (sl_header l :: lvl i lo ++ lvl i hi));
      [|cbn [app]; by rewrite <-app_assoc].
    intros a Ha. unfold cells. rewrite Hout by (left; lia). by apply fresh_fwd, Hne.
Qed.

Lemma insert_ok h' :
  same_shape h0 h' →
  (∀ i, (1 ≤ i ≤ 6)%nat → links (cells h' i) (sl_header l :: lvl i (lo ++ new :: hi) ++ [sl_header l])) →
  sl_ok h' (Skiplist (sl_header l) (Nat.max level (sl_level l)) (s32 (sl_size l + 1))) (lo ++ new :: hi).
Proof.
  intros Hs Hlinks. pose proof (rand_level_range coin) as Hlv. change (1 ≤ level ≤ 6)%nat in Hlv.
  apply not_elem_of_cons in Hnode as [Hn1 Hn2]. destruct Hok as [O1 O2 O3 O4 O5 O6 O7].
  split; simpl.
  - apply (same_shape_header h0); [done|]. destruct O1 as (f & Hf & ?). exists f.
    unfold h0. by rewrite lookup_insert_ne.
  - lia.
  - intros x Hx. assert (x = new ∨ x ∈ lo ++ hi) as [->|Hx'] by set_solver.
    + split_and!; [|lia..|done]. apply (same_shape_node h0); [done|].
      eexists. unfold h0. rewrite lookup_insert_eq. split; [done|].
      rewrite length_replicate. change (n_height new) with level. lia.
    + destruct (O3 x Hx') as (Hn & ? & ?). split_and!; [|lia..|done].
      apply (same_shape_node h0); [done|]. destruct Hn as (f & ? & ?). exists f.
      unfold h0. rewrite lookup_insert_ne; [done|]. intros ->. apply Hn2, list_elem_of_fmap. by exists x.
  - rewrite fmap_app. simpl. rewrite fmap_app in O4, Hn2.
    assert (sl_header l :: (n_loc <$> lo) ++ node :: (n_loc <$> hi) ≡ₚ
            node :: sl_header l :: (n_loc <$> lo) ++ (n_loc <$> hi)) as -> by solve_Permutation.
    apply list.NoDup_cons. split; [|done]. set_solver.
  - by eapply sorted_insert.
  - done.
  - rewrite O7, !length_app, s32_add. simpl. f_equal. lia.
Qed.
End Insert.

Lemma sl_abs_insert h l lo hi x :
  sl_ok h l (lo ++ x :: hi) → sl_abs (lo ++ x :: hi) = <[n_key x := n_loc x]> (sl_abs (lo ++ hi)).
Proof.
  intros Hok. unfold sl_abs. rewrite <-list_to_map_cons. apply list_to_map_proper.
  - rewrite <-list_fmap_compose. apply sorted_keys, (sl_ok_sorted _ _ _ Hok).
  - rewrite !fmap_app. simpl. by rewrite Permutation_middle.
Qed.

Lemma skiplist_insert_run coin h l ns key node :
  sl_ok h l ns → collision_free ns key → is_Some (h !! node) →
  node ∉ sl_header l :: (n_loc <$> ns) →
  ∃ h' l' ns', skiplist_insert coin h l key node = Done (h', l', - XFIREDB_OK) ∧ sl_ok h' l' ns' ∧
    match sl_abs ns !! key with
    | Some _ => h' = h ∧ l' = l ∧ ns' = ns
    | None => sl_abs ns' = <[key := node]> (sl_abs ns) ∧ ns' ≡ₚ inserted coin node key :: ns
    end.
Proof.
  intros Hok Hcf [nd Hnd] Hnode. pose proof Hcf as [Hmax _].
  destruct (sorted_split ns (key_hash key) (sl_ok_sorted _ _ _ Hok)) as (lo & hi & -> & Hlo & Hhi).
  unfold skiplist_insert. fold (key_hash key). cbv zeta.
  rewrite (descend_lt h l lo hi (key_hash key)), bind_Done by (done || lia).
  rewrite (fwd_pred_1 h l lo hi Hok), bind_Done.
  destruct (split_cases _ lo hi key eq_refl Hcf (sl_ok_sorted _ _ _ Hok) Hlo Hhi)
    as [(t & hi' & -> & Hk & Hhi')|[Hgt Hnone]].
  - assert (t ∈ lo ++ t :: hi') as Ht by set_solver.
    destruct (sl_ok_nodes _ _ _ Hok t Ht) as ((f & -> & _) & _). cbn [deref].
    rewrite bind_Done. cbn [sn_key]. rewrite Hk, strcmp_eq_refl.
    exists h, l, (lo ++ t :: hi'). split_and!; [done..|].
    by rewrite <-Hk, (sl_abs_lookup h l _ t Hok Ht).
  - rewrite Hnone.
    destruct (insert_links coin h l lo hi key node) as (h' & Hlink & Hs & Hlinks); [done..|].
    assert (∃ c, h !! match hi with [] => sl_header l | x :: _ => n_loc x end = Some c ∧
      match sn_key c with Some k => strcmp_eq k key | None => false end = false) as (c & -> & Hc).
    { destruct hi as [|x hi].
      - destruct (sl_ok_header _ _ _ Hok) as (f & Hf & _). by eexists.
      - destruct (sl_ok_nodes _ _ _ Hok x) as ((f & Hf & _) & _); [set_solver|].
        eexists. split; [exact Hf|]. simpl. apply strcmp_eq_false. intros Hk.
        specialize (Hgt x ltac:(by left)). unfold n_hash in Hgt. rewrite Hk in Hgt. lia. }
    cbn [deref]. rewrite bind_Done, Hc, Hnd. cbn [deref]. rewrite bind_Done.
    rewrite (update_full h l lo hi _ Hok). cbn [n_height inserted] in Hlink.
    rewrite Hlink, bind_Done. eexists _, _, (lo ++ inserted coin node key :: hi). split; [done|].
    pose proof (insert_ok coin h l lo hi key node Hok Hlo Hgt Hmax Hnode h' Hs Hlinks) as Hok'.
    split_and!; [done|by apply (sl_abs_insert _ _ _ _ _ Hok')|by rewrite Permutation_middle].
Qed.

(** C19: inserting a key the list does not hold links the given node under that
    key at every level up to its random height, keeps the list sorted and linked
    back to the header, and adds exactly that key; a key that is already there
    leaves list and node as they are and still returns [-XFIREDB_OK].  The draws of
    the random height are arbitrary. *)
Theorem skiplist_insert_correct coin h l ns key node :
  sl_ok h l ns → collision_free ns key → is_Some (h !! node) →
  node ∉ sl_header l :: (n_loc <$> ns) →
  ∃ h' l' ns', skiplist_insert coin h l key node = Done (h', l', - XFIREDB_OK) ∧ sl_ok h' l' ns' ∧
    match sl_abs ns !! key with
    | Some _ => h' = h ∧ l' = l ∧ ns' = ns
    | None => sl_abs ns' = <[key := node]> (sl_abs ns) ∧ ns' ≡ₚ inserted coin node key :: ns
    end.
Proof. apply skiplist_insert_run. Qed.

(** ** Deletion *)

Section Delete.
Context (h : sheap) (l : skiplist) (lo hi : list snode) (t : snode).
Context (Hok : sl_ok h l (lo ++ t :: hi)).

Let Hnd i : NoDup (sl_header l :: lvl i lo ++ lvl i (t :: hi)).
Proof. rewrite <-lvl_app. apply lvl_nodup, (sl_ok_locs _ _ _ Hok). Qed.

Lemma lvl_target i :
  lvl i (t :: hi) = if decide (i ≤ n_height t)%nat then n_loc t :: lvl i hi else lvl i hi.
Proof. unfold lvl. rewrite filter_cons. by case_decide. Qed.

Lemma target_not_in a : a ∈ sl_header l :: (n_loc <$> lo ++ hi) → a ≠ n_loc t.
Proof.
  intros Ha ->. pose proof (sl_ok_locs _ _ _ Hok) as H. rewrite fmap_app in H. simpl in H.
  rewrite <-Permutation_middle, Permutation_swap in H. apply list.NoDup_cons in H as [H _].
  apply H. rewrite fmap_app in Ha. done.
Qed.

Lemma lvl_locs i a : a ∈ sl_header l :: lvl i lo ++ lvl i hi → a ∈ sl_header l :: (n_loc <$> lo ++ hi).
Proof.
  rewrite <-lvl_app. intros [->|(x & ? & <- & _)%elem_of_lvl]%elem_of_cons; [by left|right].
  apply list_elem_of_fmap. by exists x.
Qed.

Lemma pred_not_target i : pred l lo i ≠ n_loc t.
Proof.
  apply target_not_in, (lvl_locs i). unfold pred. pose proof (lastd_in (sl_header l) (lvl i lo)).
  set_solver.
Qed.

Lemma delete_links :
  ∃ h', unlink_levels h (n_loc t) 1 (pred l lo <$> seq 1 (sl_level l)) = Done h' ∧ same_shape h h' ∧
    ∀ i, (1 ≤ i ≤ 6)%nat → links (cells h' i) (sl_header l :: lvl i (lo ++ hi) ++ [sl_header l]).
Proof.
  destruct (sl_ok_nodes _ _ _ Hok t) as ((f & Hf & Hlen) & Hht & _); [set_solver|].
  pose proof (sl_ok_level _ _ _ Hok) as Hlv.
  destruct (unlink_levels_run (pred l lo) (n_loc t) (n_height t) (sl_level l) h 1)
    as (h' & -> & Hs & Hin & Hout); [lia|lia| | |].
  { intros i Hi. split_and!; [apply pred_not_target| |].
    - destruct (fwd_pred h l lo _ Hok i ltac:(lia)) as (b & rest & Ha & ->). f_equal.
      unfold after in Ha. rewrite lvl_target, decide_True in Ha by lia. by injection Ha.
    - destruct (lookup_lt_is_Some_2 f i) as [w Hw]; [lia|]. exists w. apply fwd_Done. by eexists _, _. }
  { intros Hlt. destruct (fwd_pred h l lo _ Hok (S (n_height t)) ltac:(lia)) as (b & rest & Ha & ->).
    exists b. split; [done|]. unfold after in Ha. rewrite lvl_target, decide_False in Ha by lia.
    apply target_not_in, (lvl_locs (S (n_height t))).
    destruct (lvl (S (n_height t)) hi); simpl in Ha; injection Ha as <- _; set_solver. }
  exists h'. split_and!; [done..|]. intros i Hi.
  pose proof (links_before h l lo _ Hok i Hi) as Hl. unfold before, after in Hl.
  pose proof (Hnd i) as Hnd'. rewrite lvl_target in Hl, Hnd'. rewrite lvl_app, <-app_assoc.
  case_decide.
  - apply (links_splice_out (cells h i) (cells h' i) (sl_header l) (lvl i lo) (lvl i hi) (n_loc t)); [done|done|..].
    + apply Hin. lia.
    + intros a Ha Hap. apply Hout. by right.
  - rewrite app_assoc. apply (links_frame (cells h i) (cells h' i) (sl_header l :: lvl i lo ++ lvl i hi));
      [|cbn [app] in *; by rewrite <-app_assoc].
    intros a Ha. apply Hout. left. lia.
Qed.
End Delete.

Lemma descend_le h l lo hi key :
  sl_ok h l (lo ++ hi) → (∀ x, x ∈ lo → n_hash x < key_hash key) →
  (∀ x, x ∈ hi → key_hash key < n_hash x ∨ n_key x = key) → key_hash key < SKIPLIST_MAX_SIZE →
  descend (λ i, walk_le (walk_fuel h) h i (key_hash key) key) (sl_level l) (sl_header l)
  = Done (pred l lo 1, pred l lo <$> seq 1 (sl_level l)).
Proof.
  intros Hok Hlo Hhi Hmax. pose proof (sl_ok_level _ _ _ Hok) as Hlv.
  assert (∀ x, x ∈ hi → key_hash key ≤ n_hash x) as Hge.
  { intros x Hx. destruct (Hhi x Hx) as [|Hk]; [lia|]. unfold n_hash. rewrite Hk. lia. }
  apply (descend_run _ (pred l lo) (before l lo)); [|intros; apply pred_below|lia|by left].
  intros j a Hj Ha.
  destruct (links_from h l lo hi (key_hash key) Hok Hlo Hge (Z.lt_le_incl _ _ Hmax) j a ltac:(lia) Ha)
    as (xs & Hl & <- & Hxs & Hlen).
  destruct (after_head l hi j) as (b & rest & Hb & Hcase). rewrite Hb in Hl.
  eapply walk_le_run; [exact Hl|exact Hxs| |pose proof (fuel_enough h l lo hi Hok); lia].
  destruct Hcase as [->|(x & Hx & <-)].
  - exists SKIPLIST_MAX_SIZE. split; [by apply (hash_of_header h l lo hi)|by left].
  - exists (n_hash x). split; [apply (hash_of_node h l lo hi Hok x); set_solver|].
    destruct (Hhi x Hx) as [|Hk]; [by left|right]. unfold n_hash. rewrite Hk. split; [done|].
    rewrite <-Hk. apply (key_of_node h l lo hi Hok x). set_solver.
Qed.

Lemma max_list_with_le ns n : (∀ x, x ∈ ns → n_height x ≤ n)%nat → (max_list_with n_height ns ≤ n)%nat.
Proof.
  induction ns as [|x ns IH]; cbn; [lia|]. intros Hns. pose proof (Hns x ltac:(by left)).
  assert (max_list_with n_height ns ≤ n)%nat by (apply IH; intros y Hy; apply Hns; by right). lia.
Qed.

Lemma top_level_ge ns x : x ∈ ns → (n_height x ≤ top_level ns)%nat.
Proof.
  unfold top_level. induction ns as [|y ns IH]; [by intros ?%not_elem_of_nil|]. cbn.
  intros [->|Hx]%elem_of_cons; [lia|specialize (IH Hx); lia].
Qed.

Lemma top_level_eq ns n :
  (1 ≤ n)%nat → (∀ x, x ∈ ns → n_height x ≤ n)%nat → n = 1%nat ∨ (∃ x, x ∈ ns ∧ (n ≤ n_height x)%nat) → n = top_level ns.
Proof.
  intros H1 Hns Hn. pose proof (max_list_with_le ns n Hns). unfold top_level. destruct Hn as [->|(x & Hx & Hle)]; [lia|].
  pose proof (top_level_ge ns x Hx). unfold top_level in *. lia.
Qed.

Lemma lower_level_ok h hdr ns level :
  NoDup (hdr :: (n_loc <$> ns)) → (1 ≤ level ≤ 6)%nat → (∀ x, x ∈ ns → n_height x ≤ level)%nat →
  (∀ i, (1 ≤ i ≤ 6)%nat → links (cells h i) (hdr :: lvl i ns ++ [hdr])) →
  lower_level h hdr level = Done (top_level ns).
Proof.
  intros Hnd. induction level as [|level IH]; [lia|]. intros Hlv Hns Hl. cbn [lower_level].
  case_decide; [|f_equal; apply top_level_eq; [lia|done|left; lia]].
  pose proof (Hl (S level) ltac:(lia)) as Hll. pose proof (lvl_nodup _ (S level) _ Hnd) as Hnd'.
  destruct (lvl (S level) ns) as [|a t] eqn:Ha; simpl in Hll; destruct Hll as [Hfw _];
    rewrite (Hfw : fwd h hdr (S level) = _), bind_Done.
  - rewrite decide_True by done. apply IH; [lia| |done].
    intros x Hx. specialize (Hns x Hx). destruct (decide (n_height x = S level)); [|lia].
    assert (n_loc x ∈ lvl (S level) ns) as Hin by (apply elem_of_lvl; exists x; split_and!; [done..|lia]).
    rewrite Ha in Hin. by apply not_elem_of_nil in Hin.
  - apply list.NoDup_cons in Hnd' as [Hnin _]. rewrite decide_False by (intros ->; apply Hnin; by left).
    f_equal. apply top_level_eq; [lia|done|right]. assert (a ∈ lvl (S level) ns) as (x & Hx & _ & ?)%elem_of_lvl by (rewrite Ha; by left).
    by exists x.
Qed.

Lemma same_shape_lookup h h' n nd :
  same_shape h h' → h !! n = Some nd → ∃ nd', h' !! n = Some nd' ∧ sn_hash nd' = sn_hash nd.
Proof.
  intros Hs Hn. specialize (Hs n). rewrite Hn in Hs. destruct (h' !! n) as [nd'|]; [|done].
  exists nd'. split; [done|]. by destruct Hs as (_ & -> & _).
Qed.

Lemma delete_target_ok h l lo hi t h' :
  sl_ok h l (lo ++ t :: hi) → same_shape h h' →
  (∀ i, (1 ≤ i ≤ 6)%nat → links (cells h' i) (sl_header l :: lvl i (lo ++ hi) ++ [sl_header l])) →
  ∃ h'', skiplist_node_destroy h' (n_loc t) = Done h'' ∧
    lower_level h'' (sl_header l) (sl_level l) = Done (top_level (lo ++ hi)) ∧
    h'' !! n_loc t = Some (SkiplistNode None (n_hash t) None) ∧
    sl_ok h'' (Skiplist (sl_header l) (top_level (lo ++ hi)) (s32 (sl_size l - 1))) (lo ++ hi).
Proof.
  intros Hok Hs Hlinks. pose proof (target_not_in h l lo hi t Hok) as Hne.
  destruct (sl_ok_nodes _ _ _ Hok t) as ((f & Hf & _) & _); [set_solver|].
  destruct (same_shape_lookup _ _ _ _ Hs Hf) as (nd' & Hnd' & Hhash). simpl in Hhash.
  unfold skiplist_node_destroy. rewrite Hnd'. cbn [deref]. rewrite bind_Done, Hhash.
  set (h2 := <[n_loc t := _]> h').
  assert (∀ a i, a ≠ n_loc t → fwd h2 a i = fwd h' a i) as Hf2.
  { intros a i Ha. unfold fwd, h2. by rewrite lookup_insert_ne. }
  assert (∀ i, (1 ≤ i ≤ 6)%nat → links (cells h2 i) (sl_header l :: lvl i (lo ++ hi) ++ [sl_header l])) as Hlinks2.
  { intros i Hi. apply (links_frame (cells h' i) (cells h2 i) (sl_header l :: lvl i (lo ++ hi))); [|by apply Hlinks].
    intros a Ha. rewrite lvl_app in Ha. by apply Hf2, Hne, (lvl_locs l lo hi i). }
  destruct Hok as [O1 O2 O3 O4 O5 O6 O7].
  assert (NoDup (sl_header l :: (n_loc <$> lo ++ hi))) as Hnd.
  { rewrite fmap_app in O4 |- *. simpl in O4. rewrite <-Permutation_middle, Permutation_swap in O4.
    by apply list.NoDup_cons in O4 as [_ ?]. }
  assert (∀ x, x ∈ lo ++ hi → n_height x ≤ sl_level l)%nat as Hns.
  { intros x Hx. destruct (O3 x) as (_ & ? & _); [set_solver|lia]. }
  pose proof (lower_level_ok h2 (sl_header l) (lo ++ hi) (sl_level l) Hnd ltac:(lia) Hns Hlinks2) as Hlow.
  pose proof (max_list_with_le _ _ Hns) as Htop.
  exists h2. split_and!; [done|done|by unfold h2; rewrite lookup_insert_eq|].
  split; simpl; [| |..|done|].
  - destruct (same_shape_header h h' _ Hs O1) as (f' & ? & ?). exists f'. split; [|done].
    unfold h2. rewrite lookup_insert_ne; [done|]. apply not_eq_sym, Hne. by left.
  - unfold top_level. lia.
  - intros x Hx. destruct (O3 x) as (Hx1 & Hx2 & Hx3); [set_solver|].
    split_and!; [|lia|by apply top_level_ge|done].
    destruct (same_shape_node h h' x Hs Hx1) as (f' & ? & ?). exists f'. split; [|done].
    unfold h2. rewrite lookup_insert_ne; [done|]. apply not_eq_sym, Hne. right.
    apply list_elem_of_fmap. by exists x.
  - done.
  - by eapply sorted_delete.
  - rewrite O7. replace (s32 _ - 1) with (s32 (Z.of_nat (length (lo ++ t :: hi))) + -1) by lia.
    rewrite s32_add, !length_app. simpl. f_equal. lia.
Qed.

Lemma skiplist_delete_run h l ns key :
  sl_ok h l ns → collision_free ns key →
  ∃ h' l' ns' rv, skiplist_delete h l key = Done (h', l', rv) ∧ sl_ok h' l' ns' ∧
    sl_abs ns' = delete key (sl_abs ns) ∧
    match sl_abs ns !! key with
    | Some n => rv = - XFIREDB_OK ∧ length ns = S (length ns') ∧ sl_level l' = top_level ns' ∧
        h' !! n = Some (SkiplistNode None (key_hash key) None)
    | None => rv = - XFIREDB_ERR ∧ h' = h ∧ l' = l ∧ ns' = ns
    end.
Proof.
  intros Hok Hcf. pose proof Hcf as [Hmax _]. pose proof (sl_ok_sorted _ _ _ Hok) as Hsort.
  destruct (sorted_split ns (key_hash key) Hsort) as (lo & hi & -> & Hlo & Hhi).
  unfold skiplist_delete. fold (key_hash key). cbv zeta.
  destruct (split_cases _ lo hi key eq_refl Hcf Hsort Hlo Hhi)
    as [(t & hi' & -> & Hk & Hhi')|[Hgt Hnone]].
  - assert (t ∈ lo ++ t :: hi') as Ht by set_solver.
    rewrite (descend_le h l lo (t :: hi') key Hok Hlo), bind_Done; [|set_solver|done].
    rewrite (fwd_pred_1 h l lo _ Hok), bind_Done, (hash_of_node h l lo _ Hok t Ht), bind_Done.
    pose proof (sl_abs_lookup h l _ t Hok Ht) as Habs. rewrite Hk in Habs. rewrite Habs.
    assert (n_hash t = key_hash key) as Hh by (unfold n_hash; by rewrite Hk).
    rewrite Hh, Z.eqb_refl. destruct (sl_ok_nodes _ _ _ Hok t Ht) as ((f & -> & _) & _).
    cbn [deref]. rewrite bind_Done. cbn [sn_key]. rewrite Hk, strcmp_eq_refl.
    destruct (delete_links h l lo hi' t Hok) as (h' & -> & Hs & Hlinks). rewrite bind_Done.
    destruct (delete_target_ok h l lo hi' t h' Hok Hs Hlinks) as (h'' & -> & Hlow & Hcell & Hok').
    rewrite bind_Done, Hlow, bind_Done. eexists _, _, (lo ++ hi'), _. split_and!; [done|done| |done| |done|by rewrite <-Hh].
    + rewrite (sl_abs_insert h l lo hi' t Hok), Hk, delete_insert_id; [done|].
      apply sl_abs_None. intros x Hx Hxk.
      apply elem_of_app in Hx as [Hx|Hx]; [specialize (Hlo x Hx)|specialize (Hhi' x Hx)];
        unfold n_hash in *; rewrite Hxk in *; lia.
    + rewrite !length_app. simpl. lia.
  - rewrite (descend_le h l lo hi key Hok Hlo), bind_Done; [|intros; left; by apply Hgt|done].
    rewrite (fwd_pred_1 h l lo _ Hok), bind_Done, Hnone.
    assert (∃ b, node_hash h match hi with [] => sl_header l | x :: _ => n_loc x end = Done b ∧
      key_hash key < b) as (b & -> & Hb).
    { destruct hi as [|x hi].
      - exists SKIPLIST_MAX_SIZE. split; [by apply (hash_of_header h l lo [] Hok)|done].
      - exists (n_hash x). split; [apply (hash_of_node h l lo (x :: hi) Hok x); set_solver|].
        apply Hgt. by left. }
    rewrite bind_Done, (proj2 (Z.eqb_neq _ _)) by lia.
    eexists _, _, _, _. split_and!; [done|done| |done..]. symmetry. by apply delete_id.
Qed.

(** C20: deleting a key unlinks its node at every level it is linked at, clears the
    node, lowers the level of the list past every level that is empty, so that it is the
    height of the highest node that is left (or 1), and removes exactly that key; for a
    key that is not there the call returns [-XFIREDB_ERR] and changes nothing.  The list
    is well formed, and the hash of the key is neither the header's nor that of another
    key in the list. *)
Theorem skiplist_delete_correct h l ns key :
  sl_ok h l ns → collision_free ns key →
  ∃ h' l' ns' rv, skiplist_delete h l key = Done (h', l', rv) ∧ sl_ok h' l' ns' ∧
    sl_abs ns' = delete key (sl_abs ns) ∧
    match sl_abs ns !! key with
    | Some n => rv = - XFIREDB_OK ∧ length ns = S (length ns') ∧ sl_level l' = top_level ns' ∧
        h' !! n = Some (SkiplistNode None (key_hash key) None)
    | None => rv = - XFIREDB_ERR ∧ h' = h ∧ l' = l ∧ ns' = ns
    end.
Proof. apply skiplist_delete_run. Qed.

(** ** Iteration *)

Lemma sl_ok_frame h h' l ns :
  (∀ a, a ∈ sl_header l :: (n_loc <$> ns) → h' !! a = h !! a) → sl_ok h l ns → sl_ok h' l ns.
Proof.
  intros Hf [O1 O2 O3 O4 O5 O6 O7]. split; try done.
  - destruct O1 as (f & ? & ?). exists f. by rewrite Hf by (by left).
  - intros x Hx. destruct (O3 x Hx) as ((f & ? & ?) & ? & ?). split; [|done]. exists f.
    rewrite Hf; [done|]. right. apply list_elem_of_fmap. by exists x.
  - intros i Hi. apply (links_frame (cells h i) (cells h' i) (sl_header l :: lvl i ns)); [|by apply O6].
    intros a Ha. unfold cells, fwd. rewrite Hf; [done|].
    apply elem_of_cons in Ha as [->|(x & ? & <- & _)%elem_of_lvl]; [by left|right].
    apply list_elem_of_fmap. by exists x.
Qed.

Lemma iterator_next_at h l seen rest prev :
  sl_ok h l (seen ++ rest) →
  let c := lastd (sl_header l) (n_loc <$> seen) in
  skiplist_iterator_next h l (SkiplistIterator (Some c) prev)
  = Done (SkiplistIterator (n_loc <$> head rest) (Some c), n_loc <$> head rest).
Proof.
  intros Hok c. unfold skiplist_iterator_next. cbn [si_current deref]. rewrite bind_Done.
  pose proof (fwd_pred_1 h l seen rest Hok) as Hp. unfold pred in Hp.
  rewrite (lvl_1 h l (seen ++ rest) seen Hok) in Hp by set_solver. fold c in Hp. rewrite Hp, bind_Done.
  destruct rest as [|x rest]; [by rewrite decide_True|]. rewrite decide_False; [done|].
  pose proof (sl_ok_locs _ _ _ Hok) as Hnd. apply list.NoDup_cons in Hnd as [Hnd _].
  intros Heq. apply Hnd. rewrite <-Heq, fmap_app. simpl. set_solver.
Qed.

(** The client's loop: [while((node = skiplist_iterator_next(it)) != NULL)]. *)
Fixpoint skiplist_drain (fuel : nat) (h : sheap) (l : skiplist) (it : skiplist_iterator) : outcome (list loc) :=
  match fuel with
  | O => OutOfFuel
  | S fuel' =>
      '(it, n) ← skiplist_iterator_next h l it;
      match n with
      | None => Done []
      | Some n => ns ← skiplist_drain fuel' h l it; Done (n :: ns)
      end
  end.

Lemma skiplist_drain_run h l seen rest prev fuel :
  sl_ok h l (seen ++ rest) → (length rest < fuel)%nat →
  skiplist_drain fuel h l (SkiplistIterator (Some (lastd (sl_header l) (n_loc <$> seen))) prev)
  = Done (n_loc <$> rest).
Proof.
  revert seen prev fuel. induction rest as [|x rest IH]; intros seen prev [|fuel] Hok Hf; try (simpl in Hf; lia);
    cbn [skiplist_drain]; rewrite (iterator_next_at h l seen _ prev Hok), bind_Done; [done|]. simpl.
  pose proof (IH (seen ++ [x]) (Some (lastd (sl_header l) (n_loc <$> seen))) fuel) as IH'.
  rewrite <-app_assoc in IH'. specialize (IH' Hok ltac:(simpl in Hf; lia)).
  rewrite fmap_app in IH'. simpl in IH'. rewrite lastd_app in IH'. unfold lastd at 1 in IH'. simpl in IH'.
  by rewrite IH'.
Qed.

(** Iterating over a list that does not change returns each node exactly once
    in the order of the hashes, then NULL. *)
Lemma skiplist_iteration h l ns :
  sl_ok h l ns →
  skiplist_drain (S (length ns)) h l (skiplist_iterator_new l) = Done (n_loc <$> ns) ∧
  NoDup (n_loc <$> ns) ∧ StronglySorted (λ x y, n_hash x < n_hash y) ns.
Proof.
  intros Hok. split_and!; [|by pose proof (sl_ok_locs _ _ _ Hok) as [_ ?]%list.NoDup_cons|apply (sl_ok_sorted _ _ _ Hok)].
  apply (skiplist_drain_run h l [] ns (Some (sl_header l))); [done|lia].
Qed.
