(* ===== verification/SkiplistRuns.v ===== *)
(** * Concrete skip lists

    The theorems of [SkiplistSpec] at a list of three nodes of different heights,
    and what [storage/skiplist.c] does, in any list, with keys outside their hypotheses:
    two keys with the same hash, and a key with the hash of the header. *)
From S2P Require Import Prelude Murmur Chain Skiplist SkiplistSpec.
From stdpp Require Import sorting.
Local Open Scope Z_scope.

(** Coins for a node of the given height. *)
Definition coin_for (height : nat) : nat → bool := λ i, (i <? height)%nat.

(** Allocate nodes at the addresses given and insert them in order. *)
Fixpoint insert_all (ins : list (string * loc * nat)) (h : sheap) (l : skiplist) : outcome (sheap * skiplist) :=
  match ins with
  | [] => Done (h, l)
  | (key, node, height) :: ins =>
      '(h, l, _) ← skiplist_insert (coin_for height) (<[node := node_zero]> h) l key node;
      insert_all ins h l
  end.
Definition built (ins : list (string * loc * nat)) : outcome (sheap * skiplist) :=
  let '(h, l) := skiplist_init ∅ 10 in insert_all ins h l.

Definition three : list (string * loc * nat) := [("key1", 21, 2%nat); ("key2", 22, 1%nat); ("key3", 23, 3%nat)].
Definition sh3 : sheap := match built three with Done (h, _) => h | _ => ∅ end.
Definition sl3 : skiplist := match built three with Done (_, l) => l | _ => Skiplist 0 0 0 end.

(** The nodes in the order of their hashes. *)
Definition ns3 : list snode := [Snode 23 "key3" 3; Snode 21 "key1" 2; Snode 22 "key2" 1].

Lemma skiplist_init_ok h hdr :
  let '(h', l) := skiplist_init h hdr in sl_ok h' l [] ∧ sl_header l = hdr.
Proof.
  split; [|done]. split; simpl; try done.
  - eexists. rewrite lookup_insert_eq. split; [done|done].
  - lia.
  - intros x Hx. by apply not_elem_of_nil in Hx.
  - apply list.NoDup_singleton.
  - constructor.
  - intros i Hi. split; [|done]. apply fwd_Done. eexists _, _. rewrite lookup_insert_eq.
    split_and!; [done..|]. apply (lookup_replicate_2 7). lia.
Qed.

Ltac by_compute := vm_compute; first [reflexivity|discriminate].
Ltac three_nodes Hx := repeat (apply elem_of_cons in Hx as [->|Hx]); [..|by apply not_elem_of_nil in Hx].

Lemma sl3_ok : sl_ok sh3 sl3 ns3.
Proof.
  split.
  - eexists. split; vm_compute; reflexivity.
  - vm_compute. lia.
  - intros x Hx. three_nodes Hx; (split; [eexists; split; vm_compute; reflexivity|]);
      (split; [vm_compute; lia|by_compute]).
  - decide_by_compute.
  - repeat constructor; by_compute.
  - intros i Hi. do 7 (destruct i as [|i]; [first [lia|vm_compute; repeat split]|]). lia.
  - vm_compute. reflexivity.
Qed.

Lemma cf3 key : key ∈ ["key1"; "key2"; "key3"; "key4"] → collision_free ns3 key.
Proof.
  assert (Forall (λ k, key_hash k < SKIPLIST_MAX_SIZE ∧ Forall (λ x, n_hash x = key_hash k → n_key x = k) ns3) ["key1"; "key2"; "key3"; "key4"])
    as H by decide_by_compute.
  rewrite Forall_forall in H. intros Hk. destruct (H key Hk) as [H0 Hx]. rewrite Forall_forall in Hx. by split.
Qed.

Lemma skiplist_search_correct_witness :
  skiplist_search sh3 sl3 "key1" = Done (sl_abs ns3 !! "key1") ∧ sl_abs ns3 !! "key1" = Some 21.
Proof.
  split; [|vm_compute; reflexivity].
  apply (skiplist_search_correct sh3 sl3 ns3 "key1"); [exact sl3_ok|apply cf3; decide_by_compute].
Defined.

Lemma skiplist_insert_correct_witness :
  ∃ h' l' ns', skiplist_insert (coin_for 4) (<[24 := node_zero]> sh3) sl3 "key4" 24
      = Done (h', l', - XFIREDB_OK) ∧ sl_ok h' l' ns' ∧
    match sl_abs ns3 !! "key4" with
    | Some _ => h' = <[24 := node_zero]> sh3 ∧ l' = sl3 ∧ ns' = ns3
    | None => sl_abs ns' = <["key4" := 24]> (sl_abs ns3) ∧ ns' ≡ₚ inserted (coin_for 4) 24 "key4" :: ns3
    end.
Proof.
  apply (skiplist_insert_correct (coin_for 4) (<[24 := node_zero]> sh3) sl3 ns3 "key4" 24).
  - apply (sl_ok_frame sh3); [|exact sl3_ok]. intros a Ha. apply lookup_insert_ne. intros <-.
    revert Ha. decide_by_compute.
  - apply cf3. decide_by_compute.
  - rewrite lookup_insert_eq. by exists node_zero.
  - decide_by_compute.
Defined.

Lemma skiplist_delete_correct_witness :
  ∃ h' l' ns' rv, skiplist_delete sh3 sl3 "key3" = Done (h', l', rv) ∧ sl_ok h' l' ns' ∧
    sl_abs ns' = delete "key3" (sl_abs ns3) ∧
    match sl_abs ns3 !! "key3" with
    | Some n => rv = - XFIREDB_OK ∧ length ns3 = S (length ns') ∧ sl_level l' = top_level ns' ∧
        h' !! n = Some (SkiplistNode None (key_hash "key3") None)
    | None => rv = - XFIREDB_ERR ∧ h' = sh3 ∧ l' = sl3 ∧ ns' = ns3
    end.
Proof.
  apply (skiplist_delete_correct sh3 sl3 ns3 "key3"); [exact sl3_ok|apply cf3; decide_by_compute].
Defined.

Lemma skiplist_iteration_witness :
  skiplist_drain (S (length ns3)) sh3 sl3 (skiplist_iterator_new sl3) = Done (n_loc <$> ns3) ∧
  NoDup (n_loc <$> ns3) ∧ StronglySorted (λ x y, n_hash x < n_hash y) ns3.
Proof. apply (skiplist_iteration sh3 sl3 ns3), sl3_ok. Defined.

(** ** Keys outside the hypotheses *)

(** The loops that compare keys run over the nodes and reach the header, which has none. *)
Lemma walk_key_absent fuel h hdr key a xs :
  links (cells h 1) (a :: xs ++ [hdr]) → (∀ x, x ∈ xs → ∃ k, node_key h x = Done k ∧ k ≠ key) →
  node_key h hdr = Stuck → (length xs < fuel)%nat → walk_key fuel h key a = Stuck.
Proof.
  revert a xs. induction fuel as [|fuel IH]; intros a xs Hl Hxs Hh Hf; [lia|]. cbn [walk_key].
  destruct xs as [|x xs]; destruct Hl as [Hn Hl]; rewrite (Hn : fwd h a 1 = _), bind_Done; [by rewrite Hh|].
  destruct (Hxs x) as (k & Hk & Hne); [by left|]. rewrite Hk, bind_Done, (proj2 (strcmp_eq_false _ _)) by done.
  apply (IH x xs); [done| |done|simpl in Hf; lia]. intros y Hy. apply Hxs. by right.
Qed.

Lemma walk_le_header fuel h hdr i key a xs :
  links (cells h i) (a :: xs ++ [hdr]) → (∀ x, x ∈ xs → ∃ hx, node_hash h x = Done hx ∧ hx < SKIPLIST_MAX_SIZE) →
  node_hash h hdr = Done SKIPLIST_MAX_SIZE → node_key h hdr = Stuck → (length xs < fuel)%nat →
  walk_le fuel h i SKIPLIST_MAX_SIZE key a = Stuck.
Proof.
  revert a xs. induction fuel as [|fuel IH]; intros a xs Hl Hxs Hhh Hh Hf; [lia|]. cbn [walk_le].
  destruct xs as [|x xs]; destruct Hl as [Hn Hl]; rewrite (Hn : fwd h a i = _), bind_Done.
  - by rewrite Hhh, bind_Done, Z.leb_refl, Z.eqb_refl, Hh.
  - destruct (Hxs x) as (hx & Hx & Hlt); [by left|].
    rewrite Hx, bind_Done, (proj2 (Z.leb_le _ _)), (proj2 (Z.eqb_neq _ _)), bind_Done by lia.
    apply (IH x xs); [done| |done..|simpl in Hf; lia]. intros y Hy. apply Hxs. by right.
Qed.

Lemma header_key h l ns : sl_ok h l ns → node_key h (sl_header l) = Stuck.
Proof. intros Hok. destruct (sl_ok_header _ _ _ Hok) as (f & Hf & _). unfold node_key. by rewrite Hf. Qed.

(** The nodes behind the hash of a key, from [forward[1]] of the last one before it. *)
Lemma links_behind h l lo hi :
  sl_ok h l (lo ++ hi) → links (cells h 1) (SkiplistSpec.pred l lo 1 :: (n_loc <$> hi) ++ [sl_header l]).
Proof.
  intros Hok. pose proof (links_before h l lo hi Hok 1 ltac:(lia)) as Hl. unfold before, after, SkiplistSpec.pred in *.
  destruct (before_split (sl_header l) (lvl 1 lo)) as (l1 & Heq). rewrite Heq, <-app_assoc in Hl. cbn [app] in Hl.
  apply links_app in Hl as [_ Hl]. by rewrite (lvl_1 h l (lo ++ hi) hi Hok) in Hl by set_solver.
Qed.

Lemma search_collision h l ns x key :
  sl_ok h l ns → x ∈ ns → n_hash x = key_hash key → (∀ y, y ∈ ns → n_key y ≠ key) → skiplist_search h l key = Stuck.
Proof.
  intros Hok Hx Hh Hno. destruct (sorted_split ns (key_hash key) (sl_ok_sorted _ _ _ Hok)) as (lo & hi & -> & Hlo & Hhi).
  destruct (sl_ok_nodes _ _ _ Hok x Hx) as (_ & _ & Hmax). rewrite Hh in Hmax.
  unfold skiplist_search. fold (key_hash key). cbv zeta.
  rewrite (descend_lt h l lo hi (key_hash key)), bind_Done by (done || lia). rewrite (fwd_pred_1 h l lo hi Hok), bind_Done.
  pose proof (links_behind h l lo hi Hok) as Hl. destruct hi as [|y hi].
  { rewrite app_nil_r in *. specialize (Hlo x Hx). lia. }
  assert (n_hash y = key_hash key) as Hy.
  { apply elem_of_app in Hx as [Hx|Hx]; [specialize (Hlo x Hx); lia|]. apply elem_of_cons in Hx as [->|Hx]; [done|].
    pose proof (sl_ok_sorted _ _ _ Hok) as Hs. apply StronglySorted_app in Hs as (_ & _ & Hs). apply StronglySorted_inv in Hs as [_ Hs].
    rewrite list.Forall_forall in Hs. specialize (Hs x Hx). simpl in Hs. specialize (Hhi y ltac:(by left)). lia. }
  rewrite (hash_of_node h l lo _ Hok y), bind_Done, Hy, Z.eqb_refl by set_solver.
  rewrite (key_of_node h l lo _ Hok y), bind_Done, (proj2 (strcmp_eq_false _ _)) by (apply Hno || idtac; set_solver).
  rewrite (walk_key_absent _ h (sl_header l) key _ (n_loc <$> y :: hi)); [done|done| |by eapply header_key|].
  - intros a (z & -> & Hz)%list_elem_of_fmap. exists (n_key z). split; [apply (key_of_node h l lo _ Hok); set_solver|apply Hno; set_solver].
  - pose proof (fuel_enough h l [] (lo ++ y :: hi) Hok) as Hf. pose proof (fuel_enough h l (lo ++ y :: hi) []) as Hf2.
    rewrite app_nil_r in Hf2. specialize (Hf2 Hok). rewrite length_fmap. rewrite length_app in Hf2. lia.
Qed.

Lemma header_hash_stuck h l ns key :
  sl_ok h l ns → key_hash key = SKIPLIST_MAX_SIZE →
  skiplist_search h l key = Stuck ∧ skiplist_delete h l key = Stuck.
Proof.
  intros Hok Hk. assert (∀ x, x ∈ ns → n_hash x < SKIPLIST_MAX_SIZE) as Hns by (intros x Hx; by destruct (sl_ok_nodes _ _ _ Hok x Hx) as (_ & _ & ?)).
  pose proof (header_key h l ns Hok) as Hh. rewrite <-(app_nil_r ns) in Hok. pose proof (hash_of_header h l ns [] Hok) as Hhh.
  pose proof (fuel_enough h l ns [] Hok) as Hf. pose proof (sl_ok_level _ _ _ Hok) as Hlv. split.
  - unfold skiplist_search. fold (key_hash key). cbv zeta. rewrite Hk.
    rewrite (descend_lt h l ns [] SKIPLIST_MAX_SIZE Hok Hns), bind_Done by first [by intros ? ?%not_elem_of_nil|done].
    rewrite (fwd_pred_1 h l ns [] Hok), bind_Done, Hhh, bind_Done, Z.eqb_refl. by rewrite Hh.
  - unfold skiplist_delete. fold (key_hash key). cbv zeta. rewrite Hk.
    destruct (sl_level l) as [|i] eqn:Hi; [lia|]. cbn [descend].
    destruct (links_from h l ns [] SKIPLIST_MAX_SIZE Hok Hns ltac:(by intros ? ?%not_elem_of_nil) ltac:(done) (S i) (sl_header l)) as (xs & Hl & _ & Hxs & Hlen);
      [lia|by left|].
    unfold after in Hl. cbn in Hl. rewrite (walk_le_header _ h (sl_header l) (S i) key _ xs); [done|done..|lia].
Qed.

(** C34: outside [collision_free] the list does not hold its contract.  In every
    well-formed list, whatever its nodes, their heights and the level: searching for a key
    that is not there but has the hash of a key that is runs past the last node and
    compares the key of the header, which is NULL; and so do searching for and deleting a
    key whose hash is the header's, even in an empty list. *)
Theorem skiplist_collisions h l ns key :
  sl_ok h l ns → (∀ y, y ∈ ns → n_key y ≠ key) →
  ((∃ x, x ∈ ns ∧ n_hash x = key_hash key) → skiplist_search h l key = Stuck) ∧
  (key_hash key = SKIPLIST_MAX_SIZE → skiplist_search h l key = Stuck ∧ skiplist_delete h l key = Stuck).
Proof.
  intros Hok Hno. split; [intros (x & Hx & Hh); by eapply search_collision|by apply (header_hash_stuck h l ns)].
Qed.

(** A list that holds ["jd8"]; ["1tj0"] has the same hash.  The hash of ["sudutta"] is the
    one of the header. *)
Definition sh_jd8 : sheap := match built [("jd8", 21, 1%nat)] with Done (h, _) => h | _ => ∅ end.
Definition sl_jd8 : skiplist := match built [("jd8", 21, 1%nat)] with Done (_, l) => l | _ => Skiplist 0 0 0 end.

Lemma sl_jd8_ok : sl_ok sh_jd8 sl_jd8 [Snode 21 "jd8" 1].
Proof.
  split.
  - eexists. split; vm_compute; reflexivity.
  - vm_compute. lia.
  - intros x Hx. three_nodes Hx; (split; [eexists; split; vm_compute; reflexivity|]); (split; [vm_compute; lia|by_compute]).
  - decide_by_compute.
  - repeat constructor; by_compute.
  - intros i Hi. do 7 (destruct i as [|i]; [first [lia|vm_compute; repeat split]|]). lia.
  - vm_compute. reflexivity.
Qed.

Lemma skiplist_collisions_witness :
  skiplist_search sh_jd8 sl_jd8 "1tj0" = Stuck ∧ skiplist_search sh_jd8 sl_jd8 "sudutta" = Stuck ∧
  skiplist_delete sh_jd8 sl_jd8 "sudutta" = Stuck.
Proof.
  split.
  - refine (proj1 (skiplist_collisions sh_jd8 sl_jd8 [Snode 21 "jd8" 1] "1tj0" sl_jd8_ok _) _).
    + intros y Hy. three_nodes Hy. discriminate.
    + exists (Snode 21 "jd8" 1). split; [by left|vm_compute; reflexivity].
  - refine (proj2 (skiplist_collisions sh_jd8 sl_jd8 [Snode 21 "jd8" 1] "sudutta" sl_jd8_ok _) _).
    + intros y Hy. three_nodes Hy. discriminate.
    + vm_compute. reflexivity.
Defined.

(** Two keys with one hash, in runs: with both in it the list takes ["jd8"] a second time;
    and with ["1tj0"] in front on a lower level, deleting it fails although it is there. *)
Example collision_runs :
  ('(h, l) ← built [("jd8", 21, 1%nat); ("1tj0", 22, 1%nat); ("jd8", 23, 1%nat)];
   skiplist_drain 9 h l (skiplist_iterator_new l)) = Done [23; 22; 21] ∧
  ('(h, l) ← built [("jd8", 21, 2%nat); ("1tj0", 22, 1%nat)];
   n ← skiplist_search h l "1tj0"; '(_, _, rv) ← skiplist_delete h l "1tj0"; Done (n, rv))
    = Done (Some 22, - XFIREDB_ERR).
Proof. split; vm_compute; reflexivity. Qed.
