(* ===== verification/KeyIndex.v ===== *)
(** * What an index of nodes by key promises

    Sets and hash maps ([storage/set.c], [storage/hashmap.c]) are clients of the
    skip list.  [KeyIndex] is what they rely on: the operations, a representation
    predicate and the laws; the skip list is an instance. *)
From S2P Require Import Prelude Chain Murmur Skiplist SkiplistSpec SkiplistRuns.
Local Open Scope Z_scope.

(** What a loop over an iterator visits, when nothing changes. *)
Inductive visits {I} (next : I → outcome (I * option loc)) : I → list loc → Prop :=
  | visits_end it it' : next it = Done (it', None) → visits next it []
  | visits_step it it' n l : next it = Done (it', Some n) → visits next it' l → visits next it (n :: l).

Class KeyIndex (T I : Type) := {
  ki_init : loc → T;                       (* an empty index; the header's address *)
  ki_zalloc : T → loc → T;                 (* the caller allocates a cleared node *)
  ki_release : T → loc → T;                (* the caller frees a node *)
  ki_search : T → string → outcome (option loc);
  ki_insert : (nat → bool) → T → string → loc → outcome (T * Z);
  ki_delete : T → string → outcome (T * Z);
  ki_iter_new : T → I;
  ki_iter_next : T → I → outcome (I * option loc);
  ki_iter_delete : T → I → outcome (T * I * option loc);
  ki_hdr : T → loc;                        (* the address of the index's own node *)

  ki_rep : T → gmap string loc → Prop;     (* the index holds exactly this map *)
  ki_good : gset string → string → Prop;   (* the key may be used next to these *)
  ki_free : T → gmap string loc → loc → Prop;  (* not an address of the index *)
  ki_allocated : T → loc → Prop }.

Class KeyIndexLaws (T I : Type) `{KeyIndex T I} : Prop := {
  ki_init_rep hdr : ki_rep (ki_init hdr) ∅;
  ki_good_member s m key n : ki_rep s m → m !! key = Some n → ki_good (dom m) key;
  ki_good_mono X Y key : X ⊆ Y → ki_good Y key → ki_good X key;
  ki_zalloc_rep s m n : ki_rep s m → ki_free s m n →
    ki_rep (ki_zalloc s n) m ∧ ki_free (ki_zalloc s n) m n ∧ ki_allocated (ki_zalloc s n) n;
  ki_release_rep s m n : ki_rep s m → ki_free s m n → ki_rep (ki_release s n) m;
  ki_free_range s m key n : ki_free s m n → m !! key ≠ Some n;
  ki_free_intro s m n : n ≠ ki_hdr s → (∀ key, m !! key ≠ Some n) → ki_free s m n;
  ki_hdr_init hdr : ki_hdr (ki_init hdr) = hdr;
  ki_hdr_zalloc s n : ki_hdr (ki_zalloc s n) = ki_hdr s;
  ki_hdr_release s n : ki_hdr (ki_release s n) = ki_hdr s;
  ki_hdr_insert coin s key n s' rv : ki_insert coin s key n = Done (s', rv) → ki_hdr s' = ki_hdr s;
  ki_hdr_delete s key s' rv : ki_delete s key = Done (s', rv) → ki_hdr s' = ki_hdr s;
  ki_hdr_iter_delete s it s' it' o : ki_iter_delete s it = Done (s', it', o) → ki_hdr s' = ki_hdr s;
  ki_search_ok s m key : ki_rep s m → ki_good (dom m) key → ki_search s key = Done (m !! key);
  ki_insert_ok coin s m key n : ki_rep s m → ki_good (dom m) key → ki_free s m n → ki_allocated s n →
    ∃ s', ki_insert coin s key n = Done (s', - XFIREDB_OK) ∧
      ki_rep s' (match m !! key with Some _ => m | None => <[key := n]> m end) ∧
      (m !! key ≠ None → s' = s);
  ki_delete_ok s m key : ki_rep s m → ki_good (dom m) key →
    ∃ s', ki_delete s key = Done (s', match m !! key with Some _ => - XFIREDB_OK | None => - XFIREDB_ERR end) ∧
      ki_rep s' (delete key m) ∧ (∀ n, m !! key = Some n → ki_free s' (delete key m) n);
  ki_iter_first s m : ki_rep s m →
    ∃ it o, ki_iter_next s (ki_iter_new s) = Done (it, o) ∧
      match o with
      | None => m = ∅
      | Some n => ∃ key s' it' o', m !! key = Some n ∧ ki_iter_delete s it = Done (s', it', o') ∧
          ki_rep s' (delete key m) ∧ ki_free s' (delete key m) n ∧ it' = ki_iter_new s' ∧
          ki_iter_new (ki_release s' n) = it'
      end;
  ki_iter_all s m : ki_rep s m →
    ∃ kns, kns ≡ₚ map_to_list m ∧ visits (ki_iter_next s) (ki_iter_new s) kns.*2 }.

(** ** The skip list is such an index *)

#[export] Instance skiplist_index : KeyIndex (sheap * skiplist) skiplist_iterator := {|
  ki_init := λ hdr, skiplist_init ∅ hdr;
  ki_zalloc := λ '(h, l) n, (<[n := node_zero]> h, l);
  ki_release := λ '(h, l) n, (delete n h, l);
  ki_search := λ '(h, l) key, skiplist_search h l key;
  ki_insert := λ coin '(h, l) key n, '(h, l, rv) ← skiplist_insert coin h l key n; Done ((h, l), rv);
  ki_delete := λ '(h, l) key, '(h, l, rv) ← skiplist_delete h l key; Done ((h, l), rv);
  ki_iter_new := λ '(h, l), skiplist_iterator_new l;
  ki_iter_next := λ '(h, l) it, skiplist_iterator_next h l it;
  ki_iter_delete := λ '(h, l) it, '(h, l, it, o) ← skiplist_iterator_delete h l it; Done ((h, l), it, o);
  ki_hdr := λ '(h, l), sl_header l;
  ki_rep := λ '(h, l) m, ∃ ns, sl_ok h l ns ∧ m = sl_abs ns;
  ki_good := λ X key, key_hash key < SKIPLIST_MAX_SIZE ∧
    ∀ k, k ∈ X → key_hash k = key_hash key → k = key;
  ki_free := λ '(h, l) m n, n ≠ sl_header l ∧ ∀ k, m !! k ≠ Some n;
  ki_allocated := λ '(h, l) n, is_Some (h !! n) |}.

Lemma sl_abs_inv ns key n : sl_abs ns !! key = Some n → ∃ x, x ∈ ns ∧ n_key x = key ∧ n_loc x = n.
Proof.
  intros H%elem_of_list_to_map_2. apply list_elem_of_fmap in H as (x & [= -> ->] & Hx). by exists x.
Qed.

Lemma good_collision_free h l ns key :
  sl_ok h l ns → ki_good (T := sheap * skiplist) (dom (sl_abs ns)) key ↔ collision_free ns key.
Proof.
  intros Hok. simpl. unfold collision_free. split; intros [Hmax Hcf]; (split; [done|]).
  - intros x Hx Hh. apply Hcf; [|done]. apply elem_of_dom. eexists. by eapply sl_abs_lookup.
  - intros k [n (x & Hx & <- & _)%sl_abs_inv]%elem_of_dom Hh. by apply Hcf.
Qed.

Lemma free_not_in h l ns n :
  sl_ok h l ns → ki_free (h, l) (sl_abs ns) n ↔ n ∉ sl_header l :: (n_loc <$> ns).
Proof.
  intros Hok. rewrite not_elem_of_cons, list_elem_of_fmap. simpl. split; intros [? Hf]; (split; [done|]).
  - intros (x & -> & Hx). apply (Hf (n_key x)). by eapply sl_abs_lookup.
  - intros k (x & Hx & _ & <-)%sl_abs_inv. apply Hf. by exists x.
Qed.

Lemma member_collision_free h l ns x : sl_ok h l ns → x ∈ ns → collision_free ns (n_key x).
Proof.
  intros Hok Hx. split; [by apply (sl_ok_nodes _ _ _ Hok)|].
  intros y Hy Hh. pose proof (sl_ok_sorted _ _ _ Hok) as Hs. clear Hok.
  destruct (decide (n_key y = n_key x)) as [|Hne]; [done|exfalso].
  change (key_hash (n_key x)) with (n_hash x) in Hh.
  induction Hs as [|z ns Hs IH Hz]; [by apply not_elem_of_nil in Hx|].
  rewrite list.Forall_forall in Hz. simpl in Hz.
  apply elem_of_cons in Hx as [->|Hx], Hy as [->|Hy]; [done| | |by apply IH].
  - specialize (Hz y Hy). lia.
  - specialize (Hz x Hx). lia.
Qed.

Lemma skiplist_delete_header h l key h' l' rv :
  skiplist_delete h l key = Done (h', l', rv) → sl_header l' = sl_header l.
Proof.
  unfold skiplist_delete. intros H.
  apply outcome_bind_Done in H as ([x update] & _ & H). apply outcome_bind_Done in H as (next & _ & H).
  apply outcome_bind_Done in H as (nhash & _ & H). case_match; [|congruence].
  apply outcome_bind_Done in H as (nd & _ & H). case_match; [|congruence].
  apply outcome_bind_Done in H as (h1 & _ & H). apply outcome_bind_Done in H as (h2 & _ & H).
  apply outcome_bind_Done in H as (lv & _ & [= <- <- <-]). done.
Qed.

Lemma skiplist_insert_header coin h l key n h' l' rv :
  skiplist_insert coin h l key n = Done (h', l', rv) → sl_header l' = sl_header l.
Proof.
  unfold skiplist_insert. intros H.
  apply outcome_bind_Done in H as ([x update] & _ & H). apply outcome_bind_Done in H as (next & _ & H).
  apply outcome_bind_Done in H as (c & _ & H). case_match; case_match; simplify_eq; try done;
    apply outcome_bind_Done in H as (nd & _ & H); apply outcome_bind_Done in H as (h1 & _ & [= <- <- <-]); done.
Qed.

Lemma iterator_delete_header h l it h' l' it' o :
  skiplist_iterator_delete h l it = Done (h', l', it', o) → sl_header l' = sl_header l.
Proof.
  unfold skiplist_iterator_delete. intros H.
  apply outcome_bind_Done in H as (c & _ & H). apply outcome_bind_Done in H as (key & _ & H).
  apply outcome_bind_Done in H as ([[h1 l1] rv] & Hd & H). apply skiplist_delete_header in Hd.
  case_match; simplify_eq; done.
Qed.

(** A cleared node is not linked. *)
Lemma cleared_free h l ns n hash :
  sl_ok h l ns → h !! n = Some (SkiplistNode None hash None) → ki_free (h, l) (sl_abs ns) n.
Proof.
  intros Hok Hn. apply (free_not_in h l ns n Hok). intros [->|Hin]%elem_of_cons.
  - destruct (sl_ok_header _ _ _ Hok) as (f & Hf & _). congruence.
  - apply list_elem_of_fmap in Hin as (x & -> & Hx).
    destruct (sl_ok_nodes _ _ _ Hok x Hx) as ((f & Hf & _) & _). congruence.
Qed.

Lemma skiplist_visits h l seen rest prev :
  sl_ok h l (seen ++ rest) →
  visits (skiplist_iterator_next h l) (SkiplistIterator (Some (lastd (sl_header l) (n_loc <$> seen))) prev) (n_loc <$> rest).
Proof.
  revert seen prev. induction rest as [|x rest IH]; intros seen prev Hok.
  - eapply visits_end. exact (iterator_next_at h l seen [] prev Hok).
  - eapply visits_step; [exact (iterator_next_at h l seen (x :: rest) prev Hok)|]. simpl.
    pose proof (IH (seen ++ [x]) (Some (lastd (sl_header l) (n_loc <$> seen)))) as IH'.
    rewrite <-app_assoc in IH'. specialize (IH' Hok). rewrite fmap_app in IH'. simpl in IH'. by rewrite lastd_app in IH'.
Qed.

Lemma sl_abs_list h l ns : sl_ok h l ns → (λ x, (n_key x, n_loc x)) <$> ns ≡ₚ map_to_list (sl_abs ns).
Proof.
  intros Hok. symmetry. apply map_to_list_to_map. rewrite <-list_fmap_compose.
  pose proof (sl_ok_sorted _ _ _ Hok) as Hs. clear Hok. induction Hs as [|x ns Hs IH Hx]; [constructor|].
  constructor; [|done]. intros (y & Hk & Hy)%list_elem_of_fmap. rewrite list.Forall_forall in Hx. specialize (Hx y Hy).
  unfold n_hash in Hx. simpl in Hk. rewrite Hk in Hx. lia.
Qed.

#[export] Instance skiplist_index_laws : KeyIndexLaws (sheap * skiplist) skiplist_iterator.
Proof.
  split.
  - intros hdr. simpl. pose proof (skiplist_init_ok ∅ hdr) as [Hok _]. exists []. split; [exact Hok|done].
  - intros [h l] m key n (ns & Hok & ->) (x & Hx & <- & _)%sl_abs_inv.
    apply (good_collision_free h l ns); [done|]. by eapply member_collision_free.
  - intros X Y key Hsub [Hmax Hg]. split; [done|]. intros k Hk. apply Hg. by apply Hsub.
  - intros [h l] m n (ns & Hok & ->) Hfree. pose proof Hfree as Hin.
    apply (free_not_in h l ns n Hok) in Hin. simpl. split_and!; [|apply Hfree..|by rewrite lookup_insert_eq].
    exists ns. split; [|done]. apply (sl_ok_frame h); [|done].
    intros a Ha. apply lookup_insert_ne. by intros ->.
  - intros [h l] m n (ns & Hok & ->) Hfree. apply (free_not_in h l ns n Hok) in Hfree.
    exists ns. split; [|done]. apply (sl_ok_frame h); [|done].
    intros a Ha. apply lookup_delete_ne. by intros ->.
  - intros [h l] m key n [_ Hf]. apply Hf.
  - intros [h l] m n Hn Hm. by split.
  - done.
  - by intros [h l] n.
  - by intros [h l] n.
  - intros coin [h l] key n [h' l'] rv. simpl. intros ([[h1 l1] rv1] & Hi & [= <- <- <-])%outcome_bind_Done.
    by apply skiplist_insert_header in Hi.
  - intros [h l] key [h' l'] rv. simpl. intros ([[h1 l1] rv1] & Hi & [= <- <- <-])%outcome_bind_Done.
    by apply skiplist_delete_header in Hi.
  - intros [h l] it [h' l'] it' o. simpl. intros ([[[h1 l1] it1] o1] & Hi & [= <- <- <- <-])%outcome_bind_Done.
    by apply iterator_delete_header in Hi.
  - intros [h l] m key (ns & Hok & ->) Hgood. apply skiplist_search_run; [done|].
    by apply (good_collision_free h l ns).
  - intros coin [h l] m key n (ns & Hok & ->) Hgood Hfree Halloc.
    destruct (skiplist_insert_run coin h l ns key n) as (h' & l' & ns' & Hins & Hok' & Hcase);
      [done|by apply (good_collision_free h l ns)|done|by apply (free_not_in h l ns)|].
    exists (h', l'). simpl. rewrite Hins, bind_Done. split; [done|].
    destruct (sl_abs ns !! key).
    + destruct Hcase as (-> & -> & ->). split; [by exists ns|done].
    + destruct Hcase as (<- & _). split; [by exists ns'|done].
  - intros [h l] m key (ns & Hok & ->) Hgood.
    destruct (skiplist_delete_run h l ns key) as (h' & l' & ns' & rv & Hdel & Hok' & Habs & Hcase);
      [done|by apply (good_collision_free h l ns)|].
    exists (h', l'). simpl. rewrite Hdel, bind_Done. split_and!.
    + destruct (sl_abs ns !! key); by destruct Hcase as (-> & _).
    + by exists ns'.
    + intros n Hn. rewrite Hn in Hcase. destruct Hcase as (_ & _ & _ & Hcell).
      rewrite <-Habs. by eapply cleared_free.
  - intros [h l] m (ns & Hok & ->). cbn [ki_iter_next ki_iter_new ki_iter_delete ki_rep ki_free ki_release skiplist_index].
    eexists _, _. split; [apply (iterator_next_at h l [] ns _ Hok)|].
    destruct ns as [|x ns]; [done|]. simpl head. cbn [fmap option_fmap option_map].
    destruct (skiplist_delete_run h l (x :: ns) (n_key x)) as (h' & l' & ns' & rv & Hdel & Hok' & Habs & Hcase);
      [done|by eapply member_collision_free; [|left]|].
    rewrite (sl_abs_lookup h l (x :: ns) x Hok) in Hcase by (by left).
    destruct Hcase as (-> & _ & _ & Hcell). pose proof (skiplist_delete_header _ _ _ _ _ _ Hdel) as Hhdr.
    set (start := Some (sl_header l)).
    assert (skiplist_iterator_delete h l (SkiplistIterator (Some (n_loc x)) start)
      = Done (h', l', SkiplistIterator start start, start)) as Hd.
    { unfold skiplist_iterator_delete. cbn [si_current deref]. rewrite bind_Done.
      rewrite (key_of_node h l [] (x :: ns) Hok x) by (by left). rewrite bind_Done, Hdel. done. }
    exists (n_key x), (h', l'), (SkiplistIterator start start), start.
    split; [apply (sl_abs_lookup h l _ x Hok); by left|]. split.
    { match goal with |- context[skiplist_iterator_delete h l ?i] =>
        change i with (SkiplistIterator (Some (n_loc x)) start) end. by rewrite Hd. }
    rewrite <-Habs. split; [by exists ns'|]. split; [by eapply cleared_free|].
    split; unfold skiplist_iterator_new; by rewrite Hhdr.
  - intros [h l] m (ns & Hok & ->). exists ((λ x, (n_key x, n_loc x)) <$> ns). split; [by eapply sl_abs_list|].
    rewrite <-list_fmap_compose. exact (skiplist_visits h l [] ns _ Hok).
Qed.
