(* ===== verification/SetMap.v ===== *)
(** * Sets and hash maps: [storage/set.c] and [storage/hashmap.c]

    Both are a counter next to an index of nodes by key, and both are proved against
    the promises of [KeyIndex] alone.  A [set_key] and a [hashmap_node] embed the
    node of the index, so [container_of] is the identity on addresses; [k->key] and
    [n->key] are copies of the key, kept by address. *)
From S2P Require Import Prelude Murmur Mem Atomic Skiplist SkiplistSpec SkiplistRuns KeyIndex.
Local Open Scope Z_scope.

(** ** Allocating a set key *)

(** [set_key_alloc] asks for [sizeof( *k )] bytes where [k] is the string argument:
    one byte, for a structure that starts with an eight-byte pointer.
    [set_key_init] writes that pointer: [ptr] is its bytes. *)
Definition SIZEOF_CHAR : Z := 1.

Fixpoint store_bytes (r : region) (dst : nat) (l : list Z) : outcome region :=
  match l with
  | [] => Done r
  | c :: l => r ← store r dst c; store_bytes r (S dst) l
  end.

(** [key->key = xfiredb_zalloc(len + 1); memcpy(key->key, k, len)]: returns the
    structure and the copy. *)
Definition set_key_init (key : region) (ptr : list Z) (k : string) : outcome (region * region) :=
  let len := strlen k in
  key ← store_bytes key 0 ptr;
  copy ← memcpy (xfiredb_zalloc (len + 1)) (cstr_region k) len;
  Done (key, copy).

Definition set_key_alloc (ptr : list Z) (k : string) : outcome (region * region) :=
  set_key_init (xfiredb_zalloc SIZEOF_CHAR) ptr k.

(** ** Sets *)

Record set (S : Type) := Set_ {
  set_list : S;
  set_num : atomic_t;
  set_key_str : gmap loc string }.
Arguments Set_ {S} _ _ _.
Arguments set_list {S} _.
Arguments set_num {S} _.
Arguments set_key_str {S} _.

Record hashmap (S : Type) := Hashmap {
  hm_list : S;
  hm_num : atomic_t;
  hm_key_str : gmap loc string }.
Arguments Hashmap {S} _ _ _.
Arguments hm_list {S} _.
Arguments hm_num {S} _.
Arguments hm_key_str {S} _.

Section Operations.
Context {T I : Type} `{KI : KeyIndex T I}.

Definition set_init (hdr : loc) : set T := Set_ (ki_init hdr) atomic_init ∅.

Definition set_contains (s : set T) (key : string) : outcome bool :=
  n ← ki_search (set_list s) key;
  Done (match n with Some _ => true | None => false end).

Definition set_add (coin : nat → bool) (s : set T) (key : string) (k : loc) : outcome (set T * Z) :=
  c ← set_contains s key;
  if c : bool then Done (s, - XFIREDB_ERR)
  else
    let keys := <[k := key]> (set_key_str s) in
    '(l, rv) ← ki_insert coin (set_list s) key k;
    if rv =? - XFIREDB_OK then Done (Set_ l (atomic_inc (set_num s)) keys, - XFIREDB_OK)
    else Done (Set_ l (set_num s) keys, - XFIREDB_ERR).

Definition set_remove (s : set T) (key : string) : outcome (set T * option loc) :=
  node ← ki_search (set_list s) key;
  '(l, rv) ← ki_delete (set_list s) key;
  if rv =? - XFIREDB_OK then Done (Set_ l (atomic_dec (set_num s)) (set_key_str s), node)
  else Done (Set_ l (set_num s) (set_key_str s), None).

Definition set_size (s : set T) : Z := atomic_get (set_num s).

(** [set_iterator_new] and [set_iterator_next]. *)
Definition set_iterator_new (s : set T) : I := ki_iter_new (set_list s).
Definition set_iterator_next (s : set T) (it : I) : outcome (I * option loc) :=
  ki_iter_next (set_list s) it.

(** The loop of [set_clear]; returns the keys that were released. *)
Fixpoint set_clear_loop (fuel : nat) (s : set T) (it : I) : outcome (set T * list loc) :=
  match fuel with
  | O => OutOfFuel
  | S fuel' =>
      '(it, n) ← ki_iter_next (set_list s) it;
      match n with
      | None => Done (s, [])
      | Some k =>
          '(l, it, _) ← ki_iter_delete (set_list s) it;
          '(s, freed) ← set_clear_loop fuel'
              (Set_ (ki_release l k) (set_num s) (delete k (set_key_str s))) it;
          Done (s, k :: freed)
      end
  end.

Definition set_clear (fuel : nat) (s : set T) : outcome (set T * list loc * Z) :=
  '(s, freed) ← set_clear_loop fuel s (ki_iter_new (set_list s));
  Done (s, freed, - XFIREDB_OK).

(** ** Hash maps *)

Definition hashmap_init (hdr : loc) : hashmap T := Hashmap (ki_init hdr) atomic_init ∅.

Definition hashmap_add (coin : nat → bool) (hm : hashmap T) (key : string) (n : loc)
    : outcome (hashmap T * Z) :=
  let keys := <[n := key]> (hm_key_str hm) in
  '(l, rv) ← ki_insert coin (hm_list hm) key n;
  if rv =? - XFIREDB_OK then Done (Hashmap l (atomic_inc (hm_num hm)) keys, - XFIREDB_OK)
  else Done (Hashmap l (hm_num hm) keys, - XFIREDB_ERR).

Definition hashmap_remove (hm : hashmap T) (key : string) : outcome (hashmap T * option loc) :=
  node ← ki_search (hm_list hm) key;
  '(l, rv) ← ki_delete (hm_list hm) key;
  if rv =? - XFIREDB_OK then Done (Hashmap l (atomic_dec (hm_num hm)) (hm_key_str hm), node)
  else Done (Hashmap l (hm_num hm) (hm_key_str hm), None).

Definition hashmap_find (hm : hashmap T) (key : string) : outcome (option loc) :=
  ki_search (hm_list hm) key.

Definition hashmap_size (hm : hashmap T) : Z := atomic_get (hm_num hm).

Definition hashmap_new_iterator (hm : hashmap T) : I := ki_iter_new (hm_list hm).
Definition hashmap_iterator_next (hm : hashmap T) (it : I) : outcome (I * option loc) :=
  ki_iter_next (hm_list hm) it.
Definition hashmap_iterator_delete (hm : hashmap T) (it : I) : outcome (hashmap T * I * option loc) :=
  '(l, it, n) ← ki_iter_delete (hm_list hm) it;
  Done (Hashmap l (hm_num hm) (hm_key_str hm), it, n).

(** ** What they represent *)

Record set_rep (s : set T) (m : gmap string loc) : Prop := {
  sr_list : ki_rep (set_list s) m;
  sr_num : set_num s = s32 (Z.of_nat (size m));
  sr_keys : ∀ key k, m !! key = Some k → set_key_str s !! k = Some key }.

Record hashmap_rep (hm : hashmap T) (m : gmap string loc) : Prop := {
  hr_list : ki_rep (hm_list hm) m;
  hr_num : hm_num hm = s32 (Z.of_nat (size m)) }.

(** What a caller owes for a node it hands over. *)
Definition fresh_node (l : T) (m : gmap string loc) (n : loc) : Prop := ki_free l m n ∧ ki_allocated l n.
End Operations.

(** ** The theorems, for every index *)

Section Laws.
Context {T I : Type} `{KI : KeyIndex T I} {HL : KeyIndexLaws T I}.

Lemma count_insert (m : gmap string loc) key n :
  m !! key = None → Z.of_nat (size (<[key := n]> m)) = Z.of_nat (size m) + 1.
Proof. intros Hn. rewrite map_size_insert_None by done. lia. Qed.

Lemma count_delete (m : gmap string loc) key n :
  m !! key = Some n → Z.of_nat (size (delete key m)) = Z.of_nat (size m) - 1.
Proof.
  intros Hn. rewrite map_size_delete_Some by (by eexists).
  assert (size m ≠ 0)%nat; [|lia]. intros Hz. apply map_size_empty_inv in Hz. set_solver.
Qed.

(** [set_add] adds a key that is not in the set under the node given, counts
    it and returns [-XFIREDB_OK]; a key that is in the set is refused with
    [-XFIREDB_ERR] and nothing changes. *)
Lemma set_add_correct coin (s : set T) m key k :
  set_rep s m → ki_good (dom m) key → fresh_node (set_list s) m k →
  ∃ s', set_add coin s key k =
      Done (s', match m !! key with Some _ => - XFIREDB_ERR | None => - XFIREDB_OK end) ∧
    set_rep s' (match m !! key with Some _ => m | None => <[key := k]> m end) ∧
    ki_hdr (set_list s') = ki_hdr (set_list s).
Proof.
  intros [R1 R2 R3] Hg [Hf Ha]. unfold set_add, set_contains.
  rewrite (ki_search_ok _ m) by done. rewrite !bind_Done.
  destruct (m !! key) as [n|] eqn:Hk; [exists s; split; [done|by split]|].
  destruct (ki_insert_ok coin _ m key k R1 Hg Hf Ha) as (l & Hi & Hrep & _). pose proof (ki_hdr_insert _ _ _ _ _ _ Hi) as Hhdr.
  rewrite Hi, bind_Done. rewrite Hk in Hrep. change (- XFIREDB_OK =? - XFIREDB_OK) with true. cbn iota.
  eexists. split; [done|]. split; [|done]. split; simpl; [done| |].
  - by rewrite R2, atomic_inc_count, count_insert.
  - intros key' k' [[<- <-]|[Hne Hk']]%lookup_insert_Some; [by rewrite lookup_insert_eq|].
    rewrite lookup_insert_ne; [by apply R3|]. intros <-. by apply (ki_free_range _ m key' k Hf).
Qed.

(** [set_remove] takes exactly the given key out, returns its node and counts
    down; for a key that is not in the set it returns NULL and nothing changes in
    the set or its size. *)
Lemma set_remove_correct (s : set T) m key :
  set_rep s m → ki_good (dom m) key →
  ∃ s', set_remove s key = Done (s', m !! key) ∧ set_rep s' (delete key m).
Proof.
  intros [R1 R2 R3] Hg. unfold set_remove. rewrite (ki_search_ok _ m), bind_Done by done.
  destruct (ki_delete_ok _ m key R1 Hg) as (l & -> & Hrep & _). rewrite bind_Done.
  assert (∀ key' k', delete key m !! key' = Some k' → set_key_str s !! k' = Some key') as Hkeys.
  { intros key' k' [_ ?]%lookup_delete_Some. by apply R3. }
  destruct (m !! key) as [n|] eqn:Hk; simpl.
  - eexists. split; [done|]. split; simpl; [done| |done]. by rewrite R2, atomic_dec_count, (count_delete m key n).
  - eexists. split; [done|]. split; simpl; [done| |done]. by rewrite delete_id.
Qed.

Lemma set_clear_loop_run fuel (s : set T) m :
  ki_rep (set_list s) m → (size m < fuel)%nat →
  ∃ s' freed, set_clear_loop fuel s (ki_iter_new (set_list s)) = Done (s', freed) ∧
    ki_rep (set_list s') ∅ ∧ freed ≡ₚ (map_to_list m).*2 ∧ set_num s' = set_num s.
Proof.
  revert s m. induction fuel as [|fuel IH]; intros s m Hrep Hf; [lia|]. cbn [set_clear_loop].
  destruct (ki_iter_first _ m Hrep) as (it & o & -> & Ho). rewrite bind_Done.
  destruct o as [n|]; [|subst m; by exists s, []].
  destruct Ho as (key & l & it' & o' & Hk & -> & Hrep' & Hfree & -> & Hit). rewrite bind_Done.
  rewrite <-Hit. pose proof (count_delete m key n Hk).
  destruct (IH (Set_ (ki_release l n) (set_num s) (delete n (set_key_str s))) (delete key m))
    as (s' & freed & Hloop & ? & Hp & ?); [by apply ki_release_rep|lia|].
  cbn [set_list] in Hloop. rewrite Hloop.
  rewrite bind_Done. exists s', (n :: freed). split_and!; [done..| |done].
  rewrite Hp. rewrite <-(insert_delete_id m key n Hk) at 2.
  rewrite map_to_list_insert by apply lookup_delete_eq. done.
Qed.

(** [set_clear] ends, releases every key of the set exactly once and leaves
    the index empty; but it does not touch the counter, so that afterwards
    [set_size] still returns the old number of keys. *)
Lemma set_clear_keeps_size (s : set T) m fuel :
  set_rep s m → (size m < fuel)%nat →
  ∃ s' freed, set_clear fuel s = Done (s', freed, - XFIREDB_OK) ∧ ki_rep (set_list s') ∅ ∧
    freed ≡ₚ (map_to_list m).*2 ∧ set_size s' = s32 (Z.of_nat (size m)).
Proof.
  intros [R1 R2 R3] Hf. unfold set_clear.
  destruct (set_clear_loop_run fuel s m R1 Hf) as (s' & freed & -> & ? & ? & Hn). rewrite bind_Done.
  exists s', freed. split_and!; [done..|]. unfold set_size, atomic_get. congruence.
Qed.

Lemma hashmap_add_run coin (hm : hashmap T) m key n :
  hashmap_rep hm m → ki_good (dom m) key → fresh_node (hm_list hm) m n →
  ∃ l, hashmap_add coin hm key n =
      Done (Hashmap l (s32 (Z.of_nat (size m) + 1)) (<[n := key]> (hm_key_str hm)), - XFIREDB_OK) ∧
    ki_rep l (match m !! key with Some _ => m | None => <[key := n]> m end) ∧
    ki_hdr l = ki_hdr (hm_list hm) ∧ (m !! key ≠ None → l = hm_list hm).
Proof.
  intros [R1 R2] Hg [Hf Ha]. unfold hashmap_add.
  destruct (ki_insert_ok coin _ m key n R1 Hg Hf Ha) as (l & Hi & Hrep & Hsame).
  pose proof (ki_hdr_insert _ _ _ _ _ _ Hi) as Hhdr. rewrite Hi, bind_Done.
  exists l. split_and!; [|done..]. cbn [Z.eqb]. by rewrite R2, atomic_inc_count.
Qed.

Lemma hashmap_add_new coin (hm : hashmap T) m key n :
  hashmap_rep hm m → ki_good (dom m) key → fresh_node (hm_list hm) m n → m !! key = None →
  ∃ hm', hashmap_add coin hm key n = Done (hm', - XFIREDB_OK) ∧ hashmap_rep hm' (<[key := n]> m) ∧
    ki_hdr (hm_list hm') = ki_hdr (hm_list hm) ∧ hm_key_str hm' = <[n := key]> (hm_key_str hm).
Proof.
  intros Hr Hg Hf Hk. destruct (hashmap_add_run coin hm m key n Hr Hg Hf) as (l & -> & Hrep & Hhdr & _).
  rewrite Hk in Hrep. eexists. split_and!; [done| |done..]. split; simpl; [done|]. by rewrite count_insert.
Qed.

(** [hashmap_add] always returns [-XFIREDB_OK].  A new key is stored under
    the node given and counted; for a key that is there already the map keeps the
    old node, the new one is not linked anywhere, and yet the size goes up. *)
Lemma hashmap_add_correct coin (hm : hashmap T) m key n :
  hashmap_rep hm m → ki_good (dom m) key → fresh_node (hm_list hm) m n →
  ∃ hm', hashmap_add coin hm key n = Done (hm', - XFIREDB_OK) ∧
    match m !! key with
    | None => hashmap_rep hm' (<[key := n]> m)
    | Some _ => hm_list hm' = hm_list hm ∧ hashmap_size hm' = s32 (Z.of_nat (size m) + 1)
    end.
Proof.
  intros Hr Hg Hf. destruct (hashmap_add_run coin hm m key n Hr Hg Hf) as (l & -> & Hrep & _ & Hsame).
  eexists. split; [done|]. destruct (m !! key) eqn:Hk; simpl; [by split; [apply Hsame|]|].
  split; simpl; [done|]. by rewrite count_insert.
Qed.

(** [hashmap_find] returns the node stored under the key, or NULL. *)
Lemma hashmap_find_run (hm : hashmap T) m key :
  hashmap_rep hm m → ki_good (dom m) key → hashmap_find hm key = Done (m !! key).
Proof. intros [R1 _] Hg. unfold hashmap_find. by apply ki_search_ok. Qed.

(** [hashmap_remove] takes exactly that key out and counts down, or returns NULL and
    changes nothing. *)
Lemma hashmap_remove_run (hm : hashmap T) m key :
  hashmap_rep hm m → ki_good (dom m) key →
  ∃ hm', hashmap_remove hm key = Done (hm', m !! key) ∧ hashmap_rep hm' (delete key m) ∧
    ki_hdr (hm_list hm') = ki_hdr (hm_list hm) ∧ hm_key_str hm' = hm_key_str hm ∧
    (∀ n, m !! key = Some n → ki_free (hm_list hm') (delete key m) n).
Proof.
  intros [R1 R2] Hg. unfold hashmap_remove. rewrite (ki_search_ok _ m), bind_Done by done.
  destruct (ki_delete_ok _ m key R1 Hg) as (l & Hd & Hrep & Hfree).
  pose proof (ki_hdr_delete _ _ _ _ Hd) as Hhdr. rewrite Hd, bind_Done.
  destruct (m !! key) as [n|] eqn:Hk; simpl; (eexists; split; [done|]; split_and!; [|done..]; split; simpl; [done|]).
  - by rewrite R2, atomic_dec_count, (count_delete m key n).
  - by rewrite delete_id.
Qed.
End Laws.

(** ** At the skip list *)

Definition m3 : gmap string loc := sl_abs ns3.
Definition set3 : set (sheap * skiplist) :=
  Set_ (<[24 := node_zero]> sh3, sl3) 3 {[21 := "key1"; 22 := "key2"; 23 := "key3"]}.
Definition hm3 : hashmap (sheap * skiplist) := Hashmap (<[24 := node_zero]> sh3, sl3) 3 ∅.

Lemma l3_rep : ki_rep (<[24 := node_zero]> sh3, sl3) m3.
Proof.
  exists ns3. split; [|done]. apply (sl_ok_frame sh3); [|exact sl3_ok].
  intros a Ha. apply lookup_insert_ne. intros <-. revert Ha. decide_by_compute.
Qed.

Lemma set3_rep : set_rep set3 m3.
Proof.
  split; [exact l3_rep|vm_compute; reflexivity|].
  intros key k (x & Hx & <- & <-)%sl_abs_inv. three_nodes Hx; vm_compute; reflexivity.
Qed.

Lemma hm3_rep : hashmap_rep hm3 m3.
Proof. split; [exact l3_rep|vm_compute; reflexivity]. Qed.

Lemma good3 key : key ∈ ["key1"; "key2"; "key3"; "key4"] → ki_good (T := sheap * skiplist) (dom m3) key.
Proof. intros Hk. apply (good_collision_free sh3 sl3 ns3 key sl3_ok). by apply cf3. Qed.

Lemma fresh3 : fresh_node (T := sheap * skiplist) (<[24 := node_zero]> sh3, sl3) m3 24.
Proof.
  split.
  - split; [vm_compute; discriminate|]. intros k (x & Hx & _ & Hn)%sl_abs_inv. revert Hn.
    three_nodes Hx; vm_compute; discriminate.
  - simpl. rewrite lookup_insert_eq. by eexists.
Qed.

Lemma set_add_correct_witness :
  ∃ s', set_add (coin_for 2) set3 "key4" 24 =
      Done (s', match m3 !! "key4" with Some _ => - XFIREDB_ERR | None => - XFIREDB_OK end) ∧
    set_rep s' (match m3 !! "key4" with Some _ => m3 | None => <["key4" := 24]> m3 end) ∧
    ki_hdr (set_list s') = ki_hdr (set_list set3).
Proof.
  apply (set_add_correct (coin_for 2) set3 m3 "key4" 24); [exact set3_rep| |exact fresh3].
  apply good3. decide_by_compute.
Defined.

Lemma set_remove_correct_witness :
  ∃ s', set_remove set3 "key2" = Done (s', m3 !! "key2") ∧ set_rep s' (delete "key2" m3).
Proof. apply (set_remove_correct set3 m3 "key2"); [exact set3_rep|apply good3; decide_by_compute]. Defined.

Lemma set_clear_keeps_size_witness :
  ∃ s' freed, set_clear 4 set3 = Done (s', freed, - XFIREDB_OK) ∧ ki_rep (set_list s') ∅ ∧
    freed ≡ₚ (map_to_list m3).*2 ∧ set_size s' = s32 (Z.of_nat (size m3)).
Proof. apply (set_clear_keeps_size set3 m3 4); [exact set3_rep|vm_compute; lia]. Defined.

Lemma hashmap_add_correct_witness :
  ∃ hm', hashmap_add (coin_for 1) hm3 "key1" 24 = Done (hm', - XFIREDB_OK) ∧
    match m3 !! "key1" with
    | None => hashmap_rep hm' (<["key1" := 24]> m3)
    | Some _ => hm_list hm' = hm_list hm3 ∧ hashmap_size hm' = s32 (Z.of_nat (size m3) + 1)
    end.
Proof.
  apply (hashmap_add_correct (coin_for 1) hm3 m3 "key1" 24); [exact hm3_rep| |exact fresh3].
  apply good3. decide_by_compute.
Defined.

(** [set_key_alloc] writes outside the memory it allocates, whatever the key:
    it asks for the size of a character, not of the structure. *)
Lemma set_key_alloc_overflow ptr k : length ptr = 8%nat → set_key_alloc ptr k = Stuck.
Proof.
  unfold set_key_alloc, set_key_init, SIZEOF_CHAR, xfiredb_zalloc, store.
  destruct ptr as [|c0 [|c1 ptr]]; intros Hl; [done|simpl in Hl; lia|]. done.
Qed.

Lemma set_key_alloc_overflow_witness :
  length (repeat 0 8) = 8%nat ∧ set_key_alloc (repeat 0 8) "key1" = Stuck.
Proof. split; [reflexivity|apply (set_key_alloc_overflow (repeat 0 8) "key1"); reflexivity]. Defined.
