(* ===== verification/CList.v ===== *)
(** * Doubly linked lists: [storage/list.c] and [include/xfiredb/list.h]

    The list is circular through [list_head::head]; nodes live in a heap and every
    pointer write of the source is a write to it, in the order of the source. *)
From S2P Require Import Prelude Chain Atomic.
Local Open Scope Z_scope.

(** ** Data *)

Record list_node := ListNode { l_next : loc; l_prev : loc }.
Abbreviation lheap := (gmap loc list_node).

(** [lh_head] is the address of [head]. *)
Record list_head := ListHead { lh_head : loc; lh_num : atomic_t }.

#[export] Instance list_node_eq_dec : EqDecision list_node.
Proof. solve_decision. Defined.
#[export] Instance list_head_eq_dec : EqDecision list_head.
Proof. solve_decision. Defined.

Definition get_next (h : lheap) (n : loc) : outcome loc := nd ← deref (h !! n); Done (l_next nd).
Definition get_prev (h : lheap) (n : loc) : outcome loc := nd ← deref (h !! n); Done (l_prev nd).
Definition set_next (h : lheap) (n v : loc) : outcome lheap :=
  nd ← deref (h !! n); Done (<[n := ListNode v (l_prev nd)]> h).
Definition set_prev (h : lheap) (n v : loc) : outcome lheap :=
  nd ← deref (h !! n); Done (<[n := ListNode (l_next nd) v]> h).

(** ** Operations *)

Definition list_node_init (h : lheap) (node : loc) : outcome lheap :=
  h ← set_next h node node;
  set_prev h node node.

(** The head is part of the structure the caller allocated and cleared. *)
Definition list_head_init (h : lheap) (hd : loc) : outcome (lheap * list_head) :=
  h ← list_node_init h hd;
  Done (h, ListHead hd atomic_init).

Definition __list_add (h : lheap) (new prev next : loc) : outcome lheap :=
  h ← set_prev h next new;
  h ← set_next h new next;
  h ← set_prev h new prev;
  set_next h prev new.

Definition list_rpush (h : lheap) (head : list_head) (node : loc) : outcome (lheap * list_head) :=
  it ← get_prev h (lh_head head);
  next ← get_next h it;
  h ← __list_add h node it next;
  Done (h, ListHead (lh_head head) (atomic_inc (lh_num head))).

Definition list_lpush (h : lheap) (head : list_head) (node : loc) : outcome (lheap * list_head) :=
  let it := lh_head head in
  next ← get_next h it;
  h ← __list_add h node it next;
  Done (h, ListHead (lh_head head) (atomic_inc (lh_num head))).

Definition __list_del (h : lheap) (prev next : loc) : outcome lheap :=
  h ← set_prev h next prev;
  set_next h prev next.

Definition list_del (h : lheap) (lh : list_head) (entry : loc) : outcome (lheap * list_head) :=
  prev ← get_prev h entry;
  next ← get_next h entry;
  h ← __list_del h prev next;
  h ← set_next h entry entry;
  h ← set_prev h entry entry;
  Done (h, ListHead (lh_head lh) (atomic_dec (lh_num lh))).

Definition list_length (head : list_head) : Z := atomic_get (lh_num head).

(** [list_for_each]: the addresses visited. *)
Fixpoint list_walk (fuel : nat) (h : lheap) (hd c : loc) : outcome (list loc) :=
  match fuel with
  | O => OutOfFuel
  | S fuel' =>
      if decide (c = hd) then Done []
      else next ← get_next h c; l ← list_walk fuel' h hd next; Done (c :: l)
  end.
Definition list_for_each (fuel : nat) (h : lheap) (lh : list_head) : outcome (list loc) :=
  c ← get_next h (lh_head lh);
  list_walk fuel h (lh_head lh) c.

(** ** The list a head represents *)

Record list_ok (h : lheap) (lh : list_head) (ns : list loc) : Prop := {
  lo_nodup : NoDup (lh_head lh :: ns);
  lo_next : links (get_next h) ((lh_head lh :: ns) ++ [lh_head lh]);
  lo_prev : links (get_prev h) ((lh_head lh :: reverse ns) ++ [lh_head lh]);
  lo_num : lh_num lh = s32 (Z.of_nat (length ns)) }.

Lemma get_next_Done h n v : get_next h n = Done v ↔ ∃ nd, h !! n = Some nd ∧ l_next nd = v.
Proof. unfold get_next. destruct (h !! n); simpl; naive_solver. Qed.
Lemma get_prev_Done h n v : get_prev h n = Done v ↔ ∃ nd, h !! n = Some nd ∧ l_prev nd = v.
Proof. unfold get_prev. destruct (h !! n); simpl; naive_solver. Qed.

Lemma set_next_ok h n v :
  is_Some (h !! n) →
  ∃ h', set_next h n v = Done h' ∧ get_next h' n = Done v ∧
    (∀ m, m ≠ n → get_next h' m = get_next h m) ∧ (∀ m, get_prev h' m = get_prev h m) ∧
    (∀ m, is_Some (h' !! m) ↔ is_Some (h !! m)).
Proof.
  intros [nd Hn]. unfold set_next. rewrite Hn. eexists. split; [done|]. unfold get_next, get_prev.
  split_and!.
  - by rewrite lookup_insert_eq.
  - intros m Hm. by rewrite lookup_insert_ne.
  - intros m. destruct (decide (m = n)) as [->|]; [by rewrite lookup_insert_eq, Hn|by rewrite lookup_insert_ne].
  - intros m. destruct (decide (m = n)) as [->|]; [by rewrite lookup_insert_eq, Hn|by rewrite lookup_insert_ne].
Qed.

Lemma set_prev_ok h n v :
  is_Some (h !! n) →
  ∃ h', set_prev h n v = Done h' ∧ get_prev h' n = Done v ∧
    (∀ m, m ≠ n → get_prev h' m = get_prev h m) ∧ (∀ m, get_next h' m = get_next h m) ∧
    (∀ m, is_Some (h' !! m) ↔ is_Some (h !! m)).
Proof.
  intros [nd Hn]. unfold set_prev. rewrite Hn. eexists. split; [done|]. unfold get_next, get_prev.
  split_and!.
  - by rewrite lookup_insert_eq.
  - intros m Hm. by rewrite lookup_insert_ne.
  - intros m. destruct (decide (m = n)) as [->|]; [by rewrite lookup_insert_eq, Hn|by rewrite lookup_insert_ne].
  - intros m. destruct (decide (m = n)) as [->|]; [by rewrite lookup_insert_eq, Hn|by rewrite lookup_insert_ne].
Qed.

(** The cells after [__list_add]. *)
Lemma list_add_cells h new prev next :
  is_Some (h !! new) → is_Some (h !! prev) → is_Some (h !! next) → new ≠ prev → new ≠ next →
  ∃ h', __list_add h new prev next = Done h' ∧
    get_next h' prev = Done new ∧ get_next h' new = Done next ∧
    (∀ a, a ≠ prev → a ≠ new → get_next h' a = get_next h a) ∧
    get_prev h' next = Done new ∧ get_prev h' new = Done prev ∧
    (∀ a, a ≠ next → a ≠ new → get_prev h' a = get_prev h a).
Proof.
  intros Hnew Hprev Hnext Hne1 Hne2. unfold __list_add.
  destruct (set_prev_ok h next new Hnext) as (h1 & -> & P1 & P1' & N1 & D1). rewrite bind_Done.
  destruct (set_next_ok h1 new next) as (h2 & -> & N2 & N2' & P2 & D2); [by apply D1|]. rewrite bind_Done.
  destruct (set_prev_ok h2 new prev) as (h3 & -> & P3 & P3' & N3 & D3); [by apply D2, D1|]. rewrite bind_Done.
  destruct (set_next_ok h3 prev new) as (h4 & -> & N4 & N4' & P4 & D4); [by apply D3, D2, D1|].
  exists h4. split_and!; [done|done| | | | |].
  - by rewrite N4', N3, N2.
  - intros a Ha1 Ha2. by rewrite N4', N3, N2', N1.
  - by rewrite P4, P3', P2, P1.
  - by rewrite P4, P3.
  - intros a Ha1 Ha2. by rewrite P4, P3', P2, P1'.
Qed.

Lemma head_lastd hd ys : ∃ rest, ys ++ [hd] = lastd hd (reverse ys) :: rest.
Proof.
  destruct ys as [|y ys]; [by exists []|]. rewrite reverse_cons, lastd_snoc. by eexists.
Qed.

Lemma chain_ends h lh xs ys :
  list_ok h lh (xs ++ ys) →
  get_next h (lastd (lh_head lh) xs) = Done (lastd (lh_head lh) (reverse ys)) ∧
  get_prev h (lastd (lh_head lh) (reverse ys)) = Done (lastd (lh_head lh) xs).
Proof.
  intros [_ Hn Hp _]. split.
  - destruct (head_lastd (lh_head lh) ys) as (rest & Heq). rewrite app_comm_cons, <-app_assoc, Heq in Hn.
    by eapply links_last.
  - destruct (head_lastd (lh_head lh) (reverse xs)) as (rest & Heq). rewrite reverse_involutive in Heq.
    rewrite reverse_app, app_comm_cons, <-app_assoc, Heq in Hp. by eapply links_last.
Qed.

Lemma list_insert_ok h lh xs ys node :
  list_ok h lh (xs ++ ys) → node ∉ lh_head lh :: xs ++ ys → is_Some (h !! node) →
  ∃ h', __list_add h node (lastd (lh_head lh) xs) (lastd (lh_head lh) (reverse ys)) = Done h' ∧
    list_ok h' (ListHead (lh_head lh) (atomic_inc (lh_num lh))) (xs ++ node :: ys).
Proof.
  intros Hok Hnode Hsome. destruct (chain_ends h lh xs ys Hok) as [Hpn Hnp]. destruct Hok as [O1 O2 O3 O4].
  set (hd := lh_head lh) in *. set (p := lastd hd xs) in *. set (q := lastd hd (reverse ys)) in *.
  assert (p ∈ hd :: xs ++ ys) as Hp by (pose proof (lastd_in hd xs); set_solver).
  assert (q ∈ hd :: xs ++ ys) as Hq.
  { pose proof (lastd_in hd (reverse ys)) as Hin. fold q in Hin.
    apply elem_of_cons in Hin as [?|Hin]; [set_solver|]. rewrite elem_of_reverse in Hin. set_solver. }
  destruct (list_add_cells h node p q) as (h' & -> & N1 & N2 & N3 & P1 & P2 & P3).
  { done. }
  { apply get_next_Done in Hpn as (nd & ? & _). by exists nd. }
  { apply get_prev_Done in Hnp as (nd & ? & _). by exists nd. }
  { by intros ->. }
  { by intros ->. }
  exists h'. split; [done|]. split; cbn [lh_head lh_num].
  - rewrite <-Permutation_middle, Permutation_swap. by apply list.NoDup_cons.
  - pose proof (links_splice_in (get_next h) (get_next h') hd xs ys node) as Hs.
    rewrite app_comm_cons, <-app_assoc. apply Hs; [done| |done|exact (eq_trans N2 (eq_sym Hpn))|].
    + by rewrite app_comm_cons, <-app_assoc in O2.
    + intros a Ha Hap. apply N3; [done|]. by intros ->.
  - assert ((hd :: reverse (xs ++ node :: ys)) ++ [hd] = (hd :: reverse ys) ++ node :: reverse xs ++ [hd]) as ->.
    { rewrite reverse_app, reverse_cons. cbn [app]. by rewrite <-!app_assoc. }
    rewrite reverse_app in O3.
    apply (links_splice_in (get_prev h) (get_prev h') hd (reverse ys) (reverse xs) node).
    + rewrite <-reverse_app, reverse_Permutation. done.
    + by rewrite app_comm_cons, <-app_assoc in O3.
    + done.
    + exact (eq_trans P2 (eq_sym Hnp)).
    + intros a Ha Haq. apply P3; [done|]. intros ->. apply Hnode.
      rewrite <-reverse_app in Ha. apply elem_of_cons in Ha as [->|Ha]; [by left|right].
      by rewrite elem_of_reverse in Ha.
  - rewrite O4, atomic_inc_count, !length_app. simpl. f_equal. lia.
Qed.

(** Pushing a node that is not in the list puts it at the end ([list_rpush])
    or the front ([list_lpush]), keeps the list circular and consistent in both
    directions, and counts it. *)
Lemma list_push_correct h lh ns node :
  list_ok h lh ns → node ∉ lh_head lh :: ns → is_Some (h !! node) →
  (∃ h' lh', list_rpush h lh node = Done (h', lh') ∧ list_ok h' lh' (ns ++ [node]) ∧ lh_head lh' = lh_head lh) ∧
  (∃ h' lh', list_lpush h lh node = Done (h', lh') ∧ list_ok h' lh' (node :: ns) ∧ lh_head lh' = lh_head lh).
Proof.
  intros Hok Hnode Hsome. split.
  - rewrite <-(app_nil_r ns) in Hok, Hnode. destruct (chain_ends h lh ns [] Hok) as [Hn Hp].
    destruct (list_insert_ok h lh ns [] node Hok Hnode Hsome) as (h' & Hadd & Hok').
    unfold list_rpush. change (lastd (lh_head lh) (reverse [])) with (lh_head lh) in *.
    rewrite Hp, bind_Done, Hn, bind_Done, Hadd, bind_Done. by eexists _, _.
  - destruct (chain_ends h lh [] ns Hok) as [Hn Hp].
    destruct (list_insert_ok h lh [] ns node Hok Hnode Hsome) as (h' & Hadd & Hok').
    unfold list_lpush. change (lastd (lh_head lh) []) with (lh_head lh) in *.
    rewrite Hn, bind_Done, Hadd, bind_Done. by eexists _, _.
Qed.

Lemma list_delete_cells h prev next entry :
  is_Some (h !! prev) → is_Some (h !! next) → is_Some (h !! entry) → entry ≠ prev → entry ≠ next →
  ∃ h', (h ← __list_del h prev next; h ← set_next h entry entry; set_prev h entry entry) = Done h' ∧
    get_next h' prev = Done next ∧ (∀ a, a ≠ prev → a ≠ entry → get_next h' a = get_next h a) ∧
    get_prev h' next = Done prev ∧ (∀ a, a ≠ next → a ≠ entry → get_prev h' a = get_prev h a) ∧
    get_next h' entry = Done entry ∧ get_prev h' entry = Done entry.
Proof.
  intros Hprev Hnext Hentry Hne1 Hne2. unfold __list_del.
  destruct (set_prev_ok h next prev Hnext) as (h1 & -> & P1 & P1' & N1 & D1). rewrite bind_Done.
  destruct (set_next_ok h1 prev next) as (h2 & -> & N2 & N2' & P2 & D2); [by apply D1|]. rewrite bind_Done.
  destruct (set_next_ok h2 entry entry) as (h3 & -> & N3 & N3' & P3 & D3); [by apply D2, D1|]. rewrite bind_Done.
  destruct (set_prev_ok h3 entry entry) as (h4 & -> & P4 & P4' & N4 & D4); [by apply D3, D2, D1|].
  exists h4. split_and!; [done| | | | | |].
  - by rewrite N4, N3', N2.
  - intros a Ha1 Ha2. by rewrite N4, N3', N2', N1.
  - by rewrite P4', P3, P2, P1.
  - intros a Ha1 Ha2. by rewrite P4', P3, P2, P1'.
  - by rewrite N4, N3.
  - done.
Qed.

(** [list_del] takes exactly the given node out of its list, wherever it is,
    leaves it linked to itself and counts down; the other nodes keep their order. *)
Lemma list_del_correct h lh xs entry ys :
  list_ok h lh (xs ++ entry :: ys) →
  ∃ h' lh', list_del h lh entry = Done (h', lh') ∧ list_ok h' lh' (xs ++ ys) ∧
    lh_head lh' = lh_head lh ∧ h' !! entry = Some (ListNode entry entry).
Proof.
  intros Hok. destruct (chain_ends h lh xs (entry :: ys) Hok) as [Hn1 Hp1].
  rewrite cons_middle, app_assoc in Hok.
  destruct (chain_ends h lh (xs ++ [entry]) ys Hok) as [Hn2 Hp2]. rewrite <-app_assoc in Hok.
  rewrite lastd_snoc in Hn2, Hp2. rewrite reverse_cons, lastd_snoc in Hn1, Hp1.
  unfold list_del. rewrite Hp1, bind_Done, Hn2, bind_Done. destruct Hok as [O1 O2 O3 O4]. cbn [app] in *.
  set (hd := lh_head lh) in *. set (p := lastd hd xs) in *. set (q := lastd hd (reverse ys)) in *.
  assert (NoDup (entry :: hd :: xs ++ ys)) as [Hent Hnd]%list.NoDup_cons.
  { rewrite Permutation_swap. by rewrite Permutation_middle. }
  assert (entry ≠ p) as Hep.
  { intros Heq. apply Hent. rewrite Heq. pose proof (lastd_in hd xs). set_solver. }
  assert (entry ≠ q) as Heq.
  { intros Heq. apply Hent. rewrite Heq. pose proof (lastd_in hd (reverse ys)) as Hin. fold q in Hin.
    apply elem_of_cons in Hin as [?|Hin]; [set_solver|]. rewrite elem_of_reverse in Hin. set_solver. }
  destruct (list_delete_cells h p q entry) as (h' & Hdel & N1 & N2 & P1 & P2 & E1 & E2); [..|done|done|].
  { apply get_next_Done in Hn1 as (nd & ? & _). by exists nd. }
  { apply get_prev_Done in Hp2 as (nd & ? & _). by exists nd. }
  { apply get_prev_Done in Hp1 as (nd & ? & _). by exists nd. }
  exists h', (ListHead hd (atomic_dec (lh_num lh))).
  split_and!.
  - apply outcome_bind_Done in Hdel as (h1 & -> & Hdel). rewrite bind_Done.
    apply outcome_bind_Done in Hdel as (h2 & -> & Hdel). rewrite bind_Done, Hdel. done.
  - split; cbn [lh_head lh_num].
    + done.
    + pose proof (links_splice_out (get_next h) (get_next h') hd xs ys entry) as Hs.
      rewrite app_comm_cons, <-app_assoc. apply Hs; [done| |exact (eq_trans N1 (eq_sym Hn2))|].
      * revert O2. cbn [app]. by rewrite <-app_assoc.
      * intros a Ha Hap. apply N2; [done|]. by intros ->.
    + assert ((hd :: reverse (xs ++ ys)) ++ [hd] = (hd :: reverse ys) ++ reverse xs ++ [hd]) as ->.
      { rewrite reverse_app. cbn [app]. by rewrite <-!app_assoc. }
      assert ((hd :: reverse (xs ++ entry :: ys)) ++ [hd] = (hd :: reverse ys) ++ entry :: reverse xs ++ [hd]) as Hsh.
      { rewrite reverse_app, reverse_cons. cbn [app]. by rewrite <-!app_assoc. }
      cbn [app] in Hsh. rewrite Hsh in O3.
      apply (links_splice_out (get_prev h) (get_prev h') hd (reverse ys) (reverse xs) entry).
      * rewrite <-Permutation_middle, Permutation_swap, <-reverse_app, reverse_Permutation.
        by apply list.NoDup_cons.
      * done.
      * exact (eq_trans P1 (eq_sym Hp1)).
      * intros a Ha Haq. apply P2; [done|]. intros ->. apply Hent.
        rewrite <-reverse_app in Ha. apply elem_of_cons in Ha as [->|Ha]; [by left|right].
        by rewrite elem_of_reverse in Ha.
    + rewrite O4, atomic_dec_count, !length_app. simpl. f_equal. lia.
  - done.
  - apply get_next_Done in E1 as ([n1 p1] & Hh & E1). apply get_prev_Done in E2 as (nd2 & Hh2 & E2).
    rewrite Hh in Hh2. injection Hh2 as <-. simpl in *. congruence.
Qed.

Lemma list_for_each_fuel h lh ns fuel :
  list_ok h lh ns → (length ns < fuel)%nat → list_for_each fuel h lh = Done ns.
Proof.
  intros [O1 O2 _ O4] Hf. unfold list_for_each. apply list.NoDup_cons in O1 as [Hhd _]. set (hd := lh_head lh) in *.
  assert (∀ c l fuel, hd ∉ l → links (get_next h) ((c :: l) ++ [hd]) → (length l < fuel)%nat →
    (n ← get_next h c; list_walk fuel h hd n) = Done l) as Hwalk; [|by apply Hwalk].
  clear. intros c l fuel. revert c fuel. induction l as [|x l IH]; intros c [|fuel] Hnin Hl Hf; simpl in Hl, Hf; [lia| |lia|].
  - destruct Hl as [-> _]. simpl. by rewrite decide_True.
  - destruct Hl as [-> Hl]. rewrite bind_Done. apply not_elem_of_cons in Hnin as [Hx Hnin].
    cbn [list_walk]. rewrite decide_False by done. specialize (IH x fuel Hnin Hl ltac:(lia)).
    apply outcome_bind_Done in IH as (n & -> & IH). by rewrite bind_Done, IH.
Qed.

(** [list_for_each] visits every node once, from left to right, and ends; the
    length is the number of nodes. *)
Lemma list_for_each_correct h lh ns :
  list_ok h lh ns → Z.of_nat (length ns) < 2 ^ 31 →
  list_for_each (S (length ns)) h lh = Done ns ∧ list_length lh = Z.of_nat (length ns).
Proof.
  intros Hok Hlen. split; [apply list_for_each_fuel; [done|lia]|].
  unfold list_length, atomic_get. rewrite (lo_num _ _ _ Hok). apply s32_small. lia.
Qed.

(** The list does not depend on cells that are not its own. *)
Lemma list_ok_frame h h' lh ns :
  (∀ a, a ∈ lh_head lh :: ns → h' !! a = h !! a) → list_ok h lh ns → list_ok h' lh ns.
Proof.
  intros Hf [O1 O2 O3 O4]. split; [done| | |done].
  - apply (links_frame (get_next h)); [|done]. intros a Ha. unfold get_next. by rewrite Hf.
  - apply (links_frame (get_prev h)); [|done]. intros a Ha. unfold get_prev. rewrite Hf; [done|].
    apply elem_of_cons in Ha as [->|Ha]; [by left|right]. by rewrite elem_of_reverse in Ha.
Qed.

(** Where [next] of the head and of a node leads. *)
Definition first_or (hd : loc) (l : list loc) : loc := default hd (head l).

Lemma list_first h lh ns : list_ok h lh ns → get_next h (lh_head lh) = Done (first_or (lh_head lh) ns).
Proof. intros [_ O2 _ _]. destruct ns; apply O2. Qed.

Lemma list_next h lh xs e ys :
  list_ok h lh (xs ++ e :: ys) → get_next h e = Done (first_or (lh_head lh) ys).
Proof.
  intros [_ O2 _ _]. rewrite app_comm_cons, <-app_assoc in O2. cbn [app] in O2.
  apply (links_app _ (lh_head lh :: xs) e (ys ++ [lh_head lh])) in O2 as [_ O2]. by destruct ys; apply O2.
Qed.

Lemma list_length_ok h lh ns :
  list_ok h lh ns → Z.of_nat (length ns) < 2 ^ 31 → list_length lh = Z.of_nat (length ns).
Proof. intros Hok Hl. unfold list_length, atomic_get. rewrite (lo_num _ _ _ Hok). apply s32_small. lia. Qed.
