(* ===== verification/CString.v ===== *)
(** * String containers: [storage/string.c]

    The text is a region of memory, NULL is its absence.  [entry] and [node], which
    link the string into a list or a hash map, belong to those modules. *)
From S2P Require Import Prelude Mem.
Local Open Scope Z_scope.

Record string_t := StringT { s_str : option region; s_len : Z }.

Definition string_init : string_t := StringT None 0.

Definition string_alloc (data : string) : outcome string_t :=
  let len := strlen data in
  str ← memcpy (xfiredb_zalloc (len + 1)) (cstr_region data) len;
  Done (StringT (Some str) len).

(** [junk] is what [realloc] leaves in the bytes it adds. *)
Definition string_set (junk : Z) (s : string_t) (str : string) : outcome string_t :=
  let len := strlen str + 1 in
  r ← memcpy (xfiredb_realloc junk (default [] (s_str s)) len) (cstr_region str) len;
  Done (StringT (Some r) len).

(** A copy of the text, as [xfiredb_sprintf(buff, ...)] makes it. *)
Definition string_get (s : string_t) : outcome (list Z) :=
  r ← deref (s_str s);
  region_cstr r.

Definition string_length (s : string_t) : Z := s_len s.
Definition string_data (s : string_t) : option region := s_str s.

(** [string_destroy] releases the text, once. *)
Definition string_destroy (s : string_t) : list region :=
  match s_str s with Some r => [r] | None => [] end.

Lemma string_alloc_run data :
  string_alloc data = Done (StringT (Some (cstr_region data)) (strlen data)).
Proof.
  unfold string_alloc, cstr_region, memcpy, xfiredb_zalloc, strlen.
  rewrite <-length_bytes. rewrite decide_True by (rewrite length_app, length_replicate; simpl; lia).
  rewrite bind_Done, Nat2Z.id. do 3 f_equal. rewrite take_app_length.
  replace (Z.to_nat (Z.of_nat (length (bytes data)) + 1)) with (length (bytes data) + 1)%nat by lia.
  by rewrite drop_replicate, Nat.add_comm, Nat.add_sub.
Qed.

Lemma string_set_run junk s str :
  string_set junk s str = Done (StringT (Some (cstr_region str)) (strlen str + 1)).
Proof.
  unfold string_set. assert (strlen str + 1 = Z.of_nat (length (cstr_region str))) as Hl.
  { unfold strlen, cstr_region. rewrite length_app, length_bytes. simpl. lia. }
  rewrite Hl, memcpy_all; [done|]. unfold xfiredb_realloc.
  rewrite Nat2Z.id, length_app, length_take, length_replicate. lia.
Qed.

(** A string allocated from or set to a text gives the text back; the length
    it records is that of the text after [string_alloc], but counts the terminator
    after [string_set]. *)
Lemma string_roundtrip junk s text :
  nul_free text →
  (∃ s1, string_alloc text = Done s1 ∧ string_get s1 = Done (bytes text) ∧
     string_length s1 = strlen text) ∧
  (∃ s2, string_set junk s text = Done s2 ∧ string_get s2 = Done (bytes text) ∧
     string_length s2 = strlen text + 1).
Proof.
  intros Hnul. assert (region_cstr (cstr_region text) = Done (bytes text)) as Hget.
  { by apply (region_cstr_app (bytes text) []). }
  split; [rewrite string_alloc_run|rewrite string_set_run]; eexists; by split_and!.
Qed.

Lemma string_roundtrip_witness :
  (∃ s1, string_alloc "value" = Done s1 ∧ string_get s1 = Done (bytes "value") ∧
     string_length s1 = strlen "value") ∧
  (∃ s2, string_set 0 string_init "value" = Done s2 ∧ string_get s2 = Done (bytes "value") ∧
     string_length s2 = strlen "value" + 1).
Proof. apply (string_roundtrip 0 string_init "value"). repeat constructor; discriminate. Defined.
