(* ===== verification/Disk.v ===== *)
(** * Persistence: [storage/disk.c]

    Every function builds the text of one SQL statement and hands it to
    [sqlite3_exec], which is not part of this repository: it is a parameter, with
    the rows it passes to the callback as a result.  [SqliteTable] states what the
    code relies on, for values without a quote character; [MiniSql] is a concrete
    function that keeps those promises. *)
From Stdlib Require Import Ascii.
From S2P Require Import Prelude.
Local Open Scope Z_scope.

(** ** Statements *)

(** [xfiredb_sprintf] with [%s] conversions. *)
Fixpoint format (fmt : string) (args : list string) : string :=
  match fmt with
  | EmptyString => EmptyString
  | String "%"%char (String "s"%char rest) =>
      match args with
      | a :: args => a +:+ format rest args
      | [] => EmptyString
      end
  | String c rest => String c (format rest args)
  end.

Definition DISK_CHECK_TABLE : string :=
  "SELECT name FROM sqlite_master WHERE type='table' AND name='xfiredb_data';".
Definition DISK_CREATE_TABLE : string :=
  "CREATE TABLE xfiredb_data(db_key CHAR(64) NOT NULL, db_secondary_key, db_type CHAR(64), db_value BLOB);".
Definition DISK_STORE_QUERY : string :=
  "INSERT INTO xfiredb_data (db_key, db_secondary_key, db_type, db_value) VALUES ('%s', '%s', '%s', '%s');".
Definition DISK_SELECT_ALL : string := "SELECT * FROM xfiredb_data".
Definition DISK_CLEAR_QUERY : string := "DELETE * FROM xfiredb_data;".
Definition DISK_UPDATE_HM_QUERY : string :=
  "UPDATE xfiredb_data SET db_value = '%s' WHERE db_key = '%s' AND db_secondary_key = '%s';".
Definition DISK_UPDATE_LIST_QUERY : string :=
  "UPDATE xfiredb_data SET db_value = '%s' WHERE ROWID IN (SELECT ROWID FROM xfiredb_data WHERE db_key = '%s' AND db_value = '%s' AND db_type = 'list' LIMIT 1);".
Definition DISK_UPDATE_STRING_QUERY : string :=
  "UPDATE xfiredb_data SET db_value = '%s' WHERE db_key = '%s' AND db_type = 'string';".
Definition DISK_DELETE_STRING_QUERY : string :=
  "DELETE FROM xfiredb_data WHERE db_type = 'string' AND db_key = '%s';".
Definition DISK_DELETE_LIST_QUERY : string :=
  "DELETE FROM xfiredb_data WHERE ROWID in (SELECT ROWID FROM xfiredb_data WHERE db_key = '%s' AND db_value = '%s' AND db_type = 'list' LIMIT 1);".
Definition DISK_DELETE_HM_QUERY : string :=
  "DELETE FROM xfiredb_data WHERE db_type = 'hashmap' AND db_key = '%s' AND db_secondary_key = '%s';".
Definition DISK_DELETE_SET_QUERY : string :=
  "DELETE FROM xfiredb_data WHERE db_type = 'set' AND db_key = '%s' AND db_secondary_key = '%s';".
Definition DISK_LOAD_QUERY : string := "SELECT * FROM xfiredb_data WHERE db_key='%s'".

Definition SQLITE_OK : Z := 0.

(** The cells of one result row, as the callback gets them. *)
Abbreviation cells_t := (list string).

Record disk (DB : Type) := Disk {
  dk_path : string;
  dk_handle : DB;
  dk_records : Z;
  dk_initialised : bool }.
Arguments Disk {DB} _ _ _ _.
Arguments dk_path {DB} _.
Arguments dk_handle {DB} _.
Arguments dk_records {DB} _.
Arguments dk_initialised {DB} _.

(** ** Operations *)

Section Operations.
Context {DB : Type} (sqlite3_exec : DB → string → DB * Z * list cells_t).
Context (sqlite3_open : string → option DB).

Definition set_handle (d : disk DB) (db : DB) : disk DB :=
  Disk (dk_path d) db (dk_records d) (dk_initialised d).

(** [init_hook] runs once per row of the result. *)
Definition init_hook (d : disk DB) (rows : list cells_t) : disk DB :=
  match rows with
  | [] => d
  | _ => Disk (dk_path d) (dk_handle d) (dk_records d) true
  end.

Definition disk_create_main_table (d : disk DB) : disk DB * Z :=
  let '(db, _, rows) := sqlite3_exec (dk_handle d) DISK_CHECK_TABLE in
  let d := init_hook (set_handle d db) rows in
  if negb (dk_initialised d) then
    let '(db, _, rows) := sqlite3_exec (dk_handle d) DISK_CREATE_TABLE in
    (init_hook (set_handle d db) rows, - XFIREDB_OK)
  else (d, - XFIREDB_OK).

(** [None]: the process exits because the file cannot be opened. *)
Definition disk_create (path : string) : option (disk DB) :=
  match sqlite3_open path with
  | None => None
  | Some db => Some (disk_create_main_table (Disk path db 0 false)).1
  end.

(** A statement with [dummy_hook], which ignores the rows. *)
Definition disk_exec (d : disk DB) (query : string) : disk DB * Z :=
  let '(db, rc, _) := sqlite3_exec (dk_handle d) query in
  (set_handle d db, if rc =? SQLITE_OK then - XFIREDB_OK else - XFIREDB_ERR).

Definition disk_clear (d : disk DB) : disk DB := (disk_exec d DISK_CLEAR_QUERY).1.

Definition disk_store_hm_node (d : disk DB) (key nodekey data : string) : disk DB * Z :=
  disk_exec d (format DISK_STORE_QUERY [key; nodekey; "hashmap"; data]).
Definition disk_store_set_key (d : disk DB) (key skey : string) : disk DB * Z :=
  disk_exec d (format DISK_STORE_QUERY [key; skey; "set"; "null"]).
Definition disk_store_list_entry (d : disk DB) (key data : string) : disk DB * Z :=
  disk_exec d (format DISK_STORE_QUERY [key; "null"; "list"; data]).
Definition disk_store_string (d : disk DB) (key data : string) : disk DB * Z :=
  disk_exec d (format DISK_STORE_QUERY [key; "null"; "string"; data]).

(** The whole-container variants: the entries are those the iteration visits. *)
Fixpoint disk_store_hm (d : disk DB) (key : string) (entries : list (string * string)) : disk DB * Z :=
  match entries with
  | [] => (d, - XFIREDB_OK)
  | (nodekey, data) :: entries =>
      disk_store_hm (disk_exec d (format DISK_STORE_QUERY [key; nodekey; "hashmap"; data])).1 key entries
  end.
Fixpoint disk_store_list (d : disk DB) (key : string) (entries : list string) : disk DB * Z :=
  match entries with
  | [] => (d, - XFIREDB_OK)
  | data :: entries =>
      let '(d, rv) := disk_store_list_entry d key data in
      if negb (rv =? 0) then (d, - XFIREDB_ERR) else disk_store_list d key entries
  end.

Definition disk_update_hm (d : disk DB) (key nodekey data : string) : disk DB * Z :=
  disk_exec d (format DISK_UPDATE_HM_QUERY [data; key; nodekey]).
Definition disk_update_list (d : disk DB) (key data newdata : string) : disk DB * Z :=
  disk_exec d (format DISK_UPDATE_LIST_QUERY [newdata; key; data]).
Definition disk_update_string (d : disk DB) (key data : string) : disk DB * Z :=
  disk_exec d (format DISK_UPDATE_STRING_QUERY [data; key]).

Definition disk_delete_hashmapnode (d : disk DB) (key nodekey : string) : disk DB * Z :=
  disk_exec d (format DISK_DELETE_HM_QUERY [key; nodekey]).
Definition disk_delete_set_key (d : disk DB) (key skey : string) : disk DB * Z :=
  disk_exec d (format DISK_DELETE_SET_QUERY [key; skey]).
Definition disk_delete_list (d : disk DB) (key data : string) : disk DB * Z :=
  disk_exec d (format DISK_DELETE_LIST_QUERY [key; data]).
Definition disk_delete_string (d : disk DB) (key : string) : disk DB * Z :=
  disk_exec d (format DISK_DELETE_STRING_QUERY [key]).

(** [disk_size_hook] stores the number of columns; [size0] is what the
    uninitialised local holds. *)
Definition disk_size (d : disk DB) (size0 : Z) : disk DB * Z :=
  let '(db, rc, rows) := sqlite3_exec (dk_handle d) DISK_SELECT_ALL in
  if rc =? SQLITE_OK
  then (set_handle d db, fold_left (λ _ r, Z.of_nat (length r)) rows size0)
  else (set_handle d db, - XFIREDB_ERR).

(** The load functions: the rows given to the caller's hook, and the code. *)
Definition disk_load_key (d : disk DB) (key : string) : disk DB * list cells_t * Z :=
  let '(db, rc, rows) := sqlite3_exec (dk_handle d) (format DISK_LOAD_QUERY [key]) in
  if rc =? SQLITE_OK then (set_handle d db, rows, - XFIREDB_ERR)
  else (set_handle d db, rows, - XFIREDB_ERR).
Definition disk_load (d : disk DB) : disk DB * list cells_t * Z :=
  let '(db, rc, rows) := sqlite3_exec (dk_handle d) DISK_SELECT_ALL in
  if rc =? SQLITE_OK then (set_handle d db, rows, - XFIREDB_ERR)
  else (set_handle d db, rows, - XFIREDB_ERR).
End Operations.

(** ** What the code relies on *)

Record row := Row { r_key : string; r_skey : string; r_type : string; r_value : string }.
#[export] Instance row_eq_dec : EqDecision row.
Proof. solve_decision. Defined.

Definition row_cells (r : row) : cells_t := [r_key r; r_skey r; r_type r; r_value r].

Definition quote_free (s : string) : Prop := Forall (λ b, b ≠ 39) (bytes s).

(** One row that matches is replaced by rows computed from it; when none matches
    nothing changes.  Which one is not specified. *)
Definition one_row (p : row → bool) (f : row → list row) (rows rows' : list row) : Prop :=
  (∃ l1 r l2, rows = l1 ++ r :: l2 ∧ p r = true ∧ rows' = l1 ++ f r ++ l2) ∨
  (filter (λ r, p r = true) rows = [] ∧ rows' = rows).

Definition set_value (v : string) (r : row) : row := Row (r_key r) (r_skey r) (r_type r) v.
Definition update_where (p : row → bool) (v : string) (rows : list row) : list row :=
  (λ r, if p r then set_value v r else r) <$> rows.
Definition delete_where (p : row → bool) (rows : list row) : list row := filter (λ r, p r = false) rows.

Definition is_row (t k : string) (r : row) : bool := bool_decide (r_type r = t ∧ r_key r = k).
Definition is_sub_row (t k s : string) (r : row) : bool :=
  bool_decide (r_type r = t ∧ r_key r = k ∧ r_skey r = s).
Definition is_any_sub_row (k s : string) (r : row) : bool := bool_decide (r_key r = k ∧ r_skey r = s).
Definition is_list_row (k v : string) (r : row) : bool :=
  bool_decide (r_type r = "list" ∧ r_key r = k ∧ r_value r = v).

(** [exec db q] succeeds, returns no rows and turns the table into [rows']. *)
Class SqliteTable (DB : Type) := {
  sq_exec : DB → string → DB * Z * list cells_t;
  sq_rows : DB → list row }.

Definition sq_writes `{SqliteTable DB} (db : DB) (query : string) (P : list row → Prop) : Prop :=
  ∃ db', sq_exec db query = (db', SQLITE_OK, []) ∧ P (sq_rows db').

Class SqliteTableLaws (DB : Type) `{SqliteTable DB} : Prop := {
  sq_insert db k s t v : quote_free k → quote_free s → quote_free t → quote_free v →
    sq_writes db (format DISK_STORE_QUERY [k; s; t; v]) (λ rows, rows = sq_rows db ++ [Row k s t v]);
  sq_update_hm db v k s : quote_free k → quote_free s → quote_free v →
    sq_writes db (format DISK_UPDATE_HM_QUERY [v; k; s])
      (λ rows, rows = update_where (is_any_sub_row k s) v (sq_rows db));
  sq_update_list db v k old : quote_free k → quote_free old → quote_free v →
    sq_writes db (format DISK_UPDATE_LIST_QUERY [v; k; old])
      (one_row (is_list_row k old) (λ r, [set_value v r]) (sq_rows db));
  sq_update_string db v k : quote_free k → quote_free v →
    sq_writes db (format DISK_UPDATE_STRING_QUERY [v; k])
      (λ rows, rows = update_where (is_row "string" k) v (sq_rows db));
  sq_delete_string db k : quote_free k →
    sq_writes db (format DISK_DELETE_STRING_QUERY [k])
      (λ rows, rows = delete_where (is_row "string" k) (sq_rows db));
  sq_delete_list db k v : quote_free k → quote_free v →
    sq_writes db (format DISK_DELETE_LIST_QUERY [k; v])
      (one_row (is_list_row k v) (λ _, []) (sq_rows db));
  sq_delete_hm db k s : quote_free k → quote_free s →
    sq_writes db (format DISK_DELETE_HM_QUERY [k; s])
      (λ rows, rows = delete_where (is_sub_row "hashmap" k s) (sq_rows db));
  sq_delete_set db k s : quote_free k → quote_free s →
    sq_writes db (format DISK_DELETE_SET_QUERY [k; s])
      (λ rows, rows = delete_where (is_sub_row "set" k s) (sq_rows db));
  sq_select_all db : sq_exec db DISK_SELECT_ALL = (db, SQLITE_OK, row_cells <$> sq_rows db);
  sq_select_key db k : quote_free k →
    sq_exec db (format DISK_LOAD_QUERY [k])
    = (db, SQLITE_OK, row_cells <$> filter (λ r, r_key r = k) (sq_rows db)) }.
