(* ===== verification/MiniSql.v ===== *)
(** * A table that understands the statements of [storage/disk.c]

    A concrete [SqliteTable]: it splits the text at the quotes and compares the
    pieces with those of the statement templates.  It shows that the promises
    [Disk] relies on can be kept, and is what the concrete runs evaluate. *)
From Stdlib Require Import Ascii.
From S2P Require Import Prelude Disk.
Local Open Scope Z_scope.

(** The pieces of a text between its quotes. *)
Fixpoint split_quotes (s : string) : list string :=
  match s with
  | EmptyString => [EmptyString]
  | String c s =>
      if decide (c = "'"%char) then EmptyString :: split_quotes s
      else match split_quotes s with
           | p :: ps => String c p :: ps
           | [] => [String c EmptyString]
           end
  end.

(** The pieces of a text against those of a template: what the [%s] stand for. *)
Fixpoint match_pieces (template text : list string) : option (list string) :=
  match template, text with
  | [], [] => Some []
  | t :: template, p :: text =>
      if decide (t = "%s") then l ← match_pieces template text; Some (p :: l)
      else if decide (t = p) then match_pieces template text
      else None
  | _, _ => None
  end.

(** The first row that matches. *)
Fixpoint first_row (p : row → bool) (f : row → list row) (rows : list row) : list row :=
  match rows with
  | [] => []
  | r :: rows => if p r then f r ++ rows else r :: first_row p f rows
  end.

Definition SQLITE_ERROR : Z := 1.

(** What each statement does to the rows and what it returns, for its arguments. *)
Abbreviation effect := (list row → list string → option (list row * list cells_t)).

Definition do_insert : effect := λ db l,
  match l with [k; s; t; v] => Some (db ++ [Row k s t v], []) | _ => None end.
Definition do_update_hm : effect := λ db l,
  match l with [v; k; s] => Some (update_where (is_any_sub_row k s) v db, []) | _ => None end.
Definition do_update_list : effect := λ db l,
  match l with [v; k; old] => Some (first_row (is_list_row k old) (λ r, [set_value v r]) db, []) | _ => None end.
Definition do_update_string : effect := λ db l,
  match l with [v; k] => Some (update_where (is_row "string" k) v db, []) | _ => None end.
Definition do_delete_string : effect := λ db l,
  match l with [k] => Some (delete_where (is_row "string" k) db, []) | _ => None end.
Definition do_delete_list : effect := λ db l,
  match l with [k; v] => Some (first_row (is_list_row k v) (λ _, []) db, []) | _ => None end.
Definition do_delete_sub (t : string) : effect := λ db l,
  match l with [k; s] => Some (delete_where (is_sub_row t k s) db, []) | _ => None end.
Definition do_select_key : effect := λ db l,
  match l with [k] => Some (db, row_cells <$> filter (λ r, r_key r = k) db) | _ => None end.
Definition do_select_all : effect := λ db l,
  match l with [] => Some (db, row_cells <$> db) | _ => None end.

Definition statements : list (string * effect) :=
  [(DISK_STORE_QUERY, do_insert); (DISK_UPDATE_HM_QUERY, do_update_hm);
   (DISK_UPDATE_LIST_QUERY, do_update_list); (DISK_UPDATE_STRING_QUERY, do_update_string);
   (DISK_DELETE_STRING_QUERY, do_delete_string); (DISK_DELETE_LIST_QUERY, do_delete_list);
   (DISK_DELETE_HM_QUERY, do_delete_sub "hashmap"); (DISK_DELETE_SET_QUERY, do_delete_sub "set");
   (DISK_LOAD_QUERY, do_select_key); (DISK_SELECT_ALL, do_select_all)].

Fixpoint run_stmts (stmts : list (string * effect)) (db : list row) (pieces : list string)
    : list row * Z * list cells_t :=
  match stmts with
  | [] => (db, SQLITE_ERROR, [])
  | (t, act) :: stmts =>
      match args ← match_pieces (split_quotes t) pieces; act db args with
      | Some (db, rows) => (db, SQLITE_OK, rows)
      | None => run_stmts stmts db pieces
      end
  end.

Definition mini_exec (db : list row) (q : string) : list row * Z * list cells_t :=
  run_stmts statements db (split_quotes q).

#[export] Instance mini_sql : SqliteTable (list row) := {| sq_exec := mini_exec; sq_rows := id |}.

(** ** Splitting a formatted statement *)

(** A piece in front of a list of pieces. *)
Definition glue (a : string) (ps : list string) : list string :=
  match ps with p :: ps => (a +:+ p) :: ps | [] => [a] end.

Lemma split_quotes_cons s : ∃ p ps, split_quotes s = p :: ps.
Proof. induction s as [|c s (p & ps & IH)]; simpl; [by eexists _, _|]. rewrite IH. case_decide; by eexists _, _. Qed.

Lemma split_quote_free a s : quote_free a → split_quotes (a +:+ s) = glue a (split_quotes s).
Proof.
  induction a as [|c a IH]; intros Hq.
  { change (EmptyString +:+ s) with s. by destruct (split_quotes_cons s) as (p & ps & ->). }
  apply list.Forall_cons in Hq as [Hc Hq]. change (String c a +:+ s) with (String c (a +:+ s)).
  cbn [split_quotes]. rewrite IH by done. destruct (split_quotes_cons s) as (p & ps & ->). cbn [glue].
  rewrite decide_False; [done|]. intros ->. done.
Qed.

Lemma append_empty_r s : s +:+ EmptyString = s.
Proof. induction s as [|c s IH]; [done|]. change (String c s +:+ EmptyString) with (String c (s +:+ EmptyString)). by rewrite IH. Qed.

(** Splitting [format t args]: walk the template. *)
Fixpoint format_pieces (fmt : string) (args : list string) : list string :=
  match fmt with
  | EmptyString => [EmptyString]
  | String "%"%char (String "s"%char rest) =>
      match args with
      | a :: args => glue a (format_pieces rest args)
      | [] => [EmptyString]
      end
  | String c rest =>
      if decide (c = "'"%char) then EmptyString :: format_pieces rest args
      else glue (String c EmptyString) (format_pieces rest args)
  end.

(** The equations of the two walks away from a [%s]. *)
Definition is_conversion (c : ascii) (rest : string) : bool :=
  match rest with
  | String d _ => bool_decide (c = "%"%char) && bool_decide (d = "s"%char)
  | EmptyString => false
  end.

Lemma conversion_inv c rest :
  is_conversion c rest = true → ∃ rest', c = "%"%char ∧ rest = String "s"%char rest'.
Proof.
  destruct rest as [|d rest]; [done|]. intros [Hc Hd]%andb_true_iff.
  apply bool_decide_eq_true in Hc as ->, Hd as ->. by exists rest.
Qed.

Lemma format_other c rest args :
  is_conversion c rest = false → format (String c rest) args = String c (format rest args).
Proof.
  destruct c as [[] [] [] [] [] [] [] []]; try done.
  destruct rest as [|d rest]; [done|]. destruct d as [[] [] [] [] [] [] [] []]; done.
Qed.

Lemma format_pieces_other c rest args :
  is_conversion c rest = false →
  format_pieces (String c rest) args =
    if decide (c = "'"%char) then EmptyString :: format_pieces rest args
    else glue (String c EmptyString) (format_pieces rest args).
Proof.
  destruct c as [[] [] [] [] [] [] [] []]; try done.
  destruct rest as [|d rest]; [done|]. destruct d as [[] [] [] [] [] [] [] []]; done.
Qed.

Lemma format_split fmt args : Forall quote_free args → split_quotes (format fmt args) = format_pieces fmt args.
Proof.
  revert args. remember (String.length fmt) as n eqn:Hn. revert fmt Hn.
  induction n as [n IH] using lt_wf_ind. intros [|c fmt] -> args Hargs; [done|].
  destruct (is_conversion c fmt) eqn:Hc.
  - apply conversion_inv in Hc as (rest & -> & ->). cbn [format format_pieces].
    destruct args as [|a args]; [done|]. apply list.Forall_cons in Hargs as [Ha Hargs].
    rewrite split_quote_free by done. f_equal. eapply IH; [|done|done]. simpl. lia.
  - rewrite format_other, format_pieces_other by done. cbn [split_quotes].
    rewrite (IH (String.length fmt)) by (done || (simpl; lia)).
    case_decide; [done|]. by destruct (format_pieces fmt args).
Qed.

(** A statement runs as the template it was made from. *)
Lemma run_format fmt args db :
  Forall quote_free args → mini_exec db (format fmt args) = run_stmts statements db (format_pieces fmt args).
Proof. intros Hq. unfold mini_exec. by rewrite format_split. Qed.

Lemma first_row_one p f rows : one_row p f rows (first_row p f rows).
Proof.
  induction rows as [|r rows IH]; simpl; [by right|]. destruct (p r) eqn:Hp.
  - left. by exists [], r, rows.
  - destruct IH as [(l1 & r' & l2 & -> & ? & ->)|[Hf ->]].
    + left. by exists (r :: l1), r', l2.
    + right. rewrite filter_cons, decide_False by congruence. done.
Qed.

(** The table after a statement, with the arguments as [format] leaves them. *)
Ltac statement rows :=
  exists rows; split;
  [rewrite run_format by (repeat constructor; done); vm_compute; reflexivity
  |rewrite ?append_empty_r; first [done|apply first_row_one]].
#[local] Abbreviation nl s := (s +:+ EmptyString) (only parsing).

#[export] Instance mini_sql_laws : SqliteTableLaws (list row).
Proof.
  split; intros; unfold sq_writes; cbn [sq_exec sq_rows mini_sql]; unfold id.
  - statement (db ++ [Row (nl k) (nl s) (nl t) (nl v)]).
  - statement (update_where (is_any_sub_row (nl k) (nl s)) (nl v) db).
  - statement (first_row (is_list_row (nl k) (nl old)) (λ r, [set_value (nl v) r]) db).
  - statement (update_where (is_row "string" (nl k)) (nl v) db).
  - statement (delete_where (is_row "string" (nl k)) db).
  - statement (first_row (is_list_row (nl k) (nl v)) (λ _, []) db).
  - statement (delete_where (is_sub_row "hashmap" (nl k) (nl s)) db).
  - statement (delete_where (is_sub_row "set" (nl k) (nl s)) db).
  - vm_compute. reflexivity.
  - rewrite run_format by (repeat constructor; done).
    assert (row_cells <$> filter (λ r, r_key r = k) db = row_cells <$> filter (λ r, r_key r = (nl k)) db) as ->
      by (by rewrite append_empty_r). vm_compute. reflexivity.
Qed.

#[global] Arguments format : simpl never.
