(* ===== verification/Dump.v ===== *)
(** * The dump tool: [scripts/dump.c], with [disk_dump] and [disk_destroy] of [storage/disk.c]

    The tool prints every row of the table of a disk file, to standard output or to a file.
    [getopt_long], [wordexp] and SQLite are not code of this repository: the options are
    the list of what [getopt_long] returns, [wordexp] gives the words of a path, and the
    names of the columns and the error messages are those SQLite passes. *)
From Stdlib Require Import Ascii.
From S2P Require Import Prelude Log Disk MiniSql.
Local Open Scope Z_scope.

Section Dump.
Context {DB : Type} (sqlite3_exec : DB → string → DB * Z * list cells_t) (sqlite3_open : string → option DB).
Context (colname : cells_t) (errmsg : string).
Context (can_open : string → bool) (wordexp : string → option (list string)).
Implicit Types (s : logger) (d : disk DB).

(** ** Dumping a disk *)

Definition DUMP_FORMAT : string := "%s = %s :: %s = %s :: %s = %s :: %s = %s" +:+ newline.

(** [dump_hook]: four cells at a time. *)
Fixpoint dump_hook (output : loc) (colname row : cells_t) s : outcome logger :=
  match row with
  | [] => Done s
  | v1 :: row =>
      match row, colname with
      | v2 :: v3 :: v4 :: row, n1 :: n2 :: n3 :: n4 :: colname =>
          s ← fprintf output DUMP_FORMAT [n1; v1; n2; v2; n3; v3; n4; v4] s;
          dump_hook output colname row s
      | _, _ => Stuck
      end
  end.

Fixpoint dump_rows (output : loc) (rows : list cells_t) s : outcome logger :=
  match rows with [] => Done s | row :: rows => s ← dump_hook output colname row s; dump_rows output rows s end.

Definition disk_dump d (output : loc) s : outcome (disk DB * logger) :=
  let '(db, rc, rows) := sqlite3_exec (dk_handle d) DISK_SELECT_ALL in
  s ← dump_rows output rows s;
  if rc =? SQLITE_OK then Done (set_handle d db, s)
  else s ← fprintf STDERR ("Disk dump failed: %s" +:+ newline) [errmsg] s; Done (set_handle d db, s).

(** The handle that is closed. *)
Definition disk_destroy (d : option (disk DB)) : list DB :=
  match d with None => [] | Some d => [dk_handle d] end.

(** ** The tool *)

Definition EXIT_SUCCESS : Z := 0.
Definition EXIT_FAILURE : Z := 1.

Definition usage (prog : string) s : outcome logger :=
  fprintf STDOUT ("Usage: %s -d <path to database>" +:+ newline) [prog] s.
Definition help (prog : string) s : outcome logger :=
  s ← usage prog s;
  fprintf STDOUT
    ("Dump a XFireDB disk file to STDOUT or any given file." +:+ newline +:+ newline +:+
     "Arguments are all mandatory." +:+ newline +:+
     "  -h, --help                  Display this message." +:+ newline +:+
     "  -d, --dbfile  <path>        Path to a database file." +:+ newline +:+
     "  -o, --output <path>         Output file. If no output file is given, stdout will be used." +:+ newline) [] s.

(** [NULL] when the path expands to nothing. *)
Definition path_helper (path : string) : outcome (option string) :=
  p ← deref (wordexp path);
  Done (if 1 <? Z.of_nat (length p) then p !! 1%nat else p !! 0%nat).

(** The process ends: its code, the streams, which [exit] writes out, and the handles it
    has closed. *)
Record ended := Ended { e_code : Z; e_log : logger; e_closed : list DB }.
Definition exit (code : Z) s : outcome ended := s ← fflush STDOUT s; Done (Ended code s []).

(** The loop over the options: the paths, or the end. *)
Fixpoint dump_options (prog : string) (opts : list (Z * string)) (dbfile output : option string) s
    : outcome (ended + (option string * option string)) :=
  match opts with
  | [] => Done (inr (dbfile, output))
  | (option, optarg) :: opts =>
      if option =? 111 then dump_options prog opts dbfile (Some optarg) s
      else if option =? 100 then dump_options prog opts (Some optarg) output s
      else if option =? 104 then s ← help prog s; e ← exit EXIT_SUCCESS s; Done (inl (e : ended))
      else s ← usage prog s; e ← exit EXIT_FAILURE s; Done (inl (e : ended))
  end.

(** [ofile] and the path it was opened with. *)
Definition open_output (output : option string) s : outcome (logger * loc * bool) :=
  match output with
  | None => Done (s, STDOUT, false)
  | Some output => path ← path_helper output; '(s, ofile) ← fopen can_open path s; Done (s, ofile, true)
  end.

Definition dump_main (prog : string) (opts : list (Z * string)) s : outcome ended :=
  o ← dump_options prog opts None None s;
  match o with
  | inl e => Done e
  | inr (None, _) => s ← usage prog s; exit EXIT_FAILURE s
  | inr (Some dbfile, output) =>
      '(s, ofile, opened) ← open_output output s;
      s ← xfiredb_log_init can_open None None s;
      dbfile ← path_helper dbfile;
      dbfile ← deref dbfile;
      match disk_create sqlite3_exec sqlite3_open dbfile with
      | None =>
          s ← fprintf STDERR ("Cannot create disk file %s: %s" +:+ newline) [dbfile; errmsg] s;
          exit (- EXIT_FAILURE) s
      | Some db =>
          '(db, s) ← disk_dump db ofile s;
          s ← (if (opened : bool) then fclose ofile s else Done s);
          let closed := disk_destroy (Some db) in
          s ← xfiredb_log_exit s;
          Done (Ended (- EXIT_SUCCESS) s closed)
      end
  end.
End Dump.

(** ** What is printed *)

Definition columns : cells_t := ["db_key"; "db_secondary_key"; "db_type"; "db_value"].

Definition row_line (r : row) : string :=
  "db_key = " +:+ r_key r +:+ " :: db_secondary_key = " +:+ r_skey r +:+ " :: db_type = " +:+ r_type r +:+
  " :: db_value = " +:+ r_value r +:+ newline.
Definition row_lines (rows : list row) : string := foldr (λ r t, row_line r +:+ t) "" rows.
Definition bye : string := "[exit]: XFIRE logger stopped." +:+ newline.

Section Printing.
Implicit Types (s : logger).

Lemma dump_rows_at f name t d rows s :
  stream_at f name t d s → f ≠ STDERR →
  ∃ s', dump_rows columns f (row_cells <$> rows) s = Done s' ∧ stream_at f name (t +:+ row_lines rows) d s' ∧ only_at f name s s'.
Proof.
  revert t s. induction rows as [|r rows IH]; intros t s Hs Hf; cbn [fmap list_fmap dump_rows row_lines foldr].
  - exists s. by rewrite string_app_nil.
  - destruct (fprintf_at f name t d s DUMP_FORMAT ["db_key"; r_key r; "db_secondary_key"; r_skey r; "db_type"; r_type r; "db_value"; r_value r]
      (row_line r) Hs Hf eq_refl) as (s1 & E1 & Hs1 & Ho1).
    destruct (IH _ s1 Hs1 Hf) as (s2 & E2 & Hs2 & Ho2). exists s2. rewrite string_app_assoc in Hs2. split_and!; [|done|by eapply only_at_trans].
    cbn [row_cells columns dump_hook]. rewrite E1. exact E2.
Qed.

(** Stopping a log that goes to the console. *)
Lemma log_exit_console t d te de s :
  lg_out s = STDOUT → lg_err s = STDERR → stream_at STDOUT CONSOLE t d s → stream_at STDERR CONSOLE_ERR te de s →
  ∃ s', xfiredb_log_exit s = Done s' ∧ lg_disk s' !! CONSOLE = Some (t +:+ bye) ∧
    lg_files s' !! STDOUT = None ∧ lg_files s' !! STDERR = None ∧
    (∀ g, g ≠ STDOUT → g ≠ STDERR → lg_files s' !! g = lg_files s !! g) ∧
    (∀ n, n ≠ CONSOLE → n ≠ CONSOLE_ERR → lg_disk s' !! n = lg_disk s !! n).
Proof.
  intros Ho He Hs Hse.
  destruct (fprintf_at STDOUT CONSOLE t d s bye [] bye Hs ltac:(done) eq_refl) as (s1 & E1 & Hs1 & Ho1).
  destruct (fflush_at _ _ _ _ _ Hs1) as (s2 & E2 & Hs2 & Ho2). pose proof (only_at_trans _ _ _ _ _ Ho1 Ho2) as Ho12.
  pose proof (oa_out _ _ _ _ Ho1) as A1. clear Ho1 Ho2 Hs1.
  destruct (fclose_at STDERR CONSOLE_ERR te de s2) as (s3 & E3 & Hf3 & _ & Ho3); [by eapply only_at_stream|].
  destruct (fclose_at STDOUT CONSOLE (t +:+ bye) (t +:+ bye) s3) as (s4 & E4 & Hf4 & Hd4 & Ho4); [by eapply only_at_stream|].
  destruct Ho12 as [A2 B2 _ C2 D2], Ho3 as [A3 B3 _ C3 D3], Ho4 as [A4 B4 _ C4 D4]. exists s4. split_and!.
  - unfold xfiredb_log_exit, raw_xfiredb_log. change (_ +:+ newline) with bye.
    rewrite Ho, E1. cbn [mbind outcome_bind]. rewrite A1, Ho, E2. cbn [mbind outcome_bind]. rewrite B2, He, E3. cbn [mbind outcome_bind]. by rewrite A3, A2, Ho.
  - done.
  - done.
  - by rewrite C4, Hf3.
  - intros g H1 H2. by rewrite C4, C3, C2.
  - intros n H1 H2. by rewrite D4, D3, D2.
Qed.
End Printing.

(** ** The tool at work *)

Section Tool.
Context {DB : Type} (sqlite3_exec : DB → string → DB * Z * list cells_t) (sqlite3_open : string → option DB).
Context (errmsg : string) (can_open : string → bool) (wordexp : string → option (list string)).
(** The path expands to one word, the file is a database that has the table, and a
    statement that only reads leaves it as it is. *)
Context (path dbfile : string) (db : DB) (rows : list row).
Context (Hpath : wordexp path = Some [dbfile]) (Hopen : sqlite3_open dbfile = Some db).
Context (Hcheck : ∃ rc r rs, sqlite3_exec db DISK_CHECK_TABLE = (db, rc, r :: rs)).
Context (Hselect : sqlite3_exec db DISK_SELECT_ALL = (db, SQLITE_OK, row_cells <$> rows)).

Let dump := dump_main sqlite3_exec sqlite3_open columns errmsg can_open wordexp.

Lemma disk_create_existing : ∃ d, disk_create sqlite3_exec sqlite3_open dbfile = Some d ∧ dk_handle d = db.
Proof.
  destruct Hcheck as (rc & r & rs & Hc). unfold disk_create. rewrite Hopen. eexists. split; [done|].
  unfold disk_create_main_table. cbn [dk_handle]. by rewrite Hc.
Qed.

Lemma disk_dump_at d f name t x s :
  dk_handle d = db → stream_at f name t x s → f ≠ STDERR →
  ∃ s', disk_dump sqlite3_exec columns errmsg d f s = Done (set_handle d db, s') ∧
    stream_at f name (t +:+ row_lines rows) x s' ∧ only_at f name s s'.
Proof.
  intros Hd Hs Hf. destruct (dump_rows_at f name t x rows s Hs Hf) as (s' & E & H). exists s'. split; [|done].
  unfold disk_dump. rewrite Hd, Hselect, E. done.
Qed.

(** The streams at the start, and the output file. *)
Lemma start_err files : stream_at STDERR CONSOLE_ERR "" "" (log_start files).
Proof. exists "". split_and!; [done| |done]. unfold log_start, lg_disk. by rewrite lookup_insert_ne, lookup_insert_eq. Qed.
Lemma start_files files g : g ≠ STDOUT → g ≠ STDERR → lg_files (log_start files) !! g = None.
Proof. intros ??. unfold log_start, lg_files. by rewrite lookup_insert_ne, lookup_singleton_ne. Qed.
Lemma start_disk files n : n ≠ CONSOLE → n ≠ CONSOLE_ERR → lg_disk (log_start files) !! n = files !! n.
Proof. intros ??. unfold log_start, lg_disk. by rewrite !lookup_insert_ne. Qed.

Lemma fopen_start out files : can_open out = true → ∃ s, fopen can_open (Some out) (log_start files) = Done (s, 3) ∧
  stream_at 3 out "" "" s ∧ only_at 3 out (log_start files) s.
Proof.
  intros Hout. unfold fopen. cbn [deref mbind outcome_bind]. rewrite Hout. eexists. split; [done|]. split.
  - exists "". cbn. by rewrite !lookup_insert_eq.
  - split; [done..| |]; intros; cbn; by rewrite lookup_insert_ne.
Qed.

(** The pointers after [xfiredb_log_init(NULL, NULL)]. *)
Definition to_console_only (s : logger) : logger := put_out STDOUT (put_err STDERR s).

Lemma no_streams (s : logger) :
  lg_files s !! STDOUT = None → lg_files s !! STDERR = None → (∀ g, g ≠ STDOUT → g ≠ STDERR → lg_files s !! g = None) → lg_files s = ∅.
Proof.
  intros Ho He H. apply map_eq. intros g. rewrite lookup_empty. destruct (decide (g = STDOUT)) as [->|]; [done|].
  destruct (decide (g = STDERR)) as [->|]; [done|]. by apply H.
Qed.

(** C38: the dump tool prints the table.  Run on a disk file that has the table, it prints
    each row of it once, in order, on one line, to the output file that was named or to
    standard output; it ends with success, the database and all streams are closed and
    other files are left alone.  The log's last message goes to standard output, after the
    rows when they go there too. *)
Theorem dump_prints_table prog files :
  (∃ s, dump prog [(100, path)] (log_start files) = Done (Ended 0 s [db]) ∧
    lg_disk s !! CONSOLE = Some (row_lines rows +:+ bye) ∧ lg_files s = ∅ ∧
    ∀ n, n ≠ CONSOLE → n ≠ CONSOLE_ERR → lg_disk s !! n = files !! n) ∧
  ∀ output out, wordexp output = Some [out] → can_open out = true → out ≠ CONSOLE → out ≠ CONSOLE_ERR →
    ∃ s, dump prog [(100, path); (111, output)] (log_start files) = Done (Ended 0 s [db]) ∧
      lg_disk s !! out = Some (row_lines rows) ∧ lg_disk s !! CONSOLE = Some bye ∧ lg_files s = ∅ ∧
      ∀ n, n ≠ CONSOLE → n ≠ CONSOLE_ERR → n ≠ out → lg_disk s !! n = files !! n.
Proof.
  destruct disk_create_existing as (d & Hd & Hh). assert (path_helper wordexp path = Done (Some dbfile)) as Hp by (unfold path_helper; by rewrite Hpath).
  split.
  - pose proof (start_out files) as Hso. pose proof (start_err files) as Hse.
    destruct (disk_dump_at d STDOUT CONSOLE "" "" (to_console_only (log_start files)) Hh Hso ltac:(done)) as (s1 & E1 & Hs1 & Hon1).
    pose proof (only_at_stream STDOUT CONSOLE _ s1 STDERR CONSOLE_ERR "" "" Hon1 ltac:(done) ltac:(done) Hse) as Hse1. destruct Hon1 as [A B _ C D].
    destruct (log_exit_console (row_lines rows) "" "" "" s1) as (s2 & E2 & Hd2 & Hfo & Hfe & Hfs & Hds); [by rewrite A|by rewrite B|done..|].
    exists s2. split_and!; [|done| |].
    + unfold dump, dump_main. cbn [dump_options Z.eqb Pos.eqb mbind outcome_bind open_output].
      change (xfiredb_log_init can_open None None ?s) with (Done (to_console_only s)). cbn [mbind outcome_bind].
      rewrite Hp. cbn [mbind outcome_bind deref]. rewrite Hd, E1. cbn [mbind outcome_bind]. by rewrite E2.
    + apply no_streams; [done..|]. intros g H1 H2. rewrite Hfs, C by done. by apply (start_files files).
    + intros n H1 H2. rewrite Hds, D by done. by apply (start_disk files).
  - intros output out Hout Hcan Hne1 Hne2. assert (path_helper wordexp output = Done (Some out)) as Hpo by (unfold path_helper; by rewrite Hout).
    destruct (fopen_start out files Hcan) as (s0 & E0 & Hs0 & Hon0).
    pose proof (only_at_stream 3 out _ s0 STDOUT CONSOLE "" "" Hon0 ltac:(done) ltac:(done) (start_out files)) as Hso.
    pose proof (only_at_stream 3 out _ s0 STDERR CONSOLE_ERR "" "" Hon0 ltac:(done) ltac:(done) (start_err files)) as Hse.
    destruct Hon0 as [_ _ _ C0 D0].
    destruct (disk_dump_at d 3 out "" "" (to_console_only s0) Hh Hs0 ltac:(done)) as (s1 & E1 & Hs1 & Hon1).
    destruct (fclose_at 3 out (row_lines rows) "" s1 Hs1) as (s2 & E2 & Hf2 & Hd2 & Hon2).
    assert (∀ g n t x, g ≠ 3 → n ≠ out → stream_at g n t x s0 → stream_at g n t x s2) as Hkeep.
    { intros g n t x Hg Hn Hs. eapply only_at_stream; [exact Hon2|done..|]. by eapply only_at_stream; [exact Hon1|..]. }
    destruct Hon1 as [A1 B1 _ C1 D1], Hon2 as [A2 B2 _ C2 D2].
    destruct (log_exit_console "" "" "" "" s2) as (s3 & E3 & Hd3 & Hfo & Hfe & Hfs & Hds); [by rewrite A2, A1|by rewrite B2, B1|by apply Hkeep..|].
    exists s3. split_and!.
    + unfold dump, dump_main. cbn [dump_options Z.eqb Pos.eqb mbind outcome_bind open_output]. rewrite Hpo. cbn [mbind outcome_bind]. rewrite E0.
      change (xfiredb_log_init can_open None None ?s) with (Done (to_console_only s)). cbn [mbind outcome_bind].
      change (xfiredb_log_init can_open None None ?s) with (Done (to_console_only s)). cbn [mbind outcome_bind].
      rewrite Hp. cbn [mbind outcome_bind deref]. rewrite Hd, E1. cbn [mbind outcome_bind]. rewrite E2. cbn [mbind outcome_bind]. by rewrite E3.
    + by rewrite Hds, Hd2.
    + done.
    + apply no_streams; [done..|]. intros g H1 H2. rewrite Hfs by done. destruct (decide (g = 3)) as [->|]; [done|].
      rewrite C2, C1 by done. change (lg_files s0 !! g = None). rewrite C0 by done. by apply start_files.
    + intros n H1 H2 H3. rewrite Hds, D2, D1 by done. change (lg_disk s0 !! n = files !! n). rewrite D0 by done. by apply start_disk.
Qed.

(** An output file that cannot be opened is written to all the same. *)
Lemma dump_unopened prog files output out :
  wordexp output = Some [out] → can_open out = false → rows ≠ [] →
  dump prog [(100, path); (111, output)] (log_start files) = Stuck.
Proof.
  intros Hout Hcan Hrows. destruct disk_create_existing as (d & Hd & Hh).
  assert (path_helper wordexp path = Done (Some dbfile)) as Hp by (unfold path_helper; by rewrite Hpath).
  assert (path_helper wordexp output = Done (Some out)) as Hpo by (unfold path_helper; by rewrite Hout).
  unfold dump, dump_main. cbn [dump_options Z.eqb Pos.eqb mbind outcome_bind open_output]. rewrite Hpo. cbn [mbind outcome_bind].
  unfold fopen. cbn [deref mbind outcome_bind]. rewrite Hcan. cbn [mbind outcome_bind].
  change (xfiredb_log_init can_open None None ?s) with (Done (to_console_only s)). cbn [mbind outcome_bind].
  rewrite Hp. cbn [mbind outcome_bind deref]. rewrite Hd. unfold disk_dump. rewrite Hh, Hselect. destruct rows as [|r rs]; [done|].
  cbn [fmap list_fmap dump_rows row_cells columns dump_hook]. by rewrite fprintf_closed.
Qed.
End Tool.

(** ** A run *)

Definition demo_exec (db : list row) (q : string) : list row * Z * list cells_t :=
  if decide (q = DISK_CHECK_TABLE) then (db, SQLITE_OK, [["xfiredb_data"]]) else mini_exec db q.
Definition demo_rows : list row := [Row "a" "null" "string" "1"; Row "h" "k" "hashmap" "v"].

Lemma dump_prints_table_witness : ∃ s,
  dump_main demo_exec (λ _, Some demo_rows) columns "" (λ _, true) (λ p, Some [p]) "dump" [(100, "db"); (111, "out")] (log_start ∅) = Done (Ended 0 s [demo_rows]) ∧
  lg_disk s !! "out" = Some ("db_key = a :: db_secondary_key = null :: db_type = string :: db_value = 1" +:+ newline +:+
    ("db_key = h :: db_secondary_key = k :: db_type = hashmap :: db_value = v" +:+ newline)) ∧
  lg_files s = ∅.
Proof.
  destruct (dump_prints_table demo_exec (λ _, Some demo_rows) "" (λ _, true) (λ p, Some [p]) "db" "db" demo_rows demo_rows
    eq_refl eq_refl ltac:(by eexists _, _, _) ltac:(vm_compute; reflexivity) "dump" ∅) as [_ H].
  destruct (H "out" "out") as (s & E & Ho & _ & Hf & _); [done..|]. by exists s.
Defined.
