(* ===== verification/DiskSpec.v ===== *)
(** * What the disk module does to the table

    The effect of each function of [storage/disk.c] on the rows, for any
    [SqliteTable], and the cases in which it does not do what its documentation
    says. *)
From S2P Require Import Prelude Disk MiniSql.
Local Open Scope Z_scope.

Section Spec.
Context `{HT : SqliteTable DB} {HL : SqliteTableLaws DB}.

Definition disk_rows (d : disk DB) : list row := sq_rows (dk_handle d).

Lemma disk_exec_writes (d : disk DB) q P :
  sq_writes (dk_handle d) q P →
  ∃ d', disk_exec sq_exec d q = (d', - XFIREDB_OK) ∧ P (disk_rows d').
Proof. intros (db & He & HP). unfold disk_exec. rewrite He. by eexists. Qed.

Lemma disk_store_ok (d : disk DB) k s t v :
  quote_free k → quote_free s → quote_free t → quote_free v →
  ∃ d', disk_exec sq_exec d (format DISK_STORE_QUERY [k; s; t; v]) = (d', - XFIREDB_OK) ∧
    disk_rows d' = disk_rows d ++ [Row k s t v].
Proof. intros. by apply (disk_exec_writes d _ (λ rows, rows = _ ++ _)), sq_insert. Qed.

Lemma quote_free_null : quote_free "null".
Proof. repeat constructor; discriminate. Qed.
Lemma quote_free_type t : t ∈ ["string"; "list"; "hashmap"; "set"] → quote_free t.
Proof. intros Ht. repeat (apply elem_of_cons in Ht as [->|Ht]; [repeat constructor; discriminate|]). by apply not_elem_of_nil in Ht. Qed.

(** Storing a whole hash map or list ([disk_store_hm], [disk_store_list])
    appends one row per entry, in order, and loading the table ([disk_load]) hands
    every row to the hook in order, so that what is stored is what is loaded;
    values and keys must not contain a quote character. *)
Lemma disk_store_load (d : disk DB) key entries texts :
  quote_free key → Forall (λ '(k, v), quote_free k ∧ quote_free v) entries → Forall quote_free texts →
  ∃ d1 d2, disk_store_hm sq_exec d key entries = (d1, - XFIREDB_OK) ∧
    disk_store_list sq_exec d1 key texts = (d2, - XFIREDB_OK) ∧
    ∃ d3 code, disk_load sq_exec d2 =
      (d3, row_cells <$> (disk_rows d ++ ((λ '(k, v), Row key k "hashmap" v) <$> entries)
                            ++ ((λ v, Row key "null" "list" v) <$> texts)), code).
Proof.
  intros Hk He Ht.
  assert (∃ d1, disk_store_hm sq_exec d key entries = (d1, - XFIREDB_OK) ∧
    disk_rows d1 = disk_rows d ++ ((λ '(k, v), Row key k "hashmap" v) <$> entries)) as (d1 & H1 & R1).
  { revert d. induction He as [|[k v] entries [Hk' Hv] He IH]; intros d; simpl.
    - exists d. by rewrite app_nil_r.
    - destruct (disk_store_ok d key k "hashmap" v) as (d' & Hd & Hr);
        [done|done|by apply quote_free_type; set_solver|done|].
      rewrite Hd. simpl. destruct (IH d') as (d1 & -> & Hr1). exists d1. by rewrite Hr1, Hr, <-app_assoc. }
  assert (∃ d2, disk_store_list sq_exec d1 key texts = (d2, - XFIREDB_OK) ∧
    disk_rows d2 = disk_rows d1 ++ ((λ v, Row key "null" "list" v) <$> texts)) as (d2 & H2 & R2).
  { clear H1 R1. revert d1. induction Ht as [|v texts Hv Ht IH]; intros d1; simpl.
    - exists d1. by rewrite app_nil_r.
    - unfold disk_store_list_entry.
      destruct (disk_store_ok d1 key "null" "list" v) as (d' & Hd & Hr);
        [done|exact quote_free_null|by apply quote_free_type; set_solver|done|].
      rewrite Hd. simpl. destruct (IH d') as (d2 & -> & Hr2). exists d2. by rewrite Hr2, Hr, <-app_assoc. }
  exists d1, d2. split_and!; [done..|]. unfold disk_load. rewrite sq_select_all. simpl.
  eexists _, _. f_equal. f_equal. f_equal. fold (disk_rows d2). by rewrite R2, R1, <-app_assoc.
Qed.

(** The two load functions return [-XFIREDB_ERR] although the query
    succeeded, and [disk_size] returns the number of columns of the table, or an
    uninitialised value when it is empty, not the number of rows. *)
Lemma disk_codes_wrong (d : disk DB) key size0 :
  quote_free key →
  (∃ rows, disk_load sq_exec d = (set_handle d (dk_handle d), rows, - XFIREDB_ERR)) ∧
  (∃ rows, disk_load_key sq_exec d key = (set_handle d (dk_handle d), rows, - XFIREDB_ERR)) ∧
  (disk_size sq_exec d size0).2 = match disk_rows d with [] => size0 | _ => 4 end.
Proof.
  intros Hk. unfold disk_load, disk_load_key, disk_size, disk_rows.
  rewrite sq_select_all, (sq_select_key _ key Hk). split_and!; [by eexists..|]. simpl.
  induction (sq_rows (dk_handle d)) as [|r rows IH]; [done|]. simpl. clear IH.
  induction rows as [|r' rows IH]; [done|]. exact IH.
Qed.
End Spec.

(** The values are not escaped.  For every database library, deleting the
    string with a key that contains quotes sends a statement with another condition,
    here one that is true of every row. *)
Lemma disk_query_injection {DB} (sqlite3_exec : DB → string → DB * Z * list cells_t) d :
  disk_delete_string sqlite3_exec d "x' OR 'a' = 'a" =
  disk_exec sqlite3_exec d
    "DELETE FROM xfiredb_data WHERE db_type = 'string' AND db_key = 'x' OR 'a' = 'a';".
Proof. reflexivity. Qed.

(** ** At the concrete table *)

Definition disk1 : disk (list row) := Disk "db" [Row "a" "null" "string" "1"] 0 true.

Lemma quote_free_dec s : bool_decide (39 ∉ bytes s) = true → quote_free s.
Proof. intros H%bool_decide_eq_true. apply list.Forall_forall. intros b Hb ->. done. Qed.

Lemma disk_store_load_witness :
  ∃ d1 d2, disk_store_hm sq_exec disk1 "h" [("k1", "v1"); ("k2", "v2")] = (d1, - XFIREDB_OK) ∧
    disk_store_list sq_exec d1 "h" ["x"; "y"] = (d2, - XFIREDB_OK) ∧
    ∃ d3 code, disk_load sq_exec d2 =
      (d3, row_cells <$> (disk_rows disk1 ++
             ((λ '(k, v), Row "h" k "hashmap" v) <$> [("k1", "v1"); ("k2", "v2")])
             ++ ((λ v, Row "h" "null" "list" v) <$> ["x"; "y"])), code).
Proof.
  apply (disk_store_load disk1 "h" [("k1", "v1"); ("k2", "v2")] ["x"; "y"]).
  - by apply quote_free_dec.
  - constructor; [split; by apply quote_free_dec|constructor; [split; by apply quote_free_dec|constructor]].
  - constructor; [by apply quote_free_dec|constructor; [by apply quote_free_dec|constructor]].
Defined.

Lemma disk_codes_wrong_witness :
  (∃ rows, disk_load sq_exec disk1 = (set_handle disk1 (dk_handle disk1), rows, - XFIREDB_ERR)) ∧
  (∃ rows, disk_load_key sq_exec disk1 "a" = (set_handle disk1 (dk_handle disk1), rows, - XFIREDB_ERR)) ∧
  (disk_size sq_exec disk1 7).2 = match disk_rows disk1 with [] => 7 | _ => 4 end.
Proof. apply (disk_codes_wrong disk1 "a" 7). by apply quote_free_dec. Defined.
