(* ===== verification/Bio.v ===== *)
(** * Background I/O: the queue and the worker of [storage/bio.c]

    Every change of the database is queued as a [bio_q] node and written to disk by
    the worker.  Nodes and the strings they own live in two heaps of one allocator
    that never hands out an address twice, so that releasing a string again, or
    reading it after it is released, is [Stuck].  The functions take their lock for
    the whole of what they do to the queue, and are one step each. *)
From S2P Require Import Prelude Chain Disk.
Local Open Scope Z_scope.

(** ** Data *)

Inductive bio_operation_t :=
  | STRING_ADD | STRING_DEL | STRING_UPDATE
  | LIST_ADD | LIST_DEL | LIST_UPDATE
  | HM_ADD | HM_DEL | HM_UPDATE
  | SET_ADD | SET_DEL.
#[export] Instance bio_operation_eq_dec : EqDecision bio_operation_t.
Proof. solve_decision. Defined.

Record bio_q := BioQ {
  q_next : loc; q_prev : loc;
  q_key : loc; q_arg : loc; q_newdata : loc;
  q_operation : bio_operation_t }.
#[export] Instance bio_q_eq_dec : EqDecision bio_q.
Proof. solve_decision. Defined.

Record bio_q_head := BioQHead { bq_next : loc; bq_tail : loc; bq_size : Z }.
#[export] Instance bio_q_head_eq_dec : EqDecision bio_q_head.
Proof. solve_decision. Defined.

(** [b_counter] is the static [wake_up_counter]; [b_signals] counts the calls of
    [bg_process_signal]. *)
Record bio := Bio {
  b_heap : gmap loc bio_q;
  b_strs : gmap loc string;
  b_brk : loc;
  b_head : bio_q_head;
  b_counter : Z;
  b_signals : Z }.

Definition set_heap (f : gmap loc bio_q → gmap loc bio_q) (b : bio) : bio :=
  Bio (f (b_heap b)) (b_strs b) (b_brk b) (b_head b) (b_counter b) (b_signals b).
Definition set_strs (f : gmap loc string → gmap loc string) (b : bio) : bio :=
  Bio (b_heap b) (f (b_strs b)) (b_brk b) (b_head b) (b_counter b) (b_signals b).
Definition set_head (hd : bio_q_head) (b : bio) : bio :=
  Bio (b_heap b) (b_strs b) (b_brk b) hd (b_counter b) (b_signals b).
Definition set_wake (counter signals : Z) (b : bio) : bio :=
  Bio (b_heap b) (b_strs b) (b_brk b) (b_head b) counter signals.

(** ** Memory *)

(** [xfiredb_sprintf(&p, "%s", s)]: a copy of the text at a new address. *)
Definition xfiredb_sprintf (s : string) (b : bio) : bio * loc :=
  (Bio (b_heap b) (<[b_brk b := s]> (b_strs b)) (b_brk b + 1) (b_head b) (b_counter b) (b_signals b),
   b_brk b).

(** [xfiredb_free] of a string; NULL is ignored. *)
Definition free_str (a : loc) (b : bio) : outcome bio :=
  if decide (a = NULL) then Done b
  else match b_strs b !! a with
       | Some _ => Done (set_strs (delete a) b)
       | None => Stuck
       end.

(** The text a [char *] points to. *)
Definition c_str (b : bio) (a : loc) : outcome string := deref (b_strs b !! a).

Definition bnext (h : gmap loc bio_q) (a : loc) : outcome loc := nd ← deref (h !! a); Done (q_next nd).
Definition bprev (h : gmap loc bio_q) (a : loc) : outcome loc := nd ← deref (h !! a); Done (q_prev nd).
Definition set_bnext (h : gmap loc bio_q) (a v : loc) : outcome (gmap loc bio_q) :=
  nd ← deref (h !! a);
  Done (<[a := BioQ v (q_prev nd) (q_key nd) (q_arg nd) (q_newdata nd) (q_operation nd)]> h).
Definition set_bprev (h : gmap loc bio_q) (a v : loc) : outcome (gmap loc bio_q) :=
  nd ← deref (h !! a);
  Done (<[a := BioQ (q_next nd) v (q_key nd) (q_arg nd) (q_newdata nd) (q_operation nd)]> h).

(** ** The queue *)

Definition bio_queue_pop (b : bio) : outcome (bio * loc) :=
  let tail := bq_tail (b_head b) in
  if decide (tail = NULL) then Done (b, NULL)
  else
    let h := b_heap b in
    prev ← bprev h tail;
    '(h, next) ← (if decide (prev = NULL) then Done (h, NULL)
                  else h ← set_bnext h prev NULL; Done (h, bq_next (b_head b)));
    h ← set_bprev h tail NULL;
    h ← set_bnext h tail NULL;
    Done (set_head (BioQHead next prev (s64 (bq_size (b_head b) - 1))) (set_heap (λ _, h) b), tail).

(** [wake_up_counter % (conf->persist_level + 1)]: a division by zero faults. *)
Definition bio_try_wakeup_worker (persist_level : Z) (b : bio) : outcome (bio * Z) :=
  let wake_up_counter := s32 (b_counter b + 1) in
  if decide (s32 (persist_level + 1) = 0) then Stuck
  else if Z.rem wake_up_counter (s32 (persist_level + 1)) =? 0
       then Done (set_wake 0 (b_signals b + 1) b, 0)
       else Done (set_wake wake_up_counter (b_signals b) b, 1).

Definition bio_queue_add (persist_level : Z) (key arg newdata : loc) (op : bio_operation_t) (b : bio)
    : outcome bio :=
  if persist_level >=? 3 then
    b ← free_str key b; b ← free_str arg b; free_str newdata b
  else
    let q := b_brk b in
    let hd := b_head b in
    let h := <[q := BioQ NULL NULL key arg newdata op]> (b_heap b) in
    let size := s64 (bq_size hd + 1) in
    '(h, hd) ← (if decide (bq_next hd = NULL) then Done (h, BioQHead q q size)
                else
                  h ← set_bnext h q (bq_next hd);
                  h ← set_bprev h (bq_next hd) q;
                  Done (h, BioQHead q (bq_tail hd) size));
    '(b, _) ← bio_try_wakeup_worker persist_level
                (Bio h (b_strs b) (b_brk b + 1) hd (b_counter b) (b_signals b));
    Done b.

Definition bio_size (b : bio) : Z := bq_size (b_head b).

(** [bio_init]; addresses start above NULL. *)
Definition bio_init : bio := Bio ∅ ∅ 1 (BioQHead NULL NULL 0) 0 0.

(** [xfiredb_notice_disk] of [xfiredb.c], with [_op] an operation code. *)
Definition copy_opt (s : option string) (b : bio) : bio * loc :=
  match s with Some s => xfiredb_sprintf s b | None => (b, NULL) end.

Definition xfiredb_notice_disk (load_state : bool) (persist_level : Z)
    (key arg data : option string) (op : bio_operation_t) (b : bio) : outcome bio :=
  if negb load_state then Done b
  else
    let '(b, key) := copy_opt key b in
    let '(b, arg) := copy_opt arg b in
    let '(b, data) := copy_opt data b in
    bio_queue_add persist_level key arg data op b.

(** ** The worker *)

Section Worker.
Context {DB : Type} (sqlite3_exec : DB → string → DB * Z * list cells_t).

(** The [switch] of [bio_worker]. *)
Definition bio_dispatch (d : disk DB) (b : bio) (q : bio_q) : outcome (disk DB) :=
  key ← c_str b (q_key q);
  match q_operation q with
  | STRING_ADD =>
      v ← c_str b (q_newdata q); Done (disk_store_string sqlite3_exec d key v).1
  | STRING_UPDATE =>
      v ← c_str b (q_newdata q); Done (disk_update_string sqlite3_exec d key v).1
  | STRING_DEL => Done (disk_delete_string sqlite3_exec d key).1
  | LIST_ADD =>
      v ← c_str b (q_newdata q); Done (disk_store_list_entry sqlite3_exec d key v).1
  | LIST_DEL =>
      a ← c_str b (q_arg q); Done (disk_delete_list sqlite3_exec d key a).1
  | LIST_UPDATE =>
      a ← c_str b (q_arg q); v ← c_str b (q_newdata q);
      Done (disk_update_list sqlite3_exec d key a v).1
  | HM_ADD =>
      a ← c_str b (q_arg q); v ← c_str b (q_newdata q);
      Done (disk_store_hm_node sqlite3_exec d key a v).1
  | HM_DEL =>
      a ← c_str b (q_arg q); Done (disk_delete_hashmapnode sqlite3_exec d key a).1
  | HM_UPDATE =>
      a ← c_str b (q_arg q); v ← c_str b (q_newdata q);
      Done (disk_update_hm sqlite3_exec d key a v).1
  | SET_ADD =>
      a ← c_str b (q_arg q); Done (disk_store_set_key sqlite3_exec d key a).1
  | SET_DEL =>
      a ← c_str b (q_arg q); Done (disk_delete_set_key sqlite3_exec d key a).1
  end.

(** The body of the loop, for the node that was taken off the queue. *)
Definition bio_process (d : disk DB) (b : bio) (q : loc) : outcome (disk DB * bio) :=
  nd ← deref (b_heap b !! q);
  d ← bio_dispatch d b nd;
  b ← free_str (q_key nd) b;
  b ← free_str (q_arg nd) b;
  b ← free_str (q_newdata nd) b;
  Done (d, set_heap (delete q) b).

Fixpoint bio_worker (fuel : nat) (d : disk DB) (b : bio) : outcome (disk DB * bio) :=
  match fuel with
  | O => OutOfFuel
  | S fuel' =>
      '(b, q) ← bio_queue_pop b;
      if decide (q = NULL) then Done (d, b)
      else '(d, b) ← bio_process d b q; bio_worker fuel' d b
  end.
End Worker.

(** ** The test of the module: [dbg_bio_queue]

    [xfiredb_zalloc] of the length plus one and [memcpy] of the text: a copy. *)
Section Debug.
Context (persist_level : Z).

Definition dbg_queue (key : string) (arg newdata : option string) (op : bio_operation_t) (b : bio)
    : outcome bio :=
  let '(b, key) := xfiredb_sprintf key b in
  let '(b, arg) := copy_opt arg b in
  let '(b, newdata) := copy_opt newdata b in
  bio_queue_add persist_level key arg newdata op b.

Definition dbg_keys : list string := ["fist-test"; "second-test"; "third-test"].
Definition dbg_data : list string := ["first-data"; "second-data"; "second-data"].
Definition dbg_snd_keys : list string := ["key1"; "key2"; "key3"].

Fixpoint dbg_queue_all (l : list (string * option string * option string)) (op : bio_operation_t)
    (b : bio) : outcome bio :=
  match l with
  | [] => Done b
  | (k, a, v) :: l => b ← dbg_queue k a v op b; dbg_queue_all l op b
  end.

Definition dbg_add_strings : bio → outcome bio :=
  dbg_queue_all (zip_with (λ k v, (k, None, Some v)) dbg_keys dbg_data) STRING_ADD.
Definition dbg_del_strings : bio → outcome bio :=
  dbg_queue_all ((λ k, (k, None, None)) <$> take 2 dbg_keys) STRING_DEL.
Definition dbg_update_string : bio → outcome bio :=
  dbg_queue "third-test" None (Some "third-data") STRING_UPDATE.
Definition dbg_add_list : bio → outcome bio :=
  dbg_queue_all ((λ v, ("list-key", None, Some v)) <$> dbg_data) LIST_ADD.
Definition dbg_update_list : bio → outcome bio :=
  dbg_queue "list-key" (Some "second-data") (Some "SECOND-DATA") LIST_UPDATE.
Definition dbg_del_list : bio → outcome bio :=
  dbg_queue "list-key" (dbg_data !! 1%nat) None LIST_DEL.
Definition dbg_add_hashmap : bio → outcome bio :=
  dbg_queue_all (zip_with (λ k v, ("hash-key", Some k, Some v)) dbg_snd_keys dbg_data) HM_ADD.
Definition dbg_update_hashmap : bio → outcome bio :=
  dbg_queue "hash-key" (Some "key2") (Some "new-data") HM_UPDATE.
Definition dbg_del_hashmap : bio → outcome bio :=
  dbg_queue "hash-key" (Some "key3") None HM_DEL.

Definition dbg_bio_queue (b : bio) : outcome bio :=
  b ← dbg_add_hashmap b;
  b ← dbg_add_strings b;
  b ← dbg_add_list b;
  b ← dbg_del_strings b;
  b ← dbg_del_list b;
  b ← dbg_update_list b;
  b ← dbg_update_string b;
  b ← dbg_del_hashmap b;
  dbg_update_hashmap b.
End Debug.
