(* ===== verification/BioSpec.v ===== *)
(** * What the queue and its worker do

    The queue holds jobs, oldest first; adding appends one, the worker takes the
    oldest one, writes it to disk and releases its strings. *)
From S2P Require Import Prelude Chain Disk MiniSql DiskSpec Bio.
Local Open Scope Z_scope.

(** ** Jobs *)

Record job := Job { j_op : bio_operation_t; j_key : string; j_arg : option string; j_new : option string }.

(** The arguments an operation needs are there. *)
Definition job_ok (j : job) : bool :=
  match j_op j with
  | STRING_ADD | STRING_UPDATE | LIST_ADD => bool_decide (is_Some (j_new j))
  | STRING_DEL => true
  | LIST_DEL | HM_DEL | SET_ADD | SET_DEL => bool_decide (is_Some (j_arg j))
  | LIST_UPDATE | HM_ADD | HM_UPDATE => bool_decide (is_Some (j_arg j) ∧ is_Some (j_new j))
  end.

(** The disk operation a job stands for. *)
Definition apply_job {DB} (exec : DB → string → DB * Z * list cells_t) (d : disk DB) (j : job) : disk DB :=
  let key := j_key j in
  let a := default "" (j_arg j) in
  let v := default "" (j_new j) in
  match j_op j with
  | STRING_ADD => (disk_store_string exec d key v).1
  | STRING_UPDATE => (disk_update_string exec d key v).1
  | STRING_DEL => (disk_delete_string exec d key).1
  | LIST_ADD => (disk_store_list_entry exec d key v).1
  | LIST_DEL => (disk_delete_list exec d key a).1
  | LIST_UPDATE => (disk_update_list exec d key a v).1
  | HM_ADD => (disk_store_hm_node exec d key a v).1
  | HM_DEL => (disk_delete_hashmapnode exec d key a).1
  | HM_UPDATE => (disk_update_hm exec d key a v).1
  | SET_ADD => (disk_store_set_key exec d key a).1
  | SET_DEL => (disk_delete_set_key exec d key a).1
  end.

(** ** The queue a state represents *)

(** A queued node: its address and the addresses of its strings. *)
Record qent := QEnt { e_loc : loc; e_key : loc; e_arg : loc; e_new : loc; e_op : bio_operation_t }.

Definition e_strs (e : qent) : list loc := filter (λ a, a ≠ NULL) [e_key e; e_arg e; e_new e].

Definition opt_str (strs : gmap loc string) (a : loc) (o : option string) : Prop :=
  match o with None => a = NULL | Some s => strs !! a = Some s end.

Record ent_job (strs : gmap loc string) (e : qent) (j : job) : Prop := {
  ej_op : e_op e = j_op j;
  ej_key : strs !! e_key e = Some (j_key j);
  ej_arg : opt_str strs (e_arg e) (j_arg j);
  ej_new : opt_str strs (e_new e) (j_new j) }.

(** A node without its links. *)
Definition ent_of (n : loc) (nd : bio_q) : qent :=
  QEnt n (q_key nd) (q_arg nd) (q_newdata nd) (q_operation nd).
Definition ent_at (h : gmap loc bio_q) (e : qent) : Prop := ∃ nd, h !! e_loc e = Some nd ∧ ent_of (e_loc e) nd = e.

Definition first_of (l : list loc) : loc := default NULL (head l).

(** [es] are the nodes, oldest first. *)
Record queue_ok (b : bio) (es : list qent) : Prop := {
  qo_nodup : NoDup (NULL :: (e_loc <$> es));
  qo_nodes : Forall (ent_at (b_heap b)) es;
  qo_prev : links (bprev (b_heap b)) ((e_loc <$> es) ++ [NULL]);
  qo_next : links (bnext (b_heap b)) (reverse (e_loc <$> es) ++ [NULL]);
  qo_tail : bq_tail (b_head b) = first_of (e_loc <$> es);
  qo_first : bq_next (b_head b) = first_of (reverse (e_loc <$> es));
  qo_size : bq_size (b_head b) = s64 (Z.of_nat (length es)) }.

(** Everything that is allocated lies below the next free address, above NULL. *)
Record mem_ok (b : bio) : Prop := {
  mo_brk : NULL < b_brk b;
  mo_heap a : is_Some (b_heap b !! a) → NULL < a < b_brk b;
  mo_strs a : is_Some (b_strs b !! a) → NULL < a < b_brk b }.

(** Every string is owned by at most one node, once. *)
Definition owns (es : list qent) : list loc := concat (e_strs <$> es).

Record bio_ok (b : bio) (es : list qent) (js : list job) : Prop := {
  bo_queue : queue_ok b es;
  bo_mem : mem_ok b;
  bo_jobs : Forall2 (ent_job (b_strs b)) es js;
  bo_owns : NoDup (owns es) }.

(** ** Writing a link *)

Lemma set_bnext_ok h a v e :
  ent_at h e → e_loc e = a →
  ∃ h', set_bnext h a v = Done h' ∧ bnext h' a = Done v ∧ (∀ c, c ≠ a → bnext h' c = bnext h c) ∧
    (∀ c, bprev h' c = bprev h c) ∧ (∀ e, ent_at h e → ent_at h' e) ∧ dom h' = dom h.
Proof.
  intros (nd & Ha & _) <-. unfold set_bnext, bnext, bprev. rewrite Ha. eexists. split; [done|].
  split_and!.
  - by rewrite lookup_insert_eq.
  - intros c Hc. by rewrite lookup_insert_ne.
  - intros c. destruct (decide (c = e_loc e)) as [->|]; [by rewrite lookup_insert_eq, Ha|by rewrite lookup_insert_ne].
  - intros e' (nd' & Hn & He'). unfold ent_at. destruct (decide (e_loc e' = e_loc e)) as [Heq|].
    + rewrite Heq in Hn. simplify_eq. rewrite Heq, lookup_insert_eq. eexists. split; [done|].
      rewrite <-He'. by rewrite <-Heq.
    + rewrite lookup_insert_ne by done. by exists nd'.
  - by apply dom_insert_lookup_L; eexists.
Qed.

Lemma set_bprev_ok h a v e :
  ent_at h e → e_loc e = a →
  ∃ h', set_bprev h a v = Done h' ∧ bprev h' a = Done v ∧ (∀ c, c ≠ a → bprev h' c = bprev h c) ∧
    (∀ c, bnext h' c = bnext h c) ∧ (∀ e, ent_at h e → ent_at h' e) ∧ dom h' = dom h.
Proof.
  intros (nd & Ha & _) <-. unfold set_bprev, bnext, bprev. rewrite Ha. eexists. split; [done|].
  split_and!.
  - by rewrite lookup_insert_eq.
  - intros c Hc. by rewrite lookup_insert_ne.
  - intros c. destruct (decide (c = e_loc e)) as [->|]; [by rewrite lookup_insert_eq, Ha|by rewrite lookup_insert_ne].
  - intros e' (nd' & Hn & He'). unfold ent_at. destruct (decide (e_loc e' = e_loc e)) as [Heq|].
    + rewrite Heq in Hn. simplify_eq. rewrite Heq, lookup_insert_eq. eexists. split; [done|].
      rewrite <-He'. by rewrite <-Heq.
    + rewrite lookup_insert_ne by done. by exists nd'.
  - by apply dom_insert_lookup_L; eexists.
Qed.

Lemma s64_add n m : s64 (s64 n + m) = s64 (n + m).
Proof.
  unfold s64, swrap. f_equal. set (k := 2 ^ (64 - 1)).
  replace ((n + k) mod 2 ^ 64 - k + m + k) with ((n + k) mod 2 ^ 64 + m) by lia.
  rewrite Zplus_mod_idemp_l. f_equal. lia.
Qed.

Lemma first_of_app l a r : first_of (l ++ a :: r) = first_of (l ++ [a]).
Proof. by destruct l. Qed.

(** ** Taking a node off *)

(** The queue after the pop; the node itself stays allocated. *)
Lemma bio_queue_pop_run b es :
  queue_ok b es →
  match es with
  | [] => bio_queue_pop b = Done (b, NULL)
  | e :: es' => ∃ b', bio_queue_pop b = Done (b', e_loc e) ∧ queue_ok b' es' ∧
      ent_at (b_heap b') e ∧ b_strs b' = b_strs b ∧ b_brk b' = b_brk b ∧ dom (b_heap b') = dom (b_heap b) ∧
      b_counter b' = b_counter b ∧ b_signals b' = b_signals b
  end.
Proof.
  intros [O1 O2 O3 O4 O5 O6 O7]. destruct es as [|e es].
  { unfold bio_queue_pop. by rewrite O5. }
  unfold bio_queue_pop. rewrite O5. change (first_of (e_loc <$> e :: es)) with (e_loc e).
  apply list.NoDup_cons in O1 as [Hnull Hnd]. rewrite fmap_cons in *. apply list.NoDup_cons in Hnd as [Hne Hnd].
  rewrite decide_False by set_solver. apply list.Forall_cons in O2 as [He O2].
  rewrite reverse_cons in O4, O6. rewrite <-app_assoc in O4. simpl in O4.
  assert (bprev (b_heap b) (e_loc e) = Done (first_of (e_loc <$> es))) as Hprev.
  { destruct es; apply O3. }
  rewrite Hprev, bind_Done.
  (* the neighbour *)
  assert (∃ h next, (if decide (first_of (e_loc <$> es) = NULL) then Done (b_heap b, NULL)
      else h ← set_bnext (b_heap b) (first_of (e_loc <$> es)) NULL; Done (h, bq_next (b_head b))) = Done (h, next) ∧
      next = first_of (reverse (e_loc <$> es)) ∧ (∀ e, ent_at (b_heap b) e → ent_at h e) ∧
      (∀ c, bprev h c = bprev (b_heap b) c) ∧ dom h = dom (b_heap b) ∧
      links (bnext h) (reverse (e_loc <$> es) ++ [NULL])) as (h & next & -> & -> & Hent & Hp & Hdom & Hl).
  { destruct es as [|e2 es].
    { eexists _, _. by split_and!. }
    cbn [fmap list_fmap first_of head default]. rewrite decide_False by set_solver.
    apply list.Forall_cons in O2 as [He2 _].
    destruct (set_bnext_ok _ _ NULL e2 He2 eq_refl) as (h & Hset & N1 & N2 & P1 & Hent & Hd).
    exists h, (bq_next (b_head b)). split; [change (id (e_loc e2)) with (e_loc e2); by rewrite Hset|].
    rewrite reverse_cons, <-app_assoc in *. simpl in *. split_and!; [|done..|].
    - rewrite O6, reverse_cons, <-app_assoc. apply (first_of_app _ (e_loc e2) [_]).
    - rewrite reverse_cons, <-app_assoc in O4. apply links_app in O4 as [O4 _]. apply links_app. split; [|done].
      eapply links_frame; [|exact O4]. intros a Ha. apply N2.
      rewrite elem_of_reverse in Ha. intros ->. apply list.NoDup_cons in Hnd as [Hnd _]. done. }
  rewrite bind_Done.
  destruct (set_bprev_ok h (e_loc e) NULL e (Hent _ He) eq_refl) as (h1 & -> & _ & P2 & N2 & Hent1 & Hd1).
  rewrite bind_Done.
  destruct (set_bnext_ok h1 (e_loc e) NULL e (Hent1 _ (Hent _ He)) eq_refl) as (h2 & -> & _ & N3 & P3 & Hent2 & Hd2).
  rewrite bind_Done. eexists. split; [done|]. split_and!; simpl; try done; [|by apply Hent2, Hent1, Hent|congruence].
  split; simpl.
  - apply list.NoDup_cons. split; [set_solver|done].
  - eapply list.Forall_impl; [exact O2|]. intros e' ?. by apply Hent2, Hent1, Hent.
  - apply (links_frame (bprev (b_heap b))); [|destruct es; [done|apply O3]].
    intros a Ha. rewrite P3, P2, Hp; [done|]. by intros ->.
  - apply (links_frame (bnext h)); [|exact Hl]. intros a Ha. rewrite N3, N2; [done|]. rewrite elem_of_reverse in Ha. by intros ->.
  - done.
  - done.
  - rewrite O7. unfold Z.sub. rewrite s64_add. f_equal. simpl. lia.
Qed.

(** ** Adding a node *)

Lemma rev_case {A} (l : list A) : l = [] ∨ ∃ l0 x, l = l0 ++ [x].
Proof. destruct l as [|x l _] using rev_ind; [by left|right; by eexists _, _]. Qed.

Definition wake_ok (lvl : Z) (b : bio) (n : Z) : Prop :=
  0 ≤ b_counter b ≤ lvl ∧ b_signals b * (lvl + 1) + b_counter b = n.

Lemma bio_try_wakeup_worker_run lvl b :
  0 ≤ lvl < 3 →
  ∃ c s r, bio_try_wakeup_worker lvl b = Done (set_wake c s b, r) ∧
    ∀ n, wake_ok lvl b n → wake_ok lvl (set_wake c s b) (n + 1).
Proof.
  intros Hl. unfold bio_try_wakeup_worker, wake_ok. simpl.
  rewrite (s32_small (lvl + 1)) by (change (2 ^ 31) with 2147483648; lia).
  rewrite decide_False by lia. set (c := s32 (b_counter b + 1)).
  assert (0 ≤ b_counter b ≤ lvl → c = b_counter b + 1) as Hc.
  { intros. apply s32_small. change (2 ^ 31) with 2147483648. lia. }
  destruct (Z.rem c (lvl + 1) =? 0) eqn:He; eexists _, _, _; (split; [done|]);
    intros n (Hb & <-); rewrite (Hc Hb) in *;
    (destruct (decide (b_counter b = lvl)) as [Heq|]; [rewrite Heq in *|]).
  - split; lia.
  - apply Z.eqb_eq in He. rewrite Z.rem_small in He by lia. lia.
  - rewrite Z.rem_same in He by lia. done.
  - split; lia.
Qed.

Lemma ent_at_fresh b e es :
  mem_ok b → Forall (ent_at (b_heap b)) es → e ∈ es → NULL < e_loc e < b_brk b.
Proof.
  intros Hm Hes He. rewrite list.Forall_forall in Hes. destruct (Hes e He) as (nd & Hn & _).
  apply (mo_heap _ Hm). by exists nd.
Qed.

(** Linking a new node [q] in at the front. *)
Lemma bio_link_run b es q key arg new op :
  queue_ok b es → Forall (λ e, e_loc e ≠ q) es → q ≠ NULL →
  let h := <[q := BioQ NULL NULL key arg new op]> (b_heap b) in
  let size := s64 (bq_size (b_head b) + 1) in
  ∃ h' hd, (if decide (bq_next (b_head b) = NULL) then Done (h, BioQHead q q size)
            else
              h ← set_bnext h q (bq_next (b_head b));
              h ← set_bprev h (bq_next (b_head b)) q;
              Done (h, BioQHead q (bq_tail (b_head b)) size)) = Done (h', hd) ∧
    dom h' = {[q]} ∪ dom (b_heap b) ∧ (∀ x, e_loc x ≠ q → ent_at (b_heap b) x → ent_at h' x) ∧
    ∀ b', b_heap b' = h' → b_head b' = hd → queue_ok b' (es ++ [QEnt q key arg new op]).
Proof.
  intros [O1 O2 O3 O4 O5 O6 O7] Hq Hnull h size. set (e := QEnt q key arg new op).
  assert (ent_at h e) as He by (eexists; split; [apply lookup_insert_eq|done]).
  assert (∀ x, e_loc x ≠ q → ent_at (b_heap b) x → ent_at h x) as Hh.
  { intros x Hx (nd & Hn & Hnd). exists nd. split; [|done]. unfold h. by rewrite lookup_insert_ne. }
  assert (Forall (ent_at h) es) as Hes.
  { rewrite list.Forall_forall in *. intros x Hx. by apply Hh; [apply Hq|apply O2]. }
  assert (q ∉ e_loc <$> es) as Hqn.
  { intros (x & Hxq & Hx)%list_elem_of_fmap. rewrite list.Forall_forall in Hq. by apply (Hq x Hx). }
  assert (NoDup (NULL :: (e_loc <$> es ++ [e]))) as Hnd.
  { rewrite fmap_app. cbn [fmap list_fmap]. change (e_loc e) with q. rewrite app_comm_cons.
    apply list.NoDup_app. split_and!; [done|set_solver|apply NoDup_singleton]. }
  assert (size = s64 (Z.of_nat (length (es ++ [e])))) as Hsize.
  { unfold size. rewrite O7, s64_add, length_app. f_equal. simpl. lia. }
  destruct (rev_case es) as [->|(es0 & l & ->)].
  { rewrite O6. simpl. eexists _, _. split; [done|]. split; [apply dom_insert_L|]. split; [done|].
    intros b' Hb Hhd. split; rewrite ?Hb, ?Hhd; simpl; try done; [by constructor|..].
    - unfold bprev, h. by rewrite lookup_insert_eq.
    - unfold bnext, h. by rewrite lookup_insert_eq. }
  rewrite fmap_app in O1, O3, O4, O6. cbn [fmap list_fmap] in O1, O3, O4, O6.
  rewrite reverse_app in O4, O6. rewrite O6. change (first_of _) with (e_loc l).
  pose proof (proj1 (proj1 (list.NoDup_cons _ _) O1)) as Hnl.
  rewrite decide_False by (intros Hl; apply Hnl; rewrite <-Hl; apply elem_of_app; right; by left).
  destruct (set_bnext_ok h q (e_loc l) e He eq_refl) as (h1 & -> & N1 & N2 & P1 & Hent1 & Hd1). rewrite bind_Done.
  apply Forall_app in Hes as [Hes0 Hl]. apply list.Forall_cons in Hl as [Hl _].
  destruct (set_bprev_ok h1 (e_loc l) q l (Hent1 _ Hl) eq_refl) as (h2 & -> & P2 & P3 & N3 & Hent2 & Hd2).
  rewrite bind_Done. eexists _, _. split; [done|]. split; [rewrite Hd2, Hd1; apply dom_insert_L|].
  split; [intros x Hx Hex; by apply Hent2, Hent1, Hh|].
  assert (∀ a, a ≠ q → bprev h a = bprev (b_heap b) a) as Hfp.
  { intros a Ha. unfold bprev, h. by rewrite lookup_insert_ne. }
  assert (∀ a, a ≠ q → bnext h a = bnext (b_heap b) a) as Hfn.
  { intros a Ha. unfold bnext, h. by rewrite lookup_insert_ne. }
  rewrite fmap_app in Hqn. cbn [fmap list_fmap] in Hqn.
  intros b' Hb Hhd. split; rewrite ?Hb, ?Hhd; simpl; [done|..].
  - rewrite !Forall_app. split_and!; [|by constructor; [apply Hent2, Hent1|]|by constructor; [apply Hent2, Hent1|]].
    eapply list.Forall_impl; [exact Hes0|]. intros x Hx. by apply Hent2, Hent1.
  - rewrite !fmap_app. cbn [fmap list_fmap]. change (e_loc e) with q. rewrite <-!app_assoc. cbn [app].
    apply links_app. split.
    + apply (links_frame (bprev (b_heap b))); [|rewrite <-app_assoc in O3; by apply links_app in O3 as [O3 _]].
      intros a Ha. rewrite P3, P1, Hfp; [done|set_solver|].
      intros ->. apply list.NoDup_cons in O1 as [_ O1]. apply list.NoDup_app in O1 as (_ & O1 & _).
      by apply (O1 (e_loc l) Ha); left.
    + split; [done|]. split; [|done]. rewrite P3, P1 by set_solver. unfold bprev, h. by rewrite lookup_insert_eq.
  - rewrite !fmap_app, !reverse_app. cbn [fmap list_fmap]. change (reverse [e_loc l]) with [e_loc l] in *.
    change (reverse [e_loc e]) with [q]. cbn [app] in *. split; [by rewrite N3|].
    apply (links_frame (bnext (b_heap b)) (bnext h2) (e_loc l :: reverse (e_loc <$> es0))); [|done].
    intros a Ha. assert (a ≠ q).
    { intros ->. apply Hqn. apply elem_of_cons in Ha as [->|Ha]; [set_solver|].
      rewrite elem_of_reverse in Ha. set_solver. }
    by rewrite N3, N2, Hfn.
  - rewrite O5, !fmap_app. cbn [fmap list_fmap]. rewrite <-app_assoc.
    symmetry. apply (first_of_app _ (e_loc l) [q]).
  - by rewrite !fmap_app, !reverse_app.
  - done.
Qed.

Lemma bio_queue_add_run lvl b es key arg new op :
  0 ≤ lvl < 3 → queue_ok b es → mem_ok b →
  ∃ b', bio_queue_add lvl key arg new op b = Done b' ∧
    queue_ok b' (es ++ [QEnt (b_brk b) key arg new op]) ∧ mem_ok b' ∧
    b_strs b' = b_strs b ∧ b_brk b' = b_brk b + 1 ∧ dom (b_heap b') = {[b_brk b]} ∪ dom (b_heap b) ∧
    (∀ x, ent_at (b_heap b) x → ent_at (b_heap b') x) ∧
    ∀ n, wake_ok lvl b n → wake_ok lvl b' (n + 1).
Proof.
  intros Hlvl Hok Hm. unfold bio_queue_add. destruct (Z.geb_spec lvl 3); [lia|].
  destruct (bio_link_run b es (b_brk b) key arg new op Hok) as (h & hd & -> & Hdom & Hent & Hq).
  { apply list.Forall_forall. intros e He.
    pose proof (ent_at_fresh b e es Hm (qo_nodes _ _ Hok) He). lia. }
  { pose proof (mo_brk _ Hm). unfold NULL in *. lia. }
  rewrite bind_Done.
  destruct (bio_try_wakeup_worker_run lvl (Bio h (b_strs b) (b_brk b + 1) hd (b_counter b) (b_signals b)) Hlvl)
    as (c & s & r & -> & Hw).
  rewrite bind_Done. eexists. split; [done|]. split; [by apply Hq|]. split_and!; [|done|done|done| |done].
  2:{ intros x Hx. apply Hent; [|done]. destruct Hx as (nd & Hn & _). pose proof (mo_heap _ Hm _ ltac:(by eexists)). lia. }
  split; simpl.
  - pose proof (mo_brk _ Hm). lia.
  - intros a Ha. apply elem_of_dom in Ha. rewrite Hdom in Ha. pose proof (mo_brk _ Hm).
    apply elem_of_union in Ha as [->%elem_of_singleton|Ha]; [lia|].
    apply elem_of_dom, (mo_heap _ Hm) in Ha. lia.
  - intros a Ha. apply (mo_strs _ Hm) in Ha. lia.
Qed.

(** ** Queueing a job *)

Lemma owns_app es1 es2 : owns (es1 ++ es2) = owns es1 ++ owns es2.
Proof. unfold owns. by rewrite fmap_app, concat_app. Qed.
Lemma owns_one e : owns [e] = e_strs e.
Proof. unfold owns. simpl. apply app_nil_r. Qed.

Lemma ent_job_strs strs e j a : ent_job strs e j → a ∈ e_strs e → is_Some (strs !! a).
Proof.
  intros [_ Hk Ha Hn]. unfold e_strs. rewrite list_elem_of_filter. intros [Hnull Hin].
  apply elem_of_cons in Hin as [->|Hin]; [by eexists|].
  apply elem_of_cons in Hin as [->|Hin].
  { destruct (j_arg j); simpl in Ha; [by eexists|done]. }
  apply list_elem_of_singleton in Hin as ->. destruct (j_new j); simpl in Hn; [by eexists|done].
Qed.

Lemma owns_strs strs es js a : Forall2 (ent_job strs) es js → a ∈ owns es → is_Some (strs !! a).
Proof.
  induction 1 as [|e j es js He _ IH]; [by intros ?%not_elem_of_nil|].
  change (owns (e :: es)) with (owns ([e] ++ es)). rewrite owns_app, owns_one. intros [Ha|Ha]%elem_of_app; [by eapply ent_job_strs|by apply IH].
Qed.

(** A job depends only on its own strings. *)
Lemma ent_job_frame strs strs' e j :
  (∀ a, a ∈ e_strs e → strs' !! a = strs !! a) → strs !! NULL = None → ent_job strs e j → ent_job strs' e j.
Proof.
  intros Hs Hnull [H1 H2 H3 H4].
  assert (∀ a s, a ∈ [e_key e; e_arg e; e_new e] → strs !! a = Some s → strs' !! a = Some s) as Hfr.
  { intros a s Ha Hl. rewrite Hs; [done|]. apply list_elem_of_filter. split; [congruence|done]. }
  split; [done|..].
  - apply Hfr; [by left|done].
  - destruct (j_arg j); [|done]. apply Hfr; [right; by left|done].
  - destruct (j_new j); [|done]. apply Hfr; [do 2 right; by left|done].
Qed.

Lemma mem_null b : mem_ok b → b_strs b !! NULL = None.
Proof.
  intros Hm. destruct (b_strs b !! NULL) eqn:Hn; [|done].
  pose proof (mo_strs _ Hm NULL ltac:(by eexists)). lia.
Qed.

Lemma bio_add_ok lvl b es js key arg new j :
  0 ≤ lvl < 3 → bio_ok b es js →
  let e := QEnt (b_brk b) key arg new (j_op j) in
  ent_job (b_strs b) e j → NoDup (owns es ++ e_strs e) →
  ∃ b', bio_queue_add lvl key arg new (j_op j) b = Done b' ∧ bio_ok b' (es ++ [e]) (js ++ [j]) ∧
    b_strs b' = b_strs b ∧ b_brk b < b_brk b' ∧ dom (b_heap b') = {[e_loc e]} ∪ dom (b_heap b) ∧
    (∀ x, ent_at (b_heap b) x → ent_at (b_heap b') x) ∧
    ∀ n, wake_ok lvl b n → wake_ok lvl b' (n + 1).
Proof.
  intros Hl [Hq Hm Hj Ho] e He Hnd.
  destruct (bio_queue_add_run lvl b es key arg new (j_op j) Hl Hq Hm) as (b' & -> & Hq' & Hm' & Hs & Hb & Hd & Hent & Hw).
  exists b'. split; [done|]. split; [|split_and!; [done|lia|done..]].
  split; [done|done|..].
  - rewrite Hs. apply Forall2_app; [done|by constructor].
  - by rewrite owns_app, owns_one.
Qed.

(** A copy of a text, for the caller to hand over. *)
Lemma copy_opt_ok b es js o b' a :
  copy_opt o b = (b', a) → bio_ok b es js →
  bio_ok b' es js ∧ opt_str (b_strs b') a o ∧ (a = NULL ∨ b_brk b ≤ a < b_brk b') ∧ b_brk b ≤ b_brk b' ∧
  (∀ c, c < b_brk b → b_strs b' !! c = b_strs b !! c) ∧
  (b_heap b' = b_heap b ∧ ∀ c, is_Some (b_strs b' !! c) → is_Some (b_strs b !! c) ∨ c = a ∧ a ≠ NULL) ∧
  (b_counter b' = b_counter b ∧ b_signals b' = b_signals b).
Proof.
  intros Hc [Hq Hm Hj Ho]. destruct o as [s|]; simpl in Hc; unfold xfiredb_sprintf in Hc; simplify_eq.
  2:{ split_and!; [by split|done|by left|lia|done|done|by left|done..]. }
  pose proof (mo_brk _ Hm) as Hbrk. simpl. split_and!; [|by rewrite lookup_insert_eq|right; lia|lia| |done| |done..].
  - split; [by destruct Hq|..|done].
    + destruct Hm as [M1 M2 M3]. split; simpl; [lia| |].
      * intros c ?%M2. lia.
      * intros c [? [[<- _]|[_ ?]]%lookup_insert_Some]; [lia|]. assert (is_Some (b_strs b !! c)) as ?%M3 by (by eexists). lia.
    + eapply list.Forall2_impl; [exact Hj|]. intros e j Hej. simpl.
      eapply ent_job_frame; [|by apply mem_null|exact Hej]. intros c Hc.
      eapply ent_job_strs in Hc; [|exact Hej]. apply (mo_strs _ Hm) in Hc. rewrite lookup_insert_ne; [done|lia].
  - intros c Hc. rewrite lookup_insert_ne; [done|lia].
  - intros c [t [[<- _]|[_ Hc]]%lookup_insert_Some]; [right; unfold NULL in *; lia|left; by eexists].
Qed.

Lemma dbg_queue_run lvl b es js j :
  0 ≤ lvl < 3 → bio_ok b es js →
  ∃ b' e, dbg_queue lvl (j_key j) (j_arg j) (j_new j) (j_op j) b = Done b' ∧
    bio_ok b' (es ++ [e]) (js ++ [j]) ∧ (∀ n, wake_ok lvl b n → wake_ok lvl b' (n + 1)) ∧
    (∀ c, c < b_brk b → b_strs b' !! c = b_strs b !! c) ∧ Forall (λ c, b_brk b ≤ c) (e_strs e) ∧
    (∀ c, is_Some (b_strs b' !! c) → is_Some (b_strs b !! c) ∨ c ∈ e_strs e) ∧
    dom (b_heap b') = {[e_loc e]} ∪ dom (b_heap b) ∧
    (∀ x, ent_at (b_heap b) x → ent_at (b_heap b') x) ∧ b_brk b ≤ e_loc e.
Proof.
  intros Hl Hok. unfold dbg_queue. change (xfiredb_sprintf (j_key j) b) with (copy_opt (Some (j_key j)) b).
  destruct (copy_opt (Some (j_key j)) b) as [b1 key] eqn:H1. destruct (copy_opt (j_arg j) b1) as [b2 arg] eqn:H2.
  destruct (copy_opt (j_new j) b2) as [b3 new] eqn:H3.
  pose proof (mo_brk _ (bo_mem _ _ _ Hok)) as Hpos. unfold NULL in Hpos.
  destruct (copy_opt_ok _ _ _ _ _ _ H1 Hok) as (Hok1 & K & Kr & B1 & F1 & (D1 & G1) & W1 & W1').
  destruct (copy_opt_ok _ _ _ _ _ _ H2 Hok1) as (Hok2 & A & Ar & B2 & F2 & (D2 & G2) & W2 & W2').
  destruct (copy_opt_ok _ _ _ _ _ _ H3 Hok2) as (Hok3 & N & Nr & B3 & F3 & (D3 & G3) & W3 & W3').
  simpl in K. injection H1 as <- <-.
  assert (opt_str (b_strs b3) arg (j_arg j)) as A'.
  { destruct (j_arg j); simpl in *; [|done]. destruct Ar as [->|Ar]; [|by rewrite F3 by lia].
    by rewrite mem_null in A by apply Hok2. }
  assert (b_strs b3 !! b_brk b = Some (j_key j)) as K'.
  { simpl in *. rewrite F3, F2 by lia. done. }
  set (e := QEnt (b_brk b3) (b_brk b) arg new (j_op j)).
  assert (Forall (λ c, b_brk b ≤ c) (e_strs e)) as Hge.
  { apply list.Forall_forall. intros c [Hc Hin]%list_elem_of_filter. simpl in *.
    repeat (apply elem_of_cons in Hin as [->|Hin]; [unfold NULL in *; lia|]). by apply not_elem_of_nil in Hin. }
  destruct (bio_add_ok lvl b3 es js (b_brk b) arg new j Hl Hok3) as (b' & -> & Hok' & Hs & Hb & Hdom & Hent & Hw).
  - by split.
  - fold e. apply list.NoDup_app. split_and!; [apply Hok|..].
    + intros c Hc Hin. rewrite list.Forall_forall in Hge. apply Hge in Hin.
      eapply owns_strs in Hc; [|apply Hok]. apply (mo_strs _ (bo_mem _ _ _ Hok)) in Hc. lia.
    + unfold e_strs. simpl in *. unfold NULL in *.
      repeat (rewrite filter_cons; case_decide); rewrite filter_nil; repeat constructor; set_unfold; lia.
  - exists b', e. split_and!; [done|done| | |done| | | |].
    + intros n [? ?]. apply Hw. unfold wake_ok. rewrite W3, W3', W2, W2', W1, W1'. done.
    + intros c Hc. simpl in *. rewrite Hs, F3, F2, F1 by lia. done.
    + intros c Hc. rewrite Hs in Hc. unfold e_strs. rewrite list_elem_of_filter. simpl in *. unfold NULL in *.
      apply G3 in Hc as [Hc|[-> ?]]; [|right; set_solver].
      apply G2 in Hc as [Hc|[-> ?]]; [|right; set_solver].
      apply G1 in Hc as [Hc|[-> ?]]; [by left|right; set_solver].
    + simpl in *. by rewrite Hdom, D3, D2.
    + simpl in *. intros x Hx. apply Hent. by rewrite D3, D2.
    + simpl in *. lia.
Qed.

(** ** The worker *)

(** Strings that go when a node is processed. *)
Definition drop_strs (l : list loc) (strs strs' : gmap loc string) : Prop :=
  ∀ a, strs' !! a = if decide (a ∈ l) then None else strs !! a.

Lemma free_str_run a b :
  a = NULL ∨ is_Some (b_strs b !! a) → b_strs b !! NULL = None →
  free_str a b = Done (set_strs (delete a) b).
Proof.
  intros Ha Hnull. unfold free_str. case_decide as Hn; [subst a|].
  - f_equal. destruct b as [h m]. unfold set_strs. simpl in *. by rewrite delete_id.
  - destruct Ha as [?|[s ->]]; done.
Qed.

Lemma distinct_strs (l : list loc) :
  NoDup (filter (λ a, a ≠ NULL) l) →
  ∀ i k x, (i < k)%nat → l !! i = Some x → l !! k = Some x → x = NULL.
Proof.
  induction l as [|y l IH]; intros Hnd i k x Hik Hi Hk; [done|]. destruct k as [|k]; [lia|].
  rewrite filter_cons in Hnd. destruct i as [|i]; simpl in *.
  - simplify_eq. case_decide as Hd; [|by destruct (decide (x = NULL))].
    apply list.NoDup_cons in Hnd as [Hnd _]. exfalso. apply Hnd.
    apply list_elem_of_filter. split; [done|]. by apply list_elem_of_lookup_2 in Hk.
  - apply (IH) with i k; [|lia|done..]. case_decide; [by apply list.NoDup_cons in Hnd as [_ ?]|done].
Qed.

Lemma free_strs_run e j b :
  ent_job (b_strs b) e j → NoDup (e_strs e) → b_strs b !! NULL = None →
  ∃ m, (b ← free_str (e_key e) b; b ← free_str (e_arg e) b; free_str (e_new e) b) = Done (set_strs (λ _, m) b) ∧
    drop_strs (e_strs e) (b_strs b) m.
Proof.
  intros [_ Hk Ha Hn] Hnd Hnull.
  assert (e_arg e = NULL ∨ is_Some (b_strs b !! e_arg e)) as Ha'.
  { destruct (j_arg j); [right; by eexists|by left]. }
  assert (e_new e = NULL ∨ is_Some (b_strs b !! e_new e)) as Hn'.
  { destruct (j_new j); [right; by eexists|by left]. }
  assert (e_key e ≠ NULL) as Hkn by congruence.
  assert (NULL ≠ e_key e ∧ (e_arg e = NULL ∨ e_key e ≠ e_arg e) ∧ (e_new e = NULL ∨ e_key e ≠ e_new e) ∧
    (e_arg e = NULL ∨ e_arg e ≠ e_new e)) as (_ & D1 & D2 & D3).
  { split; [done|]. pose proof (distinct_strs _ Hnd) as Hd. split_and!.
    - destruct (decide (e_arg e = NULL)); [by left|right]. intros Heq. by apply Hkn, (Hd 0%nat 1%nat (e_key e)); [lia|..|rewrite Heq].
    - destruct (decide (e_new e = NULL)); [by left|right]. intros Heq. by apply Hkn, (Hd 0%nat 2%nat (e_key e)); [lia|..|rewrite Heq].
    - destruct (decide (e_arg e = NULL)) as [|Hn0]; [by left|right]. intros Heq. by apply Hn0, (Hd 1%nat 2%nat (e_arg e)); [lia|..|rewrite Heq]. }
  rewrite (free_str_run (e_key e)) by (done || (right; by eexists)). rewrite bind_Done.
  rewrite free_str_run; [rewrite bind_Done|simpl..].
  2:{ destruct Ha' as [?|Ha']; [by left|]. destruct D1 as [?|?]; [by left|]. right. by rewrite lookup_delete_ne. }
  2:{ by rewrite lookup_delete_ne. }
  rewrite free_str_run; [|simpl..].
  2:{ destruct Hn' as [?|Hn']; [by left|]. destruct D2 as [?|?]; [by left|].
      right. rewrite lookup_delete_ne; [by rewrite lookup_delete_ne|].
      destruct D3 as [->|?]; [|done]. intros Heq. rewrite <-Heq, Hnull in Hn'. by destruct Hn'. }
  2:{ destruct (decide (e_arg e = NULL)) as [->|]; [apply lookup_delete_eq|]. by rewrite !lookup_delete_ne. }
  exists (delete (e_new e) (delete (e_arg e) (delete (e_key e) (b_strs b)))). split; [done|].
  intros a. case_decide as Hin; unfold e_strs in Hin; rewrite list_elem_of_filter in Hin.
  - destruct Hin as [_ Hin]. set_unfold in Hin. rewrite !lookup_delete_None. naive_solver.
  - destruct (decide (a = NULL)) as [->|]; [rewrite Hnull, !lookup_delete_None; naive_solver|].
    set_unfold in Hin. rewrite !lookup_delete_ne; naive_solver.
Qed.

Section Drain.
Context {DB : Type} (sqlite3_exec : DB → string → DB * Z * list cells_t).

Lemma bio_dispatch_run d b nd j :
  job_ok j = true → ent_job (b_strs b) (ent_of 0 nd) j →
  bio_dispatch sqlite3_exec d b nd = Done (apply_job sqlite3_exec d j).
Proof.
  destruct j as [op k a v]. intros Hok [H1 H2 H3 H4]. simpl in *. unfold bio_dispatch, c_str, apply_job.
  rewrite H2. cbn [deref]. rewrite bind_Done, H1. unfold job_ok in Hok. simpl in *.
  destruct op; simpl in Hok; try (apply bool_decide_eq_true in Hok);
    repeat match goal with
    | H : is_Some _ ∧ is_Some _ |- _ => destruct H as [[? ->] [? ->]]
    | H : is_Some _ |- _ => destruct H as [? ->]
    end; simpl in *; rewrite ?H3, ?H4; done.
Qed.

(** What becomes of a node that is taken off: its operation runs, its strings and the
    node are released, and the rest of the queue is as it was, whatever it holds. *)
Lemma bio_process_node d b e es j :
  job_ok j = true → queue_ok b es → mem_ok b → ent_at (b_heap b) e → e_loc e ∉ e_loc <$> es →
  ent_job (b_strs b) e j → NoDup (e_strs e) →
  ∃ b', bio_process sqlite3_exec d b (e_loc e) = Done (apply_job sqlite3_exec d j, b') ∧ queue_ok b' es ∧ mem_ok b' ∧
    drop_strs (e_strs e) (b_strs b) (b_strs b') ∧ b_heap b' = delete (e_loc e) (b_heap b) ∧
    b_counter b' = b_counter b ∧ b_signals b' = b_signals b.
Proof.
  intros Hj Hq Hm (nd & Hnd & He) Hne Hej Ho1.
  unfold bio_process. rewrite Hnd. cbn [deref]. rewrite bind_Done.
  rewrite (bio_dispatch_run d b nd j Hj); [|by rewrite <-He in Hej; destruct Hej]. rewrite bind_Done.
  destruct (free_strs_run e j b Hej Ho1 (mem_null b Hm)) as (m & Hfree & Hdrop).
  rewrite <-He in Hfree. simpl in Hfree.
  apply outcome_bind_Done in Hfree as (b1 & -> & Hfree). rewrite bind_Done.
  apply outcome_bind_Done in Hfree as (b2 & -> & Hfree). rewrite bind_Done, Hfree, bind_Done.
  eexists. split; [done|]. split_and!; [..|done|done|done|done].
  - destruct Hq as [Q1 Q2 Q3 Q4 Q5 Q6 Q7]. split; simpl; [done|..|done|done|done].
    + eapply list.Forall_impl; [|intros x Hx; exact Hx]. apply list.Forall_forall. intros x Hx.
      rewrite list.Forall_forall in Q2. destruct (Q2 x Hx) as (nd' & Hn' & ?). exists nd'. split; [|done].
      rewrite lookup_delete_ne; [done|]. intros Heq. apply Hne. rewrite Heq. by apply list_elem_of_fmap_2.
    + apply (links_frame (bprev (b_heap b))); [|done]. intros a Ha. unfold bprev.
      rewrite lookup_delete_ne; [done|by intros <-].
    + apply (links_frame (bnext (b_heap b))); [|done]. intros a Ha. unfold bnext.
      rewrite elem_of_reverse in Ha. rewrite lookup_delete_ne; [done|by intros <-].
  - destruct Hm as [M1 M2 M3]. split; simpl; [done|..].
    + intros a [? [_ Ha]%lookup_delete_Some]. apply M2. by eexists.
    + intros a [s Ha]. apply M3. rewrite Hdrop in Ha. case_decide; [done|by eexists].
Qed.

(** The jobs that are left have kept their strings. *)
Lemma drop_jobs e es js strs strs' :
  Forall2 (ent_job strs) es js → strs !! NULL = None → (∀ a, a ∈ e_strs e → a ∉ owns es) → drop_strs (e_strs e) strs strs' →
  Forall2 (ent_job strs') es js.
Proof.
  intros Hjobs Hnull Ho Hdrop. apply Forall2_same_length_lookup_2; [by eapply list.Forall2_length|].
  intros i x y Hx Hy. eapply ent_job_frame; [|done|by eapply Forall2_lookup_lr].
  intros a Ha. rewrite Hdrop, decide_False; [done|]. intros Hin. apply (Ho a Hin). unfold owns.
  apply elem_of_concat. exists i, (e_strs x). by rewrite list_lookup_fmap, Hx.
Qed.

(** The same when every string has one owner. *)
Lemma bio_process_run d b e es j js :
  job_ok j = true → queue_ok b es → mem_ok b → ent_at (b_heap b) e → e_loc e ∉ e_loc <$> es →
  Forall2 (ent_job (b_strs b)) (e :: es) (j :: js) → NoDup (owns (e :: es)) →
  ∃ b', bio_process sqlite3_exec d b (e_loc e) = Done (apply_job sqlite3_exec d j, b') ∧ bio_ok b' es js ∧
    drop_strs (e_strs e) (b_strs b) (b_strs b') ∧ b_heap b' = delete (e_loc e) (b_heap b) ∧
    b_counter b' = b_counter b ∧ b_signals b' = b_signals b.
Proof.
  intros Hj Hq Hm He Hne Hjobs Ho. apply Forall2_cons_1 in Hjobs as [Hej Hjobs].
  change (owns (e :: es)) with (owns ([e] ++ es)) in Ho. rewrite owns_app, owns_one in Ho.
  apply list.NoDup_app in Ho as (Ho1 & Ho2 & Ho3).
  destruct (bio_process_node d b e es j Hj Hq Hm He Hne Hej Ho1) as (b' & E & Hq' & Hm' & Hdrop & Hrest).
  exists b'. split; [done|]. split; [|done]. split; [done|done| |done].
  by eapply drop_jobs; [|apply (mem_null b Hm)|exact Ho2|].
Qed.

Lemma pop_process d b e es j js :
  job_ok j = true → bio_ok b (e :: es) (j :: js) →
  ∃ b1 b2, bio_queue_pop b = Done (b1, e_loc e) ∧ e_loc e ≠ NULL ∧
    bio_process sqlite3_exec d b1 (e_loc e) = Done (apply_job sqlite3_exec d j, b2) ∧ bio_ok b2 es js ∧
    drop_strs (e_strs e) (b_strs b) (b_strs b2) ∧ dom (b_heap b2) = dom (b_heap b) ∖ {[e_loc e]}.
Proof.
  intros Hj [Hq Hm Hjs Ho].
  destruct (bio_queue_pop_run b (e :: es) Hq) as (b1 & -> & Hq1 & He & Hs & Hb & Hd & _).
  pose proof (qo_nodup _ _ Hq) as Hnd. rewrite fmap_cons in Hnd.
  apply list.NoDup_cons in Hnd as [Hn Hnd]. apply list.NoDup_cons in Hnd as [Hne _].
  destruct (bio_process_run d b1 e es j js Hj Hq1) as (b2 & Hp & Hok2 & Hdr & Hh & _); try done.
  - destruct Hm as [M1 M2 M3]. split; rewrite ?Hb, ?Hs; [done| |done].
    intros a Ha. apply M2. apply elem_of_dom. rewrite <-Hd. by apply elem_of_dom.
  - by rewrite Hs.
  - exists b1, b2. split_and!; [done| |done..| |].
    + intros Heq. apply Hn. rewrite <-Heq. by left.
    + by rewrite <-Hs.
    + by rewrite Hh, dom_delete_L, Hd.
Qed.

Lemma bio_worker_run d b es js fuel :
  bio_ok b es js → Forall (λ j, job_ok j = true) js → (length js < fuel)%nat →
  ∃ b', bio_worker sqlite3_exec fuel d b = Done (foldl (apply_job sqlite3_exec) d js, b') ∧
    bio_ok b' [] [] ∧ drop_strs (owns es) (b_strs b) (b_strs b') ∧
    dom (b_heap b') = dom (b_heap b) ∖ list_to_set (e_loc <$> es).
Proof.
  intros Hok Hj. revert d b es fuel Hok. induction Hj as [|j js Hj Hjs IH]; intros d b es fuel Hok Hf;
    (destruct fuel as [|fuel]; [simpl in Hf; lia|]); cbn [bio_worker];
    pose proof (bo_jobs _ _ _ Hok) as Hjobs.
  - apply Forall2_nil_inv_r in Hjobs as ->. rewrite (bio_queue_pop_run b [] (bo_queue _ _ _ Hok)), bind_Done.
    rewrite decide_True by done. exists b. split_and!; [done|done|done|]. simpl. set_solver.
  - destruct es as [|e es]; [by inversion Hjobs|]. simpl in Hf.
    destruct (pop_process d b e es j js Hj Hok) as (b1 & b2 & -> & Hn & Hp & Hok2 & Hdrop & Hd).
    rewrite bind_Done, decide_False, Hp, bind_Done by done.
    destruct (IH (apply_job sqlite3_exec d j) b2 es fuel Hok2 ltac:(lia)) as (b' & Hw & Hok' & Hdrop' & Hd').
    exists b'. split_and!; [done|done| |].
    + intros a. change (owns (e :: es)) with (owns ([e] ++ es)). rewrite owns_app, owns_one.
      rewrite Hdrop', Hdrop. repeat case_decide; set_solver.
    + rewrite Hd', Hd. simpl. set_solver.
Qed.
End Drain.

(** ** From the empty queue *)

(** Everything that is allocated belongs to a queued node. *)
Definition tight (b : bio) (es : list qent) : Prop :=
  (∀ c, is_Some (b_strs b !! c) → c ∈ owns es) ∧ dom (b_heap b) = list_to_set (e_loc <$> es).

Lemma bio_init_ok : bio_ok bio_init [] [] ∧ tight bio_init [] ∧ ∀ lvl, 0 ≤ lvl → wake_ok lvl bio_init 0.
Proof.
  split_and!.
  - split.
    + split; try done. apply NoDup_singleton.
    + split; simpl; [done|intros a [x Hx]; by rewrite lookup_empty in Hx..].
    + constructor.
    + constructor.
  - split; simpl; [intros a [x Hx]; by rewrite lookup_empty in Hx|done].
  - intros lvl ?. unfold wake_ok. simpl. lia.
Qed.

Lemma dbg_queue_tight lvl b es js j b' e :
  bio_ok b es js → tight b es → dbg_queue lvl (j_key j) (j_arg j) (j_new j) (j_op j) b = Done b' →
  (∀ c, is_Some (b_strs b' !! c) → is_Some (b_strs b !! c) ∨ c ∈ e_strs e) →
  dom (b_heap b') = {[e_loc e]} ∪ dom (b_heap b) → tight b' (es ++ [e]).
Proof.
  intros Hok [T1 T2] _ Hs Hd. split.
  - intros c Hc. rewrite owns_app, owns_one. apply elem_of_app. destruct (Hs c Hc); [left; by apply T1|by right].
  - rewrite Hd, T2, fmap_app, list_to_set_app_L. simpl. set_solver.
Qed.

(** The callers' way to queue: copies of the texts, then [bio_queue_add]. *)
Fixpoint queue_jobs (lvl : Z) (js : list job) (b : bio) : outcome bio :=
  match js with
  | [] => Done b
  | j :: js => b ← dbg_queue lvl (j_key j) (j_arg j) (j_new j) (j_op j) b; queue_jobs lvl js b
  end.

Lemma queue_jobs_run lvl js b es js0 n :
  0 ≤ lvl < 3 → bio_ok b es js0 → tight b es → wake_ok lvl b n →
  ∃ b' es', queue_jobs lvl js b = Done b' ∧ bio_ok b' es' (js0 ++ js) ∧ tight b' es' ∧
    wake_ok lvl b' (n + Z.of_nat (length js)).
Proof.
  intros Hl. revert b es js0 n. induction js as [|j js IH]; intros b es js0 n Hok Ht Hw; cbn [queue_jobs].
  - exists b, es. rewrite app_nil_r, Z.add_0_r. done.
  - destruct (dbg_queue_run lvl b es js0 j Hl Hok) as (b1 & e & Hq & Hok1 & Hw1 & _ & _ & Hs & Hd & _).
    pose proof (dbg_queue_tight lvl b es js0 j b1 e Hok Ht Hq Hs Hd) as Ht1.
    rewrite Hq, bind_Done.
    destruct (IH b1 (es ++ [e]) (js0 ++ [j]) (n + 1) Hok1 Ht1 (Hw1 _ Hw)) as (b' & es' & -> & Hok' & Ht' & Hw').
    exists b', es'. rewrite <-app_assoc in Hok'. split_and!; [done..|].
    replace (n + Z.of_nat (length (j :: js))) with (n + 1 + Z.of_nat (length js)) by (simpl; lia). done.
Qed.

Lemma wake_signals lvl b n : 0 ≤ lvl → wake_ok lvl b n → b_signals b = n `div` (lvl + 1).
Proof. intros Hl [Hc <-]. apply (Z.div_unique_pos _ _ _ (b_counter b)); lia. Qed.

(** The queue is first in, first out, and nothing is lost, leaked or released
    twice.  Below persistence level 3, any sequence of changes queued on the empty
    queue is accepted, the worker is woken once per [persist_level + 1] changes, and
    when it runs it performs exactly the disk operations of the changes, in the order
    they were queued, whatever the disk answers; it ends, and it leaves an empty
    queue and no node and no string allocated. *)
Lemma bio_worker_drains {DB} (sqlite3_exec : DB → string → DB * Z * list cells_t) lvl js d :
  0 ≤ lvl < 3 → Forall (λ j, job_ok j = true) js →
  ∃ b, queue_jobs lvl js bio_init = Done b ∧ bio_size b = s64 (Z.of_nat (length js)) ∧
    b_signals b = Z.of_nat (length js) `div` (lvl + 1) ∧
    ∃ b', bio_worker sqlite3_exec (S (length js)) d b = Done (foldl (apply_job sqlite3_exec) d js, b') ∧
      b_head b' = BioQHead NULL NULL 0 ∧ b_heap b' = ∅ ∧ b_strs b' = ∅.
Proof.
  intros Hl Hjs. destruct bio_init_ok as (Hok0 & Ht0 & Hw0).
  destruct (queue_jobs_run lvl js bio_init [] [] 0 Hl Hok0 Ht0 (Hw0 lvl ltac:(lia)))
    as (b & es & Hq & Hok & [T1 T2] & Hw).
  cbn [app] in Hok. exists b. split_and!; [done| | |].
  - unfold bio_size. rewrite (qo_size _ _ (bo_queue _ _ _ Hok)). by rewrite (list.Forall2_length _ _ _ (bo_jobs _ _ _ Hok)).
  - by apply wake_signals; [lia|].
  - destruct (bio_worker_run sqlite3_exec d b es js (S (length js)) Hok Hjs ltac:(lia)) as (b' & Hb & Hok' & Hd & Hh).
    exists b'. split; [done|]. destruct (bo_queue _ _ _ Hok') as [_ _ _ _ Q5 Q6 Q7]. split_and!.
    + destruct (b_head b') as [x y z]. simpl in *. by rewrite Q5, Q6, Q7.
    + apply dom_empty_iff_L. rewrite Hh, T2. set_solver.
    + apply map_empty. intros a. rewrite Hd. case_decide as Ha; [done|].
      destruct (b_strs b !! a) eqn:Hs; [|done]. exfalso. apply Ha, T1. by eexists.
Qed.

(** At persistence level 3 and above a change is not queued: [bio_queue_add]
    releases the three strings it is given and nothing else happens. *)
Lemma bio_level_discards lvl j b es js :
  3 ≤ lvl → bio_ok b es js →
  ∃ b', dbg_queue lvl (j_key j) (j_arg j) (j_new j) (j_op j) b = Done b' ∧
    b_strs b' = b_strs b ∧ b_heap b' = b_heap b ∧ b_head b' = b_head b ∧ b_signals b' = b_signals b.
Proof.
  intros Hl [_ Hm _ _]. pose proof (mo_brk _ Hm) as Hbrk. unfold NULL in Hbrk.
  assert (∀ a, b_brk b ≤ a → b_strs b !! a = None) as Hfree.
  { intros a Ha. destruct (b_strs b !! a) eqn:Hs; [|done]. pose proof (mo_strs _ Hm a ltac:(by eexists)). lia. }
  unfold dbg_queue, bio_queue_add, free_str, xfiredb_sprintf. destruct (Z.geb_spec lvl 3); [|lia].
  destruct j as [op k [a|] [v|]]; simpl; unfold NULL in *;
    repeat first [rewrite decide_False by lia | rewrite lookup_insert_eq | rewrite lookup_insert_ne by lia
      | rewrite lookup_delete_ne by lia | progress simpl];
    rewrite ?decide_True by done; (eexists; split; [done|]); split_and!; try done; simpl;
    apply map_eq; intros c; rewrite ?lookup_delete, ?lookup_insert; repeat case_decide; subst;
    rewrite ?Hfree by lia; done.
Qed.

(** ** What the changes do to the table *)

Definition job_quote_free (j : job) : Prop :=
  quote_free (j_key j) ∧ quote_free (default "" (j_arg j)) ∧ quote_free (default "" (j_new j)).

(** The rows before and after one change, in terms of the table alone. *)
Definition job_rows (j : job) (rows rows' : list row) : Prop :=
  let key := j_key j in
  let a := default "" (j_arg j) in
  let v := default "" (j_new j) in
  match j_op j with
  | STRING_ADD => rows' = rows ++ [Row key "null" "string" v]
  | STRING_UPDATE => rows' = update_where (is_row "string" key) v rows
  | STRING_DEL => rows' = delete_where (is_row "string" key) rows
  | LIST_ADD => rows' = rows ++ [Row key "null" "list" v]
  | LIST_DEL => one_row (is_list_row key a) (λ _, []) rows rows'
  | LIST_UPDATE => one_row (is_list_row key a) (λ r, [set_value v r]) rows rows'
  | HM_ADD => rows' = rows ++ [Row key a "hashmap" v]
  | HM_DEL => rows' = delete_where (is_sub_row "hashmap" key a) rows
  | HM_UPDATE => rows' = update_where (is_any_sub_row key a) v rows
  | SET_ADD => rows' = rows ++ [Row key a "set" "null"]
  | SET_DEL => rows' = delete_where (is_sub_row "set" key a) rows
  end.

Inductive jobs_rows : list job → list row → list row → Prop :=
  | jobs_rows_nil rows : jobs_rows [] rows rows
  | jobs_rows_cons j js rows rows1 rows' :
      job_rows j rows rows1 → jobs_rows js rows1 rows' → jobs_rows (j :: js) rows rows'.

Section Rows.
Context `{HT : SqliteTable DB} {HL : SqliteTableLaws DB}.

Lemma apply_job_rows (d : disk DB) j :
  job_quote_free j → job_rows j (disk_rows d) (disk_rows (apply_job sq_exec d j)).
Proof.
  destruct j as [op k a v]. intros (Hk & Ha & Hv). simpl in Hk, Ha, Hv.
  assert (∀ q P, sq_writes (dk_handle d) q P → P (disk_rows (disk_exec sq_exec d q).1)) as Hex.
  { intros q P Hw. destruct (disk_exec_writes d q P Hw) as (d' & -> & ?). done. }
  pose proof (quote_free_type "string" ltac:(set_solver)). pose proof (quote_free_type "list" ltac:(set_solver)).
  pose proof (quote_free_type "hashmap" ltac:(set_solver)). pose proof (quote_free_type "set" ltac:(set_solver)).
  pose proof quote_free_null.
  destruct op; unfold job_rows, apply_job, disk_store_string, disk_delete_string, disk_update_string,
    disk_store_list_entry, disk_delete_list, disk_update_list, disk_store_hm_node, disk_delete_hashmapnode,
    disk_update_hm, disk_store_set_key, disk_delete_set_key; cbn [j_op j_key j_arg j_new].
  - apply (Hex _ (λ rows, rows = _)). by apply sq_insert.
  - apply (Hex _ (λ rows, rows = _)). by apply sq_delete_string.
  - apply (Hex _ (λ rows, rows = _)). by apply sq_update_string.
  - apply (Hex _ (λ rows, rows = _)). by apply sq_insert.
  - apply Hex. by apply sq_delete_list.
  - apply Hex. by apply sq_update_list.
  - apply (Hex _ (λ rows, rows = _)). by apply sq_insert.
  - apply (Hex _ (λ rows, rows = _)). by apply sq_delete_hm.
  - apply (Hex _ (λ rows, rows = _)). by apply sq_update_hm.
  - apply (Hex _ (λ rows, rows = _)). by apply sq_insert.
  - apply (Hex _ (λ rows, rows = _)). by apply sq_delete_set.
Qed.

(** C21: for any table that keeps the promises of [SqliteTable], the worker turns
    the rows of the table into the rows after the queued changes, in order, as long
    as no key and no value contains a quote character: additions append a row,
    updates and deletions change the rows with that key (one row, for a list). *)
Theorem bio_worker_rows lvl js (d : disk DB) :
  0 ≤ lvl < 3 → Forall (λ j, job_ok j = true) js → Forall job_quote_free js →
  ∃ b d' b', queue_jobs lvl js bio_init = Done b ∧
    bio_worker sq_exec (S (length js)) d b = Done (d', b') ∧
    jobs_rows js (disk_rows d) (disk_rows d').
Proof.
  intros Hl Hjs Hq. destruct bio_init_ok as (Hok0 & Ht0 & Hw0).
  destruct (queue_jobs_run lvl js bio_init [] [] 0 Hl Hok0 Ht0 (Hw0 lvl ltac:(lia)))
    as (b & es & Hqu & Hok & _ & _).
  destruct (bio_worker_run sq_exec d b es js (S (length js)) Hok Hjs ltac:(lia)) as (b' & Hb & _ & _ & _).
  exists b, (foldl (apply_job sq_exec) d js), b'. split_and!; [done..|]. clear -HL Hq.
  revert d. induction Hq as [|j js Hj Hq IH]; intros d; simpl; [constructor|].
  econstructor; [by apply apply_job_rows|]. apply IH.
Qed.
End Rows.

(** ** Runs *)

Definition jobs1 : list job :=
  [Job STRING_ADD "s" None (Some "1"); Job HM_ADD "h" (Some "k") (Some "v"); Job STRING_UPDATE "s" None (Some "2");
   Job SET_ADD "t" (Some "k") None; Job STRING_DEL "s" None None].
Definition mini_disk : disk (list row) := Disk "db" [] 0 true.

Lemma bio_worker_drains_witness :
  ∃ b, queue_jobs 1 jobs1 bio_init = Done b ∧ bio_size b = s64 (Z.of_nat (length jobs1)) ∧
    b_signals b = Z.of_nat (length jobs1) `div` (1 + 1) ∧
    ∃ b', bio_worker mini_exec (S (length jobs1)) mini_disk b =
        Done (foldl (apply_job mini_exec) mini_disk jobs1, b') ∧
      b_head b' = BioQHead NULL NULL 0 ∧ b_heap b' = ∅ ∧ b_strs b' = ∅.
Proof. apply (bio_worker_drains mini_exec 1 jobs1 mini_disk); [lia|repeat constructor]. Defined.

Lemma bio_level_discards_witness :
  ∃ b', dbg_queue 3 "s" None (Some "1") STRING_ADD bio_init = Done b' ∧
    b_strs b' = b_strs bio_init ∧ b_heap b' = b_heap bio_init ∧ b_head b' = b_head bio_init ∧
    b_signals b' = b_signals bio_init.
Proof. apply (bio_level_discards 3 (Job STRING_ADD "s" None (Some "1")) bio_init [] []); [done|apply bio_init_ok]. Defined.

Lemma bio_worker_rows_witness :
  ∃ b d' b', queue_jobs 1 jobs1 bio_init = Done b ∧
    bio_worker sq_exec (S (length jobs1)) mini_disk b = Done (d', b') ∧
    jobs_rows jobs1 (disk_rows mini_disk) (disk_rows d').
Proof.
  apply (bio_worker_rows 1 jobs1 mini_disk); [lia|repeat constructor|].
  repeat (constructor; [split_and!; by apply quote_free_dec|]). constructor.
Defined.

(** The module's own test.  [dbg_bio_queue] followed by the worker leaves the
    rows the test is written for: one string, two list entries and two hash map
    nodes, with their last values. *)
Lemma dbg_bio_queue_table :
  (b ← dbg_bio_queue 0 bio_init; '(d, _) ← bio_worker mini_exec 17 mini_disk b; Done (disk_rows d)) =
  Done [Row "hash-key" "key1" "hashmap" "first-data"; Row "hash-key" "key2" "hashmap" "new-data";
        Row "third-test" "null" "string" "third-data";
        Row "list-key" "null" "list" "first-data"; Row "list-key" "null" "list" "SECOND-DATA"].
Proof. vm_compute. reflexivity. Qed.
