(* ===== verification/Worker.v ===== *)
(** * Two threads: the engine and the background worker

    [os/bg.c] runs [bio_worker] in a thread of its own that sleeps on a condition
    variable; [storage/bio.c] queues changes and signals it.  The state below has
    the program point of each thread, and [step] interleaves them: every locked
    section, the delivery of a signal and the work on one node are one step each. *)
From S2P Require Import Prelude Chain Disk MiniSql DiskSpec Bio BioSpec.
Local Open Scope Z_scope.

(** ** The threads *)

(** Where [job_processor] is: before it takes the lock, in [xfiredb_cond_wait], in
    the loop of [bio_worker] before a pop, in the loop with a node taken off, after
    the handler has returned, and after the thread has ended. *)
Inductive wphase := WLock | WWait | WPop | WNode (q : loc) | WCheck | WExit.

(** Where the engine is: between calls, between queueing and signalling, in the loop
    of [bio_sync] (called for [xfiredb_se_save] or by [xfiredb_se_exit]), before and
    after [__bg_process_stop] sets [done], and after the join. *)
Inductive ephase := EIdle | ESignal | ESync (exiting : bool) | EStop | EJoin | EJoined.

Inductive call := CAdd (j : job) | CSave | CExit.

Record sys (DB : Type) := Sys {
  y_bio : bio;
  y_disk : disk DB;
  y_done : bool;
  y_worker : wphase;
  y_engine : ephase;
  y_added : list job   (* what was queued so far; no part of the program *) }.
Arguments Sys {DB} _ _ _ _ _ _.
Arguments y_bio {DB} _.
Arguments y_disk {DB} _.
Arguments y_done {DB} _.
Arguments y_worker {DB} _.
Arguments y_engine {DB} _.
Arguments y_added {DB} _.

Section System.
Context {DB : Type} (sqlite3_exec : DB → string → DB * Z * list cells_t) (lvl : Z).

(** [bg_process_signal]: wakes the worker if it waits, and is lost otherwise. *)
Definition bg_process_signal (w : wphase) : wphase := match w with WWait => WPop | _ => w end.

(** One step of [job_processor] and [bio_worker]; [None]: it waits or has ended. *)
Definition worker_step (s : sys DB) : option (outcome (sys DB)) :=
  let '(Sys b d done w e added) := s in
  match w with
  | WLock => Some (Done (Sys b d done (if done : bool then WPop else WWait) e added))
  | WWait => None
  | WPop => Some ('(b, q) ← bio_queue_pop b;
                  Done (Sys b d done (if decide (q = NULL) then WCheck else WNode q) e added))
  | WNode q => Some ('(d, b) ← bio_process sqlite3_exec d b q; Done (Sys b d done WPop e added))
  | WCheck => Some (Done (Sys b d done (if done : bool then WExit else WLock) e added))
  | WExit => None
  end.

(** A call from the idle engine. *)
Definition engine_call (c : call) (s : sys DB) : option (outcome (sys DB)) :=
  let '(Sys b d done w e added) := s in
  match e, c with
  | EIdle, CAdd j =>
      Some (b' ← dbg_queue lvl (j_key j) (j_arg j) (j_new j) (j_op j) b;
            Done (Sys b' d done w (if b_signals b' =? b_signals b then EIdle else ESignal) (added ++ [j])))
  | EIdle, CSave => Some (Done (Sys b d done (bg_process_signal w) (ESync false) added))
  | EIdle, CExit => Some (Done (Sys b d done (bg_process_signal w) (ESync true) added))
  | _, _ => None
  end.

(** The engine inside a call. *)
Definition engine_step (s : sys DB) : option (sys DB) :=
  let '(Sys b d done w e added) := s in
  match e with
  | EIdle => None
  | ESignal => Some (Sys b d done (bg_process_signal w) EIdle added)
  | ESync exiting =>
      if bio_size b =? 0 then Some (Sys b d done w (if exiting : bool then EStop else EIdle) added)
      else None  (* sleeps and looks again *)
  | EStop => Some (Sys b d true (bg_process_signal w) EJoin added)
  | EJoin => match w with WExit => Some (Sys b d done w EJoined added) | _ => None end
  | EJoined => None
  end.

Inductive step (s : sys DB) : sys DB → Prop :=
  | step_worker s' : worker_step s = Some (Done s') → step s s'
  | step_call c s' : (∀ j, c = CAdd j → job_ok j = true) → engine_call c s = Some (Done s') → step s s'
  | step_engine s' : engine_step s = Some s' → step s s'.

Definition sys_init (d : disk DB) : sys DB := Sys bio_init d false WLock EIdle [].

(** ** The invariant *)

(** The node the worker holds, next to the queue [es]. *)
Record holding (b : bio) (e : qent) (es : list qent) (j : job) (js : list job) : Prop := {
  hd_queue : queue_ok b es;
  hd_mem : mem_ok b;
  hd_at : ent_at (b_heap b) e;
  hd_new : e_loc e ∉ e_loc <$> es;
  hd_jobs : Forall2 (ent_job (b_strs b)) (e :: es) (j :: js);
  hd_owns : NoDup (owns (e :: es)) }.

(** [done] changes are on disk, in order; at most one is in flight; the rest waits. *)
Definition split_ok (d0 : disk DB) (s : sys DB) (written flight queued : list job) : Prop :=
  y_added s = written ++ flight ++ queued ∧
  y_disk s = foldl (apply_job sqlite3_exec) d0 written ∧
  match y_worker s with
  | WNode q => ∃ e es j, q = e_loc e ∧ flight = [j] ∧ holding (y_bio s) e es j queued
  | _ => flight = [] ∧ ∃ es, bio_ok (y_bio s) es queued
  end.

(** Whether the engine is in [__bg_process_stop], past the [bio_sync] before it. *)
Definition stopping (s : sys DB) : Prop :=
  y_engine s = EStop ∨ y_engine s = EJoin ∨ y_engine s = EJoined.

Definition sys_ok (d0 : disk DB) (s : sys DB) : Prop :=
  ∃ written flight queued, split_ok d0 s written flight queued ∧
    Forall (λ j, job_ok j = true) (y_added s) ∧
    (y_done s = true → y_engine s = EJoin ∨ y_engine s = EJoined) ∧
    (y_worker s = WExit → y_done s = true) ∧
    (stopping s → Z.of_nat (length (y_added s)) < 2 ^ 63 → queued = []) ∧
    (y_engine s = EJoined → y_worker s = WExit).

Lemma queued_size d0 s written flight queued :
  split_ok d0 s written flight queued → bio_size (y_bio s) = s64 (Z.of_nat (length queued)).
Proof.
  intros (_ & _ & Hw). destruct (y_worker s); try (destruct Hw as (_ & es & [Hq _ Hj _]);
    unfold bio_size; rewrite (qo_size _ _ Hq); by rewrite (list.Forall2_length _ _ _ Hj)).
  destruct Hw as (e & es & j & _ & _ & [Hq _ _ _ Hj _]). unfold bio_size. rewrite (qo_size _ _ Hq).
  apply Forall2_cons_1 in Hj as [_ Hj]. by rewrite (list.Forall2_length _ _ _ Hj).
Qed.

(** *** The worker *)

Lemma pop_holding b e es j js :
  bio_ok b (e :: es) (j :: js) → ∃ b1, bio_queue_pop b = Done (b1, e_loc e) ∧ e_loc e ≠ NULL ∧
    holding b1 e es j js.
Proof.
  intros [Hq Hm Hjs Ho].
  destruct (bio_queue_pop_run b (e :: es) Hq) as (b1 & -> & Hq1 & He & Hs & Hb & Hd & _).
  pose proof (qo_nodup _ _ Hq) as Hnd. rewrite fmap_cons in Hnd.
  apply list.NoDup_cons in Hnd as [Hn Hnd]. apply list.NoDup_cons in Hnd as [Hne _].
  exists b1. split_and!; [done|intros Heq; apply Hn; rewrite <-Heq; by left|].
  split; [done| |done|done|by rewrite Hs|done].
  destruct Hm as [M1 M2 M3]. split; rewrite ?Hb, ?Hs; [done| |done].
  intros a Ha. apply M2. apply elem_of_dom. rewrite <-Hd. by apply elem_of_dom.
Qed.

Lemma worker_step_split d0 s o written flight queued :
  worker_step s = Some o → Forall (λ j, job_ok j = true) (y_added s) → split_ok d0 s written flight queued →
  ∃ s', o = Done s' ∧ ∃ written' flight' queued', split_ok d0 s' written' flight' queued' ∧
    (queued = [] → queued' = []).
Proof.
  destruct s as [b d done w e added]. intros Hstep Hjs (Hadd & Hdisk & Hw). simpl in *.
  destruct w as [| | |q| |]; simplify_eq.
  - eexists. split; [done|]. exists written, flight, queued. split; [|done]. split_and!; [done..|]. by destruct done.
  - destruct Hw as [-> [es Hok]]. destruct es as [|x es], queued as [|j js];
      try (by pose proof (bo_jobs _ _ _ Hok) as Hj; inversion Hj).
    + rewrite (bio_queue_pop_run b [] (bo_queue _ _ _ Hok)), bind_Done, decide_True by done.
      eexists. split; [done|]. exists written, [], []. split; [|done]. split_and!; [done..|]. split; [done|by exists []].
    + destruct (pop_holding b x es j js Hok) as (b1 & -> & Hn & Hh). rewrite bind_Done, decide_False by done.
      eexists. split; [done|]. exists written, [j], js. split; [|done]. split_and!; [done..|]. by exists x, es, j.
  - destruct Hw as (x & es & j & -> & -> & [H1 H2 H3 H4 H5 H6]).
    assert (job_ok j = true) as Hj.
    { rewrite list.Forall_forall in Hjs. apply Hjs. set_solver. }
    destruct (bio_process_run sqlite3_exec (foldl (apply_job sqlite3_exec) d0 written) b x es j queued Hj)
      as (b' & -> & Hok & _); [done..|].
    rewrite bind_Done. eexists. split; [done|]. exists (written ++ [j]), [], queued.
    split; [|done]. split; [by rewrite <-app_assoc|]. split; [by rewrite foldl_snoc|]. split; [done|by exists es].
  - eexists. split; [done|]. exists written, flight, queued. split; [|done]. split_and!; [done..|]. by destruct done.
Qed.

(** *** The engine *)

Context (Hlvl : 0 ≤ lvl < 3).

Lemma add_split d0 b d done w e e' added j written flight queued :
  split_ok d0 (Sys b d done w e added) written flight queued →
  ∃ b', dbg_queue lvl (j_key j) (j_arg j) (j_new j) (j_op j) b = Done b' ∧
    split_ok d0 (Sys b' d done w e' (added ++ [j])) written flight (queued ++ [j]).
Proof.
  intros (Hadd & Hdisk & Hw). simpl in *.
  assert (added ++ [j] = written ++ flight ++ queued ++ [j]) as Hadd' by (by rewrite Hadd, <-!app_assoc).
  assert ((∃ es, bio_ok b es queued) → flight = [] → ∃ b' es', dbg_queue lvl (j_key j) (j_arg j) (j_new j) (j_op j) b
    = Done b' ∧ bio_ok b' es' (queued ++ [j])) as Hplain.
  { intros [es Hok] _. destruct (dbg_queue_run lvl b es queued j Hlvl Hok) as (b' & x & -> & Hok' & _).
    by eexists _, _. }
  destruct w as [| | |q| |]; try (destruct Hw as [-> Hes]; destruct (Hplain Hes eq_refl) as (b' & es' & -> & Hok');
    exists b'; do 4 (split; [done|]); by exists es').
  destruct Hw as (x & es & jx & -> & -> & [H1 H2 H3 H4 H5 H6]).
  apply Forall2_cons_1 in H5 as [H5x H5].
  change (owns (x :: es)) with (owns ([x] ++ es)) in H6. rewrite owns_app, owns_one in H6.
  apply list.NoDup_app in H6 as (H6a & H6b & H6c).
  destruct (dbg_queue_run lvl b es queued j Hlvl) as (b' & y & -> & [Q1 Q2 Q3 Q4] & _ & Hlow & Hge & _ & _ & Hat & Hloc);
    [by split|].
  assert (∀ a, a ∈ e_strs x → a < b_brk b) as Hx.
  { intros a Ha. eapply ent_job_strs in Ha; [|exact H5x]. by apply (mo_strs _ H2) in Ha as [_ ?]. }
  assert (e_loc x < b_brk b) as Hxl.
  { destruct H3 as (nd & Hn & _). pose proof (mo_heap _ H2 _ ltac:(by eexists)). lia. }
  exists b'. split; [done|]. split; [done|]. split; [done|]. exists x, (es ++ [y]), jx. split_and!; [done..|].
  split; [done|done|by apply Hat| | |].
  - rewrite fmap_app. simpl. intros [Hin|Hin%list_elem_of_singleton]%elem_of_app; [done|lia].
  - constructor; [|done]. apply (ent_job_frame (b_strs b)); [|by apply mem_null|done].
    intros a Ha. apply Hlow. by apply Hx.
  - change (owns (x :: es ++ [y])) with (owns ([x] ++ es ++ [y])). rewrite owns_app, owns_one.
    apply list.NoDup_app. split_and!; [done| |done]. intros a Ha. rewrite owns_app, owns_one.
    intros [Hin|Hin]%elem_of_app; [by apply (H6b a)|].
    rewrite list.Forall_forall in Hge. specialize (Hge a Hin). specialize (Hx a Ha). lia.
Qed.
Lemma sys_init_ok d0 : sys_ok d0 (sys_init d0).
Proof.
  exists [], [], []. split.
  - split; [done|]. split; [done|]. split; [done|]. exists []. apply bio_init_ok.
  - by split_and!.
Qed.

Lemma split_engine d0 b d done w e e' added written flight queued :
  split_ok d0 (Sys b d done w e added) written flight queued →
  ∀ done', split_ok d0 (Sys b d done' w e' added) written flight queued ∧
    split_ok d0 (Sys b d done' (bg_process_signal w) e' added) written flight queued.
Proof. intros (H1 & H2 & H3) done'. split; (split; [done|]; split; [done|]); by destruct w. Qed.

Lemma worker_step_frame s s' :
  worker_step s = Some (Done s') →
  y_engine s' = y_engine s ∧ y_added s' = y_added s ∧ y_done s' = y_done s ∧ y_worker s ≠ WExit ∧
  (y_worker s' = WExit → y_done s = true).
Proof.
  destruct s as [b d done w e added]. simpl. intros Hstep.
  destruct w as [| | |q| |]; try done; apply (inj Some) in Hstep;
    try (apply outcome_bind_Done in Hstep as ([? ?] & _ & Hstep)); injection Hstep as <-; simpl;
    split_and!; try done; try case_decide; by destruct done.
Qed.

Lemma sys_ok_worker d0 s s' : sys_ok d0 s → worker_step s = Some (Done s') → sys_ok d0 s'.
Proof.
  intros (wr & fl & qu & Hsp & Hjs & H1 & H2 & H3 & H4) Hstep.
  destruct (worker_step_split d0 s _ wr fl qu Hstep Hjs Hsp) as (s1 & [= <-] & wr' & fl' & qu' & Hsp' & Hqu).
  destruct (worker_step_frame s s' Hstep) as (He & Ha & Hd & Hne & Hx).
  exists wr', fl', qu'. split; [done|]. unfold stopping in *. rewrite He, Ha, Hd.
  split_and!; [done|done|done|by intros; apply Hqu; apply H3|]. intros Hj. by destruct Hne; apply H4.
Qed.

Lemma sys_ok_call d0 s c s' :
  (∀ j, c = CAdd j → job_ok j = true) → sys_ok d0 s → engine_call c s = Some (Done s') → sys_ok d0 s'.
Proof.
  intros Hc (wr & fl & qu & Hsp & Hjs & H1 & H2 & H3 & H4) Hstep.
  destruct s as [b d done w e added]. unfold stopping, sys_ok in *. simpl in *. destruct e; try done.
  assert (done = false) as ->. { destruct done; [|done]. by destruct H1. }
  destruct c as [j| |]; apply (inj Some) in Hstep.
  - apply outcome_bind_Done in Hstep as (b' & Hq & [= <-]).
    destruct (add_split d0 b d false w EIdle (if b_signals b' =? b_signals b then EIdle else ESignal) added j wr fl qu Hsp)
      as (b1 & Hb1 & Hsp'). rewrite Hq in Hb1. injection Hb1 as <-.
    exists wr, fl, (qu ++ [j]). split; [done|]. simpl. split_and!; try done.
    + apply Forall_app. split; [done|]. constructor; [by apply Hc|done].
    + case_match; intros [?|[?|?]]; done.
    + by case_match.
  - injection Hstep as <-. exists wr, fl, qu. split; [by eapply (split_engine _ _ _ _ _ EIdle)|].
    simpl. split_and!; try done; [|by intros [?|[?|?]]]. intros Hw. apply H2. by destruct w.
  - injection Hstep as <-. exists wr, fl, qu. split; [by eapply (split_engine _ _ _ _ _ EIdle)|].
    simpl. split_and!; try done; [|by intros [?|[?|?]]]. intros Hw. apply H2. by destruct w.
Qed.

Lemma sys_ok_engine d0 s s' : sys_ok d0 s → engine_step s = Some s' → sys_ok d0 s'.
Proof.
  intros (wr & fl & qu & Hsp & Hjs & H1 & H2 & H3 & H4) Hstep.
  pose proof (queued_size d0 _ _ _ _ Hsp) as Hsize.
  destruct s as [b d done w e added]. unfold stopping in *. simpl in *.
  assert (length qu ≤ length added)%nat as Hlen.
  { destruct Hsp as (Ha & _). simpl in Ha. rewrite Ha, !length_app. lia. }
  destruct e as [| |ex| | |]; simplify_eq.
  - exists wr, fl, qu. split; [by eapply (split_engine _ _ _ _ _ ESignal)|]. unfold stopping. simpl.
    split_and!; try done; [by intros [?|?]%H1|intros Hw; apply H2; by destruct w|by intros [?|[?|?]]].
  - case_match eqn:Hz; simplify_eq. apply Z.eqb_eq in Hz. rewrite Hz in Hsize.
    exists wr, fl, qu. split; [by eapply (split_engine _ _ _ _ _ (ESync ex))|]. unfold stopping. simpl.
    split_and!; try done; [by intros [?|?]%H1| |by destruct ex].
    intros _ Hb. change (2 ^ 63) with 9223372036854775808 in Hb.
    rewrite s64_small in Hsize by (change (2 ^ 63) with 9223372036854775808; lia).
    destruct qu; [done|simpl in Hsize; lia].
  - exists wr, fl, qu. split; [by eapply (split_engine _ _ _ _ _ EStop)|]. unfold stopping. simpl.
    split_and!; try done; [by left|intros _; apply H3; by left].
  - destruct w; simplify_eq. exists wr, fl, qu. split; [by eapply (split_engine _ _ _ _ _ EJoin)|]. unfold stopping. simpl.
    split_and!; try done; [by right|intros _; apply H3; by right; left].
Qed.

Lemma sys_ok_steps d0 s s' : rtc step s s' → sys_ok d0 s → sys_ok d0 s'.
Proof.
  induction 1 as [s|s1 s2 s3 Hstep _ IH]; [done|]. intros Hok. apply IH.
  destruct Hstep; [by eapply sys_ok_worker|by eapply sys_ok_call|by eapply sys_ok_engine].
Qed.

Lemma sys_ok_reachable d0 s : rtc step (sys_init d0) s → sys_ok d0 s.
Proof. intros Hr. by apply (sys_ok_steps d0 _ _ Hr), sys_init_ok. Qed.
End System.

(** How many changes the worker holds. *)
Definition in_flight (w : wphase) : Z := match w with WNode _ => 1 | _ => 0 end.

Section Runs.
Context {DB : Type} (sqlite3_exec : DB → string → DB * Z * list cells_t) (lvl : Z) (Hlvl : 0 ≤ lvl < 3).

Lemma written_prefix d0 (s : sys DB) :
  rtc (step sqlite3_exec lvl) (sys_init d0) s →
  ∃ n, (n ≤ length (y_added s))%nat ∧ y_disk s = foldl (apply_job sqlite3_exec) d0 (take n (y_added s)) ∧
    bio_size (y_bio s) = s64 (Z.of_nat (length (y_added s)) - Z.of_nat n - in_flight (y_worker s)).
Proof.
  intros Hr. destruct (sys_ok_reachable sqlite3_exec lvl Hlvl d0 s Hr) as (wr & fl & qu & Hsp & _).
  exists (length wr). pose proof (queued_size _ _ _ _ _ _ Hsp) as ->. destruct Hsp as (Ha & Hd & Hw).
  rewrite Ha, take_app_length, !length_app. split; [lia|]. split; [done|]. f_equal.
  destruct (y_worker s); simpl; try (destruct Hw as [-> _]; simpl; lia).
  destruct Hw as (? & ? & ? & _ & -> & _). simpl. lia.
Qed.

Lemma joined_disk d0 (s : sys DB) :
  rtc (step sqlite3_exec lvl) (sys_init d0) s → y_engine s = EJoined → Z.of_nat (length (y_added s)) < 2 ^ 63 →
  y_disk s = foldl (apply_job sqlite3_exec) d0 (y_added s).
Proof.
  intros Hr He Hb. destruct (sys_ok_reachable sqlite3_exec lvl Hlvl d0 s Hr)
    as (wr & fl & qu & (Ha & Hd & Hw) & _ & _ & _ & Hq & Hx).
  rewrite (Hx He) in Hw. destruct Hw as [-> _]. rewrite Hq, !app_nil_r in Ha; [|by do 2 right|done]. by rewrite Ha.
Qed.
End Runs.

(** ** Theorems *)

(** C13: whatever the interleaving of the engine and the worker, nothing faults, the
    disk is what the first [n] changes make of it, in the order they were queued, and
    all the others are in the queue, but for at most one that the worker holds. *)
Theorem interleaving_fifo {DB} (sqlite3_exec : DB → string → DB * Z * list cells_t) lvl d0 (s : sys DB) :
  0 ≤ lvl < 3 → rtc (step sqlite3_exec lvl) (sys_init d0) s →
  (∃ n, y_disk s = foldl (apply_job sqlite3_exec) d0 (take n (y_added s)) ∧
     bio_size (y_bio s) = s64 (Z.of_nat (length (y_added s)) - Z.of_nat n - in_flight (y_worker s))) ∧
  (∀ o, worker_step sqlite3_exec s = Some o → ∃ s', o = Done s') ∧
  (∀ j o, engine_call lvl (CAdd j) s = Some o → ∃ s', o = Done s').
Proof.
  intros Hl Hr. destruct (sys_ok_reachable sqlite3_exec lvl Hl d0 s Hr) as (wr & fl & qu & Hsp & Hjs & _). split_and!.
  - destruct (written_prefix sqlite3_exec lvl Hl d0 s Hr) as (n & _ & H). by exists n.
  - intros o Ho. destruct (worker_step_split _ _ s o wr fl qu Ho Hjs Hsp) as (s' & -> & _). by exists s'.
  - intros j o Ho. destruct s as [b d done w e added]. simpl in Ho. destruct e; simplify_eq.
    destruct (add_split sqlite3_exec lvl Hl d0 b d done w EIdle EIdle added j wr fl qu Hsp) as (b' & -> & _). by eexists.
Qed.

(** No change is lost by a shutdown.  When [xfiredb_se_exit] has synced the queue,
    stopped the worker and joined it, every change that was ever queued is on disk, in
    order (for fewer than 2^63 changes, the range of the counter). *)
Lemma shutdown_writes_all {DB} (sqlite3_exec : DB → string → DB * Z * list cells_t) lvl d0 (s : sys DB) :
  0 ≤ lvl < 3 → rtc (step sqlite3_exec lvl) (sys_init d0) s → y_engine s = EJoined →
  Z.of_nat (length (y_added s)) < 2 ^ 63 →
  y_disk s = foldl (apply_job sqlite3_exec) d0 (y_added s).
Proof. intros Hl. by apply joined_disk. Qed.

(** *** Runs *)

Definition job_k : job := Job STRING_ADD "k" None (Some "v").
Ltac take_step s' := eapply (rtc_l _ _ s');
  [first [by apply step_worker|by apply step_engine
    |eapply (step_call _ _ _ (CAdd job_k)); [by intros ? [= <-]|done]
    |eapply (step_call _ _ _ CSave); [done|done]|eapply (step_call _ _ _ CExit); [done|done]]|].

(** The queue with [job_k] in it, and after it was popped and processed. *)
Definition bio_k : bio :=
  Bio {[3 := BioQ NULL NULL 1 NULL 2 STRING_ADD]} {[1 := "k"; 2 := "v"]} 4 (BioQHead 3 3 1) 0 1.
Definition bio_k_taken : bio :=
  Bio {[3 := BioQ NULL NULL 1 NULL 2 STRING_ADD]} {[1 := "k"; 2 := "v"]} 4 (BioQHead NULL NULL 0) 0 1.
Definition bio_k_done : bio := Bio ∅ ∅ 4 (BioQHead NULL NULL 0) 0 1.

(** [bio_sync] may return before the change is on disk: it looks at the length
    of the queue, and the worker takes a node off before it writes it.  The
    documentation of [xfiredb_se_save] says that the queue is synced on return. *)
Lemma save_returns_early {DB} (sqlite3_exec : DB → string → DB * Z * list cells_t) d0 :
  ∃ s s' : sys DB, rtc (step sqlite3_exec 0) (sys_init d0) s ∧ y_engine s = ESync false ∧
    step sqlite3_exec 0 s s' ∧ y_engine s' = EIdle ∧ y_added s' = [job_k] ∧ y_disk s' = d0.
Proof.
  exists (Sys bio_k_taken d0 false (WNode 3) (ESync false) [job_k]),
    (Sys bio_k_taken d0 false (WNode 3) EIdle [job_k]). split_and!; try done.
  - take_step (Sys bio_init d0 false WWait EIdle []).
    take_step (Sys bio_k d0 false WWait ESignal [job_k]).
    take_step (Sys bio_k d0 false WPop EIdle [job_k]).
    take_step (Sys bio_k_taken d0 false (WNode 3) EIdle [job_k]).
    take_step (Sys bio_k_taken d0 false (WNode 3) (ESync false) [job_k]). apply rtc_refl.
  - by apply step_engine.
Qed.

(** C23: [bio_sync] may wait for ever: a signal that arrives while the worker does not
    wait is lost, and the worker does not look at the queue before it waits.  A state
    is reachable in which [bio_sync] waits for the worker, the worker for a signal,
    and no thread can take a step (unless the wait wakes up by itself, which POSIX
    permits and the code does not rely on). *)
Theorem sync_deadlock {DB} (sqlite3_exec : DB → string → DB * Z * list cells_t) d0 :
  ∃ s : sys DB, rtc (step sqlite3_exec 0) (sys_init d0) s ∧ y_engine s = ESync false ∧
    y_added s = [job_k] ∧ y_disk s = d0 ∧ ∀ s', ¬ step sqlite3_exec 0 s s'.
Proof.
  exists (Sys bio_k d0 false WWait (ESync false) [job_k]). split_and!; try done.
  - take_step (Sys bio_k d0 false WLock ESignal [job_k]).
    take_step (Sys bio_k d0 false WLock EIdle [job_k]).
    take_step (Sys bio_k d0 false WLock (ESync false) [job_k]).
    take_step (Sys bio_k d0 false WWait (ESync false) [job_k]). apply rtc_refl.
  - intros s' [? Hs|c ? _ Hs|? Hs]; [done|by destruct c|done].
Qed.

Definition disk_k : disk (list row) := Disk "db" [Row "k" "null" "string" "v"] 0 true.

Lemma taken_run :
  rtc (step mini_exec 0) (sys_init mini_disk) (Sys bio_k_taken mini_disk false (WNode 3) EIdle [job_k]).
Proof.
  take_step (Sys bio_init mini_disk false WWait EIdle []).
  take_step (Sys bio_k mini_disk false WWait ESignal [job_k]).
  take_step (Sys bio_k mini_disk false WPop EIdle [job_k]).
  take_step (Sys bio_k_taken mini_disk false (WNode 3) EIdle [job_k]). apply rtc_refl.
Qed.

Lemma joined_run :
  rtc (step mini_exec 0) (sys_init mini_disk) (Sys bio_k_done disk_k true WExit EJoined [job_k]).
Proof.
  etransitivity; [exact taken_run|].
  take_step (Sys bio_k_taken mini_disk false (WNode 3) (ESync true) [job_k]).
  take_step (Sys bio_k_taken mini_disk false (WNode 3) EStop [job_k]).
  take_step (Sys bio_k_taken mini_disk true (WNode 3) EJoin [job_k]).
  take_step (Sys bio_k_done disk_k true WPop EJoin [job_k]).
  take_step (Sys bio_k_done disk_k true WCheck EJoin [job_k]).
  take_step (Sys bio_k_done disk_k true WExit EJoin [job_k]).
  take_step (Sys bio_k_done disk_k true WExit EJoined [job_k]). apply rtc_refl.
Qed.

Lemma interleaving_fifo_witness :
  let s := Sys bio_k_taken mini_disk false (WNode 3) EIdle [job_k] in
  (∃ n, y_disk s = foldl (apply_job mini_exec) mini_disk (take n (y_added s)) ∧
     bio_size (y_bio s) = s64 (Z.of_nat (length (y_added s)) - Z.of_nat n - in_flight (y_worker s))) ∧
  (∀ o, worker_step mini_exec s = Some o → ∃ s', o = Done s') ∧
  (∀ j o, engine_call 0 (CAdd j) s = Some o → ∃ s', o = Done s').
Proof. apply (interleaving_fifo mini_exec 0 mini_disk); [lia|exact taken_run]. Defined.

Lemma shutdown_writes_all_witness :
  disk_k = foldl (apply_job mini_exec) mini_disk [job_k].
Proof.
  apply (shutdown_writes_all mini_exec 0 mini_disk (Sys bio_k_done disk_k true WExit EJoined [job_k]));
    [lia|exact joined_run|reflexivity|reflexivity].
Defined.
