(* ===== verification/Shutdown.v ===== *)
(** * Shutting down

    [Worker] says what holds when [xfiredb_se_exit] has returned.  Here: it can
    return.  From every reachable state in which the engine is between two calls
    there is a schedule that lets the worker finish and the engine join it. *)
From S2P Require Import Prelude Chain Disk MiniSql DiskSpec Bio BioSpec Worker.
Local Open Scope Z_scope.

Section Shutdown.
Context {DB : Type} (sqlite3_exec : DB → string → DB * Z * list cells_t) (lvl : Z).
Implicit Types (s : sys DB).

Abbreviation runs := (rtc (step sqlite3_exec lvl)).

Lemma step_run s s' s'' : step sqlite3_exec lvl s s' → runs s' s'' → runs s s''.
Proof. apply rtc_l. Qed.

(** The worker, from the head of its loop, empties the queue. *)
Lemma worker_drains d0 b d done e added written queued :
  Forall (λ j, job_ok j = true) added → split_ok sqlite3_exec d0 (Sys b d done WPop e added) written [] queued →
  ∃ b' d', runs (Sys b d done WPop e added) (Sys b' d' done WCheck e added) ∧
    split_ok sqlite3_exec d0 (Sys b' d' done WCheck e added) added [] [].
Proof.
  intros Hjs. revert b d written. induction queued as [|j js IH]; intros b d written Hsp;
    pose proof Hsp as (Hadd & Hdisk & _ & es & Hok); simpl in Hadd, Hdisk, Hok.
  - destruct es as [|x es]; [|by pose proof (bo_jobs _ _ _ Hok) as Hj; inversion Hj].
    exists b, d. split.
    + eapply step_run; [|apply rtc_refl]. apply step_worker. simpl.
      by rewrite (bio_queue_pop_run b [] (bo_queue _ _ _ Hok)), bind_Done, decide_True by done.
    + rewrite !app_nil_r in Hadd. subst written. split; [by rewrite !app_nil_r|]. split; [done|]. split; [done|by exists []].
  - destruct es as [|x es]; [by pose proof (bo_jobs _ _ _ Hok) as Hj; inversion Hj|].
    destruct (pop_holding b x es j js Hok) as (b1 & Hpop & Hn & Hh).
    assert (split_ok sqlite3_exec d0 (Sys b1 d done (WNode (e_loc x)) e added) written [j] js) as Hsp1
      by (split; [done|]; split; [done|]; by exists x, es, j).
    destruct Hh as [H1 H2 H3 H4 H5 H6]. assert (job_ok j = true) as Hj.
    { rewrite list.Forall_forall in Hjs. apply Hjs. set_solver. }
    destruct (bio_process_run sqlite3_exec d b1 x es j js Hj) as (b2 & Hproc & Hok2 & _); [done..|].
    destruct (IH b2 (apply_job sqlite3_exec d j) (written ++ [j])) as (b' & d' & Hrun & Hend).
    { split; [by rewrite <-app_assoc|]. split; [by rewrite foldl_snoc, Hdisk|]. split; [done|by exists es]. }
    exists b', d'. split; [|done]. eapply step_run; [|eapply step_run; [|exact Hrun]]; apply step_worker; cbn [worker_step].
    + by rewrite Hpop, bind_Done, decide_False.
    + cbn [worker_step]. by rewrite Hproc, bind_Done.
Qed.

Context (Hlvl : 0 ≤ lvl < 3).

(** Where the engine is between two calls, the worker can go back to waiting. *)
Lemma worker_rests d0 b d w added written flight queued :
  Forall (λ j, job_ok j = true) added → w ≠ WExit →
  split_ok sqlite3_exec d0 (Sys b d false w EIdle added) written flight queued →
  ∃ b' d' written' queued', runs (Sys b d false w EIdle added) (Sys b' d' false WWait EIdle added) ∧
    split_ok sqlite3_exec d0 (Sys b' d' false WWait EIdle added) written' [] queued'.
Proof.
  intros Hjs Hw Hsp.
  assert (∀ b d wr qu, split_ok sqlite3_exec d0 (Sys b d false WPop EIdle added) wr [] qu →
    ∃ b' d', runs (Sys b d false WPop EIdle added) (Sys b' d' false WWait EIdle added) ∧
      split_ok sqlite3_exec d0 (Sys b' d' false WWait EIdle added) added [] []) as Hpop.
  { intros b1 d1 wr qu Hsp1. destruct (worker_drains d0 b1 d1 false EIdle added wr qu Hjs Hsp1) as (b' & d' & Hrun & Hend).
    exists b', d'. split; [|done]. etransitivity; [exact Hrun|].
    eapply step_run; [by apply step_worker|]. eapply step_run; [by apply step_worker|]. apply rtc_refl. }
  pose proof Hsp as (Ha & Hd & Hph). simpl in Hph. destruct w as [| | |q| |]; try done.
  - destruct Hph as [-> Hes]. exists b, d, written, queued. split; [|done]. eapply step_run; [by apply step_worker|]. apply rtc_refl.
  - destruct Hph as [-> Hes]. exists b, d, written, queued. split; [apply rtc_refl|done].
  - destruct Hph as [-> Hes]. destruct (Hpop b d written queued Hsp) as (b' & d' & Hr & Hs). by exists b', d', added, [].
  - destruct (worker_step_split sqlite3_exec d0 (Sys b d false (WNode q) EIdle added) _ written flight queued eq_refl Hjs Hsp) as (s1 & E & wr & fl & qu & Hsp1 & _).
    apply outcome_bind_Done in E as ([d1 b1] & E & E1); injection E1 as <-. pose proof Hsp1 as (_ & _ & -> & _).
    destruct (Hpop b1 d1 wr qu Hsp1) as (b' & d' & Hr & Hs). exists b', d', added, []. split; [|done].
    eapply step_run; [|exact Hr]. apply step_worker. simpl. by rewrite E.
  - destruct Hph as [-> Hes]. exists b, d, written, queued. split; [|done].
    do 2 (eapply step_run; [by apply step_worker|]). apply rtc_refl.
Qed.

Lemma shutdown_run d0 s :
  runs (sys_init d0) s → y_engine s = EIdle →
  ∃ s', runs s s' ∧ y_engine s' = EJoined ∧ y_added s' = y_added s.
Proof.
  intros Hr He. destruct (sys_ok_reachable sqlite3_exec lvl Hlvl d0 s Hr) as (wr & fl & qu & Hsp & Hjs & Hd & Hx & _).
  destruct s as [b d done w e added]. simpl in *. subst e.
  assert (done = false) as -> by (destruct done; [destruct Hd; done|done]).
  assert (w ≠ WExit) as Hw by (intros ->; by specialize (Hx eq_refl)).
  destruct (worker_rests d0 b d w added wr fl qu Hjs Hw Hsp) as (b1 & d1 & wr1 & qu1 & Hrun1 & Hsp1).
  destruct (worker_drains d0 b1 d1 false (ESync true) added wr1 qu1 Hjs) as (b2 & d2 & Hrun2 & Hsp2); [done|].
  pose proof (queued_size sqlite3_exec d0 _ _ _ _ Hsp2) as Hsize. simpl in Hsize.
  exists (Sys b2 d2 true WExit EJoined added). split; [|done]. etransitivity; [exact Hrun1|].
  eapply step_run; [by apply (step_call _ _ _ CExit)|]. simpl. etransitivity; [exact Hrun2|].
  eapply (step_run _ (Sys b2 d2 false WCheck EStop added)); [apply step_engine; simpl; by rewrite Hsize|].
  eapply step_run; [by apply step_engine|]. eapply step_run; [by apply step_worker|].
  eapply step_run; [by apply step_engine|]. apply rtc_refl.
Qed.
End Shutdown.

(** C22: [xfiredb_se_exit] can always return: whenever the engine is between two calls,
    whatever the threads did before, there is a schedule on which the call returns
    with every queued change on disk, in order. *)
Theorem shutdown_possible {DB} (sqlite3_exec : DB → string → DB * Z * list cells_t) lvl d0 (s : sys DB) :
  0 ≤ lvl < 3 → rtc (step sqlite3_exec lvl) (sys_init d0) s → y_engine s = EIdle →
  Z.of_nat (length (y_added s)) < 2 ^ 63 →
  ∃ s', rtc (step sqlite3_exec lvl) s s' ∧ y_engine s' = EJoined ∧ y_added s' = y_added s ∧
    y_disk s' = foldl (apply_job sqlite3_exec) d0 (y_added s).
Proof.
  intros Hl Hr He Hb. destruct (shutdown_run sqlite3_exec lvl Hl d0 s Hr He) as (s' & Hr' & He' & Ha).
  exists s'. split_and!; [done..|]. rewrite <-Ha.
  apply (joined_disk sqlite3_exec lvl Hl d0 s'); [by etransitivity|done|by rewrite Ha].
Qed.

(** A signal was lost: the worker waits, and a change is in the queue. *)
Lemma shutdown_possible_witness :
  ∃ s', rtc (step mini_exec 0) (Sys bio_k mini_disk false WWait EIdle [job_k]) s' ∧ y_engine s' = EJoined ∧
    y_added s' = [job_k] ∧ y_disk s' = foldl (apply_job mini_exec) mini_disk [job_k].
Proof.
  apply (shutdown_possible mini_exec 0 mini_disk (Sys bio_k mini_disk false WWait EIdle [job_k]));
    [lia| |reflexivity|reflexivity].
  take_step (Sys bio_k mini_disk false WLock ESignal [job_k]).
  take_step (Sys bio_k mini_disk false WLock EIdle [job_k]).
  take_step (Sys bio_k mini_disk false WWait EIdle [job_k]). apply rtc_refl.
Defined.
