(* ===== verification/Waiting.v ===== *)
(** * Waiting for the worker

    A caller of [bio_sync] looks at the length of the queue, sleeps and looks again; a
    caller of [__bg_process_stop] joins the thread.  Here the worker is followed while
    somebody waits: a schedule says how many steps it takes before each look.  When the
    worker was awake, or there was nothing to write, waiting ends on every schedule that
    lets it take its steps; when the signal was lost it ends on none. *)
From S2P Require Import Prelude Chain Disk MiniSql DiskSpec Bio BioSpec Worker.
Local Open Scope Z_scope.

Section Waiting.
Context {DB : Type} (sqlite3_exec : DB → string → DB * Z * list cells_t).
Implicit Types (y : sys DB).

(** [n] steps of the worker; one that waits or has ended takes none. *)
Fixpoint run_worker (n : nat) y : outcome (sys DB) :=
  match n with
  | O => Done y
  | S n => match worker_step sqlite3_exec y with None => Done y | Some o => y ← o; run_worker n y end
  end.

(** [while(bio_size()) xfiredb_sleep_ns(100000)]. *)
Fixpoint wait_empty (schedule : list nat) y : outcome (sys DB) :=
  match schedule with
  | [] => OutOfFuel
  | n :: schedule => y ← run_worker n y; if bio_size (y_bio y) =? 0 then Done y else wait_empty schedule y
  end.

(** [xfiredb_thread_join], with the steps the worker still takes. *)
Definition join_worker (n : nat) y : outcome (sys DB) :=
  y ← run_worker n y; match y_worker y with WExit => Done y | _ => OutOfFuel end.

(** ** The fields that the worker does not look at *)

Definition as_seen (e : ephase) (added : list job) y : sys DB := Sys (y_bio y) (y_disk y) (y_done y) (y_worker y) e added.

Lemma worker_step_seen e added y :
  worker_step sqlite3_exec (as_seen e added y) =
  match worker_step sqlite3_exec y with None => None | Some o => Some (y ← o; Done (as_seen e added y)) end.
Proof.
  destruct y as [b d done w e0 added0]. unfold as_seen. simpl. destruct w as [| | |q| |]; try done.
  - by destruct (bio_queue_pop b) as [[? ?]| |].
  - by destruct (bio_process sqlite3_exec d b q) as [[? ?]| |].
Qed.

Lemma run_worker_seen e added n y : run_worker n (as_seen e added y) = y ← run_worker n y; Done (as_seen e added y).
Proof.
  revert y. induction n as [|n IH]; intros y; [done|]. cbn [run_worker]. rewrite worker_step_seen.
  destruct (worker_step sqlite3_exec y) as [[y1| |]|]; try done. rewrite !bind_Done. apply IH.
Qed.

Lemma wait_empty_seen e added sched y : wait_empty sched (as_seen e added y) = y ← wait_empty sched y; Done (as_seen e added y).
Proof.
  revert y. induction sched as [|n sched IH]; intros y; [done|]. cbn [wait_empty]. rewrite run_worker_seen.
  destruct (run_worker n y) as [y1| |]; try done. rewrite !bind_Done. cbn [as_seen y_bio].
  destruct (bio_size (y_bio y1) =? 0); [done|]. apply IH.
Qed.

Lemma join_worker_seen e added n y : join_worker n (as_seen e added y) = y ← join_worker n y; Done (as_seen e added y).
Proof. unfold join_worker. rewrite run_worker_seen. destruct (run_worker n y) as [y1| |]; try done. rewrite !bind_Done. by destruct y1 as [? ? ? [] ? ?]. Qed.

(** ** No step faults *)

Context (d0 : disk DB).

(** The worker at work: what it has written, holds and has to write. *)
Definition work_ok y : Prop :=
  ∃ written flight queued, split_ok sqlite3_exec d0 y written flight queued ∧ Forall (λ j, job_ok j = true) (y_added y).

Lemma work_step y o : work_ok y → worker_step sqlite3_exec y = Some o →
  ∃ y', o = Done y' ∧ work_ok y' ∧ y_added y' = y_added y ∧ y_engine y' = y_engine y ∧ y_done y' = y_done y.
Proof.
  intros (wr & fl & qu & Hsp & Hj) Hstep.
  destruct (worker_step_split sqlite3_exec d0 y o wr fl qu Hstep Hj Hsp) as (y' & -> & wr' & fl' & qu' & Hsp' & _).
  destruct (worker_step_frame sqlite3_exec y y' Hstep) as (He & Ha & Hd & _). exists y'. split_and!; [done| |done..].
  exists wr', fl', qu'. by rewrite Ha.
Qed.

Lemma run_worker_ok n y : work_ok y →
  ∃ y', run_worker n y = Done y' ∧ work_ok y' ∧ y_added y' = y_added y ∧ y_engine y' = y_engine y ∧ y_done y' = y_done y.
Proof.
  revert y. induction n as [|n IH]; intros y Hy; [by exists y|]. cbn [run_worker].
  destruct (worker_step sqlite3_exec y) as [o|] eqn:E; [|by exists y].
  destruct (work_step y o Hy E) as (y1 & -> & Hy1 & Ha & He & Hd). rewrite bind_Done.
  destruct (IH y1 Hy1) as (y' & -> & Hy' & Ha' & He' & Hd'). exists y'. split_and!; [done|done|congruence..].
Qed.

Lemma wait_empty_ok sched y : work_ok y →
  wait_empty sched y = OutOfFuel ∨
  ∃ y', wait_empty sched y = Done y' ∧ work_ok y' ∧ bio_size (y_bio y') = 0 ∧ y_added y' = y_added y ∧ y_done y' = y_done y.
Proof.
  revert y. induction sched as [|n sched IH]; intros y Hy; [by left|]. cbn [wait_empty].
  destruct (run_worker_ok n y Hy) as (y1 & -> & Hy1 & Ha & _ & Hd). rewrite bind_Done.
  destruct (Z.eqb_spec (bio_size (y_bio y1)) 0) as [Hz|Hz]; [right; by exists y1|].
  destruct (IH y1 Hy1) as [->|(y' & -> & Hy' & Hz' & Ha' & Hd')]; [by left|]. right. exists y'. split_and!; [done..|congruence|congruence].
Qed.

(** When a queue of fewer than 2^63 changes has no length it is empty. *)
Lemma no_size y wr fl qu :
  split_ok sqlite3_exec d0 y wr fl qu → Z.of_nat (length (y_added y)) < 2 ^ 63 → bio_size (y_bio y) = 0 → qu = [].
Proof.
  intros Hsp Hb Hz. rewrite (queued_size sqlite3_exec d0 y wr fl qu Hsp) in Hz. destruct Hsp as (Ha & _ & _).
  rewrite Ha, !length_app in Hb. change (2 ^ 63) with 9223372036854775808 in Hb.
  rewrite s64_small in Hz by (change (2 ^ 63) with 9223372036854775808; lia). destruct qu; [done|simpl in Hz; lia].
Qed.

(** ** Waiting that ends *)

(** The steps until the queue is empty, of a worker that is in its loop. *)
Definition need (w : wphase) (queued : list job) : nat :=
  match queued with [] => 0 | _ => 2 * length queued + match w with WNode _ => 1 | _ => 0 end end.
Definition in_loop (w : wphase) : Prop := match w with WPop | WNode _ => True | _ => False end.

Definition comes_to y (n : nat) : Prop :=
  ∃ wr fl qu, split_ok sqlite3_exec d0 y wr fl qu ∧ Forall (λ j, job_ok j = true) (y_added y) ∧
    (in_loop (y_worker y) ∨ qu = []) ∧ (need (y_worker y) qu ≤ n)%nat.

Lemma comes_work y n : comes_to y n → work_ok y.
Proof. intros (wr & fl & qu & Hsp & Hj & _). by exists wr, fl, qu. Qed.

Lemma comes_step y n o : comes_to y n → worker_step sqlite3_exec y = Some o → ∃ y', o = Done y' ∧ comes_to y' (pred n).
Proof.
  intros (wr & fl & qu & Hsp & Hj & Hl & Hn) Hstep. destruct qu as [|j js].
  { destruct (worker_step_split sqlite3_exec d0 y o wr fl [] Hstep Hj Hsp) as (y' & -> & wr' & fl' & qu' & Hsp' & Hqu).
    destruct (worker_step_frame sqlite3_exec y y' Hstep) as (_ & Ha & _). exists y'. split; [done|].
    exists wr', fl', qu'. rewrite Ha, Hqu by done. rewrite Hqu in Hsp' by done. split_and!; [done|done|by right|cbn; lia]. }
  destruct Hl as [Hl|]; [|done]. pose proof Hsp as (Hadd & Hdisk & Hw). cbn [need length] in Hn.
  destruct y as [b d done w e added]. cbn [y_worker y_added y_bio y_disk] in *. destruct w as [| | |q| |]; try done.
  - destruct Hw as (-> & es & Hok). destruct es as [|x es]; [by pose proof (bo_jobs _ _ _ Hok) as H; inversion H|].
    destruct (pop_holding b x es j js Hok) as (b1 & E & Hx & Hh). simpl in Hstep. rewrite E, bind_Done, decide_False in Hstep by done.
    injection Hstep as <-. eexists. split; [done|]. exists wr, [j], js. split; [|split; [done|split; [by left|]]].
    + split; [done|]. split; [done|]. by exists x, es, j.
    + cbn [y_worker]. destruct js; cbn [need length] in *; lia.
  - destruct (worker_step_split sqlite3_exec d0 (Sys b d done (WNode q) e added) o wr fl (j :: js) Hstep Hj Hsp)
      as (y' & -> & wr' & fl' & qu' & Hsp' & _). exists y'. split; [done|].
    destruct Hw as (x & es & jx & -> & -> & [H1 H2 H3 H4 H5 H6]). assert (job_ok jx = true) as Hjx.
    { rewrite list.Forall_forall in Hj. apply Hj. rewrite Hadd. set_solver. }
    destruct (bio_process_run sqlite3_exec d b x es jx (j :: js) Hjx H1 H2 H3 H4 H5 H6) as (b' & E & Hok & _).
    simpl in Hstep. rewrite E, bind_Done in Hstep. injection Hstep as <-. exists (wr ++ [jx]), [], (j :: js).
    split; [|split; [done|split; [by left|cbn [y_worker need length]; lia]]].
    split; [cbn [y_added]; by rewrite <-app_assoc|]. split; [cbn [y_disk]; by rewrite foldl_snoc, Hdisk|]. split; [done|by exists es].
Qed.

Lemma comes_run n y k : comes_to y k → ∃ y', run_worker n y = Done y' ∧ comes_to y' (k - n).
Proof.
  revert y k. induction n as [|n IH]; intros y k Hy; cbn [run_worker]; [exists y; split; [done|]; by rewrite Nat.sub_0_r|].
  destruct (worker_step sqlite3_exec y) as [o|] eqn:E.
  - destruct (comes_step y k o Hy E) as (y1 & -> & Hy1). rewrite bind_Done. destruct (IH y1 _ Hy1) as (y' & -> & Hy').
    exists y'. split; [done|]. by replace (k - S n)%nat with (pred k - n)%nat by lia.
  - exists y. split; [done|]. destruct Hy as (wr & fl & qu & Hsp & Hj & Hl & Hn). exists wr, fl, qu. split_and!; [done..|].
    destruct qu; [cbn; lia|]. destruct Hl as [Hl|]; [|done]. by destruct y as [? ? ? [] ? ?].
Qed.

(** A schedule with a look at the queue and enough steps. *)
Lemma wait_empty_ends sched y k :
  comes_to y k → (k ≤ sum_list sched)%nat → sched ≠ [] → ∃ y', wait_empty sched y = Done y'.
Proof.
  revert y k. induction sched as [|n sched IH]; intros y k Hy Hk Hne; [done|]. cbn [wait_empty].
  destruct (comes_run n y k Hy) as (y1 & -> & Hy1). rewrite bind_Done.
  destruct (bio_size (y_bio y1) =? 0) eqn:Hz; [by eexists|].
  change (sum_list (n :: sched)) with (n + sum_list sched)%nat in Hk. apply (IH y1 (k - n)%nat Hy1); [lia|].
  intros ->. destruct Hy1 as (wr & fl & qu & Hsp & _ & _ & Hn). change (sum_list []) with 0%nat in Hk. assert (qu = []) as ->.
  { destruct qu; [done|]. cbn [need length] in Hn. lia. }
  rewrite (queued_size sqlite3_exec d0 _ _ _ _ Hsp) in Hz. done.
Qed.

(** ** Waiting that does not end *)

(** The worker is past the signal and before its wait. *)
Definition out_of_loop (w : wphase) : Prop := match w with WLock | WWait | WCheck => True | _ => False end.

Lemma asleep_run n y : out_of_loop (y_worker y) → y_done y = false →
  ∃ y', run_worker n y = Done y' ∧ out_of_loop (y_worker y') ∧ y_done y' = false ∧ y_bio y' = y_bio y ∧ y_disk y' = y_disk y.
Proof.
  revert y. induction n as [|n IH]; intros y Hw Hd; [by exists y|]. cbn [run_worker].
  destruct y as [b d done w e added]. cbn [y_worker y_done] in *. subst done. destruct w; try done; simpl.
  - destruct (IH (Sys b d false WWait e added)) as (y' & ? & ? & ? & ? & ?); [done..|]. by exists y'.
  - by eexists.
  - destruct (IH (Sys b d false WLock e added)) as (y' & ? & ? & ? & ? & ?); [done..|]. by exists y'.
Qed.

Lemma asleep_waits sched y : out_of_loop (y_worker y) → y_done y = false → bio_size (y_bio y) ≠ 0 → wait_empty sched y = OutOfFuel.
Proof.
  revert y. induction sched as [|n sched IH]; intros y Hw Hd Hz; [done|]. cbn [wait_empty].
  destruct (asleep_run n y Hw Hd) as (y' & -> & Hw' & Hd' & Hb & _). rewrite bind_Done, Hb.
  destruct (Z.eqb_spec (bio_size (y_bio y)) 0); [done|]. apply IH; [done..|by rewrite Hb].
Qed.

(** ** The last steps of a thread *)

Lemma worker_run_add n m y : run_worker (n + m) y = y ← run_worker n y; run_worker m y.
Proof.
  revert y. induction n as [|n IH]; intros y; [done|]. cbn [run_worker Nat.add].
  destruct (worker_step sqlite3_exec y) as [[y1| |]|] eqn:E; try done; [by rewrite !bind_Done|]. rewrite bind_Done.
  destruct m; cbn [run_worker]; [done|]. by rewrite E.
Qed.
Lemma ended_run n y : y_worker y = WExit → run_worker n y = Done y.
Proof. intros Hw. destruct n; [done|]. cbn [run_worker]. destruct y as [b d done w e added]. cbn in Hw. by subst. Qed.

(** With [done] set and nothing queued the thread ends in three steps, and the change it
    holds is written. *)
Lemma last_steps y wr fl :
  split_ok sqlite3_exec d0 y wr fl [] → Forall (λ j, job_ok j = true) (y_added y) → y_done y = true → y_worker y ≠ WWait →
  ∃ y', run_worker 3 y = Done y' ∧ y_worker y' = WExit ∧ y_disk y' = foldl (apply_job sqlite3_exec) d0 (y_added y).
Proof.
  intros (Ha & Hd & Hw) Hj Hdn Hne. destruct y as [b d done w e added]. cbn [y_added y_disk y_bio y_worker y_done] in *. subst done.
  assert (∀ b es, bio_ok b es [] → bio_queue_pop b = Done (b, NULL)) as Hpop.
  { intros b1 es [Hq _ Hjs _]. apply Forall2_nil_inv_r in Hjs as ->. exact (bio_queue_pop_run b1 [] Hq). }
  destruct w as [| | |q| |]; try done; try (destruct Hw as (-> & es & Hok); rewrite !app_nil_r in Ha; subst added).
  - eexists. split; [simpl; rewrite (Hpop b es Hok); by simpl|done].
  - eexists. split; [simpl; rewrite (Hpop b es Hok); by simpl|done].
  - destruct Hw as (x & es & jx & -> & -> & [H1 H2 H3 H4 H5 H6]). rewrite app_nil_r in Ha. assert (job_ok jx = true) as Hjx.
    { rewrite list.Forall_forall in Hj. apply Hj. rewrite Ha. set_solver. }
    destruct (bio_process_run sqlite3_exec d b x es jx [] Hjx H1 H2 H3 H4 H5 H6) as (b' & E & Hok & _).
    eexists. split; [simpl; rewrite E, bind_Done; simpl; rewrite (Hpop b' es Hok); by simpl|]. split; [done|]. cbn [y_disk]. by rewrite Ha, foldl_snoc, Hd.
  - eexists. split; [by simpl|done].
  - eexists. split; [by simpl|done].
Qed.

Lemma join_run n y wr fl :
  split_ok sqlite3_exec d0 y wr fl [] → Forall (λ j, job_ok j = true) (y_added y) → y_done y = true → y_worker y ≠ WWait →
  (join_worker n y = OutOfFuel ∧ (n < 3)%nat) ∨
  ∃ y', join_worker n y = Done y' ∧ y_worker y' = WExit ∧ y_disk y' = foldl (apply_job sqlite3_exec) d0 (y_added y).
Proof.
  intros Hsp Hj Hd Hw. destruct (last_steps y wr fl Hsp Hj Hd Hw) as (y3 & E3 & Hx & Hdisk). unfold join_worker.
  destruct (decide (n < 3)%nat) as [Hn|Hn].
  - assert (work_ok y) as Hok by (by exists wr, fl, []).
    destruct (run_worker_ok n y Hok) as (y1 & E1 & _). rewrite E1, bind_Done. destruct (y_worker y1) eqn:Hw1; [by left..|].
    right. exists y1. split_and!; [done..|]. replace 3%nat with (n + (3 - n))%nat in E3 by lia.
    rewrite worker_run_add, E1, bind_Done, ended_run in E3 by done. by injection E3 as ->.
  - right. exists y3. replace n with (3 + (n - 3))%nat by lia. rewrite worker_run_add, E3, bind_Done, ended_run, bind_Done, Hx by done. done.
Qed.

(** ** Waiting and joining, without a record of what was queued *)

Lemma seen_Done e added (o : outcome (sys DB)) z : (y ← o; Done (as_seen e added y)) = Done z → ∃ y, o = Done y ∧ z = as_seen e added y.
Proof. destruct o as [y| |]; [|done..]. intros [= <-]. by exists y. Qed.
Lemma seen_OutOfFuel e added (o : outcome (sys DB)) : (y ← o; Done (as_seen e added y)) = OutOfFuel → o = OutOfFuel.
Proof. by destruct o. Qed.

Lemma wait_join sched n y added :
  work_ok (as_seen EIdle added y) → Z.of_nat (length added) < 2 ^ 63 →
  wait_empty sched y = OutOfFuel ∨
  ∃ y1, wait_empty sched y = Done y1 ∧
    let stop := Sys (y_bio y1) (y_disk y1) true (bg_process_signal (y_worker y1)) EIdle [] in
    (join_worker n stop = OutOfFuel ∧ (n < 3)%nat) ∨
    ∃ y2, join_worker n stop = Done y2 ∧ y_worker y2 = WExit ∧ y_disk y2 = foldl (apply_job sqlite3_exec) d0 added.
Proof.
  intros Hy Hb. destruct (wait_empty_ok sched _ Hy) as [E|(z & E & (wr & fl & qu & Hsp & Hj) & Hz & Ha & _)]; rewrite wait_empty_seen in E.
  { left. by eapply seen_OutOfFuel. }
  right. apply seen_Done in E as (y1 & E & ->). exists y1. split; [done|]. cbn [as_seen y_added y_bio] in Ha, Hz, Hj.
  assert (qu = []) as -> by (by eapply (no_size (as_seen EIdle added y1))).
  destruct (split_engine sqlite3_exec d0 _ _ _ _ _ EIdle _ _ _ _ Hsp true) as [_ Hsp2].
  destruct (join_run n _ wr fl Hsp2 Hj eq_refl) as [[E2 Hn]|(z & E2 & Hw & Hd)]; [by destruct (y_worker y1)|..];
    change (Sys (y_bio y1) (y_disk y1) true (bg_process_signal (y_worker y1)) EIdle added)
      with (as_seen EIdle added (Sys (y_bio y1) (y_disk y1) true (bg_process_signal (y_worker y1)) EIdle [])) in E2;
    rewrite join_worker_seen in E2.
  - left. split; [by eapply seen_OutOfFuel|done].
  - right. apply seen_Done in E2 as (y2 & E2 & ->). by exists y2.
Qed.

(** A worker that is in its loop, or has nothing to write, with steps enough. *)
Lemma wait_ends sched y added :
  work_ok (as_seen EIdle added y) → Z.of_nat (length added) < 2 ^ 63 → in_loop (y_worker y) ∨ bio_size (y_bio y) = 0 →
  sched ≠ [] → (2 * length added ≤ sum_list sched)%nat → ∃ y1, wait_empty sched y = Done y1.
Proof.
  intros (wr & fl & qu & Hsp & Hj) Hb Hw Hne Hs.
  destruct (wait_empty_ends sched (as_seen EIdle added y) (2 * length added)) as (z & E); [|done..|].
  - exists wr, fl, qu. split; [done|]. split; [done|]. split; [destruct Hw as [?|Hz]; [by left|right; by eapply no_size]|].
    destruct Hsp as (Ha & _ & Hw'). cbn [as_seen y_added y_worker] in *. destruct qu as [|j qu]; [cbn; lia|].
    rewrite Ha, !length_app. cbn [need length]. destruct (y_worker y); cbn [length]; try lia.
    destruct Hw' as (? & ? & ? & _ & -> & _). cbn [length]. lia.
  - rewrite wait_empty_seen in E. apply seen_Done in E as (y1 & E & _). by exists y1.
Qed.
End Waiting.
