(* ===== verification/Life.v ===== *)
(** * Starting and stopping the engine: [xfiredb_se_init] and [xfiredb_se_exit] of [xfiredb.c]

    The engine owns a log, the table of background jobs, the queue with its worker and the
    disk; [bio_init] and [bio_exit] of [storage/bio.c] tie them together, and
    [ext/xfiredb-serv/storage_engine.c] starts it from the settings of the Ruby program.
    The worker's thread is at a point of its loop, as in [Worker]; what it does while the
    engine waits for it, in [bio_sync] and in the join of [bg_process_stop], is given by a
    schedule, as in [Waiting]. *)
From S2P Require Import Prelude Murmur Dict DictRehash DictSpec DictSections DictOps DictIter Jobs Log Disk MiniSql Bio BioSpec Dump Worker Waiting.
Local Open Scope Z_scope.

(** ** State *)

(** [struct config]; the names are addresses, or [NULL]. *)
Record config := Config { cf_log_file : loc; cf_err_log_file : loc; cf_db_file : loc; cf_persist_level : Z }.

(** [config], [load_state], the log, [job_db], [bio_q], [disk_db] ([None] when they were
    not allocated or are released) and [wake_up_counter]; the point the worker's thread is
    at ([WExit] when there is none); the names of the files; and, no part of the program, the database handles that were closed and the threads joined. *)
Record process (DB : Type) := Process {
  p_config : config;
  p_load : bool;
  p_log : logger;
  p_jobs : option bg;
  p_queue : option bio;
  p_disk : option (disk DB);
  p_worker : wphase;
  p_wake : Z;
  p_strs : gmap loc string;
  p_brk : loc;
  p_closed : list DB;
  p_joined : list Z }.
Arguments Process {DB} _ _ _ _ _ _ _ _ _ _ _ _.
Arguments p_config {DB} _.
Arguments p_load {DB} _.
Arguments p_log {DB} _.
Arguments p_jobs {DB} _.
Arguments p_queue {DB} _.
Arguments p_disk {DB} _.
Arguments p_worker {DB} _.
Arguments p_wake {DB} _.
Arguments p_strs {DB} _.
Arguments p_brk {DB} _.
Arguments p_closed {DB} _.
Arguments p_joined {DB} _.

(** What the system gives to [bg_processes_init] and [bg_process_create]: the stack size of
    the default attributes, the addresses, the clock and the thread. *)
Record surroundings := Surroundings {
  su_stack : Z; su_handle : Z; su_arg : Z; su_job : loc; su_entry : loc; su_now : Z; su_thread : option Z }.

Section Life.
Context {DB : Type} (sqlite3_exec : DB → string → DB * Z * list cells_t) (sqlite3_open : string → option DB).
Context (can_open : string → bool) (load64 : loc → Z) (g : dict_globals).
Implicit Types (p : process DB).

Definition put_log (s : logger) p : process DB :=
  Process (p_config p) (p_load p) s (p_jobs p) (p_queue p) (p_disk p) (p_worker p) (p_wake p) (p_strs p) (p_brk p) (p_closed p) (p_joined p).
Definition put_jobs (s : option bg) p : process DB :=
  Process (p_config p) (p_load p) (p_log p) s (p_queue p) (p_disk p) (p_worker p) (p_wake p) (p_strs p) (p_brk p) (p_closed p) (p_joined p).
Definition put_disks (q : option bio) (d : option (disk DB)) p : process DB :=
  Process (p_config p) (p_load p) (p_log p) (p_jobs p) q d (p_worker p) (p_wake p) (p_strs p) (p_brk p) (p_closed p) (p_joined p).
(** The queue, the disk and the thread after some steps of the worker. *)
Definition put_work (y : sys DB) p : process DB :=
  Process (p_config p) (p_load p) (p_log p) (p_jobs p) (Some (y_bio y)) (Some (y_disk y)) (y_worker y) (p_wake p) (p_strs p) (p_brk p)
    (p_closed p) (p_joined p).
Definition put_worker (w : wphase) p : process DB :=
  Process (p_config p) (p_load p) (p_log p) (p_jobs p) (p_queue p) (p_disk p) w (p_wake p) (p_strs p) (p_brk p) (p_closed p) (p_joined p).
Definition put_strs (m : gmap loc string) p : process DB :=
  Process (p_config p) (p_load p) (p_log p) (p_jobs p) (p_queue p) (p_disk p) (p_worker p) (p_wake p) m (p_brk p) (p_closed p) (p_joined p).

(** ** Settings *)

(** [xfiredb_sprintf(&name, "%s", t)], [xfiredb_free(name)], and the text of a name. *)
Definition new_name (t : string) p : process DB * loc :=
  (Process (p_config p) (p_load p) (p_log p) (p_jobs p) (p_queue p) (p_disk p) (p_worker p) (p_wake p)
     (<[p_brk p := t]> (p_strs p)) (p_brk p + 1) (p_closed p) (p_joined p), p_brk p).
Definition free_name (a : loc) p : outcome (process DB) :=
  if a =? NULL then Done p else _ ← deref (p_strs p !! a); Done (put_strs (delete a (p_strs p)) p).
Definition name_text (a : loc) p : outcome (option string) :=
  if a =? NULL then Done None else t ← deref (p_strs p !! a); Done (Some t).

Definition xfiredb_get_config p : config := p_config p.
Definition xfiredb_set_loadstate (state : bool) p : process DB :=
  Process (p_config p) state (p_log p) (p_jobs p) (p_queue p) (p_disk p) (p_worker p) (p_wake p) (p_strs p) (p_brk p) (p_closed p) (p_joined p).
Definition xfiredb_loadstate p : bool := p_load p.
(** [memcpy] to [config]. *)
Definition set_config (conf : config) p : process DB :=
  Process conf (p_load p) (p_log p) (p_jobs p) (p_queue p) (p_disk p) (p_worker p) (p_wake p) (p_strs p) (p_brk p) (p_closed p) (p_joined p).

(** ** Starting *)

Definition BIO_WORKER_NAME : string := "bio-worker".

(** [bio_init]; [None] when the process exits because the disk cannot be created. *)
Definition bio_init (su : surroundings) p : outcome (option (process DB)) :=
  let q := set_wake (p_wake p) 0 Bio.bio_init in
  db_file ← name_text (cf_db_file (xfiredb_get_config p)) p;
  db_file ← deref db_file;
  match disk_create sqlite3_exec sqlite3_open db_file with
  | None => Done None
  | Some d =>
      s ← deref (p_jobs p);
      '(s, job) ← bg_process_create load64 g BIO_WORKER_NAME (su_handle su) (su_arg su) (su_job su) (su_entry su) (su_now su) (su_thread su) s;
      let p := put_worker (match job with Some _ => WLock | None => WExit end) p in
      Done (Some (put_disks (Some q) (Some d) (put_jobs (Some s) p)))
  end.

(** [xfiredb_log_init] with the names of the configuration. *)
Definition start_log p : outcome (process DB) :=
  out ← name_text (cf_log_file (p_config p)) p;
  err ← name_text (cf_err_log_file (p_config p)) p;
  s ← xfiredb_log_init can_open out err (p_log p);
  Done (put_log s p).
Definition start_jobs (su : surroundings) p : outcome (process DB) :=
  '(s, _) ← bg_processes_init 23 (su_stack su);
  Done (put_jobs (Some s) p).

Definition xfiredb_se_init_silent (conf : config) (su : surroundings) p : outcome (option (process DB)) :=
  p ← start_log (set_config conf (xfiredb_set_loadstate false p));
  p ← start_jobs su p;
  bio_init su p.

Definition LOG_INIT : string := "init".
Definition say (msg : string) p : outcome (process DB) :=
  s ← xfiredb_log_console LOG_INIT (msg +:+ newline) [] (p_log p); Done (put_log s p).

Definition xfiredb_se_init (conf : config) (su : surroundings) p : outcome (option (process DB)) :=
  p ← start_log (set_config conf (xfiredb_set_loadstate false p));
  p ← say "Initialising storage engine" p;
  p ← say "Initialising background processes" p;
  p ← start_jobs su p;
  p ← say "Initialising background I/O" p;
  bio_init su p.

(** The [init] of the Ruby class [Engine]. *)
Definition rb_se_init (log_file err_log db_file : string) (pers_lvl : Z) (silent : bool) (su : surroundings) p
    : outcome (option (process DB)) :=
  let '(p, log_file) := new_name log_file p in
  let '(p, err_log) := new_name err_log p in
  let '(p, db_file) := new_name db_file p in
  let conf := Config log_file err_log db_file pers_lvl in
  if silent then xfiredb_se_init_silent conf su p else xfiredb_se_init conf su p.

(** ** Stopping *)

(** [bio_sync]: one signal, which wakes the worker if it waits at this moment; then the
    loop that looks at the length of the queue and sleeps, with the steps that the worker
    takes before each look.  [data] and [tmp] are uninitialised locals. *)
Definition bio_sync (schedule : list nat) (data tmp : Z) p : outcome (process DB) :=
  s ← deref (p_jobs p);
  '(s, rv) ← Jobs.bg_process_signal BIO_WORKER_NAME data tmp s;
  let w := if rv =? - XFIREDB_OK then Worker.bg_process_signal (p_worker p) else p_worker p in
  q ← deref (p_queue p);
  d ← deref (p_disk p);
  y ← wait_empty sqlite3_exec schedule (Sys q d false w EIdle []);
  Done (put_work y (put_jobs (Some s) p)).

(** [bg_process_stop] sets [done], signals the worker and joins its thread, which takes at
    most [steps] steps more.  Then the queue is released, and [disk_db] is closed. *)
Definition bio_exit (steps : nat) (data : Z) p : outcome (process DB) :=
  s ← deref (p_jobs p);
  '(s, rv) ← bg_process_stop BIO_WORKER_NAME data s;
  q ← deref (p_queue p);
  d ← deref (p_disk p);
  y ← (if rv =? - XFIREDB_OK then join_worker sqlite3_exec steps (Sys q d true (Worker.bg_process_signal (p_worker p)) EIdle [])
       else Done (Sys q d false (p_worker p) EIdle []));
  Done (Process (p_config p) (p_load p) (p_log p) (Some s) None None (y_worker y) (b_counter (y_bio y)) (p_strs p) (p_brk p)
    (p_closed p ++ disk_destroy (Some (y_disk y))) (p_joined p)).

(** [bg_processes_exit], with [dict_free]. *)
Definition stop_jobs (fuel : nat) (data : Z) p : outcome (process DB) :=
  s ← deref (p_jobs p);
  s ← bg_processes_exit fuel data s;
  Done (Process (p_config p) (p_load p) (p_log p) None (p_queue p) (p_disk p) (p_worker p) (p_wake p) (p_strs p) (p_brk p)
    (p_closed p) (p_joined p ++ bg_joined s)).

Definition stop_log p : outcome (process DB) := s ← xfiredb_log_exit (p_log p); Done (put_log s p).

(** [fuel]: for the join and for the loop over the jobs. *)
Definition xfiredb_se_exit (fuel : nat) (schedule : list nat) (data tmp : Z) p : outcome (process DB) :=
  p ← bio_sync schedule data tmp p;
  p ← bio_exit fuel data p;
  p ← stop_jobs fuel data p;
  p ← stop_log p;
  let p := xfiredb_set_loadstate false p in
  let conf := p_config p in
  p ← free_name (cf_log_file conf) p;
  p ← free_name (cf_err_log_file conf) p;
  free_name (cf_db_file conf) p.

(** ** The disk *)

Definition put_disk_db (d : disk DB) p : process DB := put_disks (p_queue p) (Some d) p.

Definition xfiredb_disk_clear p : outcome (process DB) :=
  d ← deref (p_disk p); Done (put_disk_db (disk_clear sqlite3_exec d) p).
(** [size0]: what an uninitialised local holds. *)
Definition xfiredb_disk_size (size0 : Z) p : outcome (process DB * Z) :=
  d ← deref (p_disk p); let '(d, n) := disk_size sqlite3_exec d size0 in Done (put_disk_db d p, n).

(** The rows that the hook is called with. *)
Definition xfiredb_raw_load p : outcome (process DB * list cells_t) :=
  p ← say "Loading data from disk" p;
  d ← deref (p_disk p);
  let '(d, rows, _) := disk_load sqlite3_exec d in Done (put_disk_db d p, rows).
Definition xfiredb_load_key (key : string) p : outcome (process DB * list cells_t) :=
  d ← deref (p_disk p);
  let '(d, rows, _) := disk_load_key sqlite3_exec d key in Done (put_disk_db d p, rows).

(** [load_hook] of [rb_se_load] and [rb_se_load_key]: an array per row, of its key, its second
    key, its type and its data; the arrays are pushed in the order of the rows. *)
Fixpoint load_hook (ary : list row) (cells : cells_t) : outcome (list row) :=
  match cells with
  | [] => Done ary
  | key :: hash :: type :: data :: cells => load_hook (ary ++ [Row key hash type data]) cells
  | _ => Stuck
  end.
Fixpoint load_rows (ary : list row) (rows : list cells_t) : outcome (list row) :=
  match rows with [] => Done ary | cells :: rows => ary ← load_hook ary cells; load_rows ary rows end.

Definition rb_se_load p : outcome (process DB * list row) :=
  '(p, rows) ← xfiredb_raw_load p; ary ← load_rows [] rows; Done (p, ary).
Definition rb_se_load_key (key : string) p : outcome (process DB * list row) :=
  '(p, rows) ← xfiredb_load_key key p; ary ← load_rows [] rows; Done (p, ary).

Definition xfiredb_se_save (schedule : list nat) (data tmp : Z) p : outcome (process DB) := bio_sync schedule data tmp p.
End Life.

(** ** One life of the engine *)

(** Nothing is running; a log can be started. *)
Record idle {DB} (p : process DB) : Prop := {
  id_jobs : p_jobs p = None;
  id_queue : p_queue p = None;
  id_disk : p_disk p = None;
  id_console : ∃ t d, stream_at STDOUT CONSOLE t d (p_log p);
  id_next : 2 < lg_next (p_log p);
  id_brk : 0 < p_brk p;
  id_strs : ∀ a, is_Some (p_strs p !! a) → a < p_brk p }.

(** The messages of a start that is not silent. *)
Definition start_calls (silent : bool) : list log_call :=
  if silent then []
  else (λ msg, LogConsole LOG_INIT (msg +:+ newline) []) <$>
    ["Initialising storage engine"; "Initialising background processes"; "Initialising background I/O"].

Section Proofs.
Context {DB : Type} (sqlite3_exec : DB → string → DB * Z * list cells_t) (sqlite3_open : string → option DB).
Context (can_open : string → bool) (load64 : loc → Z) (g : dict_globals).
Context (out err db_file : string) (db : DB) (su : surroundings) (t : Z).
Context (Hout : can_open out = true) (Herr : can_open err = true) (Hnames : NoDup [out; err; CONSOLE]).
Context (Hopen : sqlite3_open db_file = Some db).
Context (Hstack : 0 ≤ su_stack su < 2 ^ 63) (Hjob : su_job su ≠ NULL) (Hthread : su_thread su = Some t).
Implicit Types (p : process DB).

(** *** The table of jobs *)

Definition worker_table : gmap string loc := {[BIO_WORKER_NAME := su_job su]}.

(** The table with the worker in it, and none of its threads joined. *)
Definition has_worker (s : bg) : Prop :=
  bg_ok s worker_table ∧ bg_joined s = [] ∧ ∃ j, bg_jobs s !! su_job su = Some j ∧ bj_tp j = Some t.

Lemma create_worker s : bg_ok s ∅ → bg_joined s = [] → entries (bg_db s) = [] →
  ∃ s' job, bg_process_create load64 g BIO_WORKER_NAME (su_handle su) (su_arg su) (su_job su) (su_entry su) (su_now su) (su_thread su) s = Done (s', Some job) ∧
    has_worker s'.
Proof.
  intros Hok Hj He. rewrite Hthread. assert (bg_jobs s !! su_job su = None) as Hn by (by rewrite (no_jobs s Hok)).
  destruct (create_ok load64 g BIO_WORKER_NAME (su_handle su) (su_arg su) (su_job su) (su_entry su) (su_now su) t s ∅) as (s' & E & Hok');
    [done..|by rewrite He; apply not_elem_of_nil|done|done|].
  destruct (create_run load64 g BIO_WORKER_NAME (su_handle su) (su_arg su) (su_job su) (su_entry su) (su_now su) (Some t) s ∅) as (d' & E' & _);
    [done..|by rewrite He; apply not_elem_of_nil|done|].
  exists s', (su_job su). split; [done|]. rewrite E' in E. injection E as <-. split; [done|]. cbn. split; [done|].
  eexists. by rewrite lookup_insert_eq.
Qed.

Lemma signal_worker s data tmp : has_worker s →
  ∃ s', Jobs.bg_process_signal BIO_WORKER_NAME data tmp s = Done (s', - XFIREDB_OK) ∧ has_worker s'.
Proof.
  intros (Hok & Hj & Hw). destruct (signal_run BIO_WORKER_NAME data tmp s _ Hok) as (s' & E & Hok' & _ & Hj' & Hjobs).
  exists s'. split; [exact E|]. split; [done|]. by rewrite Hj', Hjobs.
Qed.

Lemma stop_worker s data : has_worker s →
  ∃ s', bg_process_stop BIO_WORKER_NAME data s = Done (s', - XFIREDB_OK) ∧ bg_ok s' ∅ ∧ bg_joined s' = [t].
Proof.
  intros (Hok & Hj & j & Hw & Ht). destruct (bg_stop_run BIO_WORKER_NAME data s _ Hok) as (s' & E & Hok' & Hj').
  exists s'. split; [exact E|]. split.
  - assert (∅ = delete BIO_WORKER_NAME worker_table) as ->; [|done]. symmetry. apply delete_singleton_eq.
  - unfold worker_table in Hj'. rewrite Hj', lookup_singleton_eq, Hj. unfold threads_of. cbn. by rewrite Hw; cbn; rewrite Ht.
Qed.

(** An empty table. *)
Lemma exit_no_jobs s data fuel : bg_ok s ∅ → (0 < fuel)%nat →
  ∃ s', bg_processes_exit fuel data s = Done s' ∧ bg_joined s' = bg_joined s.
Proof.
  intros Hok Hf. pose proof Hok as [B1 B2 B3 B4]. unfold bg_processes_exit, dict_get_iterator.
  destruct (dict_iterator_next_ok (bg_db s) B1 dict_create_iterator (entries (bg_db s))) as (it & Hnext & _);
    [by apply it_rest_start|]. rewrite Hnext, bind_Done.
  destruct (entries (bg_db s)) as [|e l] eqn:Hent.
  - destruct fuel as [|fuel]; [lia|]. eexists. by split; [done|].
  - pose proof (table_entry s ∅ e Hok ltac:(rewrite Hent; by left)) as H. by rewrite lookup_empty in H.
Qed.

Lemma exit_no_fuel s data : bg_ok s ∅ → bg_processes_exit 0 data s = OutOfFuel.
Proof.
  intros [B1 _ _ _]. unfold bg_processes_exit, dict_get_iterator.
  destruct (dict_iterator_next_ok (bg_db s) B1 dict_create_iterator (entries (bg_db s))) as (it & Hnext & _); [by apply it_rest_start|].
  by rewrite Hnext, bind_Done.
Qed.

(** *** Starting *)

Let o := λ p, lg_next (p_log p) + 1.
Let e := λ p, lg_next (p_log p).

(** The engine runs: it was started from [p], and has logged [cs]. *)
Record running (p p1 : process DB) (cs : list log_call) : Prop := {
  ru_config : p_config p1 = Config (p_brk p) (p_brk p + 1) (p_brk p + 1 + 1) (cf_persist_level (p_config p1));
  ru_strs : p_strs p1 = <[p_brk p + 1 + 1 := db_file]> (<[p_brk p + 1 := err]> (<[p_brk p := out]> (p_strs p)));
  ru_brk : p_brk p1 = p_brk p + 1 + 1 + 1;
  ru_closed : p_closed p1 = p_closed p;
  ru_joined : p_joined p1 = p_joined p;
  ru_jobs : ∃ s, p_jobs p1 = Some s ∧ has_worker s;
  ru_log : ∃ tc, logging out err (o p) (e p) (p_log p1) (lines to_out cs) (lines (negb ∘ to_out) cs) tc }.

Lemma apart p : idle p → o p ≠ STDOUT ∧ o p ≠ STDERR ∧ e p ≠ STDOUT ∧ e p ≠ STDERR ∧ o p ≠ e p.
Proof. intros Hi. pose proof (id_next _ Hi). unfold o, e, STDOUT, STDERR. lia. Qed.

(** A message at the start is one more call. *)
Lemma say_run p p1 cs msg : idle p → printf (msg +:+ newline) [] = Done (msg +:+ newline) →
  (∃ tc, logging out err (o p) (e p) (p_log p1) (lines to_out cs) (lines (negb ∘ to_out) cs) tc) →
  ∃ s, say msg p1 = Done (put_log s p1) ∧
    ∃ tc, logging out err (o p) (e p) s (lines to_out (cs ++ [LogConsole LOG_INIT (msg +:+ newline) []]))
      (lines (negb ∘ to_out) (cs ++ [LogConsole LOG_INIT (msg +:+ newline) []])) tc.
Proof.
  intros Hi Hmsg (tc & Hl). set (c := LogConsole LOG_INIT (msg +:+ newline) []).
  assert (line c = Done ("[" +:+ LOG_INIT +:+ "]: " +:+ (msg +:+ newline))) as Hc by (unfold line, c; by rewrite Hmsg).
  destruct (log_step_run out err (o p) (e p) (apart p Hi) Hnames c _ _ _ _ _ Hl Hc) as (s & E & H).
  exists s. split.
  { unfold say. change (xfiredb_log_console LOG_INIT (msg +:+ newline) [] (p_log p1)) with (log_step c (p_log p1)). by rewrite E. }
  eexists. rewrite !lines_app. cbn [lines]. rewrite Hc. cbn [to_out to_console c negb compose].
  unfold c in H. cbn [to_out to_console] in H. rewrite !string_app_nil in *. exact H.
Qed.

(** The state in which the log is opened. *)
Definition configured (lvl : Z) p : process DB :=
  let '(p, a) := new_name out p in let '(p, b) := new_name err p in let '(p, c) := new_name db_file p in
  set_config (Config a b c lvl) (xfiredb_set_loadstate false p).

Lemma configured_names lvl p : idle p →
  name_text (cf_log_file (p_config (configured lvl p))) (configured lvl p) = Done (Some out) ∧
  name_text (cf_err_log_file (p_config (configured lvl p))) (configured lvl p) = Done (Some err) ∧
  name_text (cf_db_file (p_config (configured lvl p))) (configured lvl p) = Done (Some db_file).
Proof.
  intros Hi. pose proof (id_brk _ Hi). unfold name_text. cbn.
  rewrite !(proj2 (Z.eqb_neq _ NULL)) by (unfold NULL; lia).
  rewrite lookup_insert_eq, !lookup_insert_ne, !lookup_insert_eq by lia. rewrite lookup_insert_ne, lookup_insert_eq by lia. done.
Qed.

Lemma start_log_run lvl p : idle p → ∃ s, start_log can_open (configured lvl p) = Done (put_log s (configured lvl p)) ∧
  ∃ tc, logging out err (o p) (e p) s "" "" tc.
Proof.
  intros Hi. destruct (configured_names lvl p Hi) as (E1 & E2 & _). destruct (id_console _ Hi) as (tc & d & Hc).
  destruct (log_init_run can_open out err Hout Herr Hnames tc d (p_log p) Hc (id_next _ Hi)) as (s & E & H).
  exists s. split; [|by exists tc]. unfold start_log. rewrite E1, bind_Done, E2, bind_Done.
  change (p_log (configured lvl p)) with (p_log p). by rewrite E.
Qed.

Lemma stack_ok stack : 0 ≤ stack < 2 ^ 63 → ∃ n, stack_loop 23 (if stack =? 0 then 1 else stack) = Done n.
Proof.
  intros Hs. assert ((if stack =? 0 then 1 else stack) = Z.max 1 stack) as ->.
  { destruct (Z.eqb_spec stack 0) as [->|]; [done|lia]. }
  destruct (stack_loop_run 22 (Z.max 1 stack) 23) as (i & -> & _); [lia| |lia|by eexists].
  change (2 ^ Z.of_nat 22) with 4194304. unfold XFIREDB_STACK_SIZE. lia.
Qed.

Lemma start_jobs_run p : ∃ s, start_jobs su p = Done (put_jobs (Some s) p) ∧ bg_ok s ∅ ∧ bg_joined s = [] ∧ entries (bg_db s) = [].
Proof.
  unfold start_jobs, bg_processes_init. pose proof (stack_ok (su_stack su) Hstack) as (stack & ->). rewrite bind_Done.
  eexists. split; [done|]. split; [split; [apply dict_init_ok|done..]|]. by split.
Qed.

Lemma bio_init_run p s :
  p_jobs p = Some s → bg_ok s ∅ → bg_joined s = [] → entries (bg_db s) = [] →
  name_text (cf_db_file (p_config p)) p = Done (Some db_file) →
  ∃ d s', bio_init sqlite3_exec sqlite3_open load64 g su p =
      Done (Some (put_disks (Some (set_wake (p_wake p) 0 Bio.bio_init)) (Some d) (put_jobs (Some s') (put_worker WLock p)))) ∧
    disk_create sqlite3_exec sqlite3_open db_file = Some d ∧ has_worker s'.
Proof.
  intros Hs Hok Hj He Hn. destruct (create_worker s Hok Hj He) as (s' & r & E & Hw). unfold bio_init, xfiredb_get_config. rewrite Hn, bind_Done. cbn [deref].
  assert (∃ d, disk_create sqlite3_exec sqlite3_open db_file = Some d) as [d Hd] by (unfold disk_create; rewrite Hopen; by eexists).
  exists d, s'. rewrite bind_Done, Hd, Hs. cbn [deref]. by rewrite bind_Done, E.
Qed.

(** While the engine starts. *)
Definition starting lvl p (s : logger) (j : option bg) : process DB := put_jobs j (put_log s (configured lvl p)).

Definition started lvl silent p (p1 : process DB) : Prop :=
  ∃ d, running p p1 (start_calls silent) ∧ p_queue p1 = Some (set_wake (p_wake p) 0 Bio.bio_init) ∧ p_disk p1 = Some d ∧
    disk_create sqlite3_exec sqlite3_open db_file = Some d ∧ p_load p1 = false ∧ p_worker p1 = WLock ∧ cf_persist_level (p_config p1) = lvl.

Lemma start_ends lvl silent p s j : idle p → bg_ok j ∅ → bg_joined j = [] → entries (bg_db j) = [] →
  (∃ tc, logging out err (o p) (e p) s (lines to_out (start_calls silent)) (lines (negb ∘ to_out) (start_calls silent)) tc) →
  ∃ p1, bio_init sqlite3_exec sqlite3_open load64 g su (starting lvl p s (Some j)) = Done (Some p1) ∧ started lvl silent p p1.
Proof.
  intros Hi Hok Hj He Hl. destruct (configured_names lvl p Hi) as (_ & _ & Hn).
  destruct (bio_init_run (starting lvl p s (Some j)) j eq_refl Hok Hj He Hn) as (d & j' & E & Hd & Hw).
  eexists. split; [exact E|]. exists d. split; [|by split_and!]. split; [done..| |done]. by exists j'.
Qed.

Lemma se_init_run lvl silent p : idle p →
  ∃ p1, rb_se_init sqlite3_exec sqlite3_open can_open load64 g out err db_file lvl silent su p = Done (Some p1) ∧ started lvl silent p p1.
Proof.
  intros Hi. destruct (start_log_run lvl p Hi) as (s & E1 & Hl). destruct silent.
  - destruct (start_jobs_run (starting lvl p s (p_jobs p))) as (j & Ej & Hok & Hj & He).
    destruct (start_ends lvl true p s j Hi Hok Hj He Hl) as (p1 & E & H). exists p1. split; [|done].
    transitivity (p ← start_log can_open (configured lvl p); p ← start_jobs su p; bio_init sqlite3_exec sqlite3_open load64 g su p); [done|].
    rewrite E1, bind_Done. change (put_log s (configured lvl p)) with (starting lvl p s (p_jobs p)). by rewrite Ej, bind_Done.
  - set (say_all := λ p, p ← say "Initialising storage engine" p; p ← say "Initialising background processes" p; p ← start_jobs su p;
      p ← say "Initialising background I/O" p; bio_init sqlite3_exec sqlite3_open load64 g su p).
    destruct (say_run p (starting lvl p s (p_jobs p)) [] "Initialising storage engine" Hi eq_refl Hl) as (s1 & Ea & H1).
    destruct (say_run p (starting lvl p s1 (p_jobs p)) _ "Initialising background processes" Hi eq_refl H1) as (s2 & Eb & H2).
    destruct (start_jobs_run (starting lvl p s2 (p_jobs p))) as (j & Ej & Hok & Hj & He).
    destruct (say_run p (starting lvl p s2 (Some j)) _ "Initialising background I/O" Hi eq_refl H2) as (s3 & Ec & H3).
    destruct (start_ends lvl false p s3 j Hi Hok Hj He H3) as (p1 & E & H). exists p1. split; [|done].
    transitivity (p ← start_log can_open (configured lvl p); say_all p); [done|].
    rewrite E1, bind_Done. unfold say_all.
    change (put_log s (configured lvl p)) with (starting lvl p s (p_jobs p)). rewrite Ea, bind_Done.
    change (put_log s1 _) with (starting lvl p s1 (p_jobs p)). rewrite Eb, bind_Done.
    change (put_log s2 _) with (starting lvl p s2 (p_jobs p)). rewrite Ej, bind_Done.
    change (put_jobs (Some j) _) with (starting lvl p s2 (Some j)). by rewrite Ec, bind_Done.
Qed.

(** *** Stopping *)

(** The engine at work: it has queued changes, of which the worker has written some, logged
    messages and set its load state. *)
Definition at_work (load : bool) (s : logger) (y : sys DB) p1 : process DB :=
  Process (p_config p1) load s (p_jobs p1) (Some (y_bio y)) (Some (y_disk y)) (y_worker y) (p_wake p1) (p_strs p1) (p_brk p1) (p_closed p1) (p_joined p1).

(** The worker after the signal of [bio_sync]. *)
Definition woken (y : sys DB) : sys DB := Sys (y_bio y) (y_disk y) false (Worker.bg_process_signal (y_worker y)) EIdle [].

Lemma bio_sync_run schedule data tmp load s y p1 j : p_jobs p1 = Some j → has_worker j →
  ∃ j', bio_sync sqlite3_exec schedule data tmp (at_work load s y p1) =
      (z ← wait_empty sqlite3_exec schedule (woken y); Done (put_work z (put_jobs (Some j') (at_work load s y p1)))) ∧ has_worker j'.
Proof.
  intros Hj Hw. destruct (signal_worker j data tmp Hw) as (j' & E & Hw'). exists j'. split; [|done].
  unfold bio_sync. cbn [at_work p_jobs p_queue p_disk p_worker]. rewrite Hj. cbn [deref]. rewrite bind_Done, E, bind_Done. cbn [deref].
  by rewrite !bind_Done.
Qed.

(** What the worker has to do when the engine is between two calls. *)
Lemma at_rest lvl q d y :
  0 ≤ lvl < 3 → q = set_wake (b_counter q) 0 Bio.bio_init → rtc (step sqlite3_exec lvl) (Sys q d false WLock EIdle []) y → y_engine y = EIdle →
  work_ok sqlite3_exec d (as_seen EIdle (y_added y) (woken y)).
Proof.
  intros Hl Hq Hr He. assert (sys_ok sqlite3_exec d (Sys q d false WLock EIdle [])) as H0.
  { exists [], [], []. split; [|by split_and!]. split; [done|]. split; [done|]. split; [done|]. exists []. cbn [y_bio]. rewrite Hq.
    destruct (proj1 bio_init_ok) as [[? ? ? ? ? ? ?] [? ? ?] ? ?]. by split. }
  destruct (sys_ok_steps sqlite3_exec lvl Hl d _ y Hr H0) as (wr & fl & qu & Hsp & Hj & _). destruct y as [b d' dn w en added]. cbn in He. subst en.
  exists wr, fl, qu. split; [|done]. by destruct (split_engine sqlite3_exec d _ _ _ _ _ EIdle _ _ _ _ Hsp false) as [_ H].
Qed.

Lemma free_names p p1 : idle p → p_strs p1 = <[p_brk p + 1 + 1 := db_file]> (<[p_brk p + 1 := err]> (<[p_brk p := out]> (p_strs p))) →
  (p2 ← free_name (p_brk p) p1; p2 ← free_name (p_brk p + 1) p2; free_name (p_brk p + 1 + 1) p2) = Done (put_strs (p_strs p) p1).
Proof.
  intros Hi Hs. pose proof (id_brk _ Hi) as Hb. unfold free_name.
  assert (∀ a, p_brk p ≤ a → p_strs p !! a = None) as Hfresh.
  { intros a Ha. destruct (p_strs p !! a) eqn:E; [|done]. pose proof (id_strs _ Hi a ltac:(by rewrite E)). lia. }
  rewrite !(proj2 (Z.eqb_neq _ NULL)) by (unfold NULL; lia). rewrite Hs.
  rewrite !lookup_insert_ne, lookup_insert_eq by lia. cbn [deref]. rewrite bind_Done. cbn [put_strs p_strs].
  rewrite !delete_insert_ne, delete_insert_id by (lia || by apply Hfresh; lia). rewrite bind_Done. cbn [put_strs p_strs].
  assert (delete (p_brk p + 1) (<[p_brk p + 1 + 1 := db_file]> (<[p_brk p + 1 := err]> (p_strs p))) = <[p_brk p + 1 + 1 := db_file]> (p_strs p)) as ->
    by (rewrite delete_insert_ne by lia; by rewrite delete_insert_id by (apply Hfresh; lia)).
  rewrite lookup_insert_ne, lookup_insert_eq by lia. cbn [deref]. rewrite !bind_Done. cbn [put_strs p_strs].
  rewrite lookup_insert_eq. cbn [deref]. rewrite bind_Done. cbn. by rewrite delete_insert_id by (apply Hfresh; lia).
Qed.

(** What an exit leaves: [d] is the disk with every change, [b] the last state of the
    queue. *)
Definition exited p p1 (s3 : logger) (w : Z) (d : disk DB) : process DB :=
  put_strs (p_strs p) (Process (p_config p1) false s3 None None None WExit w (p_strs p1) (p_brk p1)
    (p_closed p1 ++ [dk_handle d]) (p_joined p1 ++ [t])).

Lemma se_exit_run p p1 cs0 s out_text err_text tc load y fuel schedule data tmp d :
  idle p → running p p1 cs0 → logging out err (o p) (e p) s out_text err_text tc →
  work_ok sqlite3_exec d (as_seen EIdle (y_added y) (woken y)) → Z.of_nat (length (y_added y)) < 2 ^ 63 →
  ∃ s3, lg_disk s3 !! out = Some (out_text +:+ bye) ∧ lg_disk s3 !! err = Some err_text ∧
    (∃ tc' r, stream_at STDOUT CONSOLE tc' r s3) ∧ 2 < lg_next s3 ∧
    ((xfiredb_se_exit sqlite3_exec fuel schedule data tmp (at_work load s y p1) = OutOfFuel ∧
      (wait_empty sqlite3_exec schedule (woken y) = OutOfFuel ∨ (fuel < 3)%nat)) ∨
     ∃ w d', xfiredb_se_exit sqlite3_exec fuel schedule data tmp (at_work load s y p1) = Done (exited p p1 s3 w d') ∧
       d' = foldl (apply_job sqlite3_exec) d (y_added y)).
Proof.
  intros Hi [Rc Rs Rb Rcl Rj (j & Ej & Hw) _] Hl Hy Hb.
  destruct (log_exit_run out err Hnames (o p) (e p) s _ _ _ (apart p Hi) Hl) as (s3 & E3 & Ho3 & He3 & Hc3 & _ & _ & Hn3).
  exists s3. split; [done|]. split; [done|]. split; [exists tc; exact Hc3|]. split; [done|].
  destruct (bio_sync_run schedule data tmp load s y p1 j Ej Hw) as (j1 & Ea & Hw1). unfold xfiredb_se_exit. rewrite Ea.
  destruct (wait_join sqlite3_exec d schedule fuel (woken y) (y_added y) Hy Hb) as [->|(y1 & -> & Hjoin)]; [left; split; [done|by left]|].
  rewrite !bind_Done. cbv zeta in Hjoin. unfold bio_exit. cbn [put_work put_jobs at_work p_jobs p_queue p_disk p_worker p_wake p_log p_config p_strs p_brk p_closed p_joined deref].
  destruct (stop_worker j1 data Hw1) as (j2 & Eb & Hok2 & Hj2). rewrite bind_Done, Eb, !bind_Done, Z.eqb_refl.
  destruct Hjoin as [[-> Hf]|(y2 & -> & Hx & Hd)]; [left; split; [done|by right]|]. rewrite !bind_Done. unfold stop_jobs. cbn [p_jobs deref]. rewrite bind_Done.
  destruct (decide (0 < fuel)%nat) as [Hf|Hf];
    [|left; assert (fuel = 0%nat) as -> by lia; rewrite (exit_no_fuel j2 data Hok2); split; [done|right; lia]].
  right. exists (b_counter (y_bio y2)), (y_disk y2).
  split; [|done]. destruct (exit_no_jobs j2 data fuel Hok2 Hf) as (j3 & -> & Hj3). rewrite bind_Done. unfold stop_log. cbn [p_log put_log].
  rewrite !bind_Done. cbn [p_log]. rewrite E3, !bind_Done, Hj3, Hj2.
  set (p2 := Process (p_config p1) false s3 None None None WExit (b_counter (y_bio y2)) (p_strs p1) (p_brk p1) (p_closed p1 ++ [dk_handle (y_disk y2)]) (p_joined p1 ++ [t])).
  pose proof (free_names p p2 Hi Rs) as Ef. rewrite Hx.
  assert (cf_log_file (p_config p1) = p_brk p ∧ cf_err_log_file (p_config p1) = p_brk p + 1 ∧ cf_db_file (p_config p1) = p_brk p + 1 + 1) as (Na & Nb & Nc)
    by (by rewrite Rc).
  rewrite <-Nc, <-Nb, <-Na in Ef. exact Ef.
Qed.
Lemma exited_idle p p1 cs0 s3 w d : idle p → running p p1 cs0 → (∃ tc r, stream_at STDOUT CONSOLE tc r s3) → 2 < lg_next s3 → idle (exited p p1 s3 w d).
Proof.
  intros [_ _ _ _ _ Hb Hs] Hr (tc & r & Hc) Hn. unfold exited. split; cbn; [done..|by eexists _, _|done|rewrite (ru_brk _ _ _ Hr); lia|].
  intros a Ha. rewrite (ru_brk _ _ _ Hr). pose proof (Hs a Ha). lia.
Qed.

End Proofs.

(** ** What is loaded *)

Lemma load_rows_cells ary rows : load_rows ary (row_cells <$> rows) = Done (ary ++ rows).
Proof.
  revert ary. induction rows as [|[k h t d] rows IH]; intros ary; [cbn; by rewrite app_nil_r|].
  change (load_rows ary (row_cells <$> Row k h t d :: rows)) with (load_rows (ary ++ [Row k h t d]) (row_cells <$> rows)). by rewrite IH, <-app_assoc.
Qed.

(** The Ruby program is given the rows of the table, all or those of a key, in order. *)
Lemma rb_se_load_key_rows `{SqliteTableLaws DB} key (p : process DB) (d : disk DB) :
  p_disk p = Some d → quote_free key →
  rb_se_load_key sq_exec key p = Done (put_disk_db (set_handle d (dk_handle d)) p, filter (λ r, r_key r = key) (sq_rows (dk_handle d))).
Proof.
  intros Hd Hk. unfold rb_se_load_key, xfiredb_load_key. rewrite Hd. cbn [deref]. rewrite bind_Done. unfold disk_load_key. rewrite sq_select_key by done.
  rewrite Z.eqb_refl, bind_Done, load_rows_cells. done.
Qed.

Lemma rb_se_load_rows `{SqliteTableLaws DB} (p : process DB) (d : disk DB) s :
  say "Loading data from disk" p = Done (put_log s p) → p_disk p = Some d →
  rb_se_load sq_exec p = Done (put_disk_db (set_handle d (dk_handle d)) (put_log s p), sq_rows (dk_handle d)).
Proof.
  intros Hs Hd. unfold rb_se_load, xfiredb_raw_load. rewrite Hs, bind_Done. cbn [put_log p_disk]. rewrite Hd. cbn [deref]. rewrite bind_Done.
  unfold disk_load. rewrite sq_select_all, Z.eqb_refl, bind_Done, load_rows_cells. done.
Qed.

(** ** A run *)

Definition process0 : process (list row) := Process (Config NULL NULL NULL 0) false (log_start ∅) None None None WExit 0 ∅ 1 [] [].
Definition surroundings1 : surroundings := Surroundings 8388608 0 0 5000 6000 0 (Some 7).
Definition engine_init (silent : bool) : process (list row) → outcome (option (process (list row))) :=
  rb_se_init demo_exec (λ _, Some []) (λ _, true) (λ _, 0) dict_globals_init "xfiredb.stdout" "xfiredb.stderr" "xfiredb.db" 0 silent surroundings1.

Lemma idle0 : idle process0.
Proof. split; try done; [by eexists "", ""; apply start_out|]. by intros a [x Hx]. Qed.

Lemma names1 : NoDup ["xfiredb.stdout"; "xfiredb.stderr"; CONSOLE].
Proof. decide_by_compute. Qed.
Lemma stack1 : 0 ≤ su_stack surroundings1 < 2 ^ 63.
Proof. cbn [su_stack surroundings1]. lia. Qed.
Lemma job1 : su_job surroundings1 ≠ NULL.
Proof. done. Qed.

(** A change is queued while the worker waits, and the engine exits before it is written. *)
Lemma one_line d : rtc (step demo_exec 0) (Sys (set_wake 0 0 Bio.bio_init) d false WLock EIdle []) (Sys bio_k d false WPop EIdle [job_k]).
Proof.
  take_step (Sys Bio.bio_init d false WWait EIdle []).
  take_step (Sys bio_k d false WWait ESignal [job_k]).
  take_step (Sys bio_k d false WPop EIdle [job_k]). apply rtc_refl.
Qed.

