(* ===== verification/Container.v ===== *)
(** * Containers: [storage/container.c]

    A container is a tagged union of a string, a list, a hash map and a set.  The
    nodes of a list or a hash map are [struct string] objects, reached from their
    [entry] or [node] field by [container_of], which is the identity on addresses;
    each container has its own nodes, and they are kept with it. *)
From S2P Require Import Prelude Chain Atomic Mem CList CString KeyIndex SetMap.
Local Open Scope Z_scope.

Inductive container_type_t := CONTAINER_STRING | CONTAINER_LIST | CONTAINER_HASHMAP | CONTAINER_SET.
#[export] Instance container_type_eq_dec : EqDecision container_type_t.
Proof. solve_decision. Defined.

(** The [struct string] objects that are the nodes of one container, by address. *)
Abbreviation nodes := (gmap loc string_t).

Inductive container (T : Type) :=
  | CString (s : string_t)
  | CList (lh : list_head) (h : lheap) (ns : nodes)
  | CHashmap (hm : hashmap T) (ns : nodes)
  | CSet (s : set T).
Arguments CString {T} s.
Arguments CList {T} lh h ns.
Arguments CHashmap {T} hm ns.
Arguments CSet {T} s.

Section Operations.
Context {T I : Type} `{KI : KeyIndex T I}.

(** [c->type] *)
Definition c_type (c : container T) : container_type_t :=
  match c with
  | CString _ => CONTAINER_STRING
  | CList _ _ _ => CONTAINER_LIST
  | CHashmap _ _ => CONTAINER_HASHMAP
  | CSet _ => CONTAINER_SET
  end.

Definition container_check_type (c : container T) (type : container_type_t) : bool :=
  bool_decide (c_type c = type).

(** [hdr] is the address of the list head in the container, or of the header node
    that the skip list allocates. *)
Definition container_init (hdr : loc) (type : container_type_t) : outcome (container T) :=
  match type with
  | CONTAINER_STRING => Done (CString string_init)
  | CONTAINER_LIST =>
      '(h, lh) ← list_head_init {[hdr := ListNode NULL NULL]} hdr;
      Done (CList lh h ∅)
  | CONTAINER_HASHMAP => Done (CHashmap (hashmap_init hdr) ∅)
  | CONTAINER_SET => Done (CSet (set_init hdr))
  end.

(** [container_get_data]: the member of the union; what a caller does with a pointer
    to another member is undefined. *)
Definition get_string (c : container T) : outcome string_t :=
  match c with CString s => Done s | _ => Stuck end.
Definition get_list (c : container T) : outcome (list_head * lheap * nodes) :=
  match c with CList lh h ns => Done (lh, h, ns) | _ => Stuck end.
Definition get_hashmap (c : container T) : outcome (hashmap T * nodes) :=
  match c with CHashmap hm ns => Done (hm, ns) | _ => Stuck end.
Definition get_set (c : container T) : outcome (set T) :=
  match c with CSet s => Done s | _ => Stuck end.

(** A list with a new, cleared node, or without a node. *)
Definition node_alloc (n : loc) (s : string_t) (h : lheap) (ns : nodes) : lheap * nodes :=
  (<[n := ListNode NULL NULL]> h, <[n := s]> ns).
Definition node_free (n : loc) (h : lheap) (ns : nodes) : lheap * nodes := (delete n h, delete n ns).

(** The same for a hash map. *)
Definition hm_alloc (n : loc) (s : string_t) (hm : hashmap T) (ns : nodes) : hashmap T * nodes :=
  (Hashmap (ki_zalloc (hm_list hm) n) (hm_num hm) (hm_key_str hm), <[n := s]> ns).
Definition hm_free (n : loc) (hm : hashmap T) (ns : nodes) : hashmap T * nodes :=
  (Hashmap (ki_release (hm_list hm) n) (hm_num hm) (hm_key_str hm), delete n ns).

(** [hashmap_node_destroy]: the copy of the key that the node owns. *)
Definition hashmap_node_destroy (n : loc) (hm : hashmap T) : outcome (hashmap T) :=
  match hm_key_str hm !! n with
  | Some _ => Done (Hashmap (hm_list hm) (hm_num hm) (delete n (hm_key_str hm)))
  | None => Stuck
  end.
End Operations.

(** ** What a container holds *)

Inductive value :=
  | VString (text : string)
  | VList (texts : list string)
  | VHashmap (m : gmap string string)
  | VSet (keys : gset string).

Definition str_is (s : string_t) (text : string) : Prop :=
  s_str s = Some (cstr_region text) ∧ nul_free text.

Definition node_is (ns : nodes) (n : loc) (text : string) : Prop :=
  ∃ s, ns !! n = Some s ∧ str_is s text.

Section Rep.
Context {T I : Type} `{KI : KeyIndex T I}.

(** The addresses of a container are below [brk]. *)
Definition map_below (hm : T) (nm : gmap string loc) (brk : loc) : Prop :=
  ki_hdr hm < brk ∧ ∀ k n, nm !! k = Some n → n < brk.

(** The list of [texts] in the nodes [es]. *)
Record list_at (lh : list_head) (h : lheap) (ns : nodes) (brk : loc) (es : list loc) (texts : list string)
    : Prop := {
  la_ok : list_ok h lh es;
  la_texts : Forall2 (node_is ns) es texts;
  la_head : lh_head lh < brk;
  la_below : Forall (λ n, n < brk) es }.
Definition list_rep (lh : list_head) (h : lheap) (ns : nodes) (brk : loc) (texts : list string) : Prop :=
  ∃ es, list_at lh h ns brk es texts.

Definition map_rep (hm : hashmap T) (ns : nodes) (brk : loc) (m : gmap string string) : Prop :=
  ∃ nm, hashmap_rep hm nm ∧ map_below (hm_list hm) nm brk ∧
    (∀ k, match nm !! k, m !! k with
          | Some n, Some t => node_is ns n t ∧ hm_key_str hm !! n = Some k
          | None, None => True
          | _, _ => False
          end) ∧
    (∀ k1 k2 n, nm !! k1 = Some n → nm !! k2 = Some n → k1 = k2).

Definition cont_rep (c : container T) (brk : loc) (v : value) : Prop :=
  match c, v with
  | CString s, VString text => str_is s text
  | CList lh h ns, VList texts => list_rep lh h ns brk texts
  | CHashmap hm ns, VHashmap m => map_rep hm ns brk m
  | CSet s, VSet keys => ∃ nm, set_rep s nm ∧ map_below (set_list s) nm brk ∧ dom nm = keys
  | _, _ => False
  end.

Definition type_of (v : value) : container_type_t :=
  match v with
  | VString _ => CONTAINER_STRING
  | VList _ => CONTAINER_LIST
  | VHashmap _ => CONTAINER_HASHMAP
  | VSet _ => CONTAINER_SET
  end.

Lemma cont_rep_type c brk v : cont_rep c brk v → c_type c = type_of v.
Proof. by destruct c, v. Qed.
End Rep.
