(* ===== verification/ContainerSpec.v ===== *)
(** * Operations on the contents of a container

    How pushing, deleting and setting the nodes of a container change the value that
    it holds: what the engine's functions are made of. *)
From S2P Require Import Prelude Chain Atomic Mem CList CString KeyIndex SetMap Container.
Local Open Scope Z_scope.

(** ** Nodes with a text *)

Lemma node_is_other ns n t n' s : node_is ns n t → n ≠ n' → node_is (<[n' := s]> ns) n t.
Proof. intros (x & Hx & Ht) Hne. exists x. by rewrite lookup_insert_ne. Qed.

Lemma node_is_delete ns n t n' : node_is ns n t → n ≠ n' → node_is (delete n' ns) n t.
Proof. intros (x & Hx & Ht) Hne. exists x. by rewrite lookup_delete_ne. Qed.

Lemma node_is_new ns n t s : str_is s t → node_is (<[n := s]> ns) n t.
Proof. intros Hs. exists s. by rewrite lookup_insert_eq. Qed.

Lemma string_alloc_is t : nul_free t → ∃ s, string_alloc t = Done s ∧ str_is s t.
Proof. intros Hn. rewrite string_alloc_run. by eexists. Qed.

Lemma string_set_is junk s t : nul_free t → ∃ s', string_set junk s t = Done s' ∧ str_is s' t.
Proof. intros Hn. rewrite string_set_run. by eexists. Qed.

(** ** Lists *)

Lemma Forall2_impl_in {A B} (P Q : A → B → Prop) l k :
  Forall2 P l k → (∀ x y, x ∈ l → P x y → Q x y) → Forall2 Q l k.
Proof.
  induction 1 as [|x y l k Hxy _ IH]; intros Hpq; constructor; [apply Hpq; [by left|done]|].
  apply IH. intros x' y' Hx'. apply Hpq. by right.
Qed.

Lemma list_at_lengths lh h ns brk es texts : list_at lh h ns brk es texts → length es = length texts.
Proof. intros [_ Ht _ _]. by eapply list.Forall2_length. Qed.

Lemma list_at_length lh h ns brk es texts :
  list_at lh h ns brk es texts → Z.of_nat (length texts) < 2 ^ 31 → list_length lh = Z.of_nat (length texts).
Proof. intros Hl Hb. rewrite <-(list_at_lengths _ _ _ _ _ _ Hl) in *. eapply list_length_ok; [apply Hl|done]. Qed.

Lemma list_at_mono lh h ns b1 b2 es texts : list_at lh h ns b1 es texts → b1 ≤ b2 → list_at lh h ns b2 es texts.
Proof.
  intros [H1 H2 H3 H4] Hle. split; [done|done|lia|]. eapply list.Forall_impl; [exact H4|]. simpl. lia.
Qed.

Lemma list_at_text lh h ns brk xs e ys ta t tb :
  list_at lh h ns brk (xs ++ e :: ys) (ta ++ t :: tb) → length xs = length ta → node_is ns e t.
Proof.
  intros [_ H _ _] Hlen. apply Forall2_app_inv in H as [_ H]; [|done]. by apply Forall2_cons_1 in H as [? _].
Qed.

(** A new string, pushed at an end of the list. *)
Lemma push_rep lh h ns brk texts s t (left : bool) :
  list_rep lh h ns brk texts → str_is s t →
  let '(h1, ns1) := node_alloc brk s h ns in
  ∃ h2 lh2, (if left then list_lpush h1 lh brk else list_rpush h1 lh brk) = Done (h2, lh2) ∧
    list_rep lh2 h2 ns1 (brk + 1) (if left then t :: texts else texts ++ [t]).
Proof.
  intros (es & [H1 H2 H3 H4]) Hs. cbn [node_alloc].
  assert (brk ∉ lh_head lh :: es) as Hnew.
  { rewrite list.Forall_forall in H4. intros [Heq|Hin%H4]%elem_of_cons; lia. }
  assert (list_ok (<[brk := ListNode NULL NULL]> h) lh es) as H1'.
  { eapply list_ok_frame; [|exact H1]. intros a Ha. apply lookup_insert_ne. by intros ->. }
  assert (Forall2 (node_is (<[brk := s]> ns)) es texts) as H2'.
  { eapply Forall2_impl_in; [exact H2|]. intros n x Hn Hx. apply node_is_other; [done|]. set_solver. }
  assert (Forall (λ n, n < brk + 1) es) as H4' by (eapply list.Forall_impl; [exact H4|]; simpl; lia).
  pose proof (node_is_new ns brk t s Hs) as Hnode.
  destruct (list_push_correct _ lh es brk H1' Hnew) as [(hr & lr & Hr & Hor & Hhr) (hl & ll & Hl & Hol & Hhl)].
  { rewrite lookup_insert_eq. by eexists. }
  destruct left.
  - exists hl, ll. split; [done|]. exists (brk :: es). split; [done|by constructor|lia|constructor; [lia|done]].
  - exists hr, lr. split; [done|]. exists (es ++ [brk]).
    split; [done|apply Forall2_app; [done|by constructor]|lia|].
    apply Forall_app. split; [done|constructor; [lia|done]].
Qed.

(** Deleting a node and its string. *)
Lemma del_rep lh h ns brk xs e ys ta t tb :
  list_at lh h ns brk (xs ++ e :: ys) (ta ++ t :: tb) → length xs = length ta →
  node_is ns e t ∧
  ∃ h1 lh1, list_del h lh e = Done (h1, lh1) ∧ lh_head lh1 = lh_head lh ∧
    let '(h2, ns2) := node_free e h1 ns in list_at lh1 h2 ns2 brk (xs ++ ys) (ta ++ tb).
Proof.
  intros [H1 H2 H3 H4] Hlen. apply Forall2_app_inv in H2 as [H2a H2b]; [|done].
  apply Forall2_cons_1 in H2b as [He H2b]. split; [done|].
  pose proof (lo_nodup _ _ _ H1) as Hnd.
  destruct (list_del_correct h lh xs e ys H1) as (h1 & lh1 & Hd & Hok & Hh & _).
  exists h1, lh1. split; [done|]. split; [done|]. cbn [node_free].
  assert (e ∉ lh_head lh :: xs ++ ys) as Hne.
  { rewrite <-Permutation_middle, Permutation_swap in Hnd. by apply list.NoDup_cons in Hnd as [? _]. }
  apply Forall_app in H4 as [H4a H4b]. apply list.Forall_cons in H4b as [_ H4b].
  split; [| |lia|by apply Forall_app].
  - eapply list_ok_frame; [|exact Hok]. intros a Ha. apply lookup_delete_ne. rewrite Hh in Ha. by intros ->.
  - apply Forall2_app; (eapply Forall2_impl_in; [eassumption|]); intros n x Hn Hx;
      (apply node_is_delete; [done|]); intros ->; apply Hne; set_solver.
Qed.

(** Another text for a node. *)
Lemma set_text_rep lh h ns brk xs e ys ta t tb s t' :
  list_at lh h ns brk (xs ++ e :: ys) (ta ++ t :: tb) → length xs = length ta → str_is s t' →
  node_is ns e t ∧ list_at lh h (<[e := s]> ns) brk (xs ++ e :: ys) (ta ++ t' :: tb).
Proof.
  intros [H1 H2 H3 H4] Hlen Hs. apply Forall2_app_inv in H2 as [H2a H2b]; [|done].
  apply Forall2_cons_1 in H2b as [He H2b]. split; [done|]. split; [done| |done|done].
  pose proof (lo_nodup _ _ _ H1) as [_ Hnd]%list.NoDup_cons.
  rewrite <-Permutation_middle in Hnd. apply list.NoDup_cons in Hnd as [Hne _].
  apply Forall2_app; [|constructor; [by apply node_is_new|]];
    (eapply Forall2_impl_in; [eassumption|]); intros n x Hn Hx;
    (apply node_is_other; [done|]); intros ->; apply Hne; set_solver.
Qed.

(** ** Hash maps *)

Section Maps.
Context {T I : Type} `{KI : KeyIndex T I} {IL : KeyIndexLaws T I}.
Implicit Types (hm : hashmap T) (m : gmap string string) (nm : gmap string loc).

(** The nodes of the map: what [map_rep] says of one key. *)
Lemma map_rep_key hm ns m nm :
  (∀ k, match nm !! k, m !! k with
        | Some n, Some t => node_is ns n t ∧ hm_key_str hm !! n = Some k
        | None, None => True
        | _, _ => False
        end) → dom nm = dom m.
Proof.
  intros Hk. apply set_eq. intros k. rewrite !elem_of_dom. specialize (Hk k).
  destruct (nm !! k), (m !! k); try done; split; intros [? ?]; (done || by eexists).
Qed.

Lemma find_rep hm ns brk m k :
  map_rep hm ns brk m → ki_good (dom m) k →
  ∃ o, hashmap_find hm k = Done o ∧
    match m !! k with Some t => ∃ n, o = Some n ∧ node_is ns n t | None => o = None end.
Proof.
  intros (nm & H1 & H2 & H3 & H4) Hg. pose proof (map_rep_key hm ns m nm H3) as Hdom.
  exists (nm !! k). split; [apply hashmap_find_run; [done|by rewrite Hdom]|].
  specialize (H3 k). destruct (nm !! k) as [n|], (m !! k) as [t|]; try done. destruct H3. by exists n.
Qed.

Lemma hm_size_rep hm ns brk m :
  map_rep hm ns brk m → Z.of_nat (size m) < 2 ^ 31 → hashmap_size hm = Z.of_nat (size m).
Proof.
  intros (nm & [_ H1] & _ & H3 & _) Hsz. pose proof (map_rep_key hm ns m nm H3) as Hdom.
  unfold hashmap_size, atomic_get. rewrite H1, <-!size_dom, Hdom, size_dom. apply s32_small. lia.
Qed.

(** A new node under a new key. *)
Lemma add_rep coin hm ns brk m k s t :
  map_rep hm ns brk m → ki_good (dom m) k → m !! k = None → str_is s t →
  let '(hm1, ns1) := hm_alloc brk s hm ns in
  ∃ hm2, hashmap_add coin hm1 k brk = Done (hm2, - XFIREDB_OK) ∧ map_rep hm2 ns1 (brk + 1) (<[k := t]> m).
Proof.
  intros (nm & [R1 R2] & [B1 B2] & H3 & H4) Hg Hk Hs. pose proof (map_rep_key hm ns m nm H3) as Hdom.
  cbn [hm_alloc]. assert (nm !! k = None) as Hnk by (specialize (H3 k); rewrite Hk in H3; by destruct (nm !! k)).
  assert (ki_free (hm_list hm) nm brk) as Hfree.
  { apply ki_free_intro; [lia|]. intros k' Hk'. specialize (B2 _ _ Hk'). lia. }
  destruct (ki_zalloc_rep _ _ _ R1 Hfree) as (R1' & Hfree' & Hall).
  destruct (hashmap_add_new coin (Hashmap (ki_zalloc (hm_list hm) brk) (hm_num hm) (hm_key_str hm)) nm k brk)
    as (hm2 & Ha & Hrep & Hhdr & Hks); [by split|by rewrite Hdom|by split|done|].
  exists hm2. split; [done|]. exists (<[k := brk]> nm). cbn [hm_list hm_key_str] in *. split_and!; [done| | |].
  - split; [rewrite Hhdr, ki_hdr_zalloc; lia|].
    intros k' n [[_ <-]|[_ Hn]]%lookup_insert_Some; [lia|]. specialize (B2 _ _ Hn). lia.
  - intros k'. rewrite Hks. destruct (decide (k' = k)) as [->|Hne].
    + rewrite !lookup_insert_eq. split; [by apply node_is_new|done].
    + rewrite !lookup_insert_ne by done. specialize (H3 k').
      destruct (nm !! k') as [n|] eqn:Hn, (m !! k'); try done. destruct H3 as [H3 H3'].
      specialize (B2 _ _ Hn). rewrite lookup_insert_ne by lia. split; [|done]. apply node_is_other; [done|lia].
  - intros k1 k2 n [[<- <-]|[? E1]]%lookup_insert_Some [[<- Hx]|[? E2]]%lookup_insert_Some; try done.
    + specialize (B2 _ _ E2). lia.
    + subst n. specialize (B2 _ _ E1). lia.
    + by eapply H4.
Qed.

(** Another text under a key that is there. *)
Lemma set_rep_text hm ns brk m k n t s t' :
  map_rep hm ns brk m → ki_good (dom m) k → hashmap_find hm k = Done (Some n) → m !! k = Some t → str_is s t' →
  map_rep hm (<[n := s]> ns) brk (<[k := t']> m).
Proof.
  intros (nm & H1 & H2 & H3 & H4) Hg Hf Hk Hs. pose proof (map_rep_key hm ns m nm H3) as Hdom.
  rewrite (hashmap_find_run hm nm k) in Hf by (done || by rewrite Hdom). injection Hf as Hf.
  exists nm. split_and!; [done|done| |done]. intros k'. destruct (decide (k' = k)) as [->|Hne].
  - rewrite Hf, lookup_insert_eq. specialize (H3 k). rewrite Hf, Hk in H3. destruct H3 as [_ H3].
    split; [by apply node_is_new|done].
  - rewrite lookup_insert_ne by done. specialize (H3 k').
    destruct (nm !! k') as [n'|] eqn:Hn, (m !! k'); try done. destruct H3 as [H3 H3']. split; [|done].
    apply node_is_other; [done|]. intros ->. apply Hne. by eapply H4.
Qed.

(** Taking a node out and releasing it. *)
Lemma remove_rep hm ns brk m k :
  map_rep hm ns brk m → ki_good (dom m) k →
  match m !! k with
  | None => ∃ hm', hashmap_remove hm k = Done (hm', None) ∧ map_rep hm' ns brk m
  | Some t => ∃ hm1 hm2 n, hashmap_remove hm k = Done (hm1, Some n) ∧ node_is ns n t ∧
      hashmap_node_destroy n hm1 = Done hm2 ∧
      let '(hm3, ns3) := hm_free n hm2 ns in map_rep hm3 ns3 brk (delete k m)
  end.
Proof.
  intros (nm & H1 & [B1 B2] & H3 & H4) Hg. pose proof (map_rep_key hm ns m nm H3) as Hdom.
  destruct (hashmap_remove_run hm nm k H1) as (hm1 & Hr & Hrep & Hhdr & Hks & Hfree); [by rewrite Hdom|].
  pose proof (H3 k) as Hk. destruct (nm !! k) as [n|] eqn:Hn, (m !! k) as [t|]; try done.
  - destruct Hk as [Hnode Hkey]. exists hm1. eexists _, n. split; [done|]. split; [done|].
    unfold hashmap_node_destroy. rewrite Hks, Hkey. split; [done|]. cbn [hm_free hm_list hm_num hm_key_str].
    exists (delete k nm). destruct Hrep as [R1 R2]. split_and!.
    + split; [by apply ki_release_rep; [|apply Hfree]|done].
    + split; cbn [hm_list]; [by rewrite ki_hdr_release, Hhdr|].
      intros k' n' [_ Hk']%lookup_delete_Some. by eapply B2.
    + intros k'. cbn [hm_key_str]. destruct (decide (k' = k)) as [->|Hne]; [by rewrite !lookup_delete_eq|].
      rewrite !lookup_delete_ne by done. specialize (H3 k').
      destruct (nm !! k') as [n'|] eqn:Hn', (m !! k'); try done. destruct H3 as [H3 H3'].
      assert (n' ≠ n) as Hnn by (intros ->; apply Hne; by eapply H4).
      rewrite lookup_delete_ne by done. split; [by apply node_is_delete|done].
    + intros k1 k2 n' [_ E1]%lookup_delete_Some [_ E2]%lookup_delete_Some. by eapply H4.
  - exists hm1. split; [done|]. exists nm. rewrite delete_id in Hrep by done.
    split_and!; [done|split; [by rewrite Hhdr|done]| |done]. by rewrite Hks.
Qed.

(** ** Sets *)

(** A new node for a key; a key that is there already changes nothing. *)
Lemma add_key_rep coin (s : set T) brk X key :
  cont_rep (CSet s) brk (VSet X) → ki_good X key →
  ∃ s2 rv, set_add coin (Set_ (ki_zalloc (set_list s) brk) (set_num s) (set_key_str s)) key brk = Done (s2, rv) ∧
    cont_rep (CSet s2) (brk + 1) (VSet ({[key]} ∪ X)).
Proof.
  intros (nm & [R1 R2 R3] & [B1 B2] & <-) Hg.
  assert (ki_free (set_list s) nm brk) as Hfree.
  { apply ki_free_intro; [lia|]. intros k' Hk'. specialize (B2 _ _ Hk'). lia. }
  destruct (ki_zalloc_rep _ _ _ R1 Hfree) as (R1' & Hfree' & Hall).
  destruct (set_add_correct coin (Set_ (ki_zalloc (set_list s) brk) (set_num s) (set_key_str s)) nm key brk)
    as (s2 & Ha & Hrep & Hhdr); [by split|done|by split|].
  eexists s2, _. split; [exact Ha|]. cbn [set_list] in Hhdr. rewrite ki_hdr_zalloc in Hhdr.
  destruct (nm !! key) as [n|] eqn:Hk.
  - exists nm. split; [done|]. split.
    + split; [rewrite Hhdr; lia|]. intros k n' Hn. specialize (B2 _ _ Hn). lia.
    + assert (key ∈ dom nm) by (apply elem_of_dom; by eexists). set_solver.
  - exists (<[key := brk]> nm). split; [done|]. split; [|by rewrite dom_insert_L].
    split; [rewrite Hhdr; lia|]. intros k n [[_ <-]|[_ Hn]]%lookup_insert_Some; [lia|]. specialize (B2 _ _ Hn). lia.
Qed.
End Maps.
