(* ===== verification/Engine.v ===== *)
(** * The engine: [xfiredb.c]

    The operations of the storage engine on strings, lists, hash maps and sets: each
    looks its key up in the database, works on the container it finds there or makes,
    and queues the change for the disk.  The state is the database, the containers by
    address, the background queue and the next unused address; [xfiredb_*] functions
    are computations that thread it and may fault. *)
From S2P Require Import Prelude Chain Atomic Mem CList CString KeyIndex SetMap Database Disk Bio Container.
Local Open Scope Z_scope.

(** ** The state *)

Record engine (D T : Type) := Engine {
  g_db : database D;
  g_conts : gmap loc (container T);
  g_brk : loc;
  g_bio : bio }.
Arguments Engine {D T} _ _ _ _.
Arguments g_db {D T} _.
Arguments g_conts {D T} _.
Arguments g_brk {D T} _.
Arguments g_bio {D T} _.

(** Computations on a state that may fault. *)
Definition stm (S A : Type) : Type := S → outcome (S * A).
#[export] Instance stm_ret S : MRet (stm S) := λ A a s, Done (s, a).
#[export] Instance stm_bind S : MBind (stm S) := λ A B f m s, '(s, a) ← m s; f a s.

(** The text that a [char *] with these bytes is. *)
Fixpoint of_bytes (l : list Z) : string :=
  match l with
  | [] => EmptyString
  | c :: l => String (Ascii.ascii_of_N (Z.to_N c)) (of_bytes l)
  end.

Lemma of_bytes_bytes s : of_bytes (bytes s) = s.
Proof.
  induction s as [|a s IH]; [done|]. cbn [bytes of_bytes]. rewrite IH. f_equal.
  by rewrite N2Z.id, Ascii.ascii_N_embedding.
Qed.

Section Engine.
Context {D T I : Type} `{KV : KVStore D} `{KI : KeyIndex T I}.
(** What is not determined by the arguments: where the database entry is allocated,
    the coin of the skip list per node, the bytes [realloc] adds, and the configured
    persistence level. *)
Context (malloc : D → loc) (coin : loc → nat → bool) (junk : Z) (lvl : Z).

Abbreviation M := (stm (engine D T)).

Definition lift {A} (o : outcome A) : M A := λ s, a ← o; Done (s, a).

(** ** Memory, the database and the queue *)

Definition new_addr : M loc := λ s,
  Done (Engine (g_db s) (g_conts s) (g_brk s + 1) (g_bio s), g_brk s).

(** Reading, writing and releasing a container. *)
Definition get_container (c : loc) : M (container T) := λ s,
  ct ← deref (g_conts s !! c); Done (s, ct).
Definition put_container (c : loc) (ct : container T) : M () := λ s,
  Done (Engine (g_db s) (<[c := ct]> (g_conts s)) (g_brk s) (g_bio s), ()).
Definition free_container (c : loc) : M () := λ s,
  _ ← deref (g_conts s !! c);
  Done (Engine (g_db s) (delete c (g_conts s)) (g_brk s) (g_bio s), ()).

Definition container_alloc (type : container_type_t) : M loc :=
  c ← new_addr;
  hdr ← new_addr;
  ct ← lift (container_init hdr type);
  _ ← put_container c ct;
  mret c.

Definition lookup_db (key : string) : M (Z * loc) := λ s,
  '(db, rv, ptr) ← db_lookup (g_db s) key NULL 0 NULL;
  Done (Engine db (g_conts s) (g_brk s) (g_bio s), (rv, ptr)).
Definition store_db (key : string) (c : loc) : M Z := λ s,
  '(db, rv) ← db_store malloc (g_db s) key c;
  Done (Engine db (g_conts s) (g_brk s) (g_bio s), rv).
Definition delete_db (key : string) : M (Z * loc) := λ s,
  '(db, rv, ptr) ← db_delete (g_db s) key NULL;
  Done (Engine db (g_conts s) (g_brk s) (g_bio s), (rv, ptr)).

(** [xfiredb_sprintf(&p, "%s", t)] for a string that goes to the queue. *)
Definition sprintf (t : string) : M loc := λ s,
  let '(b, a) := xfiredb_sprintf t (g_bio s) in
  Done (Engine (g_db s) (g_conts s) (g_brk s) b, a).
Definition free_text (a : loc) : M () := λ s,
  b ← free_str a (g_bio s);
  Done (Engine (g_db s) (g_conts s) (g_brk s) b, ()).
Definition queue (key arg newdata : loc) (op : bio_operation_t) : M () := λ s,
  b ← bio_queue_add lvl key arg newdata op (g_bio s);
  Done (Engine (g_db s) (g_conts s) (g_brk s) b, ()).

(** The text of a string object. *)
Definition text_of (s : string_t) : outcome string := l ← string_get s; Done (of_bytes l).
Definition node_text (ns : nodes) (n : loc) : outcome string := s ← deref (ns !! n); text_of s.

(** [!db_lookup(...)], [rv != -XFIREDB_OK] *)
Definition failed (rv : Z) : bool := negb (rv =? - XFIREDB_OK).

(** ** Strings *)

Definition xfiredb_string_get (key : string) : M (Z * option string) :=
  '(rv, c) ← lookup_db key;
  if failed rv then mret (- XFIREDB_ERR, None)
  else
    ct ← get_container c;
    if negb (container_check_type ct CONTAINER_STRING) then mret (- XFIREDB_ERR, None)
    else
      s ← lift (get_string ct);
      data ← lift (text_of s);
      mret (- XFIREDB_OK, Some data).

Definition xfiredb_string_set (key str : string) : M Z :=
  bio_key ← sprintf key;
  bio_str ← sprintf str;
  '(rv, c) ← lookup_db key;
  if rv =? 0 then
    ct ← get_container c;
    if negb (container_check_type ct CONTAINER_STRING) then
      _ ← free_text bio_key;
      _ ← free_text bio_str;
      mret (- XFIREDB_ERR)
    else
      s ← lift (get_string ct);
      s ← lift (string_set junk s str);
      _ ← put_container c (CString s);
      _ ← queue bio_key NULL bio_str STRING_UPDATE;
      mret (- XFIREDB_OK)
  else
    c ← container_alloc CONTAINER_STRING;
    ct ← get_container c;
    s ← lift (get_string ct);
    s ← lift (string_set junk s str);
    _ ← put_container c (CString s);
    rv ← store_db key c;
    if negb (rv =? 0) then mret rv
    else
      _ ← queue bio_key NULL bio_str STRING_ADD;
      mret rv.

(** ** Lists *)

Definition xfiredb_list_length (key : string) : M Z :=
  '(rv, c) ← lookup_db key;
  if failed rv then mret (- XFIREDB_ERR)
  else
    ct ← get_container c;
    if negb (container_check_type ct CONTAINER_LIST) then mret (- XFIREDB_ERR)
    else
      '(lh, _, _) ← lift (get_list ct);
      mret (list_length lh).

(** [s = string_alloc(data); list_rpush(h, &s->entry)] and its left-hand twin. *)
Definition push_new (c : loc) (data : string) (left : bool) : M () :=
  n ← new_addr;
  s ← lift (string_alloc data);
  ct ← get_container c;
  '(lh, h, ns) ← lift (get_list ct);
  let '(h, ns) := node_alloc n s h ns in
  '(h, lh) ← lift (if left then list_lpush h lh n else list_rpush h lh n);
  put_container c (CList lh h ns).

Definition xfiredb_list_push (key data : string) (left : bool) : M Z :=
  '(rv, c) ← lookup_db key;
  '(c, new, ok) ← (if failed rv then c ← container_alloc CONTAINER_LIST; mret (c, true, true)
                   else ct ← get_container c; mret (c, false, container_check_type ct CONTAINER_LIST));
  if negb ok then mret (- XFIREDB_ERR)
  else
    bio_data ← sprintf data;
    bio_key ← sprintf key;
    _ ← queue bio_key NULL bio_data LIST_ADD;
    _ ← push_new c data left;
    if new : bool then _ ← store_db key c; mret (- XFIREDB_OK) else mret (- XFIREDB_OK).

(** [if(idx[counter] < 0) idx[counter] += list_length(lh);] *)
Definition fix_index (idx : list Z) (counter : nat) (len : Z) : outcome (list Z * Z) :=
  v ← deref (idx !! counter);
  let v := if v <? 0 then s32 (v + len) else v in
  Done (<[counter := v]> idx, v).

(** The loop of [xfiredb_list_pop]; [tmp] is the saved successor of [cur]. *)
Fixpoint list_pop_loop (fuel : nat) (key : string) (c cur tmp : loc) (idx : list Z) (num : Z)
    (i : Z) (counter : nat) : M nat :=
  match fuel with
  | O => λ _, OutOfFuel
  | S fuel' =>
      ct ← get_container c;
      '(lh, h, ns) ← lift (get_list ct);
      if decide (cur = lh_head lh) then mret counter
      else
        '(idx, v) ← lift (fix_index idx counter (list_length lh));
        counter ← (if v =? i then
                     '(h, lh) ← lift (list_del h lh cur);
                     bio_key ← sprintf key;
                     data ← lift (node_text ns cur);
                     bio_data ← sprintf data;
                     _ ← queue bio_key bio_data NULL LIST_DEL;
                     let '(h, ns) := node_free cur h ns in
                     _ ← put_container c (CList lh h ns);
                     mret (S counter)
                   else mret counter);
        if num <=? Z.of_nat counter then mret counter
        else
          ct ← get_container c;
          '(_, h, _) ← lift (get_list ct);
          next ← lift (get_next h tmp);
          list_pop_loop fuel' key c tmp next idx num (i + 1) counter
  end.

(** [if(list_length(lh) <= 0) ...]: an empty list goes. *)
Definition drop_empty_list (key : string) (c : loc) : M () :=
  ct ← get_container c;
  '(lh, _, _) ← lift (get_list ct);
  if list_length lh <=? 0 then
    '(rv, _) ← delete_db key;
    if negb (rv =? 0) then mret () else free_container c
  else mret ().

Definition xfiredb_list_pop (fuel : nat) (key : string) (idx : list Z) (num : Z) : M Z :=
  '(rv, c) ← lookup_db key;
  if failed rv then mret 0
  else
    ct ← get_container c;
    if negb (container_check_type ct CONTAINER_LIST) then mret (- XFIREDB_ERR)
    else
      '(lh, h, _) ← lift (get_list ct);
      cur ← lift (get_next h (lh_head lh));
      tmp ← lift (get_next h cur);
      counter ← list_pop_loop fuel key c cur tmp idx num 0 0;
      _ ← drop_empty_list key c;
      mret (Z.of_nat counter).

(** The loop of [xfiredb_list_get]: the texts stored to [data[0]], [data[1]], ... *)
Fixpoint list_get_loop (fuel : nat) (lh : list_head) (h : lheap) (ns : nodes) (cur : loc)
    (idx : list Z) (num i : Z) (counter : nat) : outcome (list string) :=
  match fuel with
  | O => OutOfFuel
  | S fuel' =>
      if decide (cur = lh_head lh) then Done []
      else
        '(idx, v) ← fix_index idx counter (list_length lh);
        '(data, counter) ← (if v =? i then t ← node_text ns cur; Done ([t], S counter)
                            else Done ([], counter));
        if num <=? Z.of_nat counter then Done data
        else
          next ← get_next h cur;
          rest ← list_get_loop fuel' lh h ns next idx num (i + 1) counter;
          Done (data ++ rest)
  end.

Definition xfiredb_list_get (fuel : nat) (key : string) (idx : list Z) (num : Z) : M (Z * list string) :=
  '(rv, c) ← lookup_db key;
  if failed rv then mret (- XFIREDB_ERR, [])
  else
    ct ← get_container c;
    if negb (container_check_type ct CONTAINER_LIST) then mret (- XFIREDB_ERR, [])
    else
      '(lh, h, ns) ← lift (get_list ct);
      cur ← lift (get_next h (lh_head lh));
      data ← lift (list_get_loop fuel lh h ns cur idx num 0 0);
      mret (- XFIREDB_OK, data).

(** The loop of [xfiredb_list_set]. *)
Fixpoint list_set_loop (fuel : nat) (c cur : loc) (idx : Z) (data : string) (bio_key bio_newdata : loc)
    (i : Z) : M Z :=
  match fuel with
  | O => λ _, OutOfFuel
  | S fuel' =>
      ct ← get_container c;
      '(lh, h, ns) ← lift (get_list ct);
      if decide (cur = lh_head lh) then mret (- XFIREDB_ERR)
      else if i =? idx then
        old ← lift (node_text ns cur);
        bio_data ← sprintf old;
        _ ← queue bio_key bio_data bio_newdata LIST_UPDATE;
        s ← lift (deref (ns !! cur));
        s ← lift (string_set junk s data);
        _ ← put_container c (CList lh h (<[cur := s]> ns));
        mret (- XFIREDB_OK)
      else
        let i := i + 1 in
        if list_length lh <=? i then _ ← push_new c data false; mret (- XFIREDB_OK)
        else
          next ← lift (get_next h cur);
          list_set_loop fuel' c next idx data bio_key bio_newdata i
  end.

Definition xfiredb_list_set (fuel : nat) (key : string) (idx : Z) (data : string) : M Z :=
  '(rv, c) ← lookup_db key;
  if failed rv then xfiredb_list_push key data false
  else
    ct ← get_container c;
    if negb (container_check_type ct CONTAINER_LIST) then mret (- XFIREDB_ERR)
    else
      '(lh, h, _) ← lift (get_list ct);
      bio_key ← sprintf key;
      bio_newdata ← sprintf data;
      if list_length lh =? 0 then
        _ ← push_new c data false;
        _ ← queue bio_key NULL bio_newdata LIST_ADD;
        mret (- XFIREDB_OK)
      else
        cur ← lift (get_next h (lh_head lh));
        list_set_loop fuel c cur idx data bio_key bio_newdata 0.

(** ** Hash maps *)

Fixpoint hashmap_get_loop (hm : hashmap T) (ns : nodes) (skeys : list string) : outcome (list (option string)) :=
  match skeys with
  | [] => Done []
  | k :: skeys =>
      node ← hashmap_find hm k;
      t ← match node with None => Done None | Some n => t ← node_text ns n; Done (Some t) end;
      rest ← hashmap_get_loop hm ns skeys;
      Done (t :: rest)
  end.

(** [None] in the result: [data[i]] is not assigned. *)
Definition xfiredb_hashmap_get (key : string) (skeys : list string) : M (Z * list (option string)) :=
  '(rv, c) ← lookup_db key;
  if failed rv then mret (- XFIREDB_ERR, [])
  else
    ct ← get_container c;
    if negb (container_check_type ct CONTAINER_HASHMAP) then mret (- XFIREDB_ERR, [])
    else
      '(hm, ns) ← lift (get_hashmap ct);
      data ← lift (hashmap_get_loop hm ns skeys);
      mret (- XFIREDB_OK, data).

Fixpoint hashmap_remove_loop (key : string) (c : loc) (skeys : list string) (rmnum : Z) : M Z :=
  match skeys with
  | [] => mret rmnum
  | k :: skeys =>
      ct ← get_container c;
      '(hm, ns) ← lift (get_hashmap ct);
      '(hm, node) ← lift (hashmap_remove hm k);
      match node with
      | None => _ ← put_container c (CHashmap hm ns); hashmap_remove_loop key c skeys rmnum
      | Some n =>
          bio_key ← sprintf key;
          bio_skey ← sprintf k;
          _ ← queue bio_key bio_skey NULL HM_DEL;
          hm ← lift (hashmap_node_destroy n hm);
          let '(hm, ns) := hm_free n hm ns in
          _ ← put_container c (CHashmap hm ns);
          hashmap_remove_loop key c skeys (rmnum + 1)
      end
  end.

Definition drop_empty_hashmap (key : string) (c : loc) : M () :=
  ct ← get_container c;
  '(hm, _) ← lift (get_hashmap ct);
  if hashmap_size hm =? 0 then
    '(rv, _) ← delete_db key;
    if negb (rv =? 0) then mret () else free_container c
  else mret ().

Definition xfiredb_hashmap_remove (key : string) (skeys : list string) : M Z :=
  '(rv, c) ← lookup_db key;
  if failed rv then mret 0
  else
    ct ← get_container c;
    if negb (container_check_type ct CONTAINER_HASHMAP) then mret 0
    else
      rmnum ← hashmap_remove_loop key c skeys 0;
      _ ← drop_empty_hashmap key c;
      mret rmnum.

(** [s = string_alloc(data); hashmap_add(hm, skey, &s->node)] *)
Definition add_new (c : loc) (skey data : string) : M () :=
  n ← new_addr;
  s ← lift (string_alloc data);
  ct ← get_container c;
  '(hm, ns) ← lift (get_hashmap ct);
  let '(hm, ns) := hm_alloc n s hm ns in
  '(hm, _) ← lift (hashmap_add (coin n) hm skey n);
  put_container c (CHashmap hm ns).

Definition xfiredb_hashmap_set (key skey data : string) : M Z :=
  '(rv, c) ← lookup_db key;
  '(c, new, ok) ← (if failed rv then c ← container_alloc CONTAINER_HASHMAP; mret (c, true, true)
                   else ct ← get_container c; mret (c, false, container_check_type ct CONTAINER_HASHMAP));
  if negb ok then mret (- XFIREDB_ERR)
  else
    ct ← get_container c;
    '(hm, ns) ← lift (get_hashmap ct);
    node ← lift (hashmap_find hm skey);
    bio_key ← sprintf key;
    bio_skey ← sprintf skey;
    bio_data ← sprintf data;
    _ ← match node with
        | None =>
            _ ← add_new c skey data;
            queue bio_key bio_skey bio_data HM_ADD
        | Some n =>
            s ← lift (deref (ns !! n));
            s ← lift (string_set junk s data);
            _ ← put_container c (CHashmap hm (<[n := s]> ns));
            queue bio_key bio_skey bio_data HM_UPDATE
        end;
    if new : bool then _ ← store_db key c; mret (- XFIREDB_OK) else mret (- XFIREDB_OK).

(** ** Whole keys *)

(** The loop of [xfiredb_key_delete] over a list: one [bio_key] for every node. *)
Fixpoint delete_list_loop (fuel : nat) (bio_key : loc) (c cur tmp : loc) (rv : Z) : M Z :=
  match fuel with
  | O => λ _, OutOfFuel
  | S fuel' =>
      ct ← get_container c;
      '(lh, h, ns) ← lift (get_list ct);
      if decide (cur = lh_head lh) then mret rv
      else
        data ← lift (node_text ns cur);
        bio_data ← sprintf data;
        _ ← queue bio_key bio_data NULL LIST_DEL;
        '(h, lh) ← lift (list_del h lh cur);
        let '(h, ns) := node_free cur h ns in
        _ ← put_container c (CList lh h ns);
        next ← lift (get_next h tmp);
        delete_list_loop fuel' bio_key c tmp next (rv + 1)
  end.

(** The loop over a hash map; [hook]: the caller's hook gets the key and the text of a
    node before it goes.  Returns what the hook got. *)
Fixpoint delete_hashmap_loop (fuel : nat) (hook : bool) (key : string) (c : loc) (it : I)
    : M (list (string * string)) :=
  match fuel with
  | O => λ _, OutOfFuel
  | S fuel' =>
      ct ← get_container c;
      '(hm, ns) ← lift (get_hashmap ct);
      '(it, node) ← lift (hashmap_iterator_next hm it);
      match node with
      | None => mret []
      | Some n =>
          nkey ← lift (deref (hm_key_str hm !! n));
          called ← (if hook then data ← lift (node_text ns n); mret [(nkey, data)] else mret []);
          bio_key ← sprintf key;
          bio_skey ← sprintf nkey;
          _ ← queue bio_key bio_skey NULL HM_DEL;
          '(hm, it, _) ← lift (hashmap_iterator_delete hm it);
          hm ← lift (hashmap_node_destroy n hm);
          let '(hm, ns) := hm_free n hm ns in
          _ ← put_container c (CHashmap hm ns);
          rest ← delete_hashmap_loop fuel' hook key c it;
          mret (called ++ rest)
      end
  end.

Definition xfiredb_key_delete (fuel : nat) (key : string) : M Z :=
  '(rv, c) ← delete_db key;
  if failed rv then mret 0
  else
    ct ← get_container c;
    match c_type ct with
    | CONTAINER_STRING =>
        bio_key ← sprintf key;
        _ ← queue bio_key NULL NULL STRING_DEL;
        _ ← free_container c;
        mret 1
    | CONTAINER_LIST =>
        bio_key ← sprintf key;
        '(lh, h, _) ← lift (get_list ct);
        cur ← lift (get_next h (lh_head lh));
        tmp ← lift (get_next h cur);
        rv ← delete_list_loop fuel bio_key c cur tmp 0;
        _ ← free_container c;
        mret rv
    | CONTAINER_HASHMAP =>
        '(hm, _) ← lift (get_hashmap ct);
        let rv := hashmap_size hm in
        _ ← delete_hashmap_loop fuel false key c (hashmap_new_iterator hm);
        _ ← free_container c;
        mret rv
    | CONTAINER_SET => mret (- XFIREDB_ERR)
    end.

(** The loop of [xfiredb_list_clear]: the texts the hook is called with. *)
Fixpoint clear_list_loop (fuel : nat) (key : string) (c cur tmp : loc) : M (list string) :=
  match fuel with
  | O => λ _, OutOfFuel
  | S fuel' =>
      ct ← get_container c;
      '(lh, h, ns) ← lift (get_list ct);
      if decide (cur = lh_head lh) then mret []
      else
        '(h, lh) ← lift (list_del h lh cur);
        bio_key ← sprintf key;
        data ← lift (node_text ns cur);
        bio_data ← sprintf data;
        _ ← queue bio_key bio_data NULL LIST_DEL;
        let '(h, ns) := node_free cur h ns in
        _ ← put_container c (CList lh h ns);
        next ← lift (get_next h tmp);
        rest ← clear_list_loop fuel' key c tmp next;
        mret (data :: rest)
  end.

Definition xfiredb_list_clear (fuel : nat) (key : string) : M (Z * list string) :=
  '(rv, c) ← lookup_db key;
  if negb (rv =? XFIREDB_OK) then mret (- XFIREDB_ERR, [])
  else
    ct ← get_container c;
    if negb (container_check_type ct CONTAINER_LIST) then mret (- XFIREDB_ERR, [])
    else
      '(lh, h, _) ← lift (get_list ct);
      cur ← lift (get_next h (lh_head lh));
      tmp ← lift (get_next h cur);
      hooked ← clear_list_loop fuel key c cur tmp;
      _ ← free_container c;
      mret (- XFIREDB_OK, hooked).

Definition xfiredb_hashmap_clear (fuel : nat) (key : string) : M (Z * list (string * string)) :=
  '(rv, c) ← lookup_db key;
  if negb (rv =? XFIREDB_OK) then mret (- XFIREDB_ERR, [])
  else
    ct ← get_container c;
    if negb (container_check_type ct CONTAINER_HASHMAP) then mret (- XFIREDB_ERR, [])
    else
      '(hm, _) ← lift (get_hashmap ct);
      hooked ← delete_hashmap_loop fuel true key c (hashmap_new_iterator hm);
      _ ← free_container c;
      mret (- XFIREDB_OK, hooked).

(** ** Storing and loading containers *)

(** Queueing one change that [xfiredb_store_container] makes. *)
Definition store_change (key : string) (arg newdata : option string) (op : bio_operation_t) : M () :=
  key ← sprintf key;
  newdata ← match newdata with Some v => sprintf v | None => mret NULL end;
  arg ← match arg with Some a => sprintf a | None => mret NULL end;
  queue key arg newdata op.

Fixpoint store_list (key : string) (ns : nodes) (l : list loc) : M () :=
  match l with
  | [] => mret ()
  | n :: l =>
      value ← lift (node_text ns n);
      _ ← store_change key None (Some value) LIST_ADD;
      store_list key ns l
  end.

Fixpoint store_hashmap (fuel : nat) (key : string) (hm : hashmap T) (ns : nodes) (it : I) : M () :=
  match fuel with
  | O => λ _, OutOfFuel
  | S fuel' =>
      '(it, node) ← lift (hashmap_iterator_next hm it);
      match node with
      | None => mret ()
      | Some n =>
          value ← lift (node_text ns n);
          nkey ← lift (deref (hm_key_str hm !! n));
          _ ← store_change key (Some nkey) (Some value) HM_ADD;
          store_hashmap fuel' key hm ns it
      end
  end.

Fixpoint store_set (fuel : nat) (key : string) (s : set T) (it : I) : M () :=
  match fuel with
  | O => λ _, OutOfFuel
  | S fuel' =>
      '(it, node) ← lift (set_iterator_next s it);
      match node with
      | None => mret ()
      | Some k =>
          skey ← lift (deref (set_key_str s !! k));
          _ ← store_change key (Some skey) None SET_ADD;
          store_set fuel' key s it
      end
  end.

Definition xfiredb_store_container (fuel : nat) (load_state : bool) (key : string) (c : loc) : M () :=
  if negb load_state then mret ()
  else
    ct ← get_container c;
    match ct with
    | CString s => value ← lift (text_of s); store_change key None (Some value) STRING_ADD
    | CList lh h ns => l ← lift (list_for_each fuel h lh); store_list key ns l
    | CHashmap hm ns => store_hashmap fuel key hm ns (hashmap_new_iterator hm)
    | CSet s => store_set fuel key s (set_iterator_new s)
    end.

(** A type that is not known is 0, which is [CONTAINER_STRING]. *)
Definition xfiredb_get_row_type (cell : string) : container_type_t :=
  if strcmp_eq cell "string" then CONTAINER_STRING
  else if strcmp_eq cell "list" then CONTAINER_LIST
  else if strcmp_eq cell "hashmap" then CONTAINER_HASHMAP
  else if strcmp_eq cell "set" then CONTAINER_SET
  else CONTAINER_STRING.

(** [k = xfiredb_zalloc(sizeof( *k )); set_add(set, skey, k)] *)
Definition add_new_key (c : loc) (skey : string) : M () :=
  k ← new_addr;
  ct ← get_container c;
  s ← lift (get_set ct);
  let s := Set_ (ki_zalloc (set_list s) k) (set_num s) (set_key_str s) in
  '(s, _) ← lift (set_add (coin k) s skey k);
  put_container c (CSet s).

(** The container a row belongs to, and whether it must be stored. *)
Definition row_container (available : bool) (ptr : loc) (type : container_type_t) : M loc :=
  if available then mret ptr else container_alloc type.

(** [xfiredb_load] on one row of four cells. *)
Definition xfiredb_load (key skey type data : string) : M () :=
  '(rv, ptr) ← lookup_db key;
  let available := rv =? - XFIREDB_OK in
  match xfiredb_get_row_type type with
  | CONTAINER_STRING =>
      if available then mret ()
      else
        c ← container_alloc CONTAINER_STRING;
        ct ← get_container c;
        s ← lift (get_string ct);
        s ← lift (string_set junk s data);
        _ ← put_container c (CString s);
        _ ← store_db key c;
        mret ()
  | CONTAINER_LIST =>
      c ← row_container available ptr CONTAINER_LIST;
      _ ← push_new c data false;
      if available then mret () else _ ← store_db key c; mret ()
  | CONTAINER_HASHMAP =>
      c ← row_container available ptr CONTAINER_HASHMAP;
      _ ← add_new c skey data;
      if available then mret () else _ ← store_db key c; mret ()
  | CONTAINER_SET =>
      c ← row_container available ptr CONTAINER_SET;
      _ ← add_new_key c skey;
      if available then mret () else _ ← store_db key c; mret ()
  end.

(** [disk_load] with [xfiredb_load_hook]: the rows in order. *)
Fixpoint xfiredb_load_rows (rows : list row) : M () :=
  match rows with
  | [] => mret ()
  | r :: rows => _ ← xfiredb_load (r_key r) (r_skey r) (r_type r) (r_value r); xfiredb_load_rows rows
  end.
End Engine.
