(* ===== verification/EngineSpec.v ===== *)
(** * What the engine state represents, and its primitives

    The database is a finite map from keys to values: a text, a list of texts, a map
    from keys to texts, a set of keys.  [eng_rep] relates the state of [Engine] to
    that map and to the changes that were queued. *)
From S2P Require Import Prelude Chain Atomic Mem CList CString KeyIndex SetMap Database Disk Bio BioSpec Container ContainerSpec Engine.
Local Open Scope Z_scope.

(** ** Computations *)

Lemma stm_bind_run {S A B} (m : stm S A) (f : A → stm S B) s s' a :
  m s = Done (s', a) → (m ≫= f) s = f a s'.
Proof. intros H. unfold mbind, stm_bind. by rewrite H. Qed.

Lemma lift_run {D T A} (o : outcome A) (a : A) (s : engine D T) : o = Done a → lift o s = Done (s, a).
Proof. by intros ->. Qed.

(** [run H]: the first computation does what [H] says; [calc]: it is a computation
    that only needs to be evaluated. *)
Ltac run H := rewrite (stm_bind_run _ _ _ _ _ H); cbn beta iota.
Ltac calc H := rewrite (stm_bind_run _ _ _ _ _ (lift_run _ _ _ H)); cbn beta iota.

Lemma failed_ok : failed (- XFIREDB_OK) = false.
Proof. done. Qed.
Lemma failed_err : failed (- XFIREDB_ERR) = true.
Proof. done. Qed.

(** [ret]: the first computation is a result already. *)
Ltac ret := erewrite (stm_bind_run (lift _)) by (apply lift_run; reflexivity); cbn beta iota.

(** [cond]: the first condition is a closed one. *)
Ltac cond :=
  match goal with
  | |- context [if ?b then _ else _] => let v := eval vm_compute in b in change b with v
  end; cbn beta iota.

(** The strings on their way, by address. *)
Ltac out_lookup := repeat first [rewrite lookup_insert_eq | rewrite lookup_insert_ne by congruence]; done.

(** ** Texts *)

Lemma text_of_ok s t : str_is s t → text_of s = Done t.
Proof.
  intros [Hs Hn]. unfold text_of, string_get. rewrite Hs. cbn [deref]. rewrite bind_Done.
  unfold cstr_region. rewrite (region_cstr_app (bytes t) []) by done. by rewrite bind_Done, of_bytes_bytes.
Qed.

Lemma node_text_ok ns n t : node_is ns n t → node_text ns n = Done t.
Proof. intros (s & Hs & Ht). unfold node_text. rewrite Hs. cbn [deref]. rewrite bind_Done. by apply text_of_ok. Qed.

(** ** The queue with strings that are not handed over yet *)

Definition bio_has (b : bio) (js : list job) (out : gmap loc string) : Prop :=
  ∃ es, bio_ok b es js ∧ out ⊆ b_strs b ∧ ∀ a, is_Some (out !! a) → a ∉ owns es.

Lemma bio_has_weaken b js out out' : bio_has b js out → out' ⊆ out → bio_has b js out'.
Proof.
  intros (es & Hok & Hs & Ho) Hsub. exists es. split; [done|]. split; [by etransitivity|].
  intros a [t Ha]. apply Ho. exists t. by eapply lookup_weaken.
Qed.

Lemma bio_has_init : bio_has bio_init [] ∅.
Proof. exists []. split; [apply bio_init_ok|]. split; [apply map_empty_subseteq|]. intros a [x Hx]. by rewrite lookup_empty in Hx. Qed.

Lemma bio_has_sprintf b js out t :
  bio_has b js out →
  bio_has (xfiredb_sprintf t b).1 js (<[b_brk b := t]> out) ∧ out !! b_brk b = None ∧ b_brk b ≠ NULL ∧
  (xfiredb_sprintf t b).2 = b_brk b.
Proof.
  intros (es & Hok & Hs & Ho).
  destruct (copy_opt_ok b es js (Some t) _ _ eq_refl Hok) as (Hok' & Ha & _ & _ & Hold & _).
  pose proof (bo_mem _ _ _ Hok) as Hm. pose proof (mo_brk _ Hm).
  assert (b_strs b !! b_brk b = None) as Hnone.
  { destruct (b_strs b !! b_brk b) eqn:E; [|done]. pose proof (mo_strs _ Hm _ ltac:(by eexists)). lia. }
  split_and!; [|by eapply lookup_weaken_None|unfold NULL in *; lia|done].
  exists es. split; [done|]. split; [by apply insert_mono|].
  intros a [t' [[<- _]|[_ Hl]]%lookup_insert_Some]; [|apply Ho; by eexists].
  intros Hin. eapply owns_strs in Hin; [|apply Hok]. rewrite Hnone in Hin. by destruct Hin.
Qed.

Lemma bio_has_queue lvl b js out key arg new j :
  0 ≤ lvl < 3 → bio_has b js out →
  out !! key = Some (j_key j) → opt_str out arg (j_arg j) → opt_str out new (j_new j) →
  key ≠ arg → key ≠ new → (arg = NULL ∨ arg ≠ new) →
  ∃ b', bio_queue_add lvl key arg new (j_op j) b = Done b' ∧
    bio_has b' (js ++ [j]) (delete new (delete arg (delete key out))).
Proof.
  intros Hl (es & Hok & Hs & Ho) Hk Ha Hn H1 H2 H3.
  assert (b_strs b !! NULL = None) as Hnull by (by apply mem_null; destruct Hok).
  assert (∀ a o, opt_str out a o → opt_str (b_strs b) a o) as Hopt.
  { intros a [t|]; simpl; [intros Hat; by eapply lookup_weaken|done]. }
  assert (∀ a o, opt_str out a o → a ≠ NULL → is_Some (out !! a)) as Hin.
  { intros a [t|]; simpl; [by eexists|done]. }
  set (e := QEnt (b_brk b) key arg new (j_op j)).
  assert (∀ a, a ∈ e_strs e → is_Some (out !! a)) as He.
  { intros a [Hn0 Hin0]%list_elem_of_filter. simpl in Hin0.
    apply elem_of_cons in Hin0 as [->|Hin0]; [by eexists|].
    apply elem_of_cons in Hin0 as [->|Hin0]; [by eapply Hin|].
    apply list_elem_of_singleton in Hin0 as ->. by eapply Hin. }
  destruct (bio_add_ok lvl b es js key arg new j Hl Hok) as (b' & -> & Hok' & Hst & _).
  { split; [done|by eapply lookup_weaken|by apply Hopt..]. }
  { apply list.NoDup_app. split_and!; [apply Hok|intros a Hao Hae; by apply (Ho a); [apply He|]|].
    unfold e_strs. simpl. clear He. repeat (rewrite filter_cons; case_decide); rewrite filter_nil;
      repeat (constructor; [set_unfold; naive_solver|]); constructor. }
  exists b'. split; [done|]. exists (es ++ [e]). split; [done|]. split.
  - rewrite Hst. etransitivity; [|exact Hs]. do 2 (etransitivity; [apply delete_subseteq|]). apply delete_subseteq.
  - intros a [t (? & (? & (? & Hat)%lookup_delete_Some)%lookup_delete_Some)%lookup_delete_Some].
    rewrite owns_app, owns_one. intros [Hao|Hae]%elem_of_app; [by apply (Ho a); [eexists|]|].
    apply list_elem_of_filter in Hae as [_ Hae]. simpl in Hae. set_unfold. naive_solver.
Qed.

(** ** The map a state represents *)

Section Rep.
Context {D T I : Type} `{KV : KVStore D} {KL : KVStoreLaws D} `{KI : KeyIndex T I} {IL : KeyIndexLaws T I}.
Context (malloc : D → loc) (lvl : Z).

(** [dm] is the database, [js] what was queued, [out] the strings on their way. *)
Record eng_rep (s : engine D T) (dm : gmap string Z) (m : gmap string value) (js : list job)
    (out : gmap loc string) : Prop := {
  er_db : kv_rep (db_container (g_db s)) dm;
  er_bio : bio_has (g_bio s) js out;
  er_conts k : match dm !! k, m !! k with
               | Some c, Some v => c < g_brk s ∧ ∃ ct, g_conts s !! c = Some ct ∧ cont_rep ct (g_brk s) v
               | None, None => True
               | _, _ => False
               end;
  er_inj k1 k2 c : dm !! k1 = Some c → dm !! k2 = Some c → k1 = k2 }.

Definition eng_ok (s : engine D T) (m : gmap string value) (js : list job) : Prop :=
  ∃ dm, eng_rep s dm m js ∅.

(** The container at [c] holds [v]; it is stored under [key], or under no key. *)
Record cont_at (s : engine D T) (dm : gmap string Z) (att : option string) (c : loc) (ct : container T)
    (v : value) : Prop := {
  ca_get : g_conts s !! c = Some ct;
  ca_rep : cont_rep ct (g_brk s) v;
  ca_below : c < g_brk s;
  ca_att : match att with Some key => dm !! key = Some c | None => ∀ k, dm !! k ≠ Some c end }.

(** The same without a word about what it holds. *)
Record loc_at (s : engine D T) (dm : gmap string Z) (att : option string) (c : loc) (ct : container T) : Prop := {
  lc_get : g_conts s !! c = Some ct;
  lc_below : c < g_brk s;
  lc_att : match att with Some key => dm !! key = Some c | None => ∀ k, dm !! k ≠ Some c end }.

Lemma cont_at_loc s dm att c ct v : cont_at s dm att c ct v → loc_at s dm att c ct.
Proof. by intros [? ? ? ?]. Qed.

Lemma loc_cont_at s dm att c ct v : loc_at s dm att c ct → cont_rep ct (g_brk s) v → cont_at s dm att c ct v.
Proof. by intros [? ? ?]. Qed.

Definition upd (att : option string) (v : value) (m : gmap string value) : gmap string value :=
  match att with Some key => <[key := v]> m | None => m end.

Lemma cont_rep_mono (ct : container T) b1 b2 v : cont_rep ct b1 v → b1 ≤ b2 → cont_rep ct b2 v.
Proof.
  intros Hr Hle. destruct ct, v; simpl in *; try done.
  - destruct Hr as (es & Hr). exists es. by eapply list_at_mono.
  - destruct Hr as (nm & H1 & [H2 H2'] & H3). exists nm. split_and!; [done| |apply H3..].
    split; [lia|]. intros k n Hn. specialize (H2' k n Hn). lia.
  - destruct Hr as (nm & H1 & [H2 H2'] & H3). exists nm. split_and!; [done| |done].
    split; [lia|]. intros k n Hn. specialize (H2' k n Hn). lia.
Qed.

(** Nothing but the queue and the store may differ. *)
Definition same (s s' : engine D T) : Prop := g_conts s' = g_conts s ∧ g_brk s' = g_brk s.

Lemma cont_at_same s s' dm att c ct v : same s s' → cont_at s dm att c ct v → cont_at s' dm att c ct v.
Proof. intros [Hc Hb] [? ? ? ?]. by split; rewrite ?Hc, ?Hb. Qed.

Lemma loc_at_same s s' dm att c ct : same s s' → loc_at s dm att c ct → loc_at s' dm att c ct.
Proof. intros [Hc Hb] [? ? ?]. by split; rewrite ?Hc, ?Hb. Qed.

Lemma eng_rep_out s dm m js out out' : eng_rep s dm m js out → out' ⊆ out → eng_rep s dm m js out'.
Proof. intros [H1 H2 H3 H4] Hs. split; [done|by eapply bio_has_weaken|done|done]. Qed.

Lemma eng_rep_done s dm m js out : eng_rep s dm m js out → eng_ok s m js.
Proof. intros Hr. exists dm. eapply eng_rep_out; [done|apply map_empty_subseteq]. Qed.

(** *** The primitives *)

Lemma lookup_run s dm m js out key :
  eng_rep s dm m js out →
  ∃ s', same s s' ∧ eng_rep s' dm m js out ∧
    match m !! key with
    | None => ∃ p, lookup_db key s = Done (s', (- XFIREDB_ERR, p))
    | Some v => ∃ c ct, lookup_db key s = Done (s', (- XFIREDB_OK, c)) ∧ cont_at s' dm (Some key) c ct v
    end.
Proof.
  intros [H1 H2 H3 H4]. unfold lookup_db, db_lookup.
  destruct (kv_lookup_ok _ dm key NULL 0 H1) as (d & sz & -> & Hrep). rewrite bind_Done.
  exists (Engine (Database (db_name (g_db s)) d) (g_conts s) (g_brk s) (g_bio s)).
  split; [done|]. split; [by split|]. pose proof (H3 key) as Hk.
  destruct (dm !! key) as [c|] eqn:Hdm, (m !! key) as [v|]; try done; simpl.
  - destruct Hk as (Hc & ct & Hct & Hv). exists c, ct. split; [done|]. by split.
  - by eexists.
Qed.

Lemma get_run s dm att c ct : loc_at s dm att c ct → get_container c s = Done (s, ct).
Proof. intros [Hg _ _]. unfold get_container. by rewrite Hg. Qed.

Lemma new_addr_run s dm m js out :
  eng_rep s dm m js out →
  ∃ s', new_addr s = Done (s', g_brk s) ∧ eng_rep s' dm m js out ∧ g_brk s' = g_brk s + 1 ∧
    g_conts s' = g_conts s ∧ ∀ att c ct v, cont_at s dm att c ct v → cont_at s' dm att c ct v.
Proof.
  intros [H1 H2 H3 H4]. eexists. split; [done|]. split_and!; [|done..|].
  - split; [done|done| |done]. intros k. specialize (H3 k). simpl.
    destruct (dm !! k), (m !! k); try done. destruct H3 as (? & ct & ? & ?). split; [lia|].
    exists ct. split; [done|]. eapply cont_rep_mono; [done|lia].
  - intros att c ct v [G1 G2 G3 G4]. split; simpl; [done| |lia|done]. eapply cont_rep_mono; [done|lia].
Qed.

Lemma put_run s dm m js out att c ct ct' v' :
  eng_rep s dm m js out → loc_at s dm att c ct → cont_rep ct' (g_brk s) v' →
  ∃ s', put_container c ct' s = Done (s', ()) ∧ eng_rep s' dm (upd att v' m) js out ∧
    cont_at s' dm att c ct' v' ∧ g_brk s' = g_brk s.
Proof.
  intros [H1 H2 H3 H4] [G1 G3 G4] Hv. eexists. split; [done|]. split_and!; [| |done].
  - split; [done|done| |done]. intros k. specialize (H3 k). simpl.
    destruct att as [key|]; simpl in *.
    + destruct (decide (k = key)) as [->|Hne].
      * rewrite G4, lookup_insert_eq. split; [done|]. exists ct'. by rewrite lookup_insert_eq.
      * rewrite lookup_insert_ne by done. destruct (dm !! k) as [c'|] eqn:Hk, (m !! k); try done.
        destruct H3 as (? & x & ? & ?). split; [done|]. exists x.
        rewrite lookup_insert_ne; [done|]. intros <-. apply Hne. by eapply H4.
    + destruct (dm !! k) as [c'|] eqn:Hk, (m !! k); try done.
      destruct H3 as (? & x & ? & ?). split; [done|]. exists x.
      rewrite lookup_insert_ne; [done|]. intros <-. by apply (G4 k).
  - split; simpl; [by rewrite lookup_insert_eq|done..].
Qed.

Lemma sprintf_run s dm m js out t :
  eng_rep s dm m js out →
  ∃ s' a, sprintf t s = Done (s', a) ∧ same s s' ∧ eng_rep s' dm m js (<[a := t]> out) ∧
    out !! a = None ∧ a ≠ NULL.
Proof.
  intros [H1 H2 H3 H4]. destruct (bio_has_sprintf _ _ _ t H2) as (Hb & Hn & Hnull & Ha).
  unfold sprintf. destruct (xfiredb_sprintf t (g_bio s)) as [b a]. simpl in *. subst a.
  eexists _, _. split; [done|]. split; [done|]. split; [by split|done].
Qed.

Lemma queue_run s dm m js out key arg new j :
  0 ≤ lvl < 3 → eng_rep s dm m js out →
  out !! key = Some (j_key j) → opt_str out arg (j_arg j) → opt_str out new (j_new j) →
  key ≠ arg → key ≠ new → (arg = NULL ∨ arg ≠ new) →
  ∃ s', queue lvl key arg new (j_op j) s = Done (s', ()) ∧ same s s' ∧
    eng_rep s' dm m (js ++ [j]) (delete new (delete arg (delete key out))).
Proof.
  intros Hl [H1 H2 H3 H4] ? ? ? ? ? ?.
  destruct (bio_has_queue lvl _ js out key arg new j Hl H2) as (b & Hq & Hb); [done..|].
  unfold queue. rewrite Hq, bind_Done. eexists. split; [done|]. split; [done|]. by split.
Qed.

Lemma free_text_run s dm m js out a t :
  eng_rep s dm m js out → out !! a = Some t → a ≠ NULL →
  ∃ s', free_text a s = Done (s', ()) ∧ same s s' ∧ eng_rep s' dm m js (delete a out).
Proof.
  intros [H1 (es & Hok & Hs & Ho) H3 H4] Ha Hn. unfold free_text, free_str.
  rewrite decide_False by done. rewrite (lookup_weaken _ _ _ _ Ha Hs), bind_Done.
  eexists. split; [done|]. split; [done|]. split; [done| |done|done].
  exists es. destruct Hok as [Q1 Q2 Q3 Q4]. split; [split; [by destruct Q1| | |done]|].
  - destruct Q2 as [M1 M2 M3]. split; simpl; [done|done|]. intros x [y [_ Hy]%lookup_delete_Some]. apply M3. by eexists.
  - simpl. apply Forall2_same_length_lookup_2; [by eapply list.Forall2_length|].
    intros i e j He Hj. eapply (ent_job_frame (b_strs (g_bio s))); [|by apply mem_null|by eapply Forall2_lookup_lr].
    intros x Hx. apply lookup_delete_ne. intros <-. apply (Ho a); [by eexists|].
    unfold owns. apply elem_of_concat. exists i, (e_strs e). by rewrite list_lookup_fmap, He.
  - split; [by apply delete_mono|]. intros x [y [_ Hy]%lookup_delete_Some]. apply Ho. by eexists.
Qed.

(** Storing a container that is under no key. *)
Lemma store_run s dm m js out key c ct v :
  (∀ d, kv_fresh d (malloc d)) → eng_rep s dm m js out → Z.of_nat (size m) < 2 ^ 30 → m !! key = None →
  cont_at s dm None c ct v →
  ∃ s', store_db malloc key c s = Done (s', - XFIREDB_OK) ∧ eng_rep s' (<[key := c]> dm) (<[key := v]> m) js out ∧
    same s s'.
Proof.
  intros Hmal [H1 H2 H3 H4] Hsz Hnone [G1 G2 G3 G4].
  assert (size dm = size m) as Hsize.
  { rewrite <-!size_dom. f_equal. apply set_eq. intros k. rewrite !elem_of_dom. specialize (H3 k).
    destruct (dm !! k), (m !! k); try done; split; intros [? ?]; (done || by eexists). }
  assert (dm !! key = None) as Hd. { specialize (H3 key). rewrite Hnone in H3. by destruct (dm !! key). }
  unfold store_db, db_store. destruct (kv_add_ok _ dm key c (malloc (db_container (g_db s))) H1 ltac:(lia) (Hmal _))
    as (d & -> & Hrep). rewrite Hd in *. rewrite !bind_Done. eexists. split; [done|]. split; [|done].
  split; simpl; [done|done| |].
  - intros k. specialize (H3 k). destruct (decide (k = key)) as [->|Hne].
    + rewrite !lookup_insert_eq. split; [done|]. by exists ct.
    + by rewrite !lookup_insert_ne.
  - intros k1 k2 x [[<- <-]|[? E1]]%lookup_insert_Some [[<- Hx]|[? E2]]%lookup_insert_Some; try done.
    + by destruct (G4 k2).
    + subst x. by destruct (G4 k1).
    + by eapply H4.
Qed.

(** Taking a key out: its container stays, under no key. *)
Lemma delete_run s dm m js out key :
  eng_rep s dm m js out →
  ∃ s', same s s' ∧ eng_rep s' (delete key dm) (delete key m) js out ∧
    match m !! key with
    | None => ∃ p, delete_db key s = Done (s', (- XFIREDB_ERR, p))
    | Some v => ∃ c ct, delete_db key s = Done (s', (- XFIREDB_OK, c)) ∧ dm !! key = Some c ∧
        cont_at s' (delete key dm) None c ct v
    end.
Proof.
  intros [H1 H2 H3 H4]. unfold delete_db, db_delete.
  destruct (kv_delete_ok _ dm key NULL H1) as (d & -> & Hrep). rewrite bind_Done.
  exists (Engine (Database (db_name (g_db s)) d) (g_conts s) (g_brk s) (g_bio s)).
  split; [done|]. split.
  - split; simpl; [done|done| |].
    + intros k. specialize (H3 k). destruct (decide (k = key)) as [->|]; [by rewrite !lookup_delete_eq|].
      by rewrite !lookup_delete_ne.
    + intros k1 k2 c [_ E1]%lookup_delete_Some [_ E2]%lookup_delete_Some. by eapply H4.
  - pose proof (H3 key) as Hk. destruct (dm !! key) as [c|] eqn:Hdm, (m !! key) as [v|]; try done; simpl.
    + destruct Hk as (Hc & ct & Hct & Hv). exists c, ct. split; [done|]. split; [done|]. split; try done.
      intros k [Hne Hk]%lookup_delete_Some. apply Hne. by eapply H4.
    + by eexists.
Qed.

Lemma free_loc_run s dm m js out c ct :
  eng_rep s dm m js out → loc_at s dm None c ct →
  ∃ s', free_container c s = Done (s', ()) ∧ eng_rep s' dm m js out.
Proof.
  intros [H1 H2 H3 H4] [G1 G3 G4]. unfold free_container. rewrite G1. cbn [deref]. rewrite bind_Done.
  eexists. split; [done|]. split; simpl; [done|done| |done].
  intros k. specialize (H3 k). destruct (dm !! k) as [c'|] eqn:Hk, (m !! k); try done.
  destruct H3 as (? & x & ? & ?). split; [done|]. exists x. rewrite lookup_delete_ne; [done|].
  intros <-. by apply (G4 k).
Qed.

Lemma free_container_run s dm m js out c ct v :
  eng_rep s dm m js out → cont_at s dm None c ct v →
  ∃ s', free_container c s = Done (s', ()) ∧ eng_rep s' dm m js out.
Proof. intros Hr Hat. eapply free_loc_run; [done|by eapply cont_at_loc]. Qed.

(** A new container, under no key. *)
Lemma list_init_rep hdr brk ct :
  hdr < brk → container_init (T := T) hdr CONTAINER_LIST = Done ct → cont_rep ct brk (VList []).
Proof.
  intros Hb. cbn [container_init]. unfold list_head_init, list_node_init, set_next, set_prev.
  rewrite lookup_singleton_eq. cbn [deref]. rewrite !bind_Done, lookup_insert_eq. cbn [deref].
  rewrite !bind_Done. intros [= <-]. exists []. split; [|constructor|done|constructor].
  split; cbn [lh_head lh_num app reverse]; [apply NoDup_singleton| | |done].
  - unfold get_next. cbn [links rev_append app]. by rewrite lookup_insert_eq.
  - unfold get_prev. cbn [links rev_append app]. by rewrite lookup_insert_eq.
Qed.

Lemma hashmap_init_rep hdr brk ct :
  hdr < brk → container_init (T := T) hdr CONTAINER_HASHMAP = Done ct → cont_rep ct brk (VHashmap ∅).
Proof.
  intros Hb [= <-]. exists ∅. cbn [hm_list hashmap_init]. split_and!.
  - split; [apply ki_init_rep|done].
  - split; cbn [hm_list hashmap_init]; [by rewrite ki_hdr_init|]. intros k n. by rewrite lookup_empty.
  - intros k. by rewrite !lookup_empty.
  - intros k1 k2 n. by rewrite lookup_empty.
Qed.

Lemma set_init_rep hdr brk ct :
  hdr < brk → container_init (T := T) hdr CONTAINER_SET = Done ct → cont_rep ct brk (VSet ∅).
Proof.
  intros Hb [= <-]. exists ∅. split_and!; [| |by rewrite dom_empty_L].
  - split; [apply ki_init_rep|done|]. intros k n. by rewrite lookup_empty.
  - split; cbn [set_list set_init]; [by rewrite ki_hdr_init|]. intros k n. by rewrite lookup_empty.
Qed.

Lemma container_alloc_run s dm m js out type :
  eng_rep s dm m js out →
  ∃ s' c ct, container_alloc type s = Done (s', c) ∧ eng_rep s' dm m js out ∧ loc_at s' dm None c ct ∧
    match type with
    | CONTAINER_STRING => ct = CString string_init
    | CONTAINER_LIST => cont_rep ct (g_brk s') (VList [])
    | CONTAINER_HASHMAP => cont_rep ct (g_brk s') (VHashmap ∅)
    | CONTAINER_SET => cont_rep ct (g_brk s') (VSet ∅)
    end.
Proof.
  intros Hr. destruct (new_addr_run s dm m js out Hr) as (s1 & E1 & Hr1 & B1 & C1 & _).
  destruct (new_addr_run s1 dm m js out Hr1) as (s2 & E2 & Hr2 & B2 & C2 & _).
  assert (∃ ct, container_init (T := T) (g_brk s1) type = Done ct) as (ct & Hct).
  { destruct type; try by eexists. cbn [container_init]. unfold list_head_init, list_node_init, set_next, set_prev.
    rewrite lookup_singleton_eq. cbn [deref]. rewrite !bind_Done, lookup_insert_eq. cbn [deref].
    rewrite !bind_Done. by eexists. }
  assert (∀ k, dm !! k ≠ Some (g_brk s)) as Hnew.
  { intros k Hk. pose proof (er_conts _ _ _ _ _ Hr k) as Hc. rewrite Hk in Hc. destruct (m !! k); [lia|done]. }
  unfold container_alloc. rewrite (stm_bind_run _ _ _ _ _ E1), (stm_bind_run _ _ _ _ _ E2).
  rewrite (stm_bind_run _ _ _ _ _ (lift_run _ _ _ Hct)).
  destruct Hr2 as [H1 H2 H3 H4]. eexists _, _, ct. split; [done|]. split.
  - split; [done|done| |done]. intros k. specialize (H3 k). simpl.
    destruct (dm !! k) as [c'|] eqn:Hk, (m !! k); try done. destruct H3 as (? & x & ? & ?). split; [done|].
    exists x. rewrite lookup_insert_ne; [done|]. intros <-. by apply (Hnew k).
  - split; [split; simpl; [by rewrite lookup_insert_eq|lia|done]|]. cbn [g_brk].
    destruct type; [by injection Hct as <-|eapply list_init_rep|eapply hashmap_init_rep|eapply set_init_rep];
      try exact Hct; lia.
Qed.
End Rep.
