(* ===== verification/EngineStrings.v ===== *)
(** * Strings: what the engine's functions on them do

    Each operation is stated for every state that represents a map of values: its
    result, the map afterwards and the change that is queued. *)
From S2P Require Import Prelude Chain Atomic Mem CList CString KeyIndex SetMap Database Disk Bio BioSpec Container ContainerSpec Engine EngineSpec.
Local Open Scope Z_scope.

Section Strings.
Context {D T I : Type} `{KV : KVStore D} {KL : KVStoreLaws D} `{KI : KeyIndex T I} {IL : KeyIndexLaws T I}.
Context (malloc : D → loc) (junk lvl : Z).
Context (Hlvl : 0 ≤ lvl < 3) (Hmalloc : ∀ d, kv_fresh d (malloc d)).
Implicit Types (s : engine D T).

(** The result, the value afterwards and the change of [xfiredb_string_set]. *)
Definition string_set_spec (old : option value) (key str : string) : Z * option value * list job :=
  match old with
  | None => (- XFIREDB_OK, Some (VString str), [Job STRING_ADD key None (Some str)])
  | Some (VString _) => (- XFIREDB_OK, Some (VString str), [Job STRING_UPDATE key None (Some str)])
  | Some v => (- XFIREDB_ERR, Some v, [])
  end.

Definition write (key : string) (v : option value) (m : gmap string value) : gmap string value :=
  match v with Some v => <[key := v]> m | None => delete key m end.

Lemma write_same key m : write key (m !! key) m = m.
Proof. unfold write. destruct (m !! key) eqn:E; [by apply insert_id|by apply delete_id]. Qed.

Lemma check_type_rep (ct : container T) brk v type :
  cont_rep ct brk v → container_check_type ct type = bool_decide (type_of v = type).
Proof. intros Hr. unfold container_check_type. by rewrite (cont_rep_type ct brk v Hr). Qed.

Definition is_new (old : option value) : bool := match old with Some _ => false | None => true end.
Definition at_key (key : string) (old : option value) : option string :=
  match old with Some _ => Some key | None => None end.

(** The value that a new container of this type holds. *)
Definition empty_value (type : container_type_t) : value :=
  match type with
  | CONTAINER_STRING => VString ""
  | CONTAINER_LIST => VList []
  | CONTAINER_HASHMAP => VHashmap ∅
  | CONTAINER_SET => VSet ∅
  end.

(** The first lines of an operation that makes the container if it is not there. *)
Lemma enter_run s dm m js out key type :
  type ≠ CONTAINER_STRING → eng_rep s dm m js out →
  let v := default (empty_value type) (m !! key) in
  ∃ s' c ct, (∀ A (f : loc * bool * bool → stm (engine D T) A),
      ('(rv, c) ← lookup_db key;
       (if failed rv then c ← container_alloc type; mret (c, true, true)
        else ct ← get_container c; mret (c, false, container_check_type ct type)) ≫= f) s =
      f (c, is_new (m !! key), bool_decide (type_of v = type)) s') ∧
    eng_rep s' dm m js out ∧ cont_at s' dm (at_key key (m !! key)) c ct v.
Proof.
  intros Hty Hr v. destruct (lookup_run s dm m js out key Hr) as (s1 & _ & Hr1 & Hk).
  subst v. destruct (m !! key) as [v|]; cbn [default].
  - destruct Hk as (c & ct & Hl & Hat). exists s1, c, ct. split; [|done]. intros A f. run Hl. cond.
    rewrite (stm_bind_run _ f s1 s1 (c, false, bool_decide (type_of v = type))); [done|].
    run (get_run _ _ _ _ _ (cont_at_loc _ _ _ _ _ _ Hat)).
    by rewrite (check_type_rep _ _ _ _ (ca_rep _ _ _ _ _ _ Hat)).
  - destruct Hk as (p & Hl). destruct (container_alloc_run s1 dm m js out type Hr1) as (s2 & c & ct & E & Hr2 & Hloc & Hct).
    exists s2, c, ct. split.
    + intros A f. run Hl. cond. rewrite bool_decide_eq_true_2 by (by destruct type).
      erewrite (stm_bind_run _ f); [done|]. by run E.
    + split; [done|]. destruct Hloc as [? ? ?]. split; [done| |done..]. by destruct type.
Qed.

(** Its last lines. *)
Lemma leave_run s dm m js out key c ct v :
  eng_rep s dm (upd (at_key key (m !! key)) v m) js out → Z.of_nat (size m) < 2 ^ 30 →
  cont_at s dm (at_key key (m !! key)) c ct v →
  ∃ s', (if is_new (m !! key) then _ ← store_db malloc key c; mret (- XFIREDB_OK)
         else mret (- XFIREDB_OK)) s = Done (s', - XFIREDB_OK) ∧ eng_ok s' (<[key := v]> m) js.
Proof.
  intros Hr Hsz Hat. destruct (m !! key) as [v0|] eqn:Hm; cbn [is_new at_key upd] in *.
  - eexists. split; [done|]. by eapply eng_rep_done.
  - destruct (store_run malloc s dm m js out key c ct v Hmalloc Hr Hsz Hm Hat) as (s' & E & Hr' & _).
    run E. eexists. split; [done|]. by eapply eng_rep_done.
Qed.

(** A change with a new text. *)
Lemma change_new_run s dm m js key data op :
  eng_rep s dm m js ∅ →
  ∃ s', same s s' ∧ eng_rep s' dm m (js ++ [Job op key None (Some data)]) ∅ ∧
    ∀ A (f : stm (engine D T) A),
      (bd ← sprintf data; bk ← sprintf key; _ ← queue lvl bk NULL bd op; f) s = f s'.
Proof.
  intros Hr. destruct (sprintf_run s dm m js ∅ data Hr) as (s1 & bd & E1 & [S1 S1'] & Hr1 & _ & Hbd).
  destruct (sprintf_run s1 dm m js _ key Hr1) as (s2 & bk & E2 & [S2 S2'] & Hr2 & Hbk & Hbk').
  assert (bk ≠ bd) as Hne by (intros ->; by rewrite lookup_insert_eq in Hbk).
  destruct (queue_run lvl s2 dm m js _ bk NULL bd (Job op key None (Some data)) Hlvl Hr2)
    as (s3 & E3 & [S3 S3'] & Hr3); [out_lookup|done|cbn; out_lookup|done..|by left|].
  exists s3. split; [split; congruence|]. split; [eapply eng_rep_out; [done|apply map_empty_subseteq]|].
  intros A f. run E1. run E2. by run E3.
Qed.

(** Three texts, and the change that is made of them later. *)
Lemma texts_run s dm m js key arg data :
  eng_rep s dm m js ∅ →
  ∃ s' bk ba bd out, same s s' ∧ eng_rep s' dm m js out ∧
    (∀ A (f : loc → loc → loc → stm (engine D T) A),
      (bk ← sprintf key; ba ← sprintf arg; bd ← sprintf data; f bk ba bd) s = f bk ba bd s') ∧
    ∀ s2 dm2 m2 js2 op, eng_rep s2 dm2 m2 js2 out →
      ∃ s3, queue lvl bk ba bd op s2 = Done (s3, ()) ∧ same s2 s3 ∧
        eng_rep s3 dm2 m2 (js2 ++ [Job op key (Some arg) (Some data)]) ∅.
Proof.
  intros Hr. destruct (sprintf_run s dm m js ∅ key Hr) as (s1 & bk & E1 & [S1 S1'] & Hr1 & _ & Hbk).
  destruct (sprintf_run s1 dm m js _ arg Hr1) as (s2 & ba & E2 & [S2 S2'] & Hr2 & Hba & Hba').
  destruct (sprintf_run s2 dm m js _ data Hr2) as (s3 & bd & E3 & [S3 S3'] & Hr3 & Hbd & Hbd').
  apply lookup_insert_None in Hba as [_ Hba], Hbd as [[_ Hbd1]%lookup_insert_None Hbd2].
  exists s3, bk, ba, bd. eexists. split; [split; congruence|]. split; [exact Hr3|].
  split; [intros A f; run E1; run E2; by run E3|]. intros s4 dm2 m2 js2 op Hr4.
  destruct (queue_run lvl s4 dm2 m2 js2 _ bk ba bd (Job op key (Some arg) (Some data)) Hlvl Hr4)
    as (s5 & E5 & S5 & Hr5); [out_lookup|cbn; out_lookup|cbn; out_lookup|done..|by right|].
  exists s5. split; [done|]. split; [done|]. eapply eng_rep_out; [done|apply map_empty_subseteq].
Qed.

Lemma string_get_run s m js key :
  eng_ok s m js →
  ∃ s', xfiredb_string_get key s =
      Done (s', match m !! key with Some (VString t) => (- XFIREDB_OK, Some t) | _ => (- XFIREDB_ERR, None) end) ∧
    eng_ok s' m js.
Proof.
  intros (dm & Hr). unfold xfiredb_string_get.
  destruct (lookup_run s dm m js ∅ key Hr) as (s1 & _ & Hr1 & Hk).
  destruct (m !! key) as [v|].
  - destruct Hk as (c & ct & Hl & Hat). run Hl. rewrite failed_ok.
    run (get_run _ _ _ _ _ (cont_at_loc _ _ _ _ _ _ Hat)). pose proof (ca_rep _ _ _ _ _ _ Hat) as Hv.
    rewrite (check_type_rep _ _ _ _ Hv). destruct ct, v; try done;
      try (cond; eexists; split; [done|]; by exists dm). simpl in Hv. cond. ret. calc (text_of_ok _ _ Hv).
    eexists. split; [done|]. by exists dm.
  - destruct Hk as (p & Hl). run Hl. rewrite failed_err. eexists. split; [done|]. by exists dm.
Qed.

(** What both branches do with the string: give it the text. *)
Lemma set_text_run s dm m js out att c cs str :
  eng_rep s dm m js out → loc_at s dm att c (CString cs) → nul_free str →
  ∃ s', (∀ A (f : stm (engine D T) A),
      (x ← lift (string_set junk cs str); _ ← put_container c (CString x); f) s = f s') ∧
    eng_rep s' dm (upd att (VString str) m) js out ∧ ∃ ct, cont_at s' dm att c ct (VString str).
Proof.
  intros Hr Hat Hn. destruct (string_set_is junk cs str Hn) as (cs' & Hs & Hv).
  destruct (put_run s dm m js out att c (CString cs) (CString cs') (VString str) Hr Hat Hv)
    as (s' & Hp & Hr' & Hat' & _).
  exists s'. split; [intros A f; calc Hs; by run Hp|]. split; [done|by eexists].
Qed.

Lemma engine_string_set_run s m js key str :
  eng_ok s m js → Z.of_nat (size m) < 2 ^ 30 → nul_free str →
  let '(rv, v, ch) := string_set_spec (m !! key) key str in
  ∃ s', xfiredb_string_set malloc junk lvl key str s = Done (s', rv) ∧
    eng_ok s' (write key v m) (js ++ ch).
Proof.
  intros (dm & Hr) Hsz Hn. unfold xfiredb_string_set.
  destruct (sprintf_run s dm m js ∅ key Hr) as (s1 & bk & E1 & _ & Hr1 & _ & Hbk). run E1.
  destruct (sprintf_run s1 dm m js _ str Hr1) as (s2 & bs & E2 & _ & Hr2 & Hbs & Hbs'). run E2.
  assert (bk ≠ bs) as Hne by (intros ->; by rewrite lookup_insert_eq in Hbs).
  destruct (lookup_run s2 dm m js _ key Hr2) as (s3 & _ & Hr3 & Hk).
  destruct (m !! key) as [v|] eqn:Hm.
  - destruct Hk as (c & ct & Hl & Hat). run Hl. cond. pose proof (cont_at_loc _ _ _ _ _ _ Hat) as Hloc.
    run (get_run _ _ _ _ _ Hloc). rewrite (check_type_rep _ _ _ _ (ca_rep _ _ _ _ _ _ Hat)).
    destruct v as [old|old|old|old]; cbn [string_set_spec]; cond.
    { pose proof (ca_rep _ _ _ _ _ _ Hat) as Hv. destruct ct as [cs| | |]; try done. ret.
      destruct (set_text_run s3 dm m js _ (Some key) c cs str Hr3 Hloc Hn) as (s4 & E4 & Hr4 & _). rewrite E4.
      destruct (queue_run lvl s4 dm _ js _ bk NULL bs (Job STRING_UPDATE key None (Some str)) Hlvl Hr4)
        as (s5 & E5 & _ & Hr5); [out_lookup|done|cbn; out_lookup|done..|by left|].
      run E5. eexists. split; [done|]. by eapply eng_rep_done. }
    all: destruct (free_text_run s3 dm m js _ bk key Hr3) as (s4 & E4 & _ & Hr4); [out_lookup|done|]; run E4;
      destruct (free_text_run s4 dm m js _ bs str Hr4) as (s5 & E5 & _ & Hr5);
      [rewrite lookup_delete_ne by done; out_lookup|done|]; run E5; eexists; (split; [done|]);
      cbn [write]; rewrite insert_id, app_nil_r by done; by eapply eng_rep_done.
  - destruct Hk as (p & Hl). run Hl. cond. cbn [string_set_spec].
    destruct (container_alloc_run s3 dm m js _ CONTAINER_STRING Hr3) as (s4 & c & ct & E4 & Hr4 & Hloc & ->).
    run E4. run (get_run _ _ _ _ _ Hloc). ret.
    destruct (set_text_run s4 dm m js _ None c string_init str Hr4 Hloc Hn) as (s5 & E5 & Hr5 & ct & Hat5). rewrite E5.
    destruct (store_run malloc s5 dm m js _ key c ct (VString str) Hmalloc Hr5 Hsz Hm Hat5) as (s6 & E6 & Hr6 & _).
    run E6. cond.
    destruct (queue_run lvl s6 _ _ js _ bk NULL bs (Job STRING_ADD key None (Some str)) Hlvl Hr6)
      as (s7 & E7 & _ & Hr7); [out_lookup|done|cbn; out_lookup|done..|by left|].
    run E7. eexists. split; [done|]. by eapply eng_rep_done.
Qed.
End Strings.
