(* ===== verification/EngineLists.v ===== *)
(** * Lists: what the engine's functions on them do

    [xfiredb_list_push], [xfiredb_list_set] and [xfiredb_list_length], for every state
    that represents a map of values. *)
From S2P Require Import Prelude Chain Atomic Mem CList CString KeyIndex SetMap Database Disk Bio BioSpec Container ContainerSpec Engine EngineSpec EngineStrings.
Local Open Scope Z_scope.

(** The result, the value afterwards and the change of [xfiredb_list_push]. *)
Definition list_push_spec (old : option value) (key data : string) (left : bool)
    : Z * option value * list job :=
  match old with
  | None => (- XFIREDB_OK, Some (VList [data]), [Job LIST_ADD key None (Some data)])
  | Some (VList l) =>
      (- XFIREDB_OK, Some (VList (if left then data :: l else l ++ [data])), [Job LIST_ADD key None (Some data)])
  | Some v => (- XFIREDB_ERR, Some v, [])
  end.

(** [l[idx]], for an index that may be negative. *)
Definition at_index {A} (l : list A) (idx : Z) : option A := if idx <? 0 then None else l !! Z.to_nat idx.

(** The list and the change of [xfiredb_list_set] on a list. *)
Definition list_put (key : string) (l : list string) (idx : Z) (data : string) : list string * list job :=
  match at_index l idx with
  | Some old => (<[Z.to_nat idx := data]> l, [Job LIST_UPDATE key (Some old) (Some data)])
  | None => (l ++ [data], match l with [] => [Job LIST_ADD key None (Some data)] | _ => [] end)
  end.

Definition list_set_spec (old : option value) (key : string) (idx : Z) (data : string)
    : Z * option value * list job :=
  match old with
  | None => list_push_spec None key data false
  | Some (VList l) => let '(l', ch) := list_put key l idx data in (- XFIREDB_OK, Some (VList l'), ch)
  | Some v => (- XFIREDB_ERR, Some v, [])
  end.

Lemma at_index_middle {A} (xs : list A) x ys : at_index (xs ++ x :: ys) (Z.of_nat (length xs)) = Some x.
Proof.
  unfold at_index. destruct (Z.ltb_spec (Z.of_nat (length xs)) 0); [lia|]. rewrite Nat2Z.id. by apply list_lookup_middle.
Qed.

Lemma at_index_past {A} (l : list A) idx : idx < 0 ∨ Z.of_nat (length l) ≤ idx → at_index l idx = None.
Proof. intros Hi. unfold at_index. destruct (Z.ltb_spec idx 0); [done|]. apply lookup_ge_None. lia. Qed.

(** The place of the loops in a list: before the nodes [ys]. *)
Lemma list_at_not_head lh h ns brk xs y ys l : list_at lh h ns brk (xs ++ y :: ys) l → y ≠ lh_head lh.
Proof.
  intros [[Hnd _ _ _] _ _ _] ->. apply list.NoDup_cons in Hnd as [Hn _]. apply Hn, elem_of_app. right. by left.
Qed.

Section Lists.
Context {D T I : Type} `{KV : KVStore D} {KL : KVStoreLaws D} `{KI : KeyIndex T I} {IL : KeyIndexLaws T I}.
Context (malloc : D → loc) (junk lvl : Z).
Context (Hlvl : 0 ≤ lvl < 3) (Hmalloc : ∀ d, kv_fresh d (malloc d)).
Implicit Types (s : engine D T).

Lemma push_new_run s dm m js out att c ct l data (left : bool) :
  eng_rep s dm m js out → cont_at s dm att c ct (VList l) → nul_free data →
  ∃ s' ct', push_new c data left s = Done (s', ()) ∧
    eng_rep s' dm (upd att (VList (if left then data :: l else l ++ [data])) m) js out ∧
    cont_at s' dm att c ct' (VList (if left then data :: l else l ++ [data])).
Proof.
  intros Hr Hat Hn. pose proof (ca_rep _ _ _ _ _ _ Hat) as Hv. destruct ct as [|lh h ns| |]; try done.
  destruct (new_addr_run s dm m js out Hr) as (s1 & E1 & Hr1 & Hb & _ & Hc). apply Hc, cont_at_loc in Hat.
  destruct (string_alloc_is data Hn) as (x & Ha & Hx).
  pose proof (push_rep lh h ns (g_brk s) l x data left Hv Hx) as Hp. cbn [node_alloc] in Hp.
  destruct Hp as (h2 & lh2 & Hp & Hrep). rewrite <-Hb in Hrep.
  destruct (put_run s1 dm m js out att c _ (CList lh2 h2 _) (VList _) Hr1 Hat Hrep) as (s2 & E2 & Hr2 & Hat2 & _).
  exists s2. eexists. split; [|by split]. unfold push_new. run E1. calc Ha.
  run (get_run _ _ _ _ _ Hat). ret. cbn [node_alloc]. by calc Hp.
Qed.

Lemma list_push_run s m js key data left :
  eng_ok s m js → Z.of_nat (size m) < 2 ^ 30 → nul_free data →
  let '(rv, v, ch) := list_push_spec (m !! key) key data left in
  ∃ s', xfiredb_list_push malloc lvl key data left s = Done (s', rv) ∧
    eng_ok s' (write key v m) (js ++ ch).
Proof.
  intros (dm & Hr) Hsz Hn. unfold xfiredb_list_push.
  destruct (enter_run s dm m js ∅ key CONTAINER_LIST ltac:(done) Hr) as (s1 & c & ct & E1 & Hr1 & Hat).
  rewrite E1. clear E1. cbn beta iota.
  assert (∀ l, default (VList []) (m !! key) = VList l →
    let v' := VList (if left then data :: l else l ++ [data]) in
    ∃ s', (bd ← sprintf data; bk ← sprintf key; _ ← queue lvl bk NULL bd LIST_ADD; _ ← push_new c data left;
           if is_new (m !! key) then _ ← store_db malloc key c; mret (- XFIREDB_OK) else mret (- XFIREDB_OK)) s1 =
         Done (s', - XFIREDB_OK) ∧ eng_ok s' (<[key := v']> m) (js ++ [Job LIST_ADD key None (Some data)])) as Hpush.
  { intros l Hl v'. cbn [empty_value] in Hat. rewrite Hl in Hat.
    destruct (change_new_run lvl Hlvl s1 dm m js key data LIST_ADD Hr1) as (s2 & S2 & Hr2 & E2). rewrite E2.
    apply (cont_at_same _ _ _ _ _ _ _ S2) in Hat.
    destruct (push_new_run s2 dm m _ ∅ _ c ct l data left Hr2 Hat Hn) as (s3 & ct3 & E3 & Hr3 & Hat3). run E3.
    by eapply (leave_run malloc Hmalloc). }
  destruct (m !! key) as [[t|l|hm|k]|] eqn:Hm; cbn [default list_push_spec is_new empty_value write type_of] in *;
    cond; try exact (Hpush _ eq_refl);
    try (eexists; split; [done|]; rewrite insert_id, app_nil_r by done; by eapply eng_rep_done).
  by destruct left; apply (Hpush _ eq_refl).
Qed.

Lemma list_length_run s m js key :
  eng_ok s m js → (∀ l, m !! key = Some (VList l) → Z.of_nat (length l) < 2 ^ 31) →
  ∃ s', xfiredb_list_length key s =
      Done (s', match m !! key with Some (VList l) => Z.of_nat (length l) | _ => - XFIREDB_ERR end) ∧
    eng_ok s' m js.
Proof.
  intros (dm & Hr) Hlen. unfold xfiredb_list_length.
  destruct (lookup_run s dm m js ∅ key Hr) as (s1 & _ & Hr1 & Hk).
  destruct (m !! key) as [v|].
  - destruct Hk as (c & ct & Hl & Hat). run Hl. cond.
    run (get_run _ _ _ _ _ (cont_at_loc _ _ _ _ _ _ Hat)). pose proof (ca_rep _ _ _ _ _ _ Hat) as Hv.
    rewrite (check_type_rep _ _ _ _ Hv). destruct ct, v; try done;
      try (cond; eexists; split; [done|]; by exists dm).
    cond. ret. destruct Hv as (es & Hes). rewrite (list_at_length _ _ _ _ _ _ Hes) by auto.
    eexists. split; [done|]. by exists dm.
  - destruct Hk as (p & Hl). run Hl. cond. eexists. split; [done|]. by exists dm.
Qed.

Lemma list_set_loop_run s dm m js out key c lh h ns xs ys ta tb idx data bk bn fuel :
  eng_rep s dm m js out → loc_at s dm (Some key) c (CList lh h ns) →
  list_at lh h ns (g_brk s) (xs ++ ys) (ta ++ tb) → length xs = length ta → ys ≠ [] →
  idx < 0 ∨ Z.of_nat (length ta) ≤ idx → Z.of_nat (length (ta ++ tb)) < 2 ^ 31 → (length ys ≤ fuel)%nat →
  out !! bk = Some key → out !! bn = Some data → bk ≠ bn → bk ≠ NULL → bn ≠ NULL → nul_free data →
  let '(l', ch) := list_put key (ta ++ tb) idx data in
  ∃ s', list_set_loop junk lvl fuel c (first_or (lh_head lh) ys) idx data bk bn (Z.of_nat (length ta)) s =
      Done (s', - XFIREDB_OK) ∧ eng_ok s' (<[key := VList l']> m) (js ++ ch).
Proof.
  intros Hr Hloc. revert xs ta tb fuel. induction ys as [|y ys IH]; [done|].
  intros xs ta tb fuel Hat Hlen _ Hidx Hmax Hfuel Hbk Hbn Hne Hbk0 Hbn0 Hn.
  destruct fuel as [|fuel]; [simpl in Hfuel; lia|].
  pose proof (list_at_lengths _ _ _ _ _ _ Hat) as Hls. rewrite !length_app in Hls.
  destruct tb as [|t tb]; [simpl in Hls; lia|]. cbn [list_set_loop first_or head default]. change (id y) with y.
  rewrite (stm_bind_run _ _ _ _ _ (get_run _ _ _ _ _ Hloc)). ret.
  rewrite decide_False by (by eapply list_at_not_head). destruct (Z.eqb_spec (Z.of_nat (length ta)) idx) as [<-|Hi].
  - pose proof (list_at_text _ _ _ _ _ _ _ _ _ _ Hat Hlen) as Ht.
    pose proof Ht as (x & Hx & _). destruct (string_set_is junk x data Hn) as (x' & Hx' & Ht').
    destruct (set_text_rep _ _ _ _ _ _ _ _ _ _ x' data Hat Hlen Ht') as [_ Hat'].
    unfold list_put. rewrite at_index_middle, Nat2Z.id, insert_app_r_alt, Nat.sub_diag by lia. cbn [list_insert].
    calc (node_text_ok _ _ _ Ht).
    destruct (sprintf_run s dm m js out t Hr) as (s1 & bd & E1 & S1 & Hr1 & Hbd & Hbd0). run E1.
    assert (bd ≠ bk ∧ bd ≠ bn) as [Hb1 Hb2] by (split; congruence).
    destruct (queue_run lvl s1 dm m js _ bk bd bn (Job LIST_UPDATE key (Some t) (Some data)) Hlvl Hr1)
      as (s2 & E2 & S2 & Hr2); [out_lookup|cbn; out_lookup|cbn; out_lookup|done..|by right|].
    run E2. rewrite Hx. cbn [deref]. ret. calc Hx'.
    destruct (put_run s2 dm m _ _ (Some key) c _ (CList lh h (<[y:=x']> ns)) (VList (ta ++ data :: tb)) Hr2
      (loc_at_same _ _ _ _ _ _ S2 (loc_at_same _ _ _ _ _ _ S1 Hloc))) as (s3 & E3 & Hr3 & _).
    { eexists. destruct S1 as [_ S1], S2 as [_ S2]. rewrite S2, S1. exact Hat'. }
    run E3. eexists. split; [done|]. by eapply eng_rep_done.
  - pose proof (la_ok _ _ _ _ _ _ Hat) as Ho. pose proof (list_at_length _ _ _ _ _ _ Hat Hmax) as ->.
    rewrite length_app in *. cbn [length] in *.
    destruct (Z.leb_spec (Z.of_nat (length ta + S (length tb))) (Z.of_nat (length ta) + 1)) as [Hend|Hend].
    + assert (ys = [] ∧ tb = []) as [-> ->].
      { split; apply nil_length_inv; lia. }
      unfold list_put. rewrite at_index_past by (rewrite length_app; simpl; lia).
      destruct (push_new_run s dm m js out (Some key) c _ (ta ++ [t]) data false Hr
        (loc_cont_at _ _ _ _ _ (VList _) Hloc (ex_intro _ _ Hat)) Hn) as (s1 & ct & E1 & Hr1 & _).
      run E1. eexists. split; [done|]. destruct ta; rewrite app_nil_r; by eapply eng_rep_done.
    + calc (list_next _ _ _ _ _ Ho).
      specialize (IH (xs ++ [y]) (ta ++ [t]) tb fuel). rewrite <-!app_assoc in IH. cbn [app] in IH.
      rewrite !length_app in IH. cbn [length] in IH.
      replace (Z.of_nat (length ta) + 1) with (Z.of_nat (length ta + 1)) by lia.
      apply IH; try done; try lia. intros ->. simpl in *. lia.
Qed.

Lemma list_set_run s m js key idx data fuel :
  eng_ok s m js → Z.of_nat (size m) < 2 ^ 30 → nul_free data →
  (∀ l, m !! key = Some (VList l) → Z.of_nat (length l) < 2 ^ 31 ∧ (length l ≤ fuel)%nat) →
  let '(rv, v, ch) := list_set_spec (m !! key) key idx data in
  ∃ s', xfiredb_list_set malloc junk lvl fuel key idx data s = Done (s', rv) ∧
    eng_ok s' (write key v m) (js ++ ch).
Proof.
  intros (dm & Hr) Hsz Hn Hlen. unfold xfiredb_list_set.
  destruct (lookup_run s dm m js _ key Hr) as (s1 & _ & Hr1 & Hk).
  destruct (m !! key) as [v|] eqn:Hm.
  - destruct Hk as (c & ct & Hl & Hat). run Hl. cond. pose proof (cont_at_loc _ _ _ _ _ _ Hat) as Hloc.
    run (get_run _ _ _ _ _ Hloc). pose proof (ca_rep _ _ _ _ _ _ Hat) as Hv. rewrite (check_type_rep _ _ _ _ Hv).
    destruct ct as [|lh h ns| |], v as [|l| |]; try done; cbn [list_set_spec]; cond;
      try (eexists; split; [done|]; cbn [write]; rewrite insert_id, app_nil_r by done; by eapply eng_rep_done).
    destruct (Hlen l eq_refl) as [Hmax Hfuel]. ret. destruct Hv as (es & Hes).
    destruct (sprintf_run s1 dm m js _ key Hr1) as (s2 & bk & E2 & S2 & Hr2 & _ & Hbk). run E2.
    destruct (sprintf_run s2 dm m js _ data Hr2) as (s3 & bn & E3 & S3 & Hr3 & Hbn & Hbn'). run E3.
    assert (bk ≠ bn) as Hne by (intros ->; by rewrite lookup_insert_eq in Hbn).
    pose proof (cont_at_same _ _ _ _ _ _ _ S3 (cont_at_same _ _ _ _ _ _ _ S2 Hat)) as Hat3.
    assert (g_brk s3 = g_brk s1) as Hb3 by (destruct S2, S3; congruence).
    rewrite (list_at_length _ _ _ _ _ _ Hes Hmax). destruct l as [|t l].
    + cond. destruct (push_new_run s3 dm m js _ _ c _ [] data false Hr3 Hat3 Hn) as (s4 & ct & E4 & Hr4 & _). run E4.
      destruct (queue_run lvl s4 dm _ js _ bk NULL bn (Job LIST_ADD key None (Some data)) Hlvl Hr4)
        as (s5 & E5 & _ & Hr5); [out_lookup|done|cbn; out_lookup|done..|by left|].
      run E5. unfold list_put. rewrite at_index_past by (simpl; lia). eexists. split; [done|]. by eapply eng_rep_done.
    + rewrite (proj2 (Z.eqb_neq _ _)) by (simpl; lia). calc (list_first _ _ _ (la_ok _ _ _ _ _ _ Hes)).
      rewrite <-Hb3 in Hes. pose proof (list_at_lengths _ _ _ _ _ _ Hes) as Hls.
      pose proof (list_set_loop_run s3 dm m js _ key c lh h ns [] es [] (t :: l) idx data bk bn fuel Hr3
        (cont_at_loc _ _ _ _ _ _ Hat3) Hes eq_refl) as Hloop. cbn [app length] in Hloop.
      destruct (list_put key (t :: l) idx data) as [l' ch].
      apply Hloop; try done; [by intros ->|lia|simpl in *; lia|out_lookup|out_lookup].
  - destruct Hk as (p & Hl). run Hl. cond. cbn [list_set_spec].
    pose proof (list_push_run s1 m js key data false (ex_intro _ _ Hr1) Hsz Hn) as Hp. rewrite Hm in Hp. exact Hp.
Qed.
End Lists.
