(* ===== verification/EngineIndex.v ===== *)
(** * Lists by position: [xfiredb_list_get] and [xfiredb_list_pop]

    Both walk the list once with a cursor into the caller's array of positions.
    [picks] and [pops] are what the walks compute, for any array; on an ascending
    array they are the entries at these positions. *)
From Stdlib Require Import Sorting.Sorted.
From S2P Require Import Prelude Chain Atomic Mem CList CString KeyIndex SetMap Database Disk Bio BioSpec Container ContainerSpec Engine EngineSpec EngineStrings EngineLists.
Local Open Scope Z_scope.

(** [if(idx[counter] < 0) idx[counter] += list_length(lh)], without overflow. *)
Definition wrap (len v : Z) : Z := if v <? 0 then v + len else v.

(** The walk from position [i]; [vs] is what is left of the array. *)
Fixpoint picks (len : Z) (vs : list Z) (i : Z) (l : list string) : list string :=
  match vs, l with
  | v :: vs', t :: l' =>
      if wrap len v =? i then t :: picks len vs' (i + 1) l' else picks len (wrap len v :: vs') (i + 1) l'
  | _, _ => []
  end.

(** The same where an entry goes: what went and what is left. *)
Fixpoint pops (len : Z) (vs : list Z) (i : Z) (l : list string) : list string * list string :=
  match vs, l with
  | v :: vs', t :: l' =>
      if wrap len v =? i then let '(p, r) := pops (len - 1) vs' (i + 1) l' in (t :: p, r)
      else let '(p, r) := pops len (wrap len v :: vs') (i + 1) l' in (p, t :: r)
  | _, _ => ([], l)
  end.

Definition is_int (v : Z) : Prop := - 2 ^ 31 ≤ v < 2 ^ 31.

Lemma wrap_int len v : 0 ≤ len < 2 ^ 31 → is_int v → is_int (wrap len v).
Proof. unfold wrap, is_int. destruct (Z.ltb_spec v 0); lia. Qed.

Lemma fix_index_run idx counter v vs len :
  drop counter idx = v :: vs → 0 ≤ len < 2 ^ 31 → is_int v →
  ∃ idx', fix_index idx counter len = Done (idx', wrap len v) ∧ length idx' = length idx ∧
    drop counter idx' = wrap len v :: vs ∧ drop (S counter) idx' = vs.
Proof.
  intros Hd Hl Hv. unfold fix_index.
  assert (idx !! counter = Some v) as Hi by (rewrite <-(Nat.add_0_r counter), <-lookup_drop, Hd; done).
  rewrite Hi. cbn [deref]. rewrite bind_Done. pose proof (wrap_int len v Hl Hv) as Hw. unfold wrap in *.
  assert ((if v <? 0 then s32 (v + len) else v) = (if v <? 0 then v + len else v)) as ->.
  { destruct (v <? 0); [apply s32_small; unfold is_int in *; lia|done]. }
  eexists. split; [done|]. split; [apply length_insert|].
  assert (drop counter (<[counter := if v <? 0 then v + len else v]> idx) = (if v <? 0 then v + len else v) :: vs) as Hdr.
  { rewrite drop_insert_ge by lia. by rewrite Nat.sub_diag, Hd. }
  split; [done|]. by rewrite <-(Nat.add_1_r counter), <-drop_drop, Hdr.
Qed.

Lemma drop_length_cons {A} n (l : list A) x k : drop n l = x :: k → (length l = n + S (length k))%nat.
Proof. intros H. pose proof (f_equal length H) as Hl. rewrite length_drop in Hl. simpl in Hl. lia. Qed.

Lemma list_get_loop_run lh h ns brk idx counter xs ys ta tb v vs fuel :
  list_at lh h ns brk (xs ++ ys) (ta ++ tb) → length xs = length ta → drop counter idx = v :: vs →
  Forall is_int (v :: vs) → Z.of_nat (length (ta ++ tb)) < 2 ^ 31 → (length ys < fuel)%nat →
  list_get_loop fuel lh h ns (first_or (lh_head lh) ys) idx (Z.of_nat (length idx)) (Z.of_nat (length ta)) counter =
    Done (picks (Z.of_nat (length (ta ++ tb))) (v :: vs) (Z.of_nat (length ta)) tb).
Proof.
  revert idx counter xs ta tb v vs fuel. induction ys as [|y ys IH];
    intros idx counter xs ta tb v vs fuel Hat Hlen Hd Hint Hmax Hfuel;
    (destruct fuel as [|fuel]; [simpl in Hfuel; lia|]);
    pose proof (list_at_lengths _ _ _ _ _ _ Hat) as Hls; rewrite !length_app in Hls.
  - destruct tb; [|simpl in Hls; lia]. cbn [list_get_loop first_or head default picks]. by rewrite decide_True.
  - destruct tb as [|t tb]; [simpl in Hls; lia|]. cbn [list_get_loop first_or head default]. change (id y) with y.
    rewrite decide_False by (by eapply list_at_not_head). rewrite (list_at_length _ _ _ _ _ _ Hat Hmax).
    set (len := Z.of_nat (length (ta ++ t :: tb))) in *. apply list.Forall_cons in Hint as [Hv Hvs].
    destruct (fix_index_run idx counter v vs len Hd) as (idx' & -> & Hil & Hd0 & Hd1); [lia|done|].
    rewrite bind_Done. cbn [picks].
    specialize (IH idx'). rewrite Hil in IH. specialize (λ cn, IH cn (xs ++ [y]) (ta ++ [t]) tb).
    rewrite <-!app_assoc in IH. cbn [app] in IH. rewrite !length_app in IH. cbn [length] in IH.
    replace (Z.of_nat (length ta + 1)) with (Z.of_nat (length ta) + 1) in IH by lia.
    replace (Z.of_nat (length ta + S (length tb))) with len in IH by (unfold len; by rewrite length_app).
    pose proof (la_ok _ _ _ _ _ _ Hat) as Ho. pose proof (drop_length_cons _ _ _ _ Hd) as Hn.
    simpl in Hfuel. destruct (Z.eqb_spec (wrap len v) (Z.of_nat (length ta))) as [Hw|Hw].
    + rewrite (node_text_ok _ _ _ (list_at_text _ _ _ _ _ _ _ _ _ _ Hat Hlen)), !bind_Done.
      destruct vs as [|v' vs].
      * rewrite (proj2 (Z.leb_le _ _)) by (simpl in Hn; lia). by destruct tb.
      * rewrite (proj2 (Z.leb_gt _ _)) by (simpl in Hn; lia). rewrite (list_next _ _ _ _ _ Ho), bind_Done.
        rewrite (IH (S counter) v' vs fuel);
        [by rewrite bind_Done|done|lia|done|done|done|lia].
    + rewrite bind_Done. rewrite (proj2 (Z.leb_gt _ _)) by lia. rewrite (list_next _ _ _ _ _ Ho), bind_Done.
      rewrite (IH counter (wrap len v) vs fuel); [by rewrite bind_Done|done|lia|done| |done|lia].
      constructor; [|done]. apply wrap_int; [lia|done].
Qed.

(** ** Ascending positions *)

(** The entries at these positions, and the others. *)
Definition entries_at (vs : list Z) (l : list string) : list string := omap (at_index l) vs.
Fixpoint others (vs : list Z) (i : Z) (l : list string) : list string :=
  match l with
  | [] => []
  | t :: l => if decide (i ∈ vs) then others vs (i + 1) l else t :: others vs (i + 1) l
  end.

Lemma at_index_cons (t : string) l w : 0 < w → at_index (t :: l) w = at_index l (w - 1).
Proof.
  intros Hw. unfold at_index. destruct (Z.ltb_spec w 0), (Z.ltb_spec (w - 1) 0); try lia.
  by replace (Z.to_nat w) with (S (Z.to_nat (w - 1))) by lia.
Qed.

Lemma omap_shift (t : string) l vs i :
  Forall (λ v, i < v) vs → omap (λ v, at_index (t :: l) (v - i)) vs = omap (λ v, at_index l (v - (i + 1))) vs.
Proof.
  induction 1 as [|v vs Hv _ IH]; [done|]. cbn [omap list_omap].
  rewrite at_index_cons by lia. replace (v - i - 1) with (v - (i + 1)) by lia. destruct (at_index l _); by rewrite IH.
Qed.

Lemma omap_zero (l : list string) vs : omap (λ v, at_index l (v - 0)) vs = entries_at vs l.
Proof. unfold entries_at. induction vs as [|v vs IH]; [done|]. cbn [omap list_omap]. rewrite Z.sub_0_r. by destruct (at_index l v); rewrite IH. Qed.

Lemma omap_nil i vs : omap (λ v, at_index ([] : list string) (v - i)) vs = [].
Proof. induction vs as [|v vs IH]; [done|]. cbn [omap list_omap]. unfold at_index at 1. by destruct (v - i <? 0). Qed.

(** Positions that are ascending from [i] on. *)
Definition ascending (i : Z) (vs : list Z) : Prop := StronglySorted Z.lt vs ∧ Forall (λ v, i ≤ v) vs.

Lemma ascending_cons i v vs : ascending i (v :: vs) → i ≤ v ∧ ascending (v + 1) vs ∧ Forall (λ x, v < x) vs.
Proof.
  intros [[Hs Hlt]%StronglySorted_inv [Hi Hvs]%list.Forall_cons]. split; [done|].
  split; [split; [done|eapply list.Forall_impl; [exact Hlt|]; simpl; lia]|done].
Qed.

Lemma ascending_later i v vs : ascending i (v :: vs) → v ≠ i → ascending (i + 1) (v :: vs) ∧ Forall (λ x, i < x) (v :: vs).
Proof.
  intros Ha Hv. pose proof (ascending_cons _ _ _ Ha) as (Hi & _ & Hlt). destruct Ha as [Hs _].
  split; [split; [done|]|]; (constructor; [lia|eapply list.Forall_impl; [exact Hlt|]; simpl; lia]).
Qed.

Lemma picks_ascending len vs i l :
  0 ≤ i → Forall (λ v, - len ≤ v) vs → ascending i (wrap len <$> vs) →
  picks len vs i l = omap (λ v, at_index l (v - i)) (wrap len <$> vs).
Proof.
  revert vs i. induction l as [|t l IH]; intros vs i Hi Hlen Ha; [by destruct vs; rewrite ?omap_nil|].
  destruct vs as [|v vs]; [done|]. rewrite fmap_cons in *. apply list.Forall_cons in Hlen as [Hv Hlen].
  pose proof (ascending_cons _ _ _ Ha) as (Hw & Ha' & Hlt). cbn [picks].
  destruct (Z.eqb_spec (wrap len v) i) as [<-|Hne].
  - cbn [omap list_omap]. replace (wrap len v - wrap len v) with 0 by lia. cbn. f_equal.
    rewrite IH by (done || lia). symmetry. by apply omap_shift.
  - destruct (ascending_later _ _ _ Ha Hne) as [Hl Hlt'].
    assert (wrap len (wrap len v) = wrap len v) as Hww.
    { unfold wrap at 1. destruct (Z.ltb_spec (wrap len v) 0); [|done]. unfold wrap in *. destruct (Z.ltb_spec v 0); lia. }
    rewrite IH; [|lia|constructor; [|done]|by rewrite fmap_cons, Hww].
    + rewrite fmap_cons, Hww. symmetry. by apply (omap_shift t l (wrap len v :: (wrap len <$> vs))).
    + unfold wrap. destruct (Z.ltb_spec v 0); lia.
Qed.

Lemma pops_ascending len vs i l :
  0 ≤ i → ascending i vs → pops len vs i l = (omap (λ v, at_index l (v - i)) vs, others vs i l).
Proof.
  assert (∀ ws j k, Forall (λ v, v < j) ws → others ws j k = k) as Hnone.
  { intros ws j k. revert j. induction k as [|t k IH]; intros j Hf; [done|]. cbn [others].
    rewrite decide_False; [|intros Hin; rewrite list.Forall_forall in Hf; specialize (Hf _ Hin); lia].
    rewrite IH; [done|]. eapply list.Forall_impl; [exact Hf|]. simpl. lia. }
  assert (∀ w ws j k, w < j → others (w :: ws) j k = others ws j k) as Hpast.
  { intros w ws j k. revert j. induction k as [|t k IH]; intros j Hj; [done|]. cbn [others]. rewrite IH by lia.
    destruct (decide (j ∈ ws)) as [Hin|Hin]; [rewrite decide_True by (by right)|rewrite decide_False by (intros [->|?]%elem_of_cons; [lia|done])];
      done. }
  revert len vs i. induction l as [|t l IH]; intros len vs i Hi Ha; [by destruct vs; rewrite ?omap_nil|].
  destruct vs as [|v vs]; [by rewrite Hnone|]. pose proof (ascending_cons _ _ _ Ha) as (Hv & Ha' & Hlt).
  assert (wrap len v = v) as Hw by (unfold wrap; destruct (Z.ltb_spec v 0); lia).
  cbn [pops]. rewrite Hw. destruct (Z.eqb_spec v i) as [->|Hne].
  - rewrite IH by (done || lia). cbn [omap list_omap others]. rewrite Z.sub_diag. cbn [at_index].
    rewrite decide_True by (by left). rewrite Hpast by lia. f_equal. cbn. f_equal. symmetry. by apply omap_shift.
  - destruct (ascending_later _ _ _ Ha Hne) as [Hl Hlt']. rewrite IH by (done || lia). cbn [others].
    rewrite decide_False; [f_equal; symmetry; by apply (omap_shift t l (v :: vs))|].
    intros Hin. rewrite list.Forall_forall in Hlt'. specialize (Hlt' _ Hin). lia.
Qed.

Section Index.
Context {D T I : Type} `{KV : KVStore D} {KL : KVStoreLaws D} `{KI : KeyIndex T I} {IL : KeyIndexLaws T I}.
Context (lvl : Z) (Hlvl : 0 ≤ lvl < 3).
Implicit Types (s : engine D T).

Lemma list_get_run s m js key idx fuel :
  eng_ok s m js → Forall is_int idx → idx ≠ [] →
  (∀ l, m !! key = Some (VList l) → Z.of_nat (length l) < 2 ^ 31 ∧ (length l < fuel)%nat) →
  ∃ s', xfiredb_list_get fuel key idx (Z.of_nat (length idx)) s =
      Done (s', match m !! key with
                | Some (VList l) => (- XFIREDB_OK, picks (Z.of_nat (length l)) idx 0 l)
                | _ => (- XFIREDB_ERR, [])
                end) ∧ eng_ok s' m js.
Proof.
  intros (dm & Hr) Hint Hne Hlen. unfold xfiredb_list_get.
  destruct (lookup_run s dm m js ∅ key Hr) as (s1 & _ & Hr1 & Hk).
  destruct (m !! key) as [v|].
  - destruct Hk as (c & ct & Hl & Hat). run Hl. cond.
    run (get_run _ _ _ _ _ (cont_at_loc _ _ _ _ _ _ Hat)). pose proof (ca_rep _ _ _ _ _ _ Hat) as Hv.
    rewrite (check_type_rep _ _ _ _ Hv). destruct ct as [|lh h ns| |], v as [|l| |]; try done;
      try (cond; eexists; split; [done|]; by exists dm).
    cond. ret. destruct Hv as (es & Hes), (Hlen l eq_refl) as [Hmax Hfuel].
    calc (list_first _ _ _ (la_ok _ _ _ _ _ _ Hes)). destruct idx as [|v vs]; [done|].
    pose proof (list_at_lengths _ _ _ _ _ _ Hes) as Hls.
    pose proof (list_get_loop_run lh h ns _ (v :: vs) 0 [] es [] l v vs fuel Hes eq_refl eq_refl Hint Hmax ltac:(lia)) as Hloop.
    calc Hloop. eexists. split; [done|]. by exists dm.
  - destruct Hk as (p & Hl). run Hl. cond. eexists. split; [done|]. by exists dm.
Qed.

Definition del_job (key t : string) : job := Job LIST_DEL key (Some t) None.

(** Wherever the cursor is, its successor can be read. *)
Lemma list_next_any h lh xs ys :
  list_ok h lh (xs ++ ys) →
  ∃ n, get_next h (first_or (lh_head lh) ys) = Done n ∧ ∀ y ys', ys = y :: ys' → n = first_or (lh_head lh) ys'.
Proof.
  intros Ho. destruct ys as [|y ys].
  - eexists. split; [exact (list_first _ _ _ Ho)|done].
  - eexists. split; [exact (list_next _ _ _ _ _ Ho)|]. by intros ? ? [= <- <-].
Qed.

(** A node goes, and the change is queued. *)
Lemma drop_node_run s dm m js key c lh h ns xs y ys ta t tb :
  eng_rep s dm m js ∅ → loc_at s dm (Some key) c (CList lh h ns) →
  list_at lh h ns (g_brk s) (xs ++ y :: ys) (ta ++ t :: tb) → length xs = length ta →
  ∃ s' lh' h' ns', (∀ A (f : string → lheap → stm (engine D T) A),
      ('(h, lh) ← lift (list_del h lh y);
       bio_key ← sprintf key;
       data ← lift (node_text ns y);
       bio_data ← sprintf data;
       _ ← queue lvl bio_key bio_data NULL LIST_DEL;
       let '(h, ns) := node_free y h ns in
       _ ← put_container c (CList lh h ns);
       f data h) s = f t h' s') ∧
    eng_rep s' dm (<[key := VList (ta ++ tb)]> m) (js ++ [del_job key t]) ∅ ∧
    loc_at s' dm (Some key) c (CList lh' h' ns') ∧ lh_head lh' = lh_head lh ∧
    list_at lh' h' ns' (g_brk s') (xs ++ ys) (ta ++ tb).
Proof.
  intros Hr Hloc Hat Hlen. pose proof (list_at_text _ _ _ _ _ _ _ _ _ _ Hat Hlen) as Ht.
  destruct (del_rep _ _ _ _ _ _ _ _ _ _ Hat Hlen) as (_ & h1 & lh1 & Hdel & Hhd & Hat1). cbn [node_free] in *.
  destruct (sprintf_run s dm m js ∅ key Hr) as (s1 & bk & E1 & S1 & Hr1 & _ & Hbk).
  destruct (sprintf_run s1 dm m js _ t Hr1) as (s2 & bd & E2 & S2 & Hr2 & Hbd & Hbd0).
  assert (bk ≠ bd) as Hne by (intros ->; by rewrite lookup_insert_eq in Hbd).
  destruct (queue_run lvl s2 dm m js _ bk bd NULL (del_job key t) Hlvl Hr2)
    as (s3 & E3 & S3 & Hr3); [out_lookup|cbn; out_lookup|done..|by right|].
  pose proof (loc_at_same _ _ _ _ _ _ S3 (loc_at_same _ _ _ _ _ _ S2 (loc_at_same _ _ _ _ _ _ S1 Hloc))) as Hloc3.
  assert (g_brk s3 = g_brk s) as Hb by (destruct S1, S2, S3; congruence). rewrite <-Hb in Hat1.
  destruct (put_run s3 dm m _ _ (Some key) c _ (CList lh1 _ _) (VList (ta ++ tb)) Hr3 Hloc3 (ex_intro _ _ Hat1))
    as (s4 & E4 & Hr4 & Hat4 & Hb4).
  exists s4, lh1. eexists _, _. split_and!; [|eapply eng_rep_out; [exact Hr4|apply map_empty_subseteq]|by eapply cont_at_loc|
    done|rewrite Hb4; exact Hat1].
  intros A f. calc Hdel. run E1. calc (node_text_ok _ _ _ Ht). run E2. run E3. cbn [node_free]. by run E4.
Qed.

Lemma list_pop_loop_run s dm m js key c lh h ns xs ys ta tb idx counter v vs i tmp fuel :
  eng_rep s dm m js ∅ → m !! key = Some (VList (ta ++ tb)) → loc_at s dm (Some key) c (CList lh h ns) →
  list_at lh h ns (g_brk s) (xs ++ ys) (ta ++ tb) → length xs = length ta →
  (∀ y ys', ys = y :: ys' → tmp = first_or (lh_head lh) ys') →
  drop counter idx = v :: vs → Forall is_int (v :: vs) → Z.of_nat (length (ta ++ tb)) < 2 ^ 31 →
  (length ys < fuel)%nat →
  let '(p, r) := pops (Z.of_nat (length (ta ++ tb))) (v :: vs) i tb in
  ∃ s' ct, list_pop_loop lvl fuel key c (first_or (lh_head lh) ys) tmp idx (Z.of_nat (length idx)) i counter s =
      Done (s', counter + length p)%nat ∧
    eng_rep s' dm (<[key := VList (ta ++ r)]> m) (js ++ (del_job key <$> p)) ∅ ∧
    cont_at s' dm (Some key) c ct (VList (ta ++ r)).
Proof.
  revert s m js lh h ns xs ys ta idx counter v vs i tmp fuel. induction tb as [|t tb IH];
    intros s m js lh h ns xs ys ta idx counter v vs i tmp fuel Hr Hm Hloc Hat Hlen Htmp Hd Hint Hmax Hfuel;
    (destruct fuel as [|fuel]; [lia|]);
    pose proof (list_at_lengths _ _ _ _ _ _ Hat) as Hls; rewrite !length_app in Hls.
  - destruct ys; [|simpl in Hls; lia]. cbn [list_pop_loop first_or head default pops].
    rewrite (stm_bind_run _ _ _ _ _ (get_run _ _ _ _ _ Hloc)). ret. rewrite decide_True by done.
    exists s. eexists. split; [cbn; by rewrite Nat.add_0_r|]. rewrite insert_id, app_nil_r by done. split; [done|].
    eapply loc_cont_at; [done|]. by exists (xs ++ []).
  - destruct ys as [|y ys]; [simpl in Hls; lia|]. cbn [list_pop_loop first_or head default]. change (id y) with y.
    rewrite (stm_bind_run _ _ _ _ _ (get_run _ _ _ _ _ Hloc)). ret.
    rewrite decide_False by (by eapply list_at_not_head). rewrite (list_at_length _ _ _ _ _ _ Hat Hmax).
    set (len := Z.of_nat (length (ta ++ t :: tb))) in *. apply list.Forall_cons in Hint as [Hv Hvs].
    destruct (fix_index_run idx counter v vs len Hd) as (idx' & Hfix & Hil & Hd0 & Hd1); [lia|done|].
    calc Hfix. specialize (Htmp y ys eq_refl) as ->. cbn [pops]. pose proof (drop_length_cons _ _ _ _ Hd) as Hn.
    rewrite <-Hil in *. simpl in Hfuel. destruct (Z.eqb_spec (wrap len v) i) as [Hw|Hw].
    + destruct (drop_node_run s dm m js key c lh h ns xs y ys ta t tb Hr Hloc Hat Hlen)
        as (s1 & lh1 & h1 & ns1 & E1 & Hr1 & Hloc1 & Hhd & Hat1).
      rewrite (stm_bind_run _ _ s s1 (S counter)) by exact (E1 _ (λ _ _, mret (S counter))). clear E1.
      destruct vs as [|v' vs].
      * rewrite (proj2 (Z.leb_le _ _)) by (simpl in Hn; lia). cbn [pops].
        assert (pops (len - 1) [] (i + 1) tb = ([], tb)) as -> by by destruct tb.
        eexists s1, _. split; [cbn; by rewrite Nat.add_1_r|]. split; [done|].
        eapply loc_cont_at; [done|]. by exists (xs ++ ys).
      * rewrite (proj2 (Z.leb_gt _ _)) by (simpl in Hn; lia).
        rewrite (stm_bind_run _ _ _ _ _ (get_run _ _ _ _ _ Hloc1)). ret.
        destruct (list_next_any _ _ _ _ (la_ok _ _ _ _ _ _ Hat1)) as (n & En & Hnext). rewrite Hhd in En. calc En.
        assert (len - 1 = Z.of_nat (length (ta ++ tb))) as Hl1 by (unfold len; rewrite !length_app; simpl; lia).
        rewrite Hl1. specialize (IH s1 _ _ lh1 h1 ns1 xs ys ta idx' (S counter) v' vs (i + 1) n fuel Hr1).
        rewrite lookup_insert_eq, Hhd in IH. specialize (IH eq_refl Hloc1 Hat1 Hlen).
        rewrite Hhd in Hnext. specialize (IH Hnext Hd1 Hvs).
        destruct (pops _ _ _ tb) as [p r]. destruct IH as (s' & ct & -> & Hr' & Hat'); [lia|lia|].
        exists s', ct. split; [cbn; f_equal; f_equal; lia|]. split; [|done]. by rewrite insert_insert_eq, <-app_assoc in Hr'.
    + rewrite (stm_bind_run _ _ s s counter) by done. rewrite (proj2 (Z.leb_gt _ _)) by lia.
      rewrite (stm_bind_run _ _ _ _ _ (get_run _ _ _ _ _ Hloc)). ret.
      rewrite cons_middle, app_assoc in Hat. rewrite (cons_middle t), app_assoc in Hat.
      destruct (list_next_any _ _ _ _ (la_ok _ _ _ _ _ _ Hat)) as (n & En & Hnext). calc En.
      specialize (IH s m js lh h ns (xs ++ [y]) ys (ta ++ [t]) idx' counter (wrap len v) vs (i + 1) n fuel Hr).
      rewrite <-(app_assoc ta) in IH. cbn [app] in IH. specialize (IH Hm Hloc). rewrite <-app_assoc in Hat.
      assert (list_at lh h ns (g_brk s) ((xs ++ [y]) ++ ys) (ta ++ t :: tb)) as Hat' by (by rewrite <-app_assoc; rewrite <-app_assoc in Hat).
      specialize (IH Hat' ltac:(rewrite !length_app; simpl; lia) Hnext Hd0).
      destruct (pops _ _ _ tb) as [p r]. destruct IH as (s' & ct & -> & Hr' & Hat''); [constructor; [by apply wrap_int; [lia|]|done]|done|lia|].
      exists s', ct. rewrite <-app_assoc in Hr', Hat''. by split.
Qed.

(** An empty list goes, with its key. *)
Lemma drop_empty_list_run s dm m js key c ct l :
  eng_rep s dm m js ∅ → m !! key = Some (VList l) → cont_at s dm (Some key) c ct (VList l) →
  Z.of_nat (length l) < 2 ^ 31 →
  ∃ s', drop_empty_list key c s = Done (s', ()) ∧
    eng_ok s' (write key (match l with [] => None | _ => Some (VList l) end) m) js.
Proof.
  intros Hr Hm Hat Hmax. unfold drop_empty_list. run (get_run _ _ _ _ _ (cont_at_loc _ _ _ _ _ _ Hat)).
  pose proof (ca_rep _ _ _ _ _ _ Hat) as Hv. destruct ct as [|lh h ns| |]; try done. ret.
  destruct Hv as (es & Hes). rewrite (list_at_length _ _ _ _ _ _ Hes Hmax). destruct l as [|t l].
  - cond. destruct (delete_run s dm m js ∅ key Hr) as (s1 & S1 & Hr1 & Hk). rewrite Hm in Hk.
    destruct Hk as (c' & ct' & Hd & Hkey & Hat1). run Hd. cond.
    rewrite (ca_att _ _ _ _ _ _ Hat) in Hkey. injection Hkey as <-.
    destruct (free_container_run _ _ _ _ _ _ _ _ Hr1 Hat1) as (s2 & -> & Hr2).
    exists s2. split; [done|]. by eapply eng_rep_done.
  - rewrite (proj2 (Z.leb_gt _ _)) by (simpl; lia). exists s. split; [done|].
    cbn [write]. rewrite insert_id by done. by eapply eng_rep_done.
Qed.

Definition list_pop_spec (old : option value) (key : string) (idx : list Z) : Z * option value * list job :=
  match old with
  | None => (0, None, [])
  | Some (VList l) =>
      let '(p, r) := pops (Z.of_nat (length l)) idx 0 l in
      (Z.of_nat (length p), match r with [] => None | _ => Some (VList r) end, del_job key <$> p)
  | Some v => (- XFIREDB_ERR, Some v, [])
  end.

Lemma pops_length len vs i l : (length (pops len vs i l).2 ≤ length l)%nat.
Proof.
  revert len vs i. induction l as [|t l IH]; intros len vs i; [by destruct vs|]. destruct vs as [|v vs]; [done|].
  cbn [pops]. destruct (wrap len v =? i).
  - specialize (IH (len - 1) vs (i + 1)). destruct (pops _ _ _ l). simpl in *. lia.
  - specialize (IH len (wrap len v :: vs) (i + 1)). destruct (pops _ _ _ l). simpl in *. lia.
Qed.

Lemma list_pop_run s m js key idx fuel :
  eng_ok s m js → Forall is_int idx → idx ≠ [] →
  (∀ l, m !! key = Some (VList l) → Z.of_nat (length l) < 2 ^ 31 ∧ (length l < fuel)%nat) →
  let '(rv, v, ch) := list_pop_spec (m !! key) key idx in
  ∃ s', xfiredb_list_pop lvl fuel key idx (Z.of_nat (length idx)) s = Done (s', rv) ∧
    eng_ok s' (write key v m) (js ++ ch).
Proof.
  intros (dm & Hr) Hint Hne Hlen. unfold xfiredb_list_pop.
  destruct (lookup_run s dm m js ∅ key Hr) as (s1 & _ & Hr1 & Hk).
  destruct (m !! key) as [v|] eqn:Hm.
  - destruct Hk as (c & ct & Hl & Hat). run Hl. cond. pose proof (cont_at_loc _ _ _ _ _ _ Hat) as Hloc.
    run (get_run _ _ _ _ _ Hloc). pose proof (ca_rep _ _ _ _ _ _ Hat) as Hv. rewrite (check_type_rep _ _ _ _ Hv).
    destruct ct as [|lh h ns| |], v as [|l| |]; try done; cbn [list_pop_spec]; cond;
      try (eexists; split; [done|]; cbn [write]; rewrite insert_id, app_nil_r by done; by eapply eng_rep_done).
    ret. destruct Hv as (es & Hes), (Hlen l eq_refl) as [Hmax Hfuel].
    pose proof (list_at_lengths _ _ _ _ _ _ Hes) as Hls. destruct idx as [|v vs]; [done|].
    calc (list_first _ _ _ (la_ok _ _ _ _ _ _ Hes)).
    destruct (list_next_any _ _ [] es (la_ok _ _ _ _ _ _ Hes)) as (n & En & Hnext). calc En.
    pose proof (list_pop_loop_run s1 dm m js key c lh h ns [] es [] l (v :: vs) 0 v vs 0 n fuel Hr1 Hm Hloc Hes eq_refl
      Hnext eq_refl Hint Hmax ltac:(lia)) as Hloop. cbn [app] in Hloop.
    pose proof (pops_length (Z.of_nat (length l)) (v :: vs) 0 l) as Hr0.
    destruct (pops _ _ _ l) as [p r]. destruct Hloop as (s2 & ct & E2 & Hr2 & Hat2). run E2.
    destruct (drop_empty_list_run _ _ _ _ key c ct r Hr2) as (s3 & E3 & Hok); [by rewrite lookup_insert_eq|done|simpl in Hr0; lia|].
    run E3. exists s3. split; [done|]. destruct r; cbn [write] in *; [by rewrite delete_insert_eq in Hok|by rewrite insert_insert_eq in Hok].
  - destruct Hk as (p & Hl). run Hl. cond. cbn [list_pop_spec write]. eexists. split; [done|].
    rewrite delete_id, app_nil_r by done. by eapply eng_rep_done.
Qed.
End Index.
