(* ===== verification/EngineMaps.v ===== *)
(** * Hash maps: what the engine's functions on them do

    [xfiredb_hashmap_get], [xfiredb_hashmap_set] and [xfiredb_hashmap_remove], over any
    index of nodes that keeps the promises of [KeyIndex]. *)
From S2P Require Import Prelude Chain Atomic Mem CList CString KeyIndex SetMap Database Disk Bio BioSpec Container ContainerSpec Engine EngineSpec EngineStrings.
Local Open Scope Z_scope.

(** The change that setting a key of a hash map queues. *)
Definition set_job (key skey data : string) (h : gmap string string) : job :=
  Job (match h !! skey with Some _ => HM_UPDATE | None => HM_ADD end) key (Some skey) (Some data).

Definition hashmap_set_spec (old : option value) (key skey data : string) : Z * option value * list job :=
  match default (VHashmap ∅) old with
  | VHashmap h => (- XFIREDB_OK, Some (VHashmap (<[skey := data]> h)), [set_job key skey data h])
  | v => (- XFIREDB_ERR, Some v, [])
  end.

(** Removing keys one after the other: what is left, how many went and the changes. *)
Fixpoint removes (key : string) (skeys : list string) (h : gmap string string)
    : gmap string string * Z * list job :=
  match skeys with
  | [] => (h, 0, [])
  | k :: skeys =>
      match h !! k with
      | None => removes key skeys h
      | Some _ => let '(h, n, ch) := removes key skeys (delete k h) in (h, n + 1, Job HM_DEL key (Some k) None :: ch)
      end
  end.

Section Maps.
Context {D T I : Type} `{KV : KVStore D} {KL : KVStoreLaws D} `{KI : KeyIndex T I} {IL : KeyIndexLaws T I}.
Context (malloc : D → loc) (coin : loc → nat → bool) (junk lvl : Z).
Context (Hlvl : 0 ≤ lvl < 3) (Hmalloc : ∀ d, kv_fresh d (malloc d)).
Implicit Types (s : engine D T).

(** The keys [skeys] may be used next to those of the hash map at [key]. *)
Definition map_keys (old : option value) : gset string :=
  match old with Some (VHashmap h) => dom h | _ => ∅ end.
Definition good_keys (old : option value) (skeys : list string) : Prop :=
  Forall (ki_good (T := T) (map_keys old)) skeys.

Lemma get_loop_run hm ns brk h skeys :
  map_rep hm ns brk h → Forall (ki_good (T := T) (dom h)) skeys →
  hashmap_get_loop hm ns skeys = Done ((h !!.) <$> skeys).
Proof.
  intros Hm. induction 1 as [|k skeys Hk _ IH]; [done|]. cbn [hashmap_get_loop].
  destruct (find_rep hm ns brk h k Hm Hk) as (o & -> & Ho). rewrite bind_Done, IH.
  destruct (h !! k) as [t|] eqn:E.
  - destruct Ho as (n & -> & Ht). rewrite (node_text_ok _ _ _ Ht), !bind_Done. by rewrite fmap_cons, E.
  - rewrite Ho, !bind_Done. by rewrite fmap_cons, E.
Qed.

Lemma hashmap_get_run s m js key skeys :
  eng_ok s m js → good_keys (m !! key) skeys →
  ∃ s', xfiredb_hashmap_get key skeys s =
      Done (s', match m !! key with
                | Some (VHashmap h) => (- XFIREDB_OK, (h !!.) <$> skeys)
                | _ => (- XFIREDB_ERR, [])
                end) ∧ eng_ok s' m js.
Proof.
  intros (dm & Hr) Hg. unfold xfiredb_hashmap_get.
  destruct (lookup_run s dm m js ∅ key Hr) as (s1 & _ & Hr1 & Hk). destruct (m !! key) as [v|].
  - destruct Hk as (c & ct & Hl & Hat). run Hl. cond.
    run (get_run _ _ _ _ _ (cont_at_loc _ _ _ _ _ _ Hat)). pose proof (ca_rep _ _ _ _ _ _ Hat) as Hv.
    rewrite (check_type_rep _ _ _ _ Hv). destruct ct as [|lh hp nl|hm ns|], v as [| |h|]; try done;
      try (cond; eexists; split; [done|]; by exists dm).
    cond. ret. calc (get_loop_run _ _ _ _ _ Hv Hg). eexists. split; [done|]. by exists dm.
  - destruct Hk as (p & Hl). run Hl. cond. eexists. split; [done|]. by exists dm.
Qed.

Lemma add_new_run s dm m js out att c ct h skey data :
  eng_rep s dm m js out → cont_at s dm att c ct (VHashmap h) → ki_good (T := T) (dom h) skey → h !! skey = None →
  nul_free data →
  ∃ s' ct', add_new coin c skey data s = Done (s', ()) ∧
    eng_rep s' dm (upd att (VHashmap (<[skey := data]> h)) m) js out ∧
    cont_at s' dm att c ct' (VHashmap (<[skey := data]> h)).
Proof.
  intros Hr Hat Hg Hnone Hn. pose proof (ca_rep _ _ _ _ _ _ Hat) as Hv. destruct ct as [|lh hp nl|hm ns|]; try done.
  destruct (new_addr_run s dm m js out Hr) as (s1 & E1 & Hr1 & Hb & _ & Hc). apply Hc, cont_at_loc in Hat.
  destruct (string_alloc_is data Hn) as (x & Ha & Hx).
  pose proof (add_rep (coin (g_brk s)) hm ns (g_brk s) h skey x data Hv Hg Hnone Hx) as Hp. cbn [hm_alloc] in Hp.
  destruct Hp as (hm2 & Hp & Hrep). rewrite <-Hb in Hrep.
  destruct (put_run s1 dm m js out att c _ (CHashmap hm2 _) (VHashmap _) Hr1 Hat Hrep) as (s2 & E2 & Hr2 & Hat2 & _).
  exists s2. eexists. split; [|by split]. unfold add_new. run E1. calc Ha.
  run (get_run _ _ _ _ _ Hat). ret. cbn [hm_alloc]. by calc Hp.
Qed.

(** What both cases do to the map, before the change is queued. *)
Lemma set_key_run s dm m js out att c hm ns h skey data (k1 k2 : stm (engine D T) ()) :
  eng_rep s dm m js out → cont_at s dm att c (CHashmap hm ns) (VHashmap h) → ki_good (T := T) (dom h) skey →
  nul_free data →
  ∃ s' ct' node, hashmap_find hm skey = Done node ∧
    match node with
    | None => _ ← add_new coin c skey data; k1
    | Some n => x ← lift (deref (ns !! n)); x ← lift (string_set junk x data);
        _ ← put_container c (CHashmap hm (<[n := x]> ns)); k2
    end s = (match h !! skey with None => k1 | Some _ => k2 end) s' ∧
    eng_rep s' dm (upd att (VHashmap (<[skey := data]> h)) m) js out ∧
    cont_at s' dm att c ct' (VHashmap (<[skey := data]> h)).
Proof.
  intros Hr Hat Hg Hn. pose proof (ca_rep _ _ _ _ _ _ Hat) as Hv.
  destruct (find_rep hm ns (g_brk s) h skey Hv Hg) as (o & Ho & Ht). destruct (h !! skey) as [t|] eqn:Hk.
  - destruct Ht as (n & -> & x & Hx & _). destruct (string_set_is junk x data Hn) as (x' & Hx' & Ht').
    pose proof (set_rep_text hm ns _ h skey n t x' data Hv Hg Ho Hk Ht') as Hv'.
    destruct (put_run s dm m js out att c _ (CHashmap hm (<[n:=x']> ns)) (VHashmap _) Hr (cont_at_loc _ _ _ _ _ _ Hat) Hv')
      as (s1 & E1 & Hr1 & Hat1 & _).
    exists s1. eexists _, _. split; [done|]. split; [|done]. rewrite Hx. cbn [deref]. ret. calc Hx'. by run E1.
  - subst o. destruct (add_new_run s dm m js out att c _ h skey data Hr Hat Hg Hk Hn) as (s1 & ct & E1 & Hr1 & Hat1).
    exists s1, ct. eexists. split; [done|]. split; [|done]. by run E1.
Qed.

Lemma hashmap_set_run s m js key skey data :
  eng_ok s m js → Z.of_nat (size m) < 2 ^ 30 → good_keys (m !! key) [skey] → nul_free data →
  let '(rv, v, ch) := hashmap_set_spec (m !! key) key skey data in
  ∃ s', xfiredb_hashmap_set malloc coin junk lvl key skey data s = Done (s', rv) ∧
    eng_ok s' (write key v m) (js ++ ch).
Proof.
  intros (dm & Hr) Hsz Hg Hn. unfold xfiredb_hashmap_set.
  destruct (enter_run s dm m js ∅ key CONTAINER_HASHMAP ltac:(done) Hr) as (s1 & c & ct & E1 & Hr1 & Hat).
  rewrite E1. clear E1. cbn beta iota. unfold hashmap_set_spec. cbn [empty_value] in *.
  apply list.Forall_cons in Hg as [Hg _].
  assert (∀ h, default (VHashmap ∅) (m !! key) = VHashmap h → ki_good (T := T) (dom h) skey →
    ∃ s', (ct ← get_container c;
           '(hm, ns) ← lift (get_hashmap ct);
           node ← lift (hashmap_find hm skey);
           bk ← sprintf key; bs ← sprintf skey; bd ← sprintf data;
           _ ← match node with
               | None => _ ← add_new coin c skey data; queue lvl bk bs bd HM_ADD
               | Some n => x ← lift (deref (ns !! n)); x ← lift (string_set junk x data);
                   _ ← put_container c (CHashmap hm (<[n := x]> ns)); queue lvl bk bs bd HM_UPDATE
               end;
           if is_new (m !! key) then _ ← store_db malloc key c; mret (- XFIREDB_OK) else mret (- XFIREDB_OK)) s1 =
         Done (s', - XFIREDB_OK) ∧
       eng_ok s' (<[key := VHashmap (<[skey := data]> h)]> m) (js ++ [set_job key skey data h])) as Hset.
  { intros h Hh Hg'. rewrite Hh in Hat. run (get_run _ _ _ _ _ (cont_at_loc _ _ _ _ _ _ Hat)).
    pose proof (ca_rep _ _ _ _ _ _ Hat) as Hv. destruct ct as [|lh hp nl|hm ns|]; try done. ret.
    destruct (texts_run lvl Hlvl s1 dm m js key skey data Hr1) as (s2 & bk & bs & bd & out & S2 & Hr2 & E2 & Hq).
    apply (cont_at_same _ _ _ _ _ _ _ S2) in Hat.
    destruct (set_key_run s2 dm m js out _ c hm ns h skey data (queue lvl bk bs bd HM_ADD) (queue lvl bk bs bd HM_UPDATE)
      Hr2 Hat Hg' Hn) as (s3 & ct & node & Hf & E3 & Hr3 & Hat3). calc Hf. rewrite E2.
    destruct (Hq s3 _ _ _ (j_op (set_job key skey data h)) Hr3) as (s4 & E4 & S4 & Hr4).
    assert ((match h !! skey with Some _ => queue lvl bk bs bd HM_UPDATE | None => queue lvl bk bs bd HM_ADD end) s3 =
      Done (s4, ())) as E4' by (unfold set_job in E4; simpl in E4; by destruct (h !! skey)).
    rewrite E4' in E3. rewrite (stm_bind_run _ _ _ _ _ E3). eapply (leave_run malloc Hmalloc); [exact Hr4|done|].
    eapply cont_at_same; [exact S4|exact Hat3]. }
  destruct (m !! key) as [[t|l|h|k]|] eqn:Hm; cbn [default is_new write type_of] in *; cond;
    try exact (Hset _ eq_refl Hg);
    try (cbn [id write]; eexists; split; [done|]; rewrite insert_id, app_nil_r by done; by eapply eng_rep_done).
Qed.

Lemma good_delete (h : gmap string string) k skeys :
  Forall (ki_good (T := T) (dom h)) skeys → Forall (ki_good (T := T) (dom (delete k h))) skeys.
Proof.
  intros Hg. eapply list.Forall_impl; [exact Hg|]. intros x Hx. eapply ki_good_mono; [|exact Hx].
  rewrite dom_delete_L. set_solver.
Qed.

(** A text for the key and one for the key in the map, and the change made of them. *)
Lemma change_arg_run s dm m js key arg op :
  eng_rep s dm m js ∅ →
  ∃ s', same s s' ∧ eng_rep s' dm m (js ++ [Job op key (Some arg) None]) ∅ ∧
    ∀ A (f : stm (engine D T) A),
      (bk ← sprintf key; ba ← sprintf arg; _ ← queue lvl bk ba NULL op; f) s = f s'.
Proof.
  intros Hr. destruct (sprintf_run s dm m js ∅ key Hr) as (s1 & bk & E1 & [S1 S1'] & Hr1 & _ & Hbk).
  destruct (sprintf_run s1 dm m js _ arg Hr1) as (s2 & ba & E2 & [S2 S2'] & Hr2 & Hba & Hba').
  assert (bk ≠ ba) as Hne by (intros ->; by rewrite lookup_insert_eq in Hba).
  destruct (queue_run lvl s2 dm m js _ bk ba NULL (Job op key (Some arg) None) Hlvl Hr2)
    as (s3 & E3 & [S3 S3'] & Hr3); [out_lookup|cbn; out_lookup|done..|by right|].
  exists s3. split; [split; congruence|]. split; [eapply eng_rep_out; [done|apply map_empty_subseteq]|].
  intros A f. run E1. run E2. by run E3.
Qed.

Lemma remove_loop_run s dm m js key c ct h skeys n :
  eng_rep s dm m js ∅ → m !! key = Some (VHashmap h) → cont_at s dm (Some key) c ct (VHashmap h) →
  Forall (ki_good (T := T) (dom h)) skeys →
  let '(h', k, ch) := removes key skeys h in
  ∃ s' ct', hashmap_remove_loop lvl key c skeys n s = Done (s', n + k) ∧
    eng_rep s' dm (<[key := VHashmap h']> m) (js ++ ch) ∅ ∧ cont_at s' dm (Some key) c ct' (VHashmap h').
Proof.
  revert s m js ct h n. induction skeys as [|k skeys IH]; intros s m js ct h n Hr Hm Hat Hg; cbn [removes hashmap_remove_loop].
  { exists s, ct. rewrite Z.add_0_r, app_nil_r, insert_id by done. done. }
  apply list.Forall_cons in Hg as [Hk Hg]. pose proof (cont_at_loc _ _ _ _ _ _ Hat) as Hloc. run (get_run _ _ _ _ _ Hloc).
  pose proof (ca_rep _ _ _ _ _ _ Hat) as Hv. destruct ct as [|lh hp nl|hm ns|]; try done. ret.
  pose proof (remove_rep hm ns _ h k Hv Hk) as Hrem. destruct (h !! k) as [t|] eqn:Hhk.
  - destruct Hrem as (hm1 & hm2 & x & E1 & Ht & E2 & Hv2). calc E1. cbn [hm_free] in *.
    destruct (change_arg_run s dm m js key k HM_DEL Hr) as (s1 & S1 & Hr1 & E3). rewrite E3. calc E2.
    assert (g_brk s1 = g_brk s) as Hb by apply S1. rewrite <-Hb in Hv2.
    destruct (put_run s1 dm m _ ∅ (Some key) c _ (CHashmap _ _) (VHashmap (delete k h)) Hr1 (loc_at_same _ _ _ _ _ _ S1 Hloc) Hv2)
      as (s2 & E4 & Hr2 & Hat2 & _). run E4.
    specialize (IH s2 _ _ _ (delete k h) (n + 1) Hr2 (lookup_insert_eq _ _ _) Hat2 (good_delete _ _ _ Hg)).
    destruct (removes key skeys (delete k h)) as [[h' z] ch]. destruct IH as (s3 & ct3 & -> & Hr3 & Hat3).
    exists s3, ct3. split; [by rewrite <-Z.add_assoc, (Z.add_comm 1)|]. split; [|done].
    cbn [upd] in Hr3. by rewrite insert_insert_eq, <-app_assoc in Hr3.
  - destruct Hrem as (hm1 & E1 & Hv1). calc E1.
    destruct (put_run s dm m js ∅ (Some key) c _ (CHashmap hm1 ns) (VHashmap h) Hr Hloc Hv1) as (s2 & E4 & Hr2 & Hat2 & _).
    run E4. cbn [upd] in Hr2. rewrite insert_id in Hr2 by done. by apply (IH s2 m js _ h n Hr2 Hm Hat2).
Qed.

Lemma removes_size key skeys h : (size (removes key skeys h).1.1 ≤ size h)%nat.
Proof.
  revert h. induction skeys as [|k skeys IH]; intros h; [done|]. cbn [removes]. destruct (h !! k) eqn:E; [|done].
  specialize (IH (delete k h)). destruct (removes _ _ _) as [[h' n] ch]. simpl in *.
  rewrite map_size_delete, E in IH. lia.
Qed.

Lemma removes_count key skeys h :
  (removes key skeys h).1.2 = Z.of_nat (size h) - Z.of_nat (size (removes key skeys h).1.1).
Proof.
  revert h. induction skeys as [|k skeys IH]; intros h; [simpl; lia|]. cbn [removes]. destruct (h !! k) eqn:E; [|done].
  specialize (IH (delete k h)). destruct (removes _ _ _) as [[h' n] ch]. cbn [fst snd] in *.
  rewrite map_size_delete, E in IH. assert (size h ≠ 0%nat) by (intros Hz%map_size_empty_inv; by rewrite Hz in E). lia.
Qed.

Lemma drop_empty_hashmap_run s dm m js key c ct h :
  eng_rep s dm m js ∅ → m !! key = Some (VHashmap h) → cont_at s dm (Some key) c ct (VHashmap h) →
  Z.of_nat (size h) < 2 ^ 31 →
  ∃ s', drop_empty_hashmap key c s = Done (s', ()) ∧
    eng_ok s' (write key (if decide (h = ∅) then None else Some (VHashmap h)) m) js.
Proof.
  intros Hr Hm Hat Hmax. unfold drop_empty_hashmap. run (get_run _ _ _ _ _ (cont_at_loc _ _ _ _ _ _ Hat)).
  pose proof (ca_rep _ _ _ _ _ _ Hat) as Hv. destruct ct as [|lh hp nl|hm ns|]; try done. ret.
  rewrite (hm_size_rep _ _ _ _ Hv Hmax). destruct (decide (h = ∅)) as [->|Hne].
  - rewrite map_size_empty. cond. destruct (delete_run s dm m js ∅ key Hr) as (s1 & S1 & Hr1 & Hk). rewrite Hm in Hk.
    destruct Hk as (c' & ct' & Hd & Hkey & Hat1). run Hd. cond.
    rewrite (ca_att _ _ _ _ _ _ Hat) in Hkey. injection Hkey as <-.
    destruct (free_container_run _ _ _ _ _ _ _ _ Hr1 Hat1) as (s2 & -> & Hr2).
    exists s2. split; [done|]. by eapply eng_rep_done.
  - assert (size h ≠ 0%nat) by (by intros ?%map_size_empty_inv). rewrite (proj2 (Z.eqb_neq _ _)) by lia. exists s. split; [done|].
    cbn [write]. rewrite insert_id by done. by eapply eng_rep_done.
Qed.

Definition hashmap_remove_spec (old : option value) (key : string) (skeys : list string)
    : Z * option value * list job :=
  match old with
  | Some (VHashmap h) =>
      let '(h', n, ch) := removes key skeys h in
      (n, if decide (h' = ∅) then None else Some (VHashmap h'), ch)
  | v => (0, v, [])
  end.

Lemma engine_hashmap_remove_run s m js key skeys :
  eng_ok s m js → good_keys (m !! key) skeys →
  (∀ h, m !! key = Some (VHashmap h) → Z.of_nat (size h) < 2 ^ 31) →
  let '(rv, v, ch) := hashmap_remove_spec (m !! key) key skeys in
  ∃ s', xfiredb_hashmap_remove lvl key skeys s = Done (s', rv) ∧ eng_ok s' (write key v m) (js ++ ch).
Proof.
  intros (dm & Hr) Hg Hmax. unfold xfiredb_hashmap_remove.
  destruct (lookup_run s dm m js ∅ key Hr) as (s1 & _ & Hr1 & Hk). destruct (m !! key) as [v|] eqn:Hm.
  - destruct Hk as (c & ct & Hl & Hat). run Hl. cond. pose proof (cont_at_loc _ _ _ _ _ _ Hat) as Hloc.
    run (get_run _ _ _ _ _ Hloc). rewrite (check_type_rep _ _ _ _ (ca_rep _ _ _ _ _ _ Hat)).
    destruct v as [| |h|]; cbn [hashmap_remove_spec]; cond;
      try (eexists; split; [done|]; cbn [write]; rewrite insert_id, app_nil_r by done; by eapply eng_rep_done).
    pose proof (remove_loop_run s1 dm m js key c ct h skeys 0 Hr1 Hm Hat Hg) as Hloop.
    pose proof (removes_size key skeys h) as Hsz. specialize (Hmax h eq_refl).
    destruct (removes key skeys h) as [[h' n] ch]. destruct Hloop as (s2 & ct2 & E2 & Hr2 & Hat2). run E2.
    destruct (drop_empty_hashmap_run _ _ _ _ key c ct2 h' Hr2) as (s3 & E3 & Hok);
      [by rewrite lookup_insert_eq|done|simpl in Hsz; lia|].
    run E3. exists s3. split; [done|].
    destruct (decide (h' = ∅)); cbn [write] in *; [by rewrite delete_insert_eq in Hok|by rewrite insert_insert_eq in Hok].
  - destruct Hk as (p & Hl). run Hl. cond. cbn [hashmap_remove_spec write]. eexists. split; [done|].
    rewrite delete_id, app_nil_r by done. by eapply eng_rep_done.
Qed.
End Maps.
