(* ===== verification/EngineKeys.v ===== *)
(** * Whole keys: [xfiredb_key_delete], [xfiredb_list_clear]

    Deleting a key with its container and queueing a change for every entry; clearing
    a list, which leaves its key without a container. *)
From S2P Require Import Prelude Chain Atomic Mem CList CString KeyIndex SetMap Database Disk Bio BioSpec Container ContainerSpec Engine EngineSpec EngineStrings EngineLists EngineIndex EngineMaps.
Local Open Scope Z_scope.

Definition hm_del_job (key : string) (kv : string * string) : job := Job HM_DEL key (Some kv.1) None.

Definition delete_count (v : value) : Z :=
  match v with
  | VString _ => 1
  | VList l => Z.of_nat (length l)
  | VHashmap h => Z.of_nat (size h)
  | VSet _ => - XFIREDB_ERR
  end.
Definition delete_jobs (key : string) (v : value) : list job :=
  match v with
  | VString _ => [Job STRING_DEL key None None]
  | VList l => del_job key <$> l
  | VHashmap h => hm_del_job key <$> map_to_list h
  | VSet _ => []
  end.

(** What the loops of [xfiredb_key_delete] can do. *)
Definition deletable (fuel : nat) (v : value) : Prop :=
  match v with
  | VList l => (length l ≤ 1)%nat ∧ (length l < fuel)%nat
  | VHashmap h => (size h < fuel)%nat ∧ Z.of_nat (size h) < 2 ^ 31
  | _ => True
  end.

Section Keys.
Context {D T I : Type} `{KV : KVStore D} {KL : KVStoreLaws D} `{KI : KeyIndex T I} {IL : KeyIndexLaws T I}.
Context (lvl : Z) (Hlvl : 0 ≤ lvl < 3).
Implicit Types (s : engine D T).

(** A container under no key may hold anything. *)
Lemma put_free_run s dm m js out c ct ct' :
  eng_rep s dm m js out → loc_at s dm None c ct →
  ∃ s', put_container c ct' s = Done (s', ()) ∧ eng_rep s' dm m js out ∧ loc_at s' dm None c ct'.
Proof.
  intros [H1 H2 H3 H4] [G1 G3 G4]. eexists. split; [done|]. split.
  - split; [done|done| |done]. intros k. specialize (H3 k). simpl.
    destruct (dm !! k) as [c'|] eqn:Hk, (m !! k); try done.
    destruct H3 as (? & x & ? & ?). split; [done|]. exists x.
    rewrite lookup_insert_ne; [done|]. intros <-. by apply (G4 k).
  - split; simpl; [by rewrite lookup_insert_eq|done..].
Qed.

Lemma delete_map_loop_run s dm m js key c hm ns (nm : gmap string loc) (h : gmap string string) hook fuel :
  eng_rep s dm m js ∅ → loc_at s dm None c (CHashmap hm ns) → ki_rep (hm_list hm) nm →
  (∀ k, match nm !! k, h !! k with
        | Some n, Some t => node_is ns n t ∧ hm_key_str hm !! n = Some k
        | None, None => True
        | _, _ => False
        end) →
  (∀ k1 k2 n, nm !! k1 = Some n → nm !! k2 = Some n → k1 = k2) → (size h < fuel)%nat →
  ∃ s' ct kvs, delete_hashmap_loop lvl fuel hook key c (hashmap_new_iterator hm) s =
      Done (s', if hook then kvs else []) ∧ kvs ≡ₚ map_to_list h ∧
    eng_rep s' dm m (js ++ (hm_del_job key <$> kvs)) ∅ ∧ loc_at s' dm None c ct.
Proof.
  revert s js hm ns nm h. induction fuel as [|fuel IH]; intros s js hm ns nm h Hr Hloc Hki Hk Hinj Hfuel; [lia|].
  cbn [delete_hashmap_loop]. rewrite (stm_bind_run _ _ _ _ _ (get_run _ _ _ _ _ Hloc)). ret.
  unfold hashmap_new_iterator, hashmap_iterator_next.
  destruct (ki_iter_first _ _ Hki) as (it & o & E1 & Ho). calc E1. destruct o as [n|].
  - destruct Ho as (k & l' & it' & o' & Hn & E2 & Hki' & Hfree & -> & Hit). pose proof (Hk k) as Hkk. rewrite Hn in Hkk.
    destruct (h !! k) as [t|] eqn:Hhk; [|done]. destruct Hkk as [Ht Hkey]. rewrite Hkey. cbn [deref]. ret.
    rewrite (stm_bind_run _ _ s s (if hook then [(k, t)] else [])) by (destruct hook; [by calc (node_text_ok _ _ _ Ht)|done]).
    destruct (change_arg_run lvl Hlvl s dm m js key k HM_DEL Hr) as (s1 & S1 & Hr1 & E3). rewrite E3.
    apply (loc_at_same _ _ _ _ _ _ S1) in Hloc. unfold hashmap_iterator_delete at 1. rewrite E2, bind_Done. ret.
    unfold hashmap_node_destroy. cbn [hm_key_str]. rewrite Hkey. ret. cbn [hm_free hm_list hm_num hm_key_str].
    destruct (put_free_run s1 dm m _ ∅ c _ (CHashmap (Hashmap (ki_release l' n) (hm_num hm) (delete n (hm_key_str hm))) (delete n ns))
      Hr1 Hloc) as (s2 & E4 & Hr2 & Hloc2). run E4.
    destruct (IH s2 _ _ _ (delete k nm) (delete k h) Hr2 Hloc2) as (s3 & ct & kvs & E5 & Hp & Hr3 & Hloc3).
    { cbn [hm_list]. by apply ki_release_rep. }
    { intros k'. cbn [hm_key_str]. destruct (decide (k' = k)) as [->|Hne]; [by rewrite !lookup_delete_eq|].
      rewrite !lookup_delete_ne by done. specialize (Hk k').
      destruct (nm !! k') as [n'|] eqn:Hn', (h !! k'); try done. destruct Hk as [Hk Hk'].
      assert (n' ≠ n) as Hnn by (intros ->; apply Hne; by eapply Hinj).
      rewrite lookup_delete_ne by done. split; [by apply node_is_delete|done]. }
    { intros k1 k2 x [_ ?]%lookup_delete_Some [_ ?]%lookup_delete_Some. by eapply Hinj. }
    { rewrite map_size_delete, Hhk. assert (size h ≠ 0%nat) by (intros E%map_size_empty_inv; by rewrite E in Hhk). lia. }
    unfold hashmap_new_iterator in E5. cbn [hm_list] in E5. rewrite Hit in E5. run E5.
    exists s3, ct, ((k, t) :: kvs). split; [by destruct hook|]. split_and!; [|by rewrite fmap_cons, cons_middle, app_assoc|done].
    rewrite Hp. by apply map_to_list_delete.
  - subst nm. exists s. eexists _, []. split; [by destruct hook|]. rewrite app_nil_r. split_and!; [|done..].
    assert (h = ∅) as ->; [|by rewrite map_to_list_empty].
    apply map_eq. intros k. specialize (Hk k). rewrite !lookup_empty in *. by destruct (h !! k).
Qed.

(** At most one node: the key's string is handed over once. *)
Lemma delete_list_run s dm m js key c lh h ns es l bk fuel n :
  eng_rep s dm m js (<[bk := key]> ∅) → bk ≠ NULL → loc_at s dm None c (CList lh h ns) →
  list_at lh h ns (g_brk s) es l → (length l ≤ 1)%nat → (length l < fuel)%nat →
  (∀ e es', es = e :: es' → n = first_or (lh_head lh) es') →
  ∃ s' ct, delete_list_loop lvl fuel bk c (first_or (lh_head lh) es) n 0 s = Done (s', Z.of_nat (length l)) ∧
    eng_rep s' dm m (js ++ (del_job key <$> l)) ∅ ∧ loc_at s' dm None c ct.
Proof.
  intros Hr Hbk Hloc Hat H1 Hfuel Hnext. pose proof (list_at_lengths _ _ _ _ _ _ Hat) as Hls.
  destruct fuel as [|fuel]; [lia|]. cbn [delete_list_loop].
  rewrite (stm_bind_run _ _ _ _ _ (get_run _ _ _ _ _ Hloc)). ret. destruct l as [|t [|]], es as [|e [|]]; try (simpl in *; lia).
  - rewrite decide_True by done. eexists _, _. split; [done|]. rewrite app_nil_r. split; [|done].
    eapply eng_rep_out; [done|apply map_empty_subseteq].
  - cbn [first_or head default]. change (id e) with e. rewrite decide_False by (by eapply (list_at_not_head _ _ _ _ [])).
    pose proof (list_at_text _ _ _ _ [] e [] [] t [] Hat eq_refl) as Ht.
    destruct (del_rep _ _ _ _ [] e [] [] t [] Hat eq_refl) as (_ & h1 & lh1 & Hdel & Hhd & Hat1). cbn [node_free] in Hat1.
    calc (node_text_ok _ _ _ Ht). destruct (sprintf_run s dm m js _ t Hr) as (s1 & bd & E1 & S1 & Hr1 & Hbd & Hbd0). run E1.
    apply lookup_insert_None in Hbd as [_ Hne].
    destruct (queue_run lvl s1 dm m js _ bk bd NULL (del_job key t) Hlvl Hr1)
      as (s2 & E2 & S2 & Hr2); [out_lookup|cbn; out_lookup|done..|by right|]. run E2. calc Hdel. cbn [node_free].
    destruct (put_free_run s2 dm m _ _ c _ (CList lh1 (delete e h1) (delete e ns)) Hr2
      (loc_at_same _ _ _ _ _ _ S2 (loc_at_same _ _ _ _ _ _ S1 Hloc))) as (s3 & E3 & Hr3 & Hloc3). run E3.
    specialize (Hnext e [] eq_refl) as ->. pose proof (list_first _ _ _ (la_ok _ _ _ _ _ _ Hat1)) as En1.
    rewrite Hhd in En1. calc En1. destruct fuel as [|fuel]; [simpl in *; lia|]. cbn [delete_list_loop first_or head default].
    rewrite (stm_bind_run _ _ _ _ _ (get_run _ _ _ _ _ Hloc3)). ret. rewrite decide_True by done.
    eexists s3, _. split; [done|]. split; [|done]. eapply eng_rep_out; [done|apply map_empty_subseteq].
Qed.

Lemma key_delete_run s m js key fuel :
  eng_ok s m js → (∀ v, m !! key = Some v → deletable fuel v) →
  ∃ s' ch, xfiredb_key_delete lvl fuel key s =
      Done (s', match m !! key with Some v => delete_count v | None => 0 end) ∧
    ch ≡ₚ match m !! key with Some v => delete_jobs key v | None => [] end ∧
    eng_ok s' (delete key m) (js ++ ch).
Proof.
  intros (dm & Hr) Hdel. unfold xfiredb_key_delete.
  destruct (delete_run s dm m js ∅ key Hr) as (s1 & S1 & Hr1 & Hk). destruct (m !! key) as [v|] eqn:Hm.
  - destruct Hk as (c & ct & E & _ & Hat). run E. cond. specialize (Hdel v eq_refl).
    pose proof (cont_at_loc _ _ _ _ _ _ Hat) as Hloc. run (get_run _ _ _ _ _ Hloc). pose proof (ca_rep _ _ _ _ _ _ Hat) as Hv.
    assert (∀ s2 ct2 js2, eng_rep s2 (delete key dm) (delete key m) js2 ∅ → loc_at s2 (delete key dm) None c ct2 →
      ∃ s3, free_container c s2 = Done (s3, ()) ∧ eng_ok s3 (delete key m) js2) as Hfree.
    { intros s2 ct2 js2 Hr2 Hloc2. destruct (free_loc_run _ _ _ _ _ _ _ Hr2 Hloc2) as (s3 & ? & Hr3).
      exists s3. split; [done|]. by exists (delete key dm). }
    destruct ct as [cs|lh hp nl|hm ns|cset], v as [t|l|h|ks]; try done; cbn [c_type delete_count delete_jobs].
    + destruct (sprintf_run s1 _ _ js ∅ key Hr1) as (s2 & bk & E2 & S2 & Hr2 & _ & Hbk). run E2.
      destruct (queue_run lvl s2 _ _ js _ bk NULL NULL (Job STRING_DEL key None None) Hlvl Hr2)
        as (s3 & E3 & S3 & Hr3); [out_lookup|done..|by left|]. run E3.
      destruct (Hfree s3 _ _ (eng_rep_out _ _ _ _ _ _ Hr3 (map_empty_subseteq _))
        (loc_at_same _ _ _ _ _ _ S3 (loc_at_same _ _ _ _ _ _ S2 Hloc))) as (s4 & E4 & Hok). run E4.
      exists s4. eexists. split; [done|]. by split.
    + destruct (sprintf_run s1 _ _ js ∅ key Hr1) as (s2 & bk & E2 & S2 & Hr2 & _ & Hbk). run E2. ret. destruct Hv as (es & Hes).
      assert (g_brk s2 = g_brk s1) as Hb by apply S2. rewrite <-Hb in Hes. destruct Hdel as [H1 Hfuel].
      destruct (list_next_any hp lh [] es (la_ok _ _ _ _ _ _ Hes)) as (n & En & Hnext).
      calc (list_first _ _ _ (la_ok _ _ _ _ _ _ Hes)). calc En.
      destruct (delete_list_run s2 _ _ js key c lh hp nl es l bk fuel n Hr2 Hbk (loc_at_same _ _ _ _ _ _ S2 Hloc) Hes H1 Hfuel Hnext)
        as (s3 & ct3 & E3 & Hr3 & Hloc3).
      run E3. destruct (Hfree s3 _ _ Hr3 Hloc3) as (s4 & E4 & Hok). run E4. exists s4. eexists. split; [done|]. by split.
    + ret. destruct Hdel as [Hfuel Hmax]. rewrite (hm_size_rep _ _ _ _ Hv Hmax). destruct Hv as (nm & [Hki _] & _ & Hks & Hinj).
      destruct (delete_map_loop_run s1 _ _ js key c hm ns nm h false fuel Hr1 Hloc Hki Hks Hinj Hfuel)
        as (s2 & ct2 & kvs & E2 & Hp & Hr2 & Hloc2). run E2.
      destruct (Hfree s2 _ _ Hr2 Hloc2) as (s3 & E3 & Hok). run E3. exists s3. eexists. split; [done|]. split; [|done].
      by rewrite Hp.
    + exists s1, []. split; [done|]. split; [done|]. rewrite app_nil_r. by exists (delete key dm).
  - destruct Hk as (p & E). run E. cond. exists s1, []. split; [done|]. split; [done|]. rewrite app_nil_r. by exists (delete key dm).
Qed.

(** ** Clearing a list *)

Lemma clear_loop_run s dm m js key c lh h ns es l tmp fuel :
  eng_rep s dm m js ∅ → loc_at s dm (Some key) c (CList lh h ns) → list_at lh h ns (g_brk s) es l →
  (∀ e es', es = e :: es' → tmp = first_or (lh_head lh) es') → (length l < fuel)%nat →
  ∃ s' ct m', clear_list_loop lvl fuel key c (first_or (lh_head lh) es) tmp s = Done (s', l) ∧
    eng_rep s' dm m' (js ++ (del_job key <$> l)) ∅ ∧ loc_at s' dm (Some key) c ct.
Proof.
  revert s m js lh h ns es tmp l. induction fuel as [|fuel IH]; intros s m js lh h ns es tmp l Hr Hloc Hat Htmp Hfuel; [lia|].
  cbn [clear_list_loop]. rewrite (stm_bind_run _ _ _ _ _ (get_run _ _ _ _ _ Hloc)). ret.
  pose proof (list_at_lengths _ _ _ _ _ _ Hat) as Hls. destruct l as [|t l], es as [|e es]; try (simpl in *; lia).
  - rewrite decide_True by done. eexists s, _, m. split; [done|]. by rewrite app_nil_r.
  - cbn [first_or head default]. change (id e) with e. rewrite decide_False by (by eapply (list_at_not_head _ _ _ _ [])).
    destruct (drop_node_run lvl Hlvl s dm m js key c lh h ns [] e es [] t l Hr Hloc Hat eq_refl)
      as (s1 & lh1 & h1 & ns1 & E1 & Hr1 & Hloc1 & Hhd & Hat1).
    erewrite (E1 _ (λ data h, next ← lift (get_next h tmp); rest ← clear_list_loop lvl fuel key c tmp next; mret (data :: rest))).
    clear E1. rewrite (Htmp e es eq_refl), <-Hhd. cbn [app] in *.
    destruct (list_next_any h1 lh1 [] es (la_ok _ _ _ _ _ _ Hat1)) as (n & En & Hnext). calc En.
    destruct (IH s1 _ _ lh1 h1 ns1 es n l Hr1 Hloc1 Hat1 Hnext ltac:(simpl in *; lia)) as (s2 & ct & m2 & E2 & Hr2 & Hloc2).
    run E2. exists s2, ct, m2. split; [done|]. by rewrite fmap_cons, cons_middle, app_assoc.
Qed.

(** The state after the container of a key was released. *)
Definition dangling s (key : string) : Prop :=
  ∃ s' c, lookup_db key s = Done (s', (- XFIREDB_OK, c)) ∧ g_conts s' !! c = None.

Lemma list_clear_run s m js key l fuel :
  eng_ok s m js → m !! key = Some (VList l) → (length l < fuel)%nat →
  ∃ s', xfiredb_list_clear lvl fuel key s = Done (s', (- XFIREDB_OK, l)) ∧ dangling s' key.
Proof.
  intros (dm & Hr) Hm Hfuel. unfold xfiredb_list_clear.
  destruct (lookup_run s dm m js ∅ key Hr) as (s1 & _ & Hr1 & Hk). rewrite Hm in Hk.
  destruct Hk as (c & ct & E & Hat). run E. cond. pose proof (cont_at_loc _ _ _ _ _ _ Hat) as Hloc.
  run (get_run _ _ _ _ _ Hloc). pose proof (ca_rep _ _ _ _ _ _ Hat) as Hv. rewrite (check_type_rep _ _ _ _ Hv).
  destruct ct as [|lh h ns| |]; try done. cond. ret. destruct Hv as (es & Hes).
  destruct (list_next_any h lh [] es (la_ok _ _ _ _ _ _ Hes)) as (n & En & Hnext).
  calc (list_first _ _ _ (la_ok _ _ _ _ _ _ Hes)). calc En.
  destruct (clear_loop_run s1 dm m js key c lh h ns es l n fuel Hr1 Hloc Hes Hnext Hfuel) as (s2 & ct & m2 & E2 & Hr2 & Hloc2).
  run E2. unfold free_container. destruct Hloc2 as [G1 G2 G3].
  erewrite (stm_bind_run _ _ s2); [|rewrite G1; done]. eexists. split; [done|].
  destruct (kv_lookup_ok (db_container (g_db s2)) dm key NULL 0 (er_db _ _ _ _ _ Hr2)) as (d & sz & E3 & _).
  unfold dangling, lookup_db, db_lookup. cbn [g_db]. rewrite E3, !bind_Done, G3. eexists _, c. split; [done|].
  cbn [g_conts]. apply lookup_delete_eq.
Qed.

(** Every operation that looks at the container of such a key faults. *)
Lemma dangling_stuck s (malloc : D → loc) key (data : string) (left : bool) :
  dangling s key →
  xfiredb_list_length key s = Stuck ∧ xfiredb_list_push malloc lvl key data left s = Stuck ∧
  xfiredb_string_get key s = Stuck.
Proof.
  intros (s' & c & E & Hc). unfold xfiredb_list_length, xfiredb_list_push, xfiredb_string_get.
  rewrite !(stm_bind_run _ _ _ _ _ E). cbn beta iota.
  split_and!; cond; unfold mbind, stm_bind, get_container; by rewrite Hc.
Qed.
End Keys.
