(* ===== verification/EngineRun.v ===== *)
(** * Sequences of engine calls

    A client's calls as commands.  [spec] is what a command promises: the reply, the
    map afterwards and the changes that are queued.  The engine refines it, for any
    sequence of commands. *)
From S2P Require Import Prelude Chain Atomic Mem CList CString KeyIndex SetMap Database Disk Bio BioSpec Container ContainerSpec Engine EngineSpec EngineStrings EngineLists EngineIndex EngineMaps EngineKeys.
Local Open Scope Z_scope.

Inductive cmd :=
  | StringGet (key : string)
  | StringSet (key text : string)
  | ListLength (key : string)
  | ListPush (key text : string) (left : bool)
  | ListSet (key : string) (idx : Z) (text : string)
  | ListGet (key : string) (idx : list Z)
  | ListPop (key : string) (idx : list Z)
  | HashmapGet (key : string) (skeys : list string)
  | HashmapSet (key skey text : string)
  | HashmapRemove (key : string) (skeys : list string)
  | KeyDelete (key : string).

(** The code that is returned and the texts that are handed out. *)
Abbreviation reply := (Z * list (option string))%type.
Abbreviation vmap := (gmap string value).

Definition spec (m : vmap) (c : cmd) : reply * vmap * list job :=
  match c with
  | StringGet key =>
      (match m !! key with Some (VString t) => (- XFIREDB_OK, [Some t]) | _ => (- XFIREDB_ERR, [None]) end, m, [])
  | StringSet key text =>
      let '(rv, v, ch) := string_set_spec (m !! key) key text in ((rv, []), write key v m, ch)
  | ListLength key =>
      ((match m !! key with Some (VList l) => Z.of_nat (length l) | _ => - XFIREDB_ERR end, []), m, [])
  | ListPush key text b =>
      let '(rv, v, ch) := list_push_spec (m !! key) key text b in ((rv, []), write key v m, ch)
  | ListSet key idx text =>
      let '(rv, v, ch) := list_set_spec (m !! key) key idx text in ((rv, []), write key v m, ch)
  | ListGet key idx =>
      (match m !! key with
       | Some (VList l) => (- XFIREDB_OK, Some <$> picks (Z.of_nat (length l)) idx 0 l)
       | _ => (- XFIREDB_ERR, [])
       end, m, [])
  | ListPop key idx =>
      let '(rv, v, ch) := list_pop_spec (m !! key) key idx in ((rv, []), write key v m, ch)
  | HashmapGet key skeys =>
      (match m !! key with Some (VHashmap h) => (- XFIREDB_OK, (h !!.) <$> skeys) | _ => (- XFIREDB_ERR, []) end, m, [])
  | HashmapSet key skey text =>
      let '(rv, v, ch) := hashmap_set_spec (m !! key) key skey text in ((rv, []), write key v m, ch)
  | HashmapRemove key skeys =>
      let '(rv, v, ch) := hashmap_remove_spec (m !! key) key skeys in ((rv, []), write key v m, ch)
  | KeyDelete key =>
      match m !! key with
      | Some v => ((delete_count v, []), delete key m, delete_jobs key v)
      | None => ((0, []), m, [])
      end
  end.

Definition reply_of (m : vmap) (c : cmd) : reply := (spec m c).1.1.
Definition after (m : vmap) (c : cmd) : vmap := (spec m c).1.2.
Definition changes (m : vmap) (c : cmd) : list job := (spec m c).2.

(** The same for a sequence. *)
Fixpoint replies (m : vmap) (cs : list cmd) : list reply :=
  match cs with [] => [] | c :: cs => reply_of m c :: replies (after m c) cs end.
Fixpoint all_changes (m : vmap) (cs : list cmd) : list (list job) :=
  match cs with [] => [] | c :: cs => changes m c :: all_changes (after m c) cs end.

(** The list at a key is no longer than an [int] and the fuel allow. *)
Definition list_bound (fuel : nat) (old : option value) : Prop :=
  ∀ l, old = Some (VList l) → Z.of_nat (length l) < 2 ^ 31 ∧ (length l < fuel)%nat.
Definition map_bound (old : option value) : Prop :=
  ∀ h, old = Some (VHashmap h) → Z.of_nat (size h) < 2 ^ 31.

Section Run.
Context {D T I : Type} `{KV : KVStore D} {KL : KVStoreLaws D} `{KI : KeyIndex T I} {IL : KeyIndexLaws T I}.
Context (malloc : D → loc) (coin : loc → nat → bool) (junk lvl : Z) (fuel : nat).
Context (Hlvl : 0 ≤ lvl < 3) (Hmalloc : ∀ d, kv_fresh d (malloc d)).
Implicit Types (s : engine D T).

Definition exec (c : cmd) : stm (engine D T) reply :=
  match c with
  | StringGet key => '(rv, o) ← xfiredb_string_get key; mret (rv, [o])
  | StringSet key text => rv ← xfiredb_string_set malloc junk lvl key text; mret (rv, [])
  | ListLength key => rv ← xfiredb_list_length key; mret (rv, [])
  | ListPush key text b => rv ← xfiredb_list_push malloc lvl key text b; mret (rv, [])
  | ListSet key idx text => rv ← xfiredb_list_set malloc junk lvl fuel key idx text; mret (rv, [])
  | ListGet key idx => '(rv, l) ← xfiredb_list_get fuel key idx (Z.of_nat (length idx)); mret (rv, Some <$> l)
  | ListPop key idx => rv ← xfiredb_list_pop lvl fuel key idx (Z.of_nat (length idx)); mret (rv, [])
  | HashmapGet key skeys => xfiredb_hashmap_get key skeys
  | HashmapSet key skey text => rv ← xfiredb_hashmap_set malloc coin junk lvl key skey text; mret (rv, [])
  | HashmapRemove key skeys => rv ← xfiredb_hashmap_remove lvl key skeys; mret (rv, [])
  | KeyDelete key => rv ← xfiredb_key_delete lvl fuel key; mret (rv, [])
  end.

Fixpoint exec_all (cs : list cmd) : stm (engine D T) (list reply) :=
  match cs with
  | [] => mret []
  | c :: cs => r ← exec c; rs ← exec_all cs; mret (r :: rs)
  end.

(** What a caller must see to: texts are C strings, positions are [int]s and there is
    one at least, the keys of a hash map do not collide, and containers do not
    outgrow an [int].  A list that is deleted with its key has one entry at most. *)
Definition cmd_ok (m : vmap) (c : cmd) : Prop :=
  Z.of_nat (size m) < 2 ^ 30 ∧
  match c with
  | StringGet _ => True
  | StringSet _ text | ListPush _ text _ => nul_free text
  | ListLength key => list_bound fuel (m !! key)
  | ListSet key _ text => nul_free text ∧ list_bound fuel (m !! key)
  | ListGet key idx | ListPop key idx => Forall is_int idx ∧ idx ≠ [] ∧ list_bound fuel (m !! key)
  | HashmapGet key skeys => good_keys (T := T) (m !! key) skeys
  | HashmapSet key skey text => good_keys (T := T) (m !! key) [skey] ∧ nul_free text
  | HashmapRemove key skeys => good_keys (T := T) (m !! key) skeys ∧ map_bound (m !! key)
  | KeyDelete key => ∀ v, m !! key = Some v → deletable fuel v
  end.
Fixpoint cmds_ok (m : vmap) (cs : list cmd) : Prop :=
  match cs with [] => True | c :: cs => cmd_ok m c ∧ cmds_ok (after m c) cs end.

(** An operation that returns a code: what its lemma gives for [exec]. *)
Lemma code_step (op : stm (engine D T) Z) s m js key (sp : Z * option value * list job) :
  (let '(rv, v, ch) := sp in ∃ s', op s = Done (s', rv) ∧ eng_ok s' (write key v m) (js ++ ch)) →
  let '(rv, v, ch) := sp in
  ∃ s' ch', (rv ← op; mret (rv, [])) s = Done (s', (rv, [] : list (option string))) ∧ ch' ≡ₚ ch ∧
    eng_ok s' (write key v m) (js ++ ch').
Proof. destruct sp as [[rv v] ch]. intros (s' & E & Hok). exists s', ch. split; [by run E|]. by split. Qed.

(** A command that only reads. *)
Lemma read_step {A} (op : stm (engine D T) A) (f : A → stm (engine D T) reply) s m js a r :
  (∃ s', op s = Done (s', a) ∧ eng_ok s' m js) → (∀ s', f a s' = Done (s', r)) →
  ∃ s' ch', (x ← op; f x) s = Done (s', r) ∧ ch' ≡ₚ ([] : list job) ∧ eng_ok s' m (js ++ ch').
Proof. intros (s' & E & Hok) Hf. exists s', []. rewrite (stm_bind_run _ _ _ _ _ E), app_nil_r. split; [apply Hf|done]. Qed.

Lemma exec_step s m js c :
  eng_ok s m js → cmd_ok m c →
  ∃ s' ch, exec c s = Done (s', reply_of m c) ∧ ch ≡ₚ changes m c ∧ eng_ok s' (after m c) (js ++ ch).
Proof.
  intros Hok [Hsz Hc]. unfold reply_of, after, changes. destruct c as [key|key t|key|key t left|key i t|key idx|key idx|key sk|key k t|key sk|key];
    cbn [spec exec fst snd] in *.
  - eapply read_step; [by apply string_get_run|]. intros s'. by destruct (m !! key) as [[]|].
  - pose proof (code_step _ _ _ _ key _ (engine_string_set_run malloc junk lvl Hlvl Hmalloc s m js key t Hok Hsz Hc)) as H.
    by destruct (string_set_spec _ _ _) as [[rv v] ch].
  - eapply read_step; [apply list_length_run; [done|]|done]. intros l Hl. by apply Hc.
  - pose proof (code_step _ _ _ _ key _ (list_push_run malloc lvl Hlvl Hmalloc s m js key t left Hok Hsz Hc)) as H.
    by destruct (list_push_spec _ _ _ _) as [[rv v] ch].
  - destruct Hc as [Hn Hb]. 
    pose proof (code_step _ _ _ _ key _ (list_set_run malloc junk lvl Hlvl Hmalloc s m js key i t fuel Hok Hsz Hn
      (λ l Hl, conj (proj1 (Hb l Hl)) (Nat.lt_le_incl _ _ (proj2 (Hb l Hl)))))) as H.
    by destruct (list_set_spec _ _ _ _) as [[rv v] ch].
  - destruct Hc as (Hi & Hne & Hb). eapply read_step; [by apply list_get_run|]. intros s'. by destruct (m !! key) as [[]|].
  - destruct Hc as (Hi & Hne & Hb). pose proof (code_step _ _ _ _ key _ (list_pop_run lvl Hlvl s m js key idx fuel Hok Hi Hne Hb)) as H.
    by destruct (list_pop_spec _ _ _) as [[rv v] ch].
  - destruct (hashmap_get_run s m js key sk Hok Hc) as (s' & E & Hok'). exists s', []. rewrite app_nil_r. by split.
  - destruct Hc as [Hg Hn].
    pose proof (code_step _ _ _ _ key _ (hashmap_set_run malloc coin junk lvl Hlvl Hmalloc s m js key k t Hok Hsz Hg Hn)) as H.
    by destruct (hashmap_set_spec _ _ _ _) as [[rv v] ch].
  - destruct Hc as [Hg Hb]. pose proof (code_step _ _ _ _ key _ (engine_hashmap_remove_run malloc lvl Hlvl Hmalloc s m js key sk Hok Hg Hb)) as H.
    by destruct (hashmap_remove_spec _ _ _) as [[rv v] ch].
  - destruct (key_delete_run lvl Hlvl s m js key fuel Hok Hc) as (s' & ch & E & Hp & Hok').
    exists s', ch. run E. destruct (m !! key) eqn:Hm; [done|]. cbn [fst snd]. by rewrite delete_id in Hok' by done.
Qed.

Lemma exec_all_run s m js cs :
  eng_ok s m js → cmds_ok m cs →
  ∃ s' chs, exec_all cs s = Done (s', replies m cs) ∧ Forall2 Permutation chs (all_changes m cs) ∧
    eng_ok s' (foldl after m cs) (js ++ concat chs).
Proof.
  revert s m js. induction cs as [|c cs IH]; intros s m js Hok Hcs; cbn [exec_all replies all_changes foldl].
  { exists s, []. rewrite app_nil_r. split; [done|]. split; [constructor|done]. }
  destruct Hcs as [Hc Hcs]. destruct (exec_step s m js c Hok Hc) as (s1 & ch & E1 & Hp & Hok1). run E1.
  destruct (IH s1 _ _ Hok1 Hcs) as (s2 & chs & E2 & Hps & Hok2). run E2.
  exists s2, (ch :: chs). split; [done|]. split; [by constructor|]. cbn [concat]. by rewrite app_assoc.
Qed.
End Run.
