(* ===== verification/EnginePersist.v ===== *)
(** * What is on disk

    The rows of the table hold the map of values, up to the order of rows, and every
    command whose changes are written keeps it so. *)
From S2P Require Import Prelude Chain Atomic Mem CList CString KeyIndex SetMap Database Disk MiniSql DiskSpec Bio BioSpec Container ContainerSpec Engine EngineSpec EngineStrings EngineLists EngineIndex EngineMaps EngineKeys EngineRun.
Local Open Scope Z_scope.

(** ** The rows of a value *)

Definition list_row (key text : string) : row := Row key "null" "list" text.
Definition hm_row (key : string) (kv : string * string) : row := Row key kv.1 "hashmap" kv.2.
Definition set_row (key skey : string) : row := Row key skey "set" "null".

Definition val_rows (key : string) (v : value) : list row :=
  match v with
  | VString t => [Row key "null" "string" t]
  | VList l => list_row key <$> l
  | VHashmap h => hm_row key <$> map_to_list h
  | VSet X => set_row key <$> elements X
  end.
Definition rows_of (key : string) (o : option value) : list row :=
  match o with Some v => val_rows key v | None => [] end.

Definition rows_at (key : string) (rows : list row) : list row := filter (λ r, r_key r = key) rows.

(** The table holds the map. *)
Definition disk_holds (m : vmap) (rows : list row) : Prop := ∀ key, rows_at key rows ≡ₚ rows_of key (m !! key).

(** Texts and keys without quotes, nothing empty. *)
Definition value_clean (v : value) : Prop :=
  match v with
  | VString t => quote_free t
  | VList l => l ≠ [] ∧ Forall quote_free l
  | VHashmap h => h ≠ ∅ ∧ ∀ s t, h !! s = Some t → quote_free s ∧ quote_free t
  | VSet X => X ≠ ∅ ∧ ∀ s, s ∈ X → quote_free s
  end.
Definition clean_at (o : option value) : Prop := match o with Some v => value_clean v | None => True end.
Definition clean (m : vmap) : Prop := ∀ key, clean_at (m !! key).

(** ** Changes and the rows of one key *)

Lemma rows_at_app key rows1 rows2 : rows_at key (rows1 ++ rows2) = rows_at key rows1 ++ rows_at key rows2.
Proof. apply list.filter_app. Qed.
Lemma rows_at_one key r : rows_at key [r] = if decide (r_key r = key) then [r] else [].
Proof. unfold rows_at. rewrite filter_cons, filter_nil. done. Qed.

Lemma rows_at_cons key r rows : rows_at key (r :: rows) = (if decide (r_key r = key) then [r] else []) ++ rows_at key rows.
Proof. unfold rows_at. rewrite filter_cons. by case_decide. Qed.

Lemma rows_at_update key p v rows : rows_at key (update_where p v rows) = update_where p v (rows_at key rows).
Proof.
  unfold rows_at, update_where. induction rows as [|r rows IH]; [done|]. cbn [fmap list_fmap]. rewrite !filter_cons, IH.
  assert (r_key (if p r then set_value v r else r) = r_key r) as -> by by destruct (p r).
  by case_decide.
Qed.

Lemma rows_at_delete key p rows : rows_at key (delete_where p rows) = delete_where p (rows_at key rows).
Proof.
  unfold rows_at, delete_where. induction rows as [|r rows IH]; [done|].
  repeat (rewrite filter_cons; case_decide); rewrite ?IH; congruence.
Qed.

Lemma update_cons p v r rows : update_where p v (r :: rows) = (if p r then set_value v r else r) :: update_where p v rows.
Proof. done. Qed.
Lemma delete_cons p r rows : delete_where p (r :: rows) = if p r then delete_where p rows else r :: delete_where p rows.
Proof. unfold delete_where. rewrite filter_cons. destruct (p r); [by rewrite decide_False|by rewrite decide_True]. Qed.

Lemma update_none p v rows : (∀ r, r ∈ rows → p r = false) → update_where p v rows = rows.
Proof.
  intros Hp. unfold update_where. rewrite <-(list_fmap_id rows) at 2. apply list_fmap_ext.
  intros i r Hr. by rewrite (Hp r) by (by eapply list_elem_of_lookup_2).
Qed.
Lemma delete_none p rows : (∀ r, r ∈ rows → p r = false) → delete_where p rows = rows.
Proof.
  intros Hp. unfold delete_where. induction rows as [|r rows IH]; [done|]. rewrite filter_cons, decide_True by (apply Hp; by left).
  rewrite IH; [done|]. intros r' Hr'. apply Hp. by right.
Qed.

Lemma rows_at_all key rows : (∀ r, r ∈ rows → r_key r = key) → rows_at key rows = rows.
Proof.
  intros Hk. unfold rows_at. induction rows as [|r rows IH]; [done|]. rewrite filter_cons, decide_True by (apply Hk; by left).
  rewrite IH; [done|]. intros r' Hr'. apply Hk. by right.
Qed.
Lemma rows_at_none key rows : (∀ r, r ∈ rows → r_key r ≠ key) → rows_at key rows = [].
Proof.
  intros Hk. unfold rows_at. induction rows as [|r rows IH]; [done|]. rewrite filter_cons, decide_False by (apply Hk; by left).
  apply IH. intros r' Hr'. apply Hk. by right.
Qed.
Lemma rows_at_in key rows r : r ∈ rows_at key rows ↔ r_key r = key ∧ r ∈ rows.
Proof. unfold rows_at. by rewrite list_elem_of_filter. Qed.

(** A statement on one row with the key [key]. *)
Lemma one_row_at key key' p f rows rows' :
  (∀ r, p r = true → r_key r = key ∧ ∀ r', r' ∈ f r → r_key r' = key) → one_row p f rows rows' →
  if decide (key' = key) then one_row p f (rows_at key' rows) (rows_at key' rows')
  else rows_at key' rows' = rows_at key' rows.
Proof.
  intros Hf [(l1 & r & l2 & -> & Hp & ->)|[Hn ->]].
  - destruct (Hf r Hp) as [Hr Hfr]. rewrite !rows_at_app, rows_at_cons, Hr.
    destruct (decide (key' = key)) as [->|Hne].
    + rewrite decide_True by done. rewrite (rows_at_all key (f r)) by done. left. by exists (rows_at key l1), r, (rows_at key l2).
    + rewrite decide_False by done. rewrite (rows_at_none key' (f r)); [done|]. intros r' Hr'. rewrite (Hfr r' Hr'). by intros ->.
  - destruct (decide (key' = key)); [|done]. right. split; [|done].
    destruct (filter (λ r, p r = true) (rows_at key' rows)) as [|r l] eqn:E; [done|].
    assert (r ∈ filter (λ r, p r = true) (rows_at key' rows)) as [Hp [_ Hr]%rows_at_in]%list_elem_of_filter by (rewrite E; by left).
    assert (r ∈ filter (λ r, p r = true) rows) as Hin by (by apply list_elem_of_filter). rewrite Hn in Hin. by apply not_elem_of_nil in Hin.
Qed.

(** A change works on the rows of its own key. *)
Lemma job_rows_at j rows rows' key :
  job_rows j rows rows' →
  if decide (key = j_key j) then job_rows j (rows_at key rows) (rows_at key rows')
  else rows_at key rows' = rows_at key rows.
Proof.
  destruct j as [op k a v]. cbn [j_key]. intros Hj.
  assert (∀ r, is_row "string" k r = true → r_key r = k) as H1 by (intros r []%bool_decide_eq_true; done).
  assert (∀ t s r, is_sub_row t k s r = true → r_key r = k) as H2 by (intros t s r (_ & ? & _)%bool_decide_eq_true; done).
  assert (∀ s r, is_any_sub_row k s r = true → r_key r = k) as H3 by (intros s r []%bool_decide_eq_true; done).
  assert (∀ s r, is_list_row k s r = true → r_key r = k) as H4 by (intros s r (_ & ? & _)%bool_decide_eq_true; done).
  assert (∀ p, (∀ r, p r = true → r_key r = k) → key ≠ k → ∀ r, r ∈ rows_at key rows → p r = false) as H5.
  { intros p Hp Hne r [Hr _]%rows_at_in. destruct (p r) eqn:E; [|done]. apply Hp in E. congruence. }
  destruct op; unfold job_rows in *; cbn [j_op j_key j_arg j_new] in *;
    try (apply (one_row_at k key) in Hj; [exact Hj|intros r Hr; split; [by eapply H4|]]; intros r' Hin;
         first [by apply not_elem_of_nil in Hin|apply list_elem_of_singleton in Hin as ->; exact (H4 _ _ Hr)]);
    subst rows'; rewrite ?rows_at_app, ?rows_at_one, ?rows_at_update, ?rows_at_delete; cbn [r_key];
    (case_decide as Hk; [subst; rewrite ?decide_True by done; done|]);
    rewrite ?decide_False by (by intros ->); rewrite ?app_nil_r; try done;
    first [apply update_none | apply delete_none]; apply H5; eauto.
Qed.

Lemma jobs_rows_at js rows rows' key :
  Forall (λ j, j_key j = key) js → jobs_rows js rows rows' →
  jobs_rows js (rows_at key rows) (rows_at key rows') ∧ ∀ k, k ≠ key → rows_at k rows' = rows_at k rows.
Proof.
  intros Hk Hj. induction Hj as [rows|j js rows rows1 rows' Hj Hjs IH]; [split; [constructor|done]|].
  apply list.Forall_cons in Hk as [<- Hk]. destruct (IH Hk) as [IH1 IH2]. split.
  - econstructor; [|done]. pose proof (job_rows_at j rows rows1 (j_key j) Hj) as H. by rewrite decide_True in H.
  - intros k Hne. rewrite IH2 by done. pose proof (job_rows_at j rows rows1 k Hj) as H. by rewrite decide_False in H.
Qed.

(** ** One value *)

Definition job_good (key : string) (j : job) : Prop := j_key j = key ∧ job_ok j = true ∧ job_quote_free j.

(** The changes [ch] lead from the rows of [old] to those of [new], in any order
    they are written. *)
Record vstep (key : string) (old new : option value) (ch : list job) : Prop := {
  vs_rows rows rows' ch' : rows ≡ₚ rows_of key old → ch' ≡ₚ ch → jobs_rows ch' rows rows' → rows' ≡ₚ rows_of key new;
  vs_clean : clean_at new;
  vs_jobs : Forall (job_good key) ch }.

Lemma jobs_rows_nil rows rows' : jobs_rows [] rows rows' → rows' = rows.
Proof. by inversion 1. Qed.
Lemma jobs_rows_one j rows rows' : jobs_rows [j] rows rows' → job_rows j rows rows'.
Proof. inversion 1 as [|? ? ? r1 ? Hj Hn]; subst. apply jobs_rows_nil in Hn as ->. done. Qed.

Lemma vstep_refl key old : clean_at old → vstep key old old [].
Proof.
  intros Hc. split; [|done|constructor]. intros rows rows' ch' Hr ->%Permutation_nil_r Hj. by apply jobs_rows_nil in Hj as ->.
Qed.

(** A single change. *)
Lemma vstep_one key old new j :
  (∀ rows rows', rows ≡ₚ rows_of key old → job_rows j rows rows' → rows' ≡ₚ rows_of key new) →
  clean_at new → job_good key j → vstep key old new [j].
Proof.
  intros Hr Hc Hj. split; [|done|by constructor].
  intros rows rows' ch' Hrows ->%Permutation_singleton_r Hjr%jobs_rows_one. by eapply Hr.
Qed.

#[export] Instance update_where_perm p v : Proper (Permutation ==> Permutation) (update_where p v).
Proof. intros l l' H. unfold update_where. by rewrite H. Qed.
#[export] Instance delete_where_perm p : Proper (Permutation ==> Permutation) (delete_where p).
Proof. intros l l' H. unfold delete_where. by rewrite H. Qed.

Lemma quote_free_empty : quote_free "".
Proof. constructor. Qed.

Lemma job_good_intro key op a v :
  job_ok (Job op key a v) = true → quote_free key → quote_free (default "" a) → quote_free (default "" v) →
  job_good key (Job op key a v).
Proof. intros. split; [done|]. split; [done|]. split; [done|]. by split. Qed.

Ltac effect H := unfold job_rows in H; cbn [j_op j_key j_arg j_new default] in H.
Ltac good := apply job_good_intro; first [done | apply quote_free_empty].

(** Strings and lists. *)
Lemma string_add_step key t : quote_free key → quote_free t → vstep key None (Some (VString t)) [Job STRING_ADD key None (Some t)].
Proof.
  intros Hk Ht. apply vstep_one; [|done|good]. intros rows rows' Hr Hj. effect Hj. subst rows'.
  by apply Permutation_nil_r in Hr as ->.
Qed.

Lemma string_update_step key t0 t :
  quote_free key → quote_free t →
  vstep key (Some (VString t0)) (Some (VString t)) [Job STRING_UPDATE key None (Some t)].
Proof.
  intros Hk Ht. apply vstep_one; [|done|good]. intros rows rows' ->%Permutation_singleton_r Hj. effect Hj. subst rows'.
  unfold update_where, is_row. cbn [fmap list_fmap]. by rewrite bool_decide_eq_true_2.
Qed.

Lemma string_del_step key t : quote_free key → vstep key (Some (VString t)) None [Job STRING_DEL key None None].
Proof.
  intros Hk. apply vstep_one; [|done|good]. intros rows rows' ->%Permutation_singleton_r Hj. effect Hj. subst rows'.
  unfold delete_where, is_row. rewrite filter_cons, bool_decide_eq_true_2 by done. done.
Qed.

Lemma list_add_step key old l l' t :
  rows_of key old = list_row key <$> l → l' ≡ₚ t :: l → Forall quote_free l → quote_free key → quote_free t →
  vstep key old (Some (VList l')) [Job LIST_ADD key None (Some t)].
Proof.
  intros Hold Hl Hq Hk Ht. apply vstep_one; [| |good].
  - intros rows rows' Hr Hj. effect Hj. subst rows'. cbn [rows_of val_rows]. rewrite Hl, Hr, Hold. cbn [fmap list_fmap].
    symmetry. apply Permutation_cons_append.
  - split; [intros ->; by apply Permutation_nil_cons in Hl|]. rewrite Hl. by constructor.
Qed.

(** One row of a list goes, or is another one. *)
Lemma one_list_row key t l f rows rows' :
  rows ≡ₚ list_row key <$> (t :: l) → one_row (is_list_row key t) f rows rows' →
  rows' ≡ₚ f (list_row key t) ++ (list_row key <$> l).
Proof.
  intros Hr [(l1 & r & l2 & -> & (_ & _ & Hv)%bool_decide_eq_true & ->)|[Hn _]].
  - assert (r = list_row key t) as ->.
    { assert (r ∈ list_row key <$> (t :: l)) as (t' & -> & _)%list_elem_of_fmap by (rewrite <-Hr; set_solver).
      cbn in Hv. by subst t'. }
    rewrite <-Permutation_middle in Hr. cbn [fmap list_fmap] in Hr. apply (Permutation_cons_inv) in Hr.
    rewrite <-Hr. rewrite (app_assoc l1), (Permutation_app_comm l1), <-app_assoc. done.
  - exfalso. assert (list_row key t ∈ filter (λ r, is_list_row key t r = true) rows) as Hin; [|rewrite Hn in Hin; by apply not_elem_of_nil in Hin].
    apply list_elem_of_filter. split; [by apply bool_decide_eq_true_2|]. rewrite Hr. by left.
Qed.

Lemma list_update_step key xs t0 ys t :
  quote_free key → Forall quote_free (xs ++ t0 :: ys) → quote_free t →
  vstep key (Some (VList (xs ++ t0 :: ys))) (Some (VList (xs ++ t :: ys))) [Job LIST_UPDATE key (Some t0) (Some t)].
Proof.
  intros Hk Hq Ht. apply list.Forall_app in Hq as [Hx [H0 Hy]%list.Forall_cons]. apply vstep_one; [| |good].
  - intros rows rows' Hr Hj. effect Hj. cbn in Hr |- *. rewrite <-Permutation_middle in Hr |- *.
    by rewrite (one_list_row _ _ _ _ _ _ Hr Hj).
  - split; [by destruct xs|]. apply list.Forall_app. split; [done|by constructor].
Qed.

Definition opt_list (l : list string) : option value := match l with [] => None | _ => Some (VList l) end.

Lemma list_del_step key l p r :
  quote_free key → Forall quote_free l → l ≡ₚ p ++ r →
  vstep key (Some (VList l)) (opt_list r) (del_job key <$> p).
Proof.
  intros Hk Hq Hl. rewrite Hl in Hq. apply list.Forall_app in Hq as [Hp Hr0]. split.
  - intros rows rows' ch' Hr Hch Hj. cbn [rows_of val_rows] in Hr. rewrite Hl in Hr. clear Hl Hp Hr0.
    assert (rows_of key (opt_list r) = list_row key <$> r) as -> by by destruct r.
    apply Permutation_map_inv in Hch as (p' & -> & Hp'). rewrite Hp' in Hr. clear Hp' p.
    revert rows Hr Hj. induction p' as [|t p IH]; intros rows Hr Hj; [by apply jobs_rows_nil in Hj as ->|].
    inversion Hj as [|? ? ? rows1 ? Hj1 Hj2]; subst. apply (IH rows1); [|done].
    exact (one_list_row key t (p ++ r) _ _ _ Hr Hj1).
  - destruct r; [done|]. by split.
  - apply list.Forall_fmap. eapply list.Forall_impl; [exact Hp|]. intros t Ht. good.
Qed.

(** Hash maps. *)
Abbreviation hm_rows key h := (hm_row key <$> map_to_list h).

Lemma hm_rows_insert key s t (h : gmap string string) :
  h !! s = None → hm_rows key (<[s := t]> h) ≡ₚ hm_row key (s, t) :: hm_rows key h.
Proof. intros Hs. by rewrite (map_to_list_insert h s t Hs). Qed.
Lemma hm_rows_delete key s t (h : gmap string string) :
  h !! s = Some t → hm_rows key h ≡ₚ hm_row key (s, t) :: hm_rows key (delete s h).
Proof. intros Hs. rewrite <-hm_rows_insert by apply lookup_delete_eq. by rewrite insert_delete_id. Qed.

Lemma hm_rows_in key s (h : gmap string string) r :
  h !! s = None → r ∈ hm_rows key h → r_skey r ≠ s.
Proof. intros Hs ([s' t'] & -> & Hin%elem_of_map_to_list)%list_elem_of_fmap Heq. cbn in Heq. subst s'. congruence. Qed.

Definition map_clean (h : gmap string string) : Prop := ∀ s t, h !! s = Some t → quote_free s ∧ quote_free t.

Lemma map_clean_insert h s t : map_clean h → quote_free s → quote_free t → map_clean (<[s := t]> h).
Proof. intros Hh Hs Ht s' t' [[<- <-]|[_ H]]%lookup_insert_Some; [done|by apply Hh]. Qed.

Lemma hm_add_step key old h s t :
  rows_of key old = hm_rows key h → h !! s = None → map_clean h → quote_free key → quote_free s → quote_free t →
  vstep key old (Some (VHashmap (<[s := t]> h))) [Job HM_ADD key (Some s) (Some t)].
Proof.
  intros Hold Hs Hh Hk Hqs Hqt. apply vstep_one; [| |good].
  - intros rows rows' Hr Hj. effect Hj. subst rows'. cbn [rows_of val_rows]. rewrite hm_rows_insert by done. rewrite Hr, Hold.
    symmetry. apply Permutation_cons_append.
  - split; [by apply insert_non_empty|by apply map_clean_insert].
Qed.

Lemma hm_update_step key h s t0 t :
  h !! s = Some t0 → map_clean h → quote_free key → quote_free s → quote_free t →
  vstep key (Some (VHashmap h)) (Some (VHashmap (<[s := t]> h))) [Job HM_UPDATE key (Some s) (Some t)].
Proof.
  intros Hs Hh Hk Hqs Hqt. apply vstep_one; [| |good].
  - intros rows rows' Hr Hj. effect Hj. subst rows'. cbn [rows_of val_rows] in *.
    rewrite Hr, (hm_rows_delete key s t0 h Hs), <-insert_delete_eq, hm_rows_insert by apply lookup_delete_eq.
    rewrite update_cons, update_none.
    + unfold is_any_sub_row. rewrite bool_decide_eq_true_2 by done. done.
    + intros r Hr'. apply bool_decide_eq_false_2. intros [_ Hk']. revert Hk'.
      eapply hm_rows_in; [|exact Hr']. apply lookup_delete_eq.
  - split; [by apply insert_non_empty|by apply map_clean_insert].
Qed.

Definition opt_hmap (h : gmap string string) : option value := if decide (h = ∅) then None else Some (VHashmap h).

Lemma opt_hmap_rows key h : rows_of key (opt_hmap h) = hm_rows key h.
Proof. unfold opt_hmap. case_decide as Hh; [subst|]; [by rewrite map_to_list_empty|done]. Qed.

Lemma hm_del_rows key s h rows rows' :
  rows ≡ₚ hm_rows key h → job_rows (Job HM_DEL key (Some s) None) rows rows' → rows' ≡ₚ hm_rows key (delete s h).
Proof.
  intros Hr Hj. effect Hj. change (id s) with s in Hj. subst rows'. rewrite Hr.
  assert (∀ h', h' !! s = None → delete_where (is_sub_row "hashmap" key s) (hm_rows key h') = hm_rows key h') as Hnone.
  { intros h' Hs. apply delete_none. intros r Hr'. apply bool_decide_eq_false_2. intros (_ & _ & Hk). revert Hk.
    by eapply hm_rows_in. }
  destruct (h !! s) as [t|] eqn:Hs; [|by rewrite Hnone, delete_id].
  rewrite (hm_rows_delete key s t h Hs). rewrite delete_cons.
  assert (is_sub_row "hashmap" key s (hm_row key (s, t)) = true) as -> by (by apply bool_decide_eq_true_2).
  rewrite Hnone; [done|]. apply lookup_delete_eq.
Qed.

(** What is left of a map without some keys. *)
Definition without (ss : list string) (h h' : gmap string string) : Prop :=
  ∀ x, h' !! x = if decide (x ∈ ss) then None else h !! x.

Lemma without_cons s ss h h' : without (s :: ss) h h' → without ss (delete s h) h'.
Proof.
  intros H x. rewrite H. destruct (decide (x ∈ ss)); [by rewrite decide_True by (by right)|].
  destruct (decide (x = s)) as [->|]; [by rewrite decide_True, lookup_delete_eq by (by left)|].
  rewrite decide_False by (by intros [?|?]%elem_of_cons). by rewrite lookup_delete_ne.
Qed.

Lemma hm_del_step key h h' ss :
  quote_free key → map_clean h → (∀ s, s ∈ ss → is_Some (h !! s)) → without ss h h' →
  vstep key (Some (VHashmap h)) (opt_hmap h') ((λ s, Job HM_DEL key (Some s) None) <$> ss).
Proof.
  intros Hk Hh Hss Hw. split.
  - intros rows rows' ch' Hr Hch Hj. rewrite opt_hmap_rows. apply Permutation_map_inv in Hch as (ss' & -> & Hp).
    assert (without ss' h h') as Hw'.
    { intros x. rewrite Hw. destruct (decide (x ∈ ss)) as [Hx|Hx]; rewrite Hp in Hx; [by rewrite decide_True|by rewrite decide_False]. }
    clear Hw Hp Hss Hh. cbn [rows_of val_rows] in Hr. revert h rows Hr Hw' Hj.
    induction ss' as [|s ss' IH]; intros h rows Hr Hw Hj.
    + apply jobs_rows_nil in Hj as ->. assert (h' = h) as ->; [|done]. apply map_eq. intros x. rewrite Hw. by rewrite decide_False by apply not_elem_of_nil.
    + inversion Hj as [|? ? ? rows1 ? Hj1 Hj2]; subst. apply (IH (delete s h) rows1); [|by apply without_cons|done].
      by eapply hm_del_rows.
  - unfold opt_hmap. case_decide; [done|]. split; [done|]. intros s t Hs. rewrite Hw in Hs. case_decide; [done|]. by apply Hh.
  - apply list.Forall_fmap, list.Forall_forall. intros s [t Hs]%Hss. apply Hh in Hs as [? ?]. good.
Qed.

Lemma removes_without key skeys h :
  let '(h', n, ch) := removes key skeys h in
  ∃ ss, ch = (λ s, Job HM_DEL key (Some s) None) <$> ss ∧ (∀ s, s ∈ ss → is_Some (h !! s)) ∧ without ss h h' ∧
    n = Z.of_nat (length ss) ∧ (∀ s, s ∈ ss ↔ s ∈ skeys ∧ is_Some (h !! s)).
Proof.
  revert h. induction skeys as [|k skeys IH]; intros h; cbn [removes].
  { exists []. split_and!; [done|by intros s ?%not_elem_of_nil| |done|intros s; split; [by intros ?%not_elem_of_nil|by intros [?%not_elem_of_nil _]]].
    intros x. by rewrite decide_False by apply not_elem_of_nil. }
  destruct (h !! k) as [t|] eqn:Hk.
  - specialize (IH (delete k h)). destruct (removes key skeys (delete k h)) as [[h' n] ch].
    destruct IH as (ss & -> & Hss & Hw & -> & Hiff). exists (k :: ss). split_and!; [done| | |simpl; lia|].
    + intros s [->|Hs]%elem_of_cons; [by eexists|]. apply Hss in Hs as [t' [_ Hs]%lookup_delete_Some]. by eexists.
    + intros x. rewrite Hw. destruct (decide (x ∈ ss)); [by rewrite decide_True by (by right)|].
      destruct (decide (x = k)) as [->|]; [by rewrite decide_True, lookup_delete_eq by (by left)|].
      rewrite decide_False by (by intros [?|?]%elem_of_cons). by rewrite lookup_delete_ne.
    + intros s. rewrite !elem_of_cons, Hiff. destruct (decide (s = k)) as [->|Hne].
      * split; [intros _; split; [by left|by eexists]|by left].
      * rewrite lookup_delete_ne by done. naive_solver.
  - specialize (IH h). destruct (removes key skeys h) as [[h' n] ch]. destruct IH as (ss & -> & Hss & Hw & Hn & Hiff).
    exists ss. split_and!; [done..|]. intros s. rewrite Hiff, elem_of_cons. split; [naive_solver|].
    intros [[->|?] Hs]; [|done]. rewrite Hk in Hs. by destruct Hs.
Qed.

(** ** Commands *)

Definition cmd_key (c : cmd) : string :=
  match c with
  | StringGet key | StringSet key _ | ListLength key | ListPush key _ _ | ListSet key _ _ | ListGet key _
  | ListPop key _ | HashmapGet key _ | HashmapSet key _ _ | HashmapRemove key _ | KeyDelete key => key
  end.

(** The changes of a command can be written: no quotes.  Setting an entry past the end
    of a list and deleting a set, which queue nothing, are left out. *)
Definition cmd_clean (m : vmap) (c : cmd) : Prop :=
  match c with
  | StringSet key t | ListPush key t _ => quote_free key ∧ quote_free t
  | ListSet key i t => quote_free key ∧ quote_free t ∧ ∀ l, m !! key = Some (VList l) → is_Some (at_index l i)
  | ListPop key _ | HashmapRemove key _ => quote_free key
  | KeyDelete key => quote_free key ∧ ∀ X, m !! key ≠ Some (VSet X)
  | HashmapSet key s t => quote_free key ∧ quote_free s ∧ quote_free t
  | _ => True
  end.
Fixpoint cmds_clean (m : vmap) (cs : list cmd) : Prop :=
  match cs with [] => True | c :: cs => cmd_clean m c ∧ cmds_clean (after m c) cs end.

Lemma pops_perm len vs i l : l ≡ₚ (pops len vs i l).1 ++ (pops len vs i l).2.
Proof.
  revert len vs i. induction l as [|t l IH]; intros len vs i; [by destruct vs|]. destruct vs as [|v vs]; [done|].
  cbn [pops]. destruct (wrap len v =? i).
  - specialize (IH (len - 1) vs (i + 1)). destruct (pops _ _ _ l). cbn [fst snd app] in *. by rewrite <-IH.
  - specialize (IH len (wrap len v :: vs) (i + 1)). destruct (pops _ _ _ l). cbn [fst snd] in *.
    by rewrite <-Permutation_middle, <-IH.
Qed.

Lemma write_lookup key v m : write key v m !! key = v.
Proof. destruct v; [apply lookup_insert_eq|apply lookup_delete_eq]. Qed.
Lemma write_other key v m k : k ≠ key → write key v m !! k = m !! k.
Proof. intros Hne. destruct v; [by apply lookup_insert_ne|by apply lookup_delete_ne]. Qed.

(** What each kind of command does at its key. *)
Lemma string_set_vstep key old t :
  clean_at old → quote_free key → quote_free t →
  let '(_, new, ch) := string_set_spec old key t in vstep key old new ch.
Proof.
  intros Hc Hk Ht. destruct old as [[]|]; cbn [string_set_spec]; try by apply vstep_refl.
  - by apply string_update_step.
  - by apply string_add_step.
Qed.

Lemma list_push_vstep key old t left :
  clean_at old → quote_free key → quote_free t →
  let '(_, new, ch) := list_push_spec old key t left in vstep key old new ch.
Proof.
  intros Hc Hk Ht. destruct old as [[|l| |]|]; cbn [list_push_spec]; try by apply vstep_refl.
  - destruct Hc as [_ Hq]. apply list_add_step with l; try done. destruct left; [done|].
    symmetry. apply Permutation_cons_append.
  - by apply list_add_step with [].
Qed.

Lemma list_set_vstep key old i t :
  clean_at old → quote_free key → quote_free t → (∀ l, old = Some (VList l) → is_Some (at_index l i)) →
  let '(_, new, ch) := list_set_spec old key i t in vstep key old new ch.
Proof.
  intros Hc Hk Ht Hi. destruct old as [[|l| |]|]; cbn [list_set_spec]; try by apply vstep_refl.
  - destruct (Hi l eq_refl) as [t0 Hat]. unfold list_put. rewrite Hat. unfold at_index in Hat.
    destruct (i <? 0); [done|]. destruct Hc as [_ Hq].
    destruct (list_elem_of_split_length _ _ _ Hat) as (xs & ys & -> & ->).
    rewrite insert_app_r_alt, Nat.sub_diag by lia. cbn [list_insert]. by apply list_update_step.
  - by apply (list_push_vstep key None t false).
Qed.

Lemma list_pop_vstep key old idx :
  clean_at old → quote_free key → let '(_, new, ch) := list_pop_spec old key idx in vstep key old new ch.
Proof.
  intros Hc Hk. destruct old as [[|l| |]|]; cbn [list_pop_spec]; try by apply vstep_refl.
  pose proof (pops_perm (Z.of_nat (length l)) idx 0 l) as Hp. destruct (pops _ _ _ l) as [p r]. destruct Hc as [_ Hq].
  by apply (list_del_step key l p r).
Qed.

Lemma hashmap_set_vstep key old s t :
  clean_at old → quote_free key → quote_free s → quote_free t →
  let '(_, new, ch) := hashmap_set_spec old key s t in vstep key old new ch.
Proof.
  intros Hc Hk Hs Ht. unfold hashmap_set_spec, set_job.
  destruct old as [[| |h|]|]; cbn [default]; try by apply vstep_refl.
  - destruct Hc as [_ Hq]. change (id (VHashmap h)) with (VHashmap h). cbn beta iota. destruct (h !! s) as [t0|] eqn:E.
    + by apply hm_update_step with t0.
    + by apply hm_add_step.
  - rewrite lookup_empty. apply hm_add_step; [by rewrite map_to_list_empty|apply lookup_empty|intros x y Hx; by rewrite lookup_empty in Hx|done..].
Qed.

Lemma hashmap_remove_vstep key old skeys :
  clean_at old → quote_free key → let '(_, new, ch) := hashmap_remove_spec old key skeys in vstep key old new ch.
Proof.
  intros Hc Hk. destruct old as [[| |h|]|]; cbn [hashmap_remove_spec]; try by apply vstep_refl.
  pose proof (removes_without key skeys h) as Hr. destruct (removes key skeys h) as [[h' n] ch].
  destruct Hr as (ss & -> & Hss & Hw & _ & _), Hc as [_ Hq]. by apply hm_del_step.
Qed.

Lemma key_delete_vstep key v :
  value_clean v → (∀ X, v ≠ VSet X) → quote_free key → vstep key (Some v) None (delete_jobs key v).
Proof.
  intros Hc Hset Hk. destruct v as [t|l|h|X]; cbn [delete_jobs]; [by apply string_del_step| | |by destruct (Hset X)].
  - destruct Hc as [_ Hq]. apply (list_del_step key l l []); [done|done|]. by rewrite app_nil_r.
  - destruct Hc as [_ Hq]. pose proof (hm_del_step key h ∅ (map_to_list h).*1 Hk Hq) as H. rewrite <-list_fmap_compose in H.
    unfold opt_hmap in H. rewrite decide_True in H by done. apply H.
    + intros s ([s' t] & -> & Hin%elem_of_map_to_list)%list_elem_of_fmap. by eexists.
    + intros x. rewrite lookup_empty. case_decide as Hx; [done|]. destruct (h !! x) as [t|] eqn:E; [|done].
      exfalso. apply Hx, list_elem_of_fmap. exists (x, t). split; [done|]. by apply elem_of_map_to_list.
Qed.

Ltac written H :=
  let Hs := fresh in pose proof H as Hs;
  match type of Hs with context [match ?sp with _ => _ end] => destruct sp as [[rv v] ch] end;
  cbn [fst snd]; rewrite write_lookup; split; [done|]; intros; by apply write_other.

Lemma cmd_vstep m c :
  clean m → cmd_clean m c →
  vstep (cmd_key c) (m !! cmd_key c) (after m c !! cmd_key c) (changes m c) ∧
  ∀ k, k ≠ cmd_key c → after m c !! k = m !! k.
Proof.
  intros Hm Hc. pose proof (Hm (cmd_key c)) as Hv. unfold after, changes.
  destruct c as [key|key t|key|key t left|key i t|key idx|key idx|key sk|key k t|key sk|key]; cbn [spec cmd_key cmd_clean fst snd] in *;
    try (split; [by apply vstep_refl|done]).
  - written (string_set_vstep key _ t Hv (proj1 Hc) (proj2 Hc)).
  - written (list_push_vstep key _ t left Hv (proj1 Hc) (proj2 Hc)).
  - destruct Hc as (Hk & Ht & Hi). written (list_set_vstep key _ i t Hv Hk Ht Hi).
  - written (list_pop_vstep key _ idx Hv Hc).
  - destruct Hc as (Hk & Hs & Ht). written (hashmap_set_vstep key _ k t Hv Hk Hs Ht).
  - written (hashmap_remove_vstep key _ sk Hv Hc).
  - destruct (m !! key) as [v|] eqn:Hkey; cbn [fst snd].
    + destruct Hc as [Hk Hset]. rewrite lookup_delete_eq. split; [|by intros; apply lookup_delete_ne].
      apply key_delete_vstep; [done| |done]. intros X ->. by destruct (Hset X).
    + rewrite Hkey. split; [by apply vstep_refl|done].
Qed.

(** The table follows the map, one command after the other. *)
Lemma disk_step m c rows rows' ch :
  clean m → cmd_clean m c → disk_holds m rows → ch ≡ₚ changes m c → jobs_rows ch rows rows' →
  disk_holds (after m c) rows' ∧ clean (after m c) ∧ Forall (λ j, job_ok j = true) ch ∧ Forall job_quote_free ch.
Proof.
  intros Hm Hc Hr Hch Hj. destruct (cmd_vstep m c Hm Hc) as [[Hrows Hnew Hgood] Hother].
  rewrite <-Hch in Hgood.
  assert (Forall (λ j, j_key j = cmd_key c) ch) as Hkeys by (eapply list.Forall_impl; [exact Hgood|]; by intros j []).
  destruct (jobs_rows_at ch rows rows' (cmd_key c) Hkeys Hj) as [Hat Hsame]. split_and!.
  - intros k. destruct (decide (k = cmd_key c)) as [->|Hne]; [exact (Hrows _ _ ch (Hr _) ltac:(done) Hat)|]. by rewrite Hsame, Hother.
  - intros k. destruct (decide (k = cmd_key c)) as [->|Hne]; [done|]. by rewrite Hother.
  - eapply list.Forall_impl; [exact Hgood|]. by intros j (? & ? & ?).
  - eapply list.Forall_impl; [exact Hgood|]. by intros j (? & ? & ?).
Qed.

Lemma jobs_rows_app js1 js2 rows rows' :
  jobs_rows (js1 ++ js2) rows rows' → ∃ rows1, jobs_rows js1 rows rows1 ∧ jobs_rows js2 rows1 rows'.
Proof.
  revert rows. induction js1 as [|j js1 IH]; intros rows Hj; [exists rows; split; [constructor|done]|].
  inversion Hj as [|? ? ? rows2 ? H1 H2]; subst. destruct (IH _ H2) as (rows1 & ? & ?). exists rows1. split; [by econstructor|done].
Qed.

Lemma disk_steps m cs rows rows' chs :
  clean m → cmds_clean m cs → disk_holds m rows → Forall2 Permutation chs (all_changes m cs) →
  jobs_rows (concat chs) rows rows' →
  disk_holds (foldl after m cs) rows' ∧ clean (foldl after m cs).
Proof.
  revert m rows chs. induction cs as [|c cs IH]; intros m rows chs Hm Hcs Hr Hch Hj; cbn [all_changes foldl] in *.
  - apply Forall2_nil_inv_r in Hch as ->. by apply jobs_rows_nil in Hj as ->.
  - destruct Hcs as [Hc Hcs]. apply Forall2_cons_inv_r in Hch as (ch & chs' & Hp & Hch & ->).
    apply jobs_rows_app in Hj as (rows1 & Hj1 & Hj2).
    destruct (disk_step m c rows rows1 ch Hm Hc Hr Hp Hj1) as (Hr1 & Hm1 & _ & _). by eapply IH.
Qed.

(** The changes can be written, whatever the table. *)
Lemma changes_good m cs chs :
  clean m → cmds_clean m cs → Forall2 Permutation chs (all_changes m cs) →
  Forall (λ j, job_ok j = true) (concat chs) ∧ Forall job_quote_free (concat chs).
Proof.
  revert m chs. induction cs as [|c cs IH]; intros m chs Hm Hcs Hch; cbn [all_changes] in *.
  - apply Forall2_nil_inv_r in Hch as ->. split; constructor.
  - destruct Hcs as [Hc Hcs]. apply Forall2_cons_inv_r in Hch as (ch & chs' & Hp & Hch & ->).
    destruct (cmd_vstep m c Hm Hc) as [[_ Hnew Hgood] Hother]. rewrite <-Hp in Hgood.
    assert (clean (after m c)) as Hm1.
    { intros k. destruct (decide (k = cmd_key c)) as [->|Hne]; [done|]. by rewrite Hother. }
    destruct (IH _ _ Hm1 Hcs Hch) as [H1 H2]. cbn [concat].
    split; (apply list.Forall_app; split; [|done]; eapply list.Forall_impl; [exact Hgood|]; by intros j (? & ? & ?)).
Qed.

Lemma foldl_rows `{HT : SqliteTable DB} {HL : SqliteTableLaws DB} (d : disk DB) js :
  Forall job_quote_free js → jobs_rows js (disk_rows d) (disk_rows (foldl (apply_job sq_exec) d js)).
Proof.
  intros Hq. revert d. induction Hq as [|j js Hj Hq IH]; intros d; simpl; [constructor|].
  econstructor; [by apply apply_job_rows|]. apply IH.
Qed.
