(* ===== verification/EngineLoad.v ===== *)
(** * Loading the table

    [xfiredb_load] on the rows of the table, from an empty engine: what the rows hold
    is what the engine holds afterwards, up to the order of the entries of a list. *)
From S2P Require Import Prelude Chain Atomic Mem CList CString KeyIndex SetMap Database Disk MiniSql DiskSpec Bio BioSpec Container ContainerSpec Engine EngineSpec EngineStrings EngineLists EngineIndex EngineMaps EngineKeys EngineRun EnginePersist.
Local Open Scope Z_scope.

(** ** What a row adds to the value of its key *)

Definition load_value (old : option value) (r : row) : option value :=
  match xfiredb_get_row_type (r_type r), old with
  | CONTAINER_STRING, None => Some (VString (r_value r))
  | CONTAINER_LIST, None => Some (VList [r_value r])
  | CONTAINER_LIST, Some (VList l) => Some (VList (l ++ [r_value r]))
  | CONTAINER_HASHMAP, None => Some (VHashmap {[r_skey r := r_value r]})
  | CONTAINER_HASHMAP, Some (VHashmap h) => Some (VHashmap (<[r_skey r := r_value r]> h))
  | CONTAINER_SET, None => Some (VSet {[r_skey r]})
  | CONTAINER_SET, Some (VSet X) => Some (VSet ({[r_skey r]} ∪ X))
  | _, _ => old
  end.
Definition load_row (m : vmap) (r : row) : vmap := write (r_key r) (load_value (m !! r_key r) r) m.

Lemma load_rows_at m rows key : foldl load_row m rows !! key = foldl load_value (m !! key) (rows_at key rows).
Proof.
  revert m. induction rows as [|r rows IH]; intros m; [done|]. cbn [foldl]. rewrite IH, rows_at_cons. unfold load_row.
  case_decide as Hk; [subst key; cbn [app foldl]; by rewrite write_lookup|]. cbn [app]. by rewrite write_other by congruence.
Qed.

(** An engine with an empty database. *)
Definition empty_engine {D T} `{KVStore D} (name : region) (brk : loc) : engine D T :=
  Engine (Database name kv_alloc) ∅ brk bio_init.

Section Load.
Context {D T I : Type} `{KV : KVStore D} {KL : KVStoreLaws D} `{KI : KeyIndex T I} {IL : KeyIndexLaws T I}.
Context (malloc : D → loc) (coin : loc → nat → bool) (junk : Z).
Context (Hmalloc : ∀ d, kv_fresh d (malloc d)).
Implicit Types (s : engine D T).

(** The row can be added: its text is a C string, its key holds a value of its type,
    its key in a hash map or a set does not collide, and it is a new one in a map. *)
Definition row_ok (old : option value) (r : row) : Prop :=
  nul_free (r_value r) ∧
  match xfiredb_get_row_type (r_type r), old with
  | CONTAINER_STRING, None => True
  | CONTAINER_LIST, (None | Some (VList _)) => True
  | CONTAINER_HASHMAP, None => ki_good (T := T) ∅ (r_skey r)
  | CONTAINER_HASHMAP, Some (VHashmap h) => ki_good (T := T) (dom h) (r_skey r) ∧ h !! r_skey r = None
  | CONTAINER_SET, None => ki_good (T := T) ∅ (r_skey r)
  | CONTAINER_SET, Some (VSet X) => ki_good (T := T) X (r_skey r)
  | _, _ => False
  end.

(** Finding the container of a row, or making it. *)
Lemma load_enter_run s dm m js key type :
  type ≠ CONTAINER_STRING → eng_rep s dm m js ∅ →
  ∃ s1 s2 rv p c ct, lookup_db key s = Done (s1, (rv, p)) ∧ (rv =? - XFIREDB_OK) = negb (is_new (m !! key)) ∧
    row_container (negb (is_new (m !! key))) p type s1 = Done (s2, c) ∧ eng_rep s2 dm m js ∅ ∧
    cont_at s2 dm (at_key key (m !! key)) c ct (default (empty_value type) (m !! key)).
Proof.
  intros Hty Hr. destruct (lookup_run s dm m js ∅ key Hr) as (s1 & _ & Hr1 & Hk).
  destruct (m !! key) as [v|]; cbn [default is_new at_key].
  - destruct Hk as (c & ct & Hl & Hat). exists s1, s1, (- XFIREDB_OK), c, c, ct. by split_and!.
  - destruct Hk as (p & Hl). destruct (container_alloc_run s1 dm m js ∅ type Hr1) as (s2 & c & ct & E & Hr2 & Hloc & Hct).
    exists s1, s2, (- XFIREDB_ERR), p, c, ct. split_and!; [done..|].
    eapply loc_cont_at; [done|]. by destruct type.
Qed.

Lemma load_leave_run s dm m js key c ct v :
  eng_rep s dm (upd (at_key key (m !! key)) v m) js ∅ → Z.of_nat (size m) < 2 ^ 30 →
  cont_at s dm (at_key key (m !! key)) c ct v →
  ∃ s', (if negb (is_new (m !! key)) then mret () else _ ← store_db malloc key c; mret ()) s = Done (s', ()) ∧
    eng_ok s' (<[key := v]> m) js.
Proof.
  intros Hr Hsz Hat. destruct (m !! key) as [v0|] eqn:Hm; cbn [is_new at_key upd negb] in *.
  - eexists. split; [done|]. by eapply eng_rep_done.
  - destruct (store_run malloc s dm m js ∅ key c ct v Hmalloc Hr Hsz Hm Hat) as (s' & E & Hr' & _).
    run E. eexists. split; [done|]. by eapply eng_rep_done.
Qed.

(** A new key of a set. *)
Lemma add_new_key_run s dm m js out att c ct X skey :
  eng_rep s dm m js out → cont_at s dm att c ct (VSet X) → ki_good (T := T) X skey →
  ∃ s' ct', add_new_key coin c skey s = Done (s', ()) ∧
    eng_rep s' dm (upd att (VSet ({[skey]} ∪ X)) m) js out ∧ cont_at s' dm att c ct' (VSet ({[skey]} ∪ X)).
Proof.
  intros Hr Hat Hg. pose proof (ca_rep _ _ _ _ _ _ Hat) as Hv. destruct ct as [| | |cs]; try done.
  destruct (new_addr_run s dm m js out Hr) as (s1 & E1 & Hr1 & Hb & _ & Hc). apply Hc, cont_at_loc in Hat.
  destruct (add_key_rep (coin (g_brk s)) cs (g_brk s) X skey Hv Hg) as (cs2 & rv & Ha & Hrep). rewrite <-Hb in Hrep.
  destruct (put_run s1 dm m js out att c _ (CSet cs2) (VSet _) Hr1 Hat Hrep) as (s2 & E2 & Hr2 & Hat2 & _).
  exists s2. eexists. split; [|by split]. unfold add_new_key. run E1. run (get_run _ _ _ _ _ Hat). ret. by calc Ha.
Qed.

Lemma load_run s m js r :
  eng_ok s m js → Z.of_nat (size m) < 2 ^ 30 → row_ok (m !! r_key r) r →
  ∃ s', xfiredb_load malloc coin junk (r_key r) (r_skey r) (r_type r) (r_value r) s = Done (s', ()) ∧
    eng_ok s' (load_row m r) js.
Proof.
  intros (dm & Hr) Hsz [Hn Hok]. unfold xfiredb_load, load_row. destruct r as [key sk ty t]. cbn [r_key r_skey r_type r_value] in *.
  set (new := load_value _ _). destruct (xfiredb_get_row_type ty) eqn:Hty.
  - destruct (lookup_run s dm m js ∅ key Hr) as (s1 & _ & Hr1 & Hk). destruct (m !! key) as [v|] eqn:Hm; [done|].
    destruct Hk as (p & Hl). run Hl. cond.
    destruct (container_alloc_run s1 dm m js ∅ CONTAINER_STRING Hr1) as (s2 & c & ct & E2 & Hr2 & Hloc & ->). run E2.
    run (get_run _ _ _ _ _ Hloc). ret. destruct (set_text_run junk s2 dm m js ∅ None c string_init t Hr2 Hloc Hn) as (s3 & E3 & Hr3 & ct & Hat3).
    rewrite E3. destruct (store_run malloc s3 dm m js ∅ key c ct (VString t) Hmalloc Hr3 Hsz Hm Hat3) as (s4 & E4 & Hr4 & _).
    run E4. exists s4. split; [done|].
    assert (new = Some (VString t)) as -> by (unfold new, load_value; cbn [r_type r_value]; by rewrite Hty).
    by eapply eng_rep_done.
  - destruct (load_enter_run s dm m js key CONTAINER_LIST ltac:(done) Hr) as (s1 & s2 & rv & p & c & ct & E1 & Ha & E2 & Hr2 & Hat2).
    run E1. rewrite Ha. run E2. cbn [empty_value] in Hat2.
    assert (∃ l, default (VList []) (m !! key) = VList l ∧
      new = Some (VList (l ++ [t]))) as (l & Hl & Hv).
    { unfold new, load_value. cbn [r_type r_skey r_value]. rewrite Hty. destruct (m !! key) as [[]|]; try done; by eexists. }
    rewrite Hl in Hat2. destruct (push_new_run s2 dm m js ∅ _ c ct l t false Hr2 Hat2 Hn) as (s3 & ct3 & E3 & Hr3 & Hat3). run E3.
    destruct (load_leave_run s3 dm m js key c ct3 _ Hr3 Hsz Hat3) as (s4 & E4 & Hok4). exists s4. split; [done|]. by rewrite Hv.
  - destruct (load_enter_run s dm m js key CONTAINER_HASHMAP ltac:(done) Hr) as (s1 & s2 & rv & p & c & ct & E1 & Ha & E2 & Hr2 & Hat2).
    run E1. rewrite Ha. run E2. cbn [empty_value] in Hat2.
    assert (∃ h, default (VHashmap ∅) (m !! key) = VHashmap h ∧ ki_good (T := T) (dom h) sk ∧ h !! sk = None ∧
      new = Some (VHashmap (<[sk := t]> h))) as (h & Hh & Hg & Hs & Hv).
    { unfold new, load_value. cbn [r_type r_skey r_value]. rewrite Hty. destruct (m !! key) as [[]|]; try done; [destruct Hok; by eexists|]. exists ∅. split_and!; [done|by rewrite dom_empty_L|done|done]. }
    rewrite Hh in Hat2. destruct (add_new_run coin s2 dm m js ∅ _ c ct h sk t Hr2 Hat2 Hg Hs Hn) as (s3 & ct3 & E3 & Hr3 & Hat3). run E3.
    destruct (load_leave_run s3 dm m js key c ct3 _ Hr3 Hsz Hat3) as (s4 & E4 & Hok4). exists s4. split; [done|]. by rewrite Hv.
  - destruct (load_enter_run s dm m js key CONTAINER_SET ltac:(done) Hr) as (s1 & s2 & rv & p & c & ct & E1 & Ha & E2 & Hr2 & Hat2).
    run E1. rewrite Ha. run E2. cbn [empty_value] in Hat2.
    assert (∃ X, default (VSet ∅) (m !! key) = VSet X ∧ ki_good (T := T) X sk ∧ new = Some (VSet ({[sk]} ∪ X))) as (X & HX & Hg & Hv).
    { unfold new, load_value. cbn [r_type r_skey r_value]. rewrite Hty. destruct (m !! key) as [[]|]; try done; [by eexists|].
      exists ∅. by rewrite union_empty_r_L. }
    rewrite HX in Hat2. destruct (add_new_key_run s2 dm m js ∅ _ c ct X sk Hr2 Hat2 Hg) as (s3 & ct3 & E3 & Hr3 & Hat3). run E3.
    destruct (load_leave_run s3 dm m js key c ct3 _ Hr3 Hsz Hat3) as (s4 & E4 & Hok4). exists s4. split; [done|]. by rewrite Hv.
Qed.

(** All the rows of a key, one after the other. *)
Fixpoint rows_ok (old : option value) (rows : list row) : Prop :=
  match rows with [] => True | r :: rows => row_ok old r ∧ rows_ok (load_value old r) rows end.

Lemma write_size key v m : (size (write key v m) ≤ S (size m))%nat.
Proof.
  destruct v; cbn [write]; [rewrite map_size_insert; case_match; simpl; lia|].
  rewrite map_size_delete. case_match; simpl; lia.
Qed.

Lemma load_rows_run s m js rows :
  eng_ok s m js → Z.of_nat (size m + length rows) < 2 ^ 30 → (∀ key, rows_ok (m !! key) (rows_at key rows)) →
  ∃ s', xfiredb_load_rows malloc coin junk rows s = Done (s', ()) ∧ eng_ok s' (foldl load_row m rows) js.
Proof.
  revert s m. induction rows as [|r rows IH]; intros s m Hok Hsz Hrows; cbn [xfiredb_load_rows foldl]; [by exists s|].
  pose proof (Hrows (r_key r)) as Hr. rewrite rows_at_cons, decide_True in Hr by done. cbn [app rows_ok] in Hr. destruct Hr as [Hr Hrs].
  cbn [length] in Hsz. destruct (load_run s m js r Hok ltac:(lia) Hr) as (s1 & E1 & Hok1). run E1. apply IH; [done| |].
  - pose proof (write_size (r_key r) (load_value (m !! r_key r) r) m). unfold load_row. lia.
  - intros key. unfold load_row. destruct (decide (key = r_key r)) as [->|Hne]; [by rewrite write_lookup|].
    rewrite write_other by done. specialize (Hrows key). by rewrite rows_at_cons, decide_False in Hrows by congruence.
Qed.

End Load.

(** ** What an engine holds can be loaded again *)

Section Restore.
Context {D T I : Type} `{KV : KVStore D} {KL : KVStoreLaws D} `{KI : KeyIndex T I} {IL : KeyIndexLaws T I}.

(** The values an engine holds. *)
Definition value_good (v : value) : Prop :=
  match v with
  | VString t => nul_free t
  | VList l => Forall nul_free l
  | VHashmap h => ∀ s t, h !! s = Some t → ki_good (T := T) (dom h) s ∧ nul_free t
  | VSet X => ∀ s, s ∈ X → ki_good (T := T) X s
  end.

Lemma node_is_nul_free ns n t : node_is ns n t → nul_free t.
Proof. by intros (s & _ & _ & ?). Qed.

Lemma cont_rep_good (ct : container T) brk v : cont_rep ct brk v → value_good v.
Proof.
  destruct ct as [cs|lh hp nl|hm ns|cset], v as [t|l|h|X]; try done; intros Hr.
  - apply Hr.
  - destruct Hr as (es & [_ Ht _ _]). cbn [value_good]. induction Ht as [|n t es l Hn _ IH]; constructor; [by eapply node_is_nul_free|done].
  - destruct Hr as (nm & [Hki _] & _ & Hk & _). intros s t Hs. pose proof (Hk s) as Hks. rewrite Hs in Hks.
    destruct (nm !! s) as [n|] eqn:Hn; [|done]. destruct Hks as [Ht _]. split; [|by eapply node_is_nul_free].
    rewrite <-(map_rep_key hm ns h nm Hk). by eapply ki_good_member.
  - destruct Hr as (nm & [Hki _ _] & _ & <-). intros s [n Hn]%elem_of_dom. by eapply ki_good_member.
Qed.

Lemma eng_ok_good (s : engine D T) m js key v : eng_ok s m js → m !! key = Some v → value_good v.
Proof.
  intros (dm & [_ _ H3 _]) Hm. specialize (H3 key). rewrite Hm in H3. destruct (dm !! key); [|done].
  destruct H3 as (_ & ct & _ & Hr). by eapply cont_rep_good.
Qed.

(** The same value, up to the order of the entries of a list. *)
Definition same_value (o o' : option value) : Prop :=
  match o, o' with Some (VList l), Some (VList l') => l ≡ₚ l' | _, _ => o = o' end.
Definition same_map (m m' : vmap) : Prop := ∀ key, same_value (m !! key) (m' !! key).

Lemma load_list_rows key l0 l :
  Forall nul_free l → let rows := list_row key <$> l in
  rows_ok (T := T) (Some (VList l0)) rows ∧ foldl load_value (Some (VList l0)) rows = Some (VList (l0 ++ l)).
Proof.
  intros Hl. revert l0. induction Hl as [|t l Ht Hl IH]; intros l0; [by rewrite app_nil_r|].
  destruct (IH (l0 ++ [t])) as [IH1 IH2]. rewrite <-app_assoc in IH2. by split.
Qed.

Lemma load_hm_rows key (h0 h : gmap string string) kvs :
  kvs ≡ₚ map_to_list h → h0 ##ₘ h → (∀ s t, h !! s = Some t → ki_good (T := T) (dom (h0 ∪ h)) s ∧ nul_free t) →
  let rows := hm_row key <$> kvs in
  rows_ok (T := T) (Some (VHashmap h0)) rows ∧ foldl load_value (Some (VHashmap h0)) rows = Some (VHashmap (h0 ∪ h)).
Proof.
  revert h0 h. induction kvs as [|[s t] kvs IH]; intros h0 h Hp Hd Hg.
  - symmetry in Hp. apply Permutation_nil_r, map_to_list_empty_iff in Hp as ->. by rewrite map_union_empty.
  - assert (h !! s = Some t) as Hs by (apply elem_of_map_to_list; rewrite <-Hp; by left).
    assert (h0 !! s = None) as Hs0 by (by eapply map_disjoint_Some_l).
    assert (<[s := t]> h0 ∪ delete s h = h0 ∪ h) as Hu.
    { rewrite <-(insert_delete_id h s t) at 2 by done. rewrite <-insert_union_r by done. by rewrite insert_union_l. }
    destruct (IH (<[s := t]> h0) (delete s h)) as [IH1 IH2].
    + apply (Permutation_cons_inv (a := (s, t))). rewrite Hp. symmetry. by apply map_to_list_delete.
    + apply map_disjoint_insert_l_2; [apply lookup_delete_eq|by apply map_disjoint_delete_r].
    + rewrite Hu. intros s' t' [_ Hs']%lookup_delete_Some. by apply Hg.
    + rewrite Hu in IH2. destruct (Hg s t Hs) as [Hgs Hn].
      assert (ki_good (T := T) (dom h0) s) as Hgs0 by (eapply ki_good_mono; [|exact Hgs]; rewrite dom_union_L; set_solver).
      by split.
Qed.

Lemma null_nul_free : nul_free "null".
Proof. repeat (constructor; [done|]). constructor. Qed.

Lemma load_set_rows key (X0 : gset string) ss :
  (∀ s, s ∈ ss → ki_good (T := T) (list_to_set ss ∪ X0) s) → let rows := set_row key <$> ss in
  rows_ok (T := T) (Some (VSet X0)) rows ∧ foldl load_value (Some (VSet X0)) rows = Some (VSet (list_to_set ss ∪ X0)).
Proof.
  revert X0. induction ss as [|s ss IH]; intros X0 Hg; [by rewrite list_to_set_nil, union_empty_l_L|].
  rewrite list_to_set_cons in *.
  assert (list_to_set ss ∪ ({[s]} ∪ X0) = {[s]} ∪ list_to_set ss ∪ X0) as Hu by set_solver.
  destruct (IH ({[s]} ∪ X0)) as [IH1 IH2]; [intros s' Hs'; rewrite Hu; apply Hg; by right|]. rewrite Hu in IH2.
  assert (ki_good (T := T) X0 s) as Hg0 by (eapply ki_good_mono; [|apply (Hg s); by left]; set_solver).
  by split; [split; [split; [apply null_nul_free|]|]|].
Qed.

(** One key: its rows can be loaded and give its value. *)
Lemma load_key_rows key o rows :
  clean_at o → (∀ v, o = Some v → value_good v) → rows ≡ₚ rows_of key o →
  rows_ok (T := T) None rows ∧ same_value o (foldl load_value None rows).
Proof.
  intros Hc Hg Hr. destruct o as [[t|l|h|X]|]; cbn [rows_of val_rows] in Hr.
  - apply Permutation_singleton_r in Hr as ->. by split; [split; [split; [exact (Hg _ eq_refl)|]|]|].
  - apply Permutation_map_inv in Hr as (l' & -> & Hp). specialize (Hg _ eq_refl). cbn [value_good] in Hg. rewrite Hp in Hg.
    destruct l' as [|t l']; [apply Permutation_nil_r in Hp as ->; by destruct Hc|].
    apply list.Forall_cons in Hg as [Ht Hl]. destruct (load_list_rows key [t] l' Hl) as [H1 H2].
    split; [by split|]. change (same_value (Some (VList l)) (foldl load_value (Some (VList [t])) (list_row key <$> l'))).
    by rewrite H2.
  - apply Permutation_map_inv in Hr as (kvs & -> & Hp). symmetry in Hp. specialize (Hg _ eq_refl). cbn [value_good] in Hg.
    destruct kvs as [|[s t] kvs].
    { symmetry in Hp. apply Permutation_nil_r, map_to_list_empty_iff in Hp as ->. by destruct Hc. }
    assert (h !! s = Some t) as Hs by (apply elem_of_map_to_list; rewrite <-Hp; by left). destruct (Hg s t Hs) as [Hgs Hn].
    destruct (load_hm_rows key {[s := t]} (delete s h) kvs) as [H1 H2].
    + apply (Permutation_cons_inv (a := (s, t))). rewrite Hp. symmetry. by apply map_to_list_delete.
    + apply map_disjoint_singleton_l_2, lookup_delete_eq.
    + rewrite <-insert_union_singleton_l, insert_delete_id by done. intros s' t' [_ Hs']%lookup_delete_Some. by apply Hg.
    + rewrite <-insert_union_singleton_l, insert_delete_id in H2 by done.
      split; [split; [split; [done|eapply ki_good_mono; [|exact Hgs]; set_solver]|exact H1]|].
      change (same_value (Some (VHashmap h)) (foldl load_value (Some (VHashmap {[s := t]})) (hm_row key <$> kvs))). by rewrite H2.
  - apply Permutation_map_inv in Hr as (ss & -> & Hp). specialize (Hg _ eq_refl). cbn [value_good] in Hg.
    assert (list_to_set ss = X) as HX by (rewrite <-Hp; apply list_to_set_elements_L).
    destruct ss as [|s ss]; [by destruct Hc|]. rewrite list_to_set_cons in HX.
    assert (list_to_set ss ∪ {[s]} = X) as HX' by set_solver.
    destruct (load_set_rows key {[s]} ss) as [H1 H2]; [intros s' Hs'; rewrite HX'; apply Hg; set_solver|]. rewrite HX' in H2.
    split; [split; [split; [apply null_nul_free|eapply ki_good_mono; [|apply (Hg s); set_solver]; set_solver]|exact H1]|].
    change (same_value (Some (VSet X)) (foldl load_value (Some (VSet {[s]})) (set_row key <$> ss))). by rewrite H2.
  - apply Permutation_nil_r in Hr as ->. done.
Qed.
Lemma empty_engine_ok name brk : eng_ok (T := T) (I := I) (empty_engine (D := D) name brk) ∅ [].
Proof.
  exists ∅. split; [exact kv_alloc_rep|exact bio_has_init| |]; [intros k; by rewrite !lookup_empty|].
  intros k1 k2 c H. by rewrite lookup_empty in H.
Qed.

(** A table that holds a map: loading it into an empty engine gives that map. *)
Lemma load_restores malloc coin junk name brk m rows :
  (∀ d, kv_fresh d (malloc d)) → disk_holds m rows → clean m → (∀ key v, m !! key = Some v → value_good v) →
  Z.of_nat (length rows) < 2 ^ 30 →
  ∃ s m', xfiredb_load_rows malloc coin junk rows (empty_engine name brk) = Done (s, ()) ∧ eng_ok s m' [] ∧ same_map m m'.
Proof.
  intros Hmalloc Hdisk Hcl Hg Hlen.
  assert (∀ key, rows_ok (T := T) None (rows_at key rows) ∧
    same_value (m !! key) (foldl load_value None (rows_at key rows))) as Hkey.
  { intros key. apply (load_key_rows key); [apply Hcl| |apply Hdisk]. apply Hg. }
  destruct (load_rows_run malloc coin junk Hmalloc (empty_engine name brk) ∅ [] rows (empty_engine_ok name brk))
    as (s2 & E2 & Hs2); [by rewrite map_size_empty|intros key; rewrite lookup_empty; apply Hkey|].
  eexists s2, _. split; [exact E2|]. split; [exact Hs2|]. intros key. rewrite load_rows_at, lookup_empty. apply Hkey.
Qed.
End Restore.
