(* ===== verification/EngineStore.v ===== *)
(** * Storing a container and loading it again

    [xfiredb_store_container] queues every entry of a container, of any of the four
    types, and [xfiredb_load_key] reads the rows of one key. *)
From S2P Require Import Prelude Chain Atomic Mem CList CString KeyIndex SetMap Database Disk MiniSql DiskSpec Bio BioSpec Container ContainerSpec Engine EngineSpec EngineStrings EngineLists EngineIndex EngineMaps EngineKeys EngineRun EnginePersist EngineLoad.
Local Open Scope Z_scope.

(** ** The changes *)

Definition list_add_job (key t : string) : job := Job LIST_ADD key None (Some t).
Definition hm_add_job (key : string) (kv : string * string) : job := Job HM_ADD key (Some kv.1) (Some kv.2).
Definition set_add_job (key s : string) : job := Job SET_ADD key (Some s) None.

Definition store_jobs (key : string) (v : value) : list job :=
  match v with
  | VString t => [Job STRING_ADD key None (Some t)]
  | VList l => list_add_job key <$> l
  | VHashmap h => hm_add_job key <$> map_to_list h
  | VSet X => set_add_job key <$> elements X
  end.

Definition value_size (v : value) : nat :=
  match v with VString _ => 1 | VList l => length l | VHashmap h => size h | VSet X => size X end.

Lemma elements_dom_list {A} (m : gmap string A) : elements (dom m) ≡ₚ (map_to_list m).*1.
Proof.
  apply NoDup_Permutation; [apply NoDup_elements|apply NoDup_fst_map_to_list|].
  intros k. rewrite elem_of_elements, elem_of_dom, list_elem_of_fmap. split.
  - intros [x Hx]. exists (k, x). split; [done|]. by apply elem_of_map_to_list.
  - intros ([k' x] & -> & Hx%elem_of_map_to_list). by eexists.
Qed.

Section Store.
Context {D T I : Type} `{KV : KVStore D} {KL : KVStoreLaws D} `{KI : KeyIndex T I} {IL : KeyIndexLaws T I}.
Context (lvl : Z) (Hlvl : 0 ≤ lvl < 3).
Implicit Types (s : engine D T).

Lemma store_change_run s dm m js key arg new op :
  eng_rep s dm m js ∅ →
  ∃ s', store_change lvl key arg new op s = Done (s', ()) ∧ same s s' ∧
    eng_rep s' dm m (js ++ [Job op key arg new]) ∅.
Proof.
  intros Hr. unfold store_change. destruct (sprintf_run s dm m js ∅ key Hr) as (s1 & bk & E1 & [S1 S1'] & Hr1 & _ & Hbk). run E1.
  assert (∀ s out x, eng_rep s dm m js out →
    ∃ s' a out', (match x with Some v => sprintf v | None => mret NULL end) s = Done (s', a) ∧
    same s s' ∧ eng_rep s' dm m js out' ∧ opt_str out' a x ∧ (a ≠ NULL → out !! a = None) ∧ out ⊆ out') as Hopt.
  { intros s' out x Hr'. destruct x as [t|].
    - destruct (sprintf_run s' dm m js out t Hr') as (s2 & a & E & S & Hr2 & Hn & Ha).
      exists s2, a, (<[a := t]> out). split_and!; [done|done|done|cbn; out_lookup|done|by apply insert_subseteq].
    - exists s', NULL, out. by split_and!. }
  destruct (Hopt s1 (<[bk:=key]> ∅) new Hr1) as (s2 & bd & out2 & E2 & [S2 S2'] & Hr2 & Hbd & Hbd0 & Hsub2). run E2.
  assert (out2 !! bk = Some key) as Hk2 by (eapply lookup_weaken; [|exact Hsub2]; apply lookup_insert_eq).
  destruct (Hopt s2 out2 arg Hr2) as (s3 & ba & out3 & E3 & [S3 S3'] & Hr3 & Hba & Hba0 & Hsub3). run E3.
  assert (bk ≠ bd) as H1. { intros <-. specialize (Hbd0 Hbk). by rewrite lookup_insert_eq in Hbd0. }
  assert (bk ≠ ba) as H2. { intros <-. specialize (Hba0 Hbk). congruence. }
  assert (opt_str out3 bd new) as Hbd3. { destruct new; [|done]. cbn in *. by eapply lookup_weaken. }
  assert (ba = NULL ∨ ba ≠ bd) as H3.
  { destruct (decide (ba = NULL)) as [|Hn]; [by left|right]. intros ->. specialize (Hba0 Hn). destruct new; cbn in *; [congruence|done]. }
  destruct (queue_run lvl s3 dm m js out3 bk ba bd (Job op key arg new) Hlvl Hr3) as (s4 & E4 & [S4 S4'] & Hr4);
    [by eapply lookup_weaken|done..|]. cbn [j_op] in E4. rewrite E4.
  exists s4. split; [done|]. split; [split; congruence|]. eapply eng_rep_out; [exact Hr4|apply map_empty_subseteq].
Qed.

Lemma store_list_run s dm m js key ns es l :
  eng_rep s dm m js ∅ → Forall2 (node_is ns) es l →
  ∃ s', store_list lvl key ns es s = Done (s', ()) ∧ same s s' ∧ eng_rep s' dm m (js ++ (list_add_job key <$> l)) ∅.
Proof.
  intros Hr Ht. revert s js Hr. induction Ht as [|n t es l Hn _ IH]; intros s js Hr; cbn [store_list].
  - exists s. by rewrite app_nil_r.
  - calc (node_text_ok _ _ _ Hn). destruct (store_change_run s dm m js key None (Some t) LIST_ADD Hr) as (s1 & E1 & [S1 S1'] & Hr1). run E1.
    destruct (IH s1 _ Hr1) as (s2 & E2 & [S2 S2'] & Hr2). exists s2. split; [done|]. split; [split; congruence|].
    by rewrite <-app_assoc in Hr2.
Qed.

Lemma store_hashmap_run s dm m js key hm ns it kns kvs fuel :
  eng_rep s dm m js ∅ → visits (ki_iter_next (hm_list hm)) it kns →
  Forall2 (λ n kv, node_is ns n kv.2 ∧ hm_key_str hm !! n = Some kv.1) kns kvs → (length kns < fuel)%nat →
  ∃ s', store_hashmap lvl fuel key hm ns it s = Done (s', ()) ∧ same s s' ∧ eng_rep s' dm m (js ++ (hm_add_job key <$> kvs)) ∅.
Proof.
  intros Hr Hv. revert s js kvs fuel Hr. induction Hv as [it it' E|it it' n kns E _ IH]; intros s js kvs fuel Hr Ht Hf;
    (destruct fuel as [|fuel]; [lia|]); cbn [store_hashmap]; unfold hashmap_iterator_next; calc E.
  - apply Forall2_nil_inv_l in Ht as ->. exists s. by rewrite app_nil_r.
  - apply Forall2_cons_inv_l in Ht as ([k t] & kvs' & [Hn Hk] & Ht & ->). cbn [fst snd] in *.
    calc (node_text_ok _ _ _ Hn). rewrite Hk. cbn [deref]. ret.
    destruct (store_change_run s dm m js key (Some k) (Some t) HM_ADD Hr) as (s1 & E1 & [S1 S1'] & Hr1). run E1.
    destruct (IH s1 _ kvs' fuel Hr1 Ht ltac:(simpl in *; lia)) as (s2 & E2 & [S2 S2'] & Hr2).
    exists s2. split; [done|]. split; [split; congruence|]. by rewrite <-app_assoc in Hr2.
Qed.

Lemma store_set_run s dm m js key (cs : set T) it kns ks fuel :
  eng_rep s dm m js ∅ → visits (ki_iter_next (set_list cs)) it kns →
  Forall2 (λ n k, set_key_str cs !! n = Some k) kns ks → (length kns < fuel)%nat →
  ∃ s', store_set lvl fuel key cs it s = Done (s', ()) ∧ same s s' ∧ eng_rep s' dm m (js ++ (set_add_job key <$> ks)) ∅.
Proof.
  intros Hr Hv. revert s js ks fuel Hr. induction Hv as [it it' E|it it' n kns E _ IH]; intros s js ks fuel Hr Ht Hf;
    (destruct fuel as [|fuel]; [lia|]); cbn [store_set]; unfold set_iterator_next; calc E.
  - apply Forall2_nil_inv_l in Ht as ->. exists s. by rewrite app_nil_r.
  - apply Forall2_cons_inv_l in Ht as (k & ks' & Hk & Ht & ->). rewrite Hk. cbn [deref]. ret.
    destruct (store_change_run s dm m js key (Some k) None SET_ADD Hr) as (s1 & E1 & [S1 S1'] & Hr1). run E1.
    destruct (IH s1 _ ks' fuel Hr1 Ht ltac:(simpl in *; lia)) as (s2 & E2 & [S2 S2'] & Hr2).
    exists s2. split; [done|]. split; [split; congruence|]. by rewrite <-app_assoc in Hr2.
Qed.

Lemma store_container_run s dm m js key att c ct v fuel :
  eng_rep s dm m js ∅ → cont_at s dm att c ct v → (value_size v < fuel)%nat →
  ∃ s' ch, xfiredb_store_container lvl fuel true key c s = Done (s', ()) ∧ eng_rep s' dm m (js ++ ch) ∅ ∧
    ch ≡ₚ store_jobs key v.
Proof.
  intros Hr Hat Hf. unfold xfiredb_store_container. cbn [negb]. cbn iota. run (get_run _ _ _ _ _ (cont_at_loc _ _ _ _ _ _ Hat)).
  pose proof (ca_rep _ _ _ _ _ _ Hat) as Hv. destruct ct as [x|lh h ns|hm ns|cs], v as [t|l|mm|X]; try done; cbn [value_size] in Hf.
  - calc (text_of_ok _ _ Hv). destruct (store_change_run s dm m js key None (Some t) STRING_ADD Hr) as (s1 & E1 & _ & Hr1). by exists s1, [Job STRING_ADD key None (Some t)].
  - destruct Hv as (es & [Hok Ht _ _]). pose proof (list.Forall2_length _ _ _ Ht) as Hl.
    assert (list_for_each fuel h lh = Done es) as E by (by apply list_for_each_fuel; [|lia]). calc E.
    destruct (store_list_run s dm m js key ns es l Hr Ht) as (s1 & E1 & _ & Hr1). by exists s1, (list_add_job key <$> l).
  - destruct Hv as (nm & [Hki _] & _ & Hk & Hinj). destruct (ki_iter_all _ _ Hki) as (kns & Hp & Hvis).
    pose proof (map_rep_key hm ns mm nm Hk) as Hdom.
    assert (∃ kvs, kvs ≡ₚ map_to_list mm ∧ Forall2 (λ n kv, node_is ns n kv.2 ∧ hm_key_str hm !! n = Some kv.1) kns.*2 kvs) as (kvs & Hkvs & Ht).
    { exists ((λ kn, (kn.1, default "" (mm !! kn.1))) <$> kns). split.
      - rewrite Hp. clear -Hdom. apply NoDup_Permutation.
        + apply (NoDup_fmap_1 fst). rewrite <-list_fmap_compose. apply NoDup_fst_map_to_list.
        + apply NoDup_map_to_list.
        + intros [k t]. rewrite elem_of_map_to_list, list_elem_of_fmap. split.
          * intros ([k' n] & [= -> ->] & Hin%elem_of_map_to_list). cbn. assert (is_Some (mm !! k')) as [t Ht]; [|by rewrite Ht].
            apply elem_of_dom. rewrite <-Hdom. apply elem_of_dom. by eexists.
          * intros Hm. assert (is_Some (nm !! k)) as [n Hn] by (apply elem_of_dom; rewrite Hdom; apply elem_of_dom; by eexists).
            exists (k, n). cbn. rewrite Hm. split; [done|]. by apply elem_of_map_to_list.
      - apply Forall2_fmap_l, Forall2_fmap_r. apply Forall_Forall2_diag, list.Forall_forall. intros [k n] Hin. cbn.
        rewrite Hp in Hin. apply elem_of_map_to_list in Hin. specialize (Hk k). rewrite Hin in Hk. destruct (mm !! k); [done|by destruct Hk]. }
    destruct (store_hashmap_run s dm m js key hm ns _ _ kvs fuel Hr Hvis Ht) as (s1 & E1 & _ & Hr1).
    { rewrite length_fmap, (Permutation_length Hp), length_map_to_list, <-size_dom, Hdom, size_dom. done. }
    exists s1, (hm_add_job key <$> kvs). split; [done|]. split; [done|]. cbn [store_jobs]. by rewrite Hkvs.
  - destruct Hv as (nm & [Hki _ Hks] & _ & <-). destruct (ki_iter_all _ _ Hki) as (kns & Hp & Hvis).
    destruct (store_set_run s dm m js key cs _ _ kns.*1 fuel Hr Hvis) as (s1 & E1 & _ & Hr1).
    { apply Forall2_fmap_l, Forall2_fmap_r. apply Forall_Forall2_diag, list.Forall_forall. intros [k n] Hin. cbn.
      rewrite Hp in Hin. apply elem_of_map_to_list in Hin. by apply Hks. }
    { rewrite length_fmap, (Permutation_length Hp), length_map_to_list, <-size_dom. done. }
    exists s1, (set_add_job key <$> kns.*1). split; [done|]. split; [done|]. cbn [store_jobs]. apply fmap_Permutation.
    rewrite Hp. symmetry. apply elements_dom_list.
Qed.
End Store.

(** ** The rows *)

Definition add_row (j : job) : row :=
  match j_op j with
  | HM_ADD => Row (j_key j) (default "" (j_arg j)) "hashmap" (default "" (j_new j))
  | SET_ADD => Row (j_key j) (default "" (j_arg j)) "set" "null"
  | LIST_ADD => Row (j_key j) "null" "list" (default "" (j_new j))
  | _ => Row (j_key j) "null" "string" (default "" (j_new j))
  end.
Definition is_add (j : job) : Prop :=
  j_op j = STRING_ADD ∨ j_op j = LIST_ADD ∨ j_op j = HM_ADD ∨ j_op j = SET_ADD.

Lemma add_rows ch rows rows' : Forall is_add ch → jobs_rows ch rows rows' → rows' = rows ++ (add_row <$> ch).
Proof.
  intros Ha Hj. induction Hj as [rows|j ch rows rows1 rows' Hj _ IH]; [by rewrite app_nil_r|].
  apply list.Forall_cons in Ha as [Ha Hch]. rewrite (IH Hch), fmap_cons, cons_middle, app_assoc. f_equal.
  destruct j as [op k a v]. unfold job_rows, add_row in *. cbn [j_op j_key j_arg j_new] in *.
  by destruct Ha as [Ha|[Ha|[Ha|Ha]]]; cbn [j_op] in Ha; subst op.
Qed.

Lemma store_jobs_rows key v : add_row <$> store_jobs key v = val_rows key v.
Proof. destruct v; cbn [store_jobs val_rows]; [done|by rewrite <-list_fmap_compose..]. Qed.

Lemma store_jobs_add key v : Forall is_add (store_jobs key v).
Proof.
  destruct v; cbn [store_jobs]; [by constructor; [left|constructor]| | |];
    (apply list.Forall_fmap, list.Forall_forall; intros ? _; unfold is_add, compose; cbn; tauto).
Qed.

Lemma store_jobs_quote_free key v : quote_free key → value_clean v → Forall job_quote_free (store_jobs key v).
Proof.
  intros Hk Hv. destruct v as [t|l|h|X]; cbn [store_jobs value_clean] in *.
  - constructor; [|constructor]. by split_and!; [|apply quote_free_empty|].
  - destruct Hv as [_ Hv]. apply list.Forall_fmap. eapply list.Forall_impl; [exact Hv|].
    intros t Ht. by split_and!; [|apply quote_free_empty|].
  - destruct Hv as [_ Hv]. apply list.Forall_fmap, list.Forall_forall. intros [s t] Hin%elem_of_map_to_list.
    destruct (Hv s t Hin). by split_and!.
  - destruct Hv as [_ Hv]. apply list.Forall_fmap, list.Forall_forall. intros s Hin%elem_of_elements.
    split_and!; [done|by apply Hv|apply quote_free_empty].
Qed.

Lemma val_rows_key key v r : r ∈ val_rows key v → r_key r = key.
Proof. destruct v; cbn [val_rows]; [by intros ->%list_elem_of_singleton|by intros (? & -> & _)%list_elem_of_fmap..]. Qed.

Lemma val_rows_length key v : length (val_rows key v) = value_size v.
Proof. destruct v; cbn [val_rows value_size]; rewrite ?length_fmap; [done|done|apply length_map_to_list|done]. Qed.

(** No text and no key has a quote. *)
Definition text_clean (v : value) : Prop :=
  match v with
  | VString t => quote_free t
  | VList l => Forall quote_free l
  | VHashmap h => map_clean h
  | VSet X => ∀ k, k ∈ X → quote_free k
  end.

Section Roundtrip.
Context {D T I : Type} `{KV : KVStore D} {KL : KVStoreLaws D} `{KI : KeyIndex T I} {IL : KeyIndexLaws T I}.
Context (malloc : D → loc) (coin : loc → nat → bool) (junk lvl : Z).
Context (Hlvl : 0 ≤ lvl < 3) (Hmalloc : ∀ d, kv_fresh d (malloc d)).
Context `{HT : SqliteTable DB} {HL : SqliteTableLaws DB}.
Implicit Types (s : engine D T).

(** The rows of one value are loaded next to what is there. *)
Lemma load_one_run s m js key v rows :
  eng_ok s m js → m !! key = None → value_clean v → value_good (T := T) v → rows ≡ₚ val_rows key v →
  Z.of_nat (size m + value_size v) < 2 ^ 30 →
  ∃ s' v', xfiredb_load_rows malloc coin junk rows s = Done (s', ()) ∧ eng_ok s' (<[key := v']> m) js ∧
    same_value (Some v) (Some v').
Proof.
  intros Hok Hm Hc Hg Hp Hsz.
  assert (rows_at key rows = rows) as Hall by (apply rows_at_all; intros r; rewrite Hp; apply val_rows_key).
  destruct (load_key_rows (T := T) (I := I) key (Some v) rows Hc) as [Hrows Hv]; [by intros v' [= <-]|done|].
  assert (∀ k, k ≠ key → rows_at k rows = []) as Hnone.
  { intros k Hne. apply rows_at_none. intros r. rewrite Hp. intros ->%val_rows_key. by intros ->. }
  destruct (load_rows_run malloc coin junk Hmalloc s m js rows Hok) as (s' & E & Hok').
  { rewrite (Permutation_length Hp), val_rows_length. lia. }
  { intros k. destruct (decide (k = key)) as [->|Hne]; [by rewrite Hm, Hall|by rewrite Hnone]. }
  destruct (foldl load_value None rows) as [v'|] eqn:Hfold; [|by destruct v].
  exists s', v'. split; [done|]. split; [|done].
  assert (foldl load_row m rows = <[key := v']> m) as <-; [|done].
  apply map_eq. intros k. rewrite load_rows_at. destruct (decide (k = key)) as [->|Hne].
  - by rewrite lookup_insert_eq, Hm, Hall.
  - by rewrite lookup_insert_ne, Hnone.
Qed.

Lemma text_clean_clean v : text_clean v → value_size v ≠ 0%nat → value_clean v.
Proof.
  destruct v as [t|l|h|X]; cbn [text_clean value_size value_clean]; [done|..]; intros Hq Hs; (split; [|done]).
  - by destruct l.
  - intros ->. by rewrite map_size_empty in Hs.
  - intros ->. by rewrite size_empty in Hs.
Qed.

(** C11: a container of any type is stored and loaded again.  With a level below 3,
    [xfiredb_store_container] of the container of a key, a string, a list, a hash map or a set, none of whose texts
    and keys has a quote, queues one change per entry; written to a table without rows of
    this key, which has no quote either, they add the rows of the container and leave all
    others; and [disk_load_key] hands out rows.  Loaded into an engine that does not have
    the key they give it the same value, up to the order of the entries of a list, if the
    container has an entry.  Of a list, hash map or set without entries nothing is
    queued, there are no rows, and the key does not come back: the engine is unchanged.
    (The container has fewer entries than the fuel; with the keys of the engine that
    loads them, fewer than 2^30.) *)
Theorem container_roundtrip (fuel : nat) s m js key v (d : disk DB) s0 m0 js0 :
  eng_ok s m js → m !! key = Some v → text_clean v → quote_free key → (value_size v < fuel)%nat →
  rows_at key (disk_rows d) = [] → eng_ok s0 m0 js0 → m0 !! key = None → Z.of_nat (size m0 + value_size v) < 2 ^ 30 →
  ∃ s1 c s2 ch, lookup_db key s = Done (s1, (- XFIREDB_OK, c)) ∧
    xfiredb_store_container lvl fuel true key c s1 = Done (s2, ()) ∧ eng_ok s2 m (js ++ ch) ∧
    length ch = value_size v ∧
    let d' := foldl (apply_job sq_exec) d ch in
    (∀ k, k ≠ key → rows_at k (disk_rows d') = rows_at k (disk_rows d)) ∧
    ∃ rows, (disk_load_key sq_exec d' key).1.2 = row_cells <$> rows ∧
      if decide (value_size v = 0%nat) then
        rows = [] ∧ disk_rows d' = disk_rows d ∧ xfiredb_load_rows malloc coin junk rows s0 = Done (s0, ())
      else
        ∃ s3 v', xfiredb_load_rows malloc coin junk rows s0 = Done (s3, ()) ∧ eng_ok s3 (<[key := v']> m0) js0 ∧
          same_value (Some v) (Some v').
Proof.
  intros Hok Hm Hc Hk Hf Hd Hok0 Hm0 Hsz. pose proof (eng_ok_good s m js key v Hok Hm) as Hg. destruct Hok as (dm & Hr).
  destruct (lookup_run s dm m js ∅ key Hr) as (s1 & _ & Hr1 & Hl). rewrite Hm in Hl. destruct Hl as (c & ct & E1 & Hat).
  destruct (store_container_run lvl Hlvl s1 dm m js key _ c ct v fuel Hr1 Hat Hf) as (s2 & ch & E2 & Hr2 & Hp).
  exists s1, c, s2, ch. split; [done|]. split; [done|]. split; [by eapply eng_rep_done|].
  assert (length ch = value_size v) as Hlen by (by rewrite (Permutation_length Hp), <-(val_rows_length key), <-store_jobs_rows, length_fmap).
  split; [done|]. case_decide as Hz.
  - rewrite Hz in Hlen. apply nil_length_inv in Hlen as ->. cbn [foldl]. cbv zeta. split; [done|]. exists []. unfold disk_load_key.
    rewrite (sq_select_key _ _ Hk). cbn. change (filter (λ r, r_key r = key) (sq_rows (dk_handle d))) with (rows_at key (disk_rows d)).
    by rewrite Hd.
  - apply (text_clean_clean v Hc) in Hz as Hcl.
    assert (Forall job_quote_free ch) as Hq by (rewrite Hp; by apply store_jobs_quote_free).
    assert (Forall is_add ch) as Hadd by (rewrite Hp; apply store_jobs_add).
    pose proof (add_rows _ _ _ Hadd (foldl_rows d ch Hq)) as Hd'. set (d' := foldl _ d ch) in *. cbv zeta.
    assert (add_row <$> ch ≡ₚ val_rows key v) as Hrows by (by rewrite Hp, store_jobs_rows).
    split.
    + intros k Hne. rewrite Hd', rows_at_app, (rows_at_none k (add_row <$> ch)), app_nil_r; [done|].
      intros r. rewrite Hrows. intros ->%val_rows_key. by intros ->.
    + exists (add_row <$> ch). unfold disk_load_key. rewrite (sq_select_key _ _ Hk). cbn.
      change (filter (λ r, r_key r = key) (sq_rows (dk_handle d'))) with (rows_at key (disk_rows d')).
      rewrite Hd', rows_at_app, Hd, rows_at_all by (intros r; rewrite Hrows; apply val_rows_key).
      destruct (load_one_run s0 m0 js0 key v (add_row <$> ch) Hok0 Hm0 Hcl Hg Hrows Hsz) as (s3 & v' & E3 & Hok3 & Hv).
      split; [done|]. by exists s3, v'.
Qed.
End Roundtrip.
