(* ===== verification/EngineThreads.v ===== *)
(** * The engine and the worker together

    [EngineRun] says which changes the calls of a client queue, [Worker] what two
    threads make of any queued changes.  Together: however the worker is interleaved
    with the calls, a restart after a shutdown brings the map back, and a restart
    after a crash brings back the map as it was after some of the calls. *)
From S2P Require Import Prelude Chain Atomic Mem CList CString KeyIndex SetMap Database Disk MiniSql DiskSpec Bio BioSpec Worker Container ContainerSpec Engine EngineSpec EngineStrings EngineLists EngineIndex EngineMaps EngineKeys EngineRun EnginePersist EngineLoad.
Local Open Scope Z_scope.

(** ** A part of a command *)

(** [o] is on the way from [old] to [new]: one of them, or [old] without some of what
    the command takes away. *)
Definition part (old new o : option value) : Prop :=
  o = old ∨ o = new ∨
  match old with
  | Some (VList l) => ∃ p r r', l ≡ₚ p ++ r ∧ o = opt_list r ∧ new = opt_list r' ∧ r' ⊆+ r
  | Some (VHashmap h) => ∃ h1 h2, h1 ⊆ h ∧ o = opt_hmap h1 ∧ new = opt_hmap h2 ∧ h2 ⊆ h1
  | _ => False
  end.
Definition between (m m' m1 : vmap) : Prop := ∀ key, part (m !! key) (m' !! key) (m1 !! key).

Lemma vstep_perm key old new ch ch' : ch ≡ₚ ch' → vstep key old new ch → vstep key old new ch'.
Proof.
  intros Hp [H1 H2 H3]. split; [|done|by rewrite <-Hp].
  intros rows rows' c Hr Hc. apply H1; [done|by rewrite Hp].
Qed.

Lemma part_short key old new ch n :
  (length ch ≤ 1)%nat → clean_at old → vstep key old new ch →
  ∃ o, part old new o ∧ vstep key old o (take n ch).
Proof.
  intros Hl Hc Hv. destruct ch as [|j [|]]; [|destruct n as [|n]|simpl in Hl; lia].
  - exists new. rewrite take_nil. split; [by right; left|done].
  - exists old. split; [by left|by apply vstep_refl].
  - exists new. split; [by right; left|]. by rewrite firstn_all2 by (simpl; lia).
Qed.

Lemma part_list_del key l p r ch n :
  quote_free key → Forall quote_free l → l ≡ₚ p ++ r → ch ≡ₚ del_job key <$> p →
  ∃ o, part (Some (VList l)) (opt_list r) o ∧ vstep key (Some (VList l)) o (take n ch).
Proof.
  intros Hk Hq Hl Hch. apply Permutation_map_inv in Hch as (p' & -> & Hp). rewrite Hp in Hl.
  exists (opt_list (drop n p' ++ r)). assert (l ≡ₚ take n p' ++ drop n p' ++ r) as Hl' by (by rewrite app_assoc, take_drop).
  split.
  - right. right. exists (take n p'), (drop n p' ++ r), r. split_and!; [done..|]. by apply submseteq_inserts_l.
  - rewrite <-fmap_take. by apply list_del_step.
Qed.

Lemma without_subset ss h h' : without ss h h' → h' ⊆ h.
Proof. intros Hw. apply map_subseteq_spec. intros x t Hx. rewrite Hw in Hx. by case_decide. Qed.

Definition drop_keys (ss : list string) (h : gmap string string) : gmap string string :=
  filter (λ kv, kv.1 ∉ ss) h.
Lemma drop_keys_without ss h : without ss h (drop_keys ss h).
Proof.
  intros x. unfold drop_keys. rewrite map_lookup_filter. destruct (h !! x) as [t|]; cbn; [|by case_decide].
  repeat case_decide; case_guard; naive_solver.
Qed.

Lemma part_hm_del key h h' ss ch n :
  quote_free key → map_clean h → (∀ s, s ∈ ss → is_Some (h !! s)) → without ss h h' →
  ch ≡ₚ (λ s, Job HM_DEL key (Some s) None) <$> ss →
  ∃ o, part (Some (VHashmap h)) (opt_hmap h') o ∧ vstep key (Some (VHashmap h)) o (take n ch).
Proof.
  intros Hk Hq Hss Hw Hch. apply Permutation_map_inv in Hch as (ss' & -> & Hp).
  set (ss1 := take n ss'). pose proof (drop_keys_without ss1 h) as Hw1.
  assert (∀ s, s ∈ ss1 → s ∈ ss) as Hin by (intros s Hs; rewrite Hp; unfold ss1 in Hs; apply elem_of_take in Hs as (i & Hi & _); by eapply list_elem_of_lookup_2).
  exists (opt_hmap (drop_keys ss1 h)). split.
  - right. right. exists (drop_keys ss1 h), h'. split_and!; [by eapply without_subset|done..|].
    apply map_subseteq_spec. intros x t Hx. rewrite Hw in Hx. rewrite Hw1. case_decide as Hx1; [done|].
    rewrite decide_False; [done|]. intros Hx2. by apply Hx1, Hin.
  - rewrite <-fmap_take. apply hm_del_step; [done|done|by intros s Hs; apply Hss, Hin|done].
Qed.

(** The changes of a command, cut off anywhere. *)
Lemma cmd_part m c ch n :
  clean m → cmd_clean m c → ch ≡ₚ changes m c →
  ∃ o, part (m !! cmd_key c) (after m c !! cmd_key c) o ∧ vstep (cmd_key c) (m !! cmd_key c) o (take n ch).
Proof.
  intros Hm Hc Hch. pose proof (Hm (cmd_key c)) as Hv. destruct (cmd_vstep m c Hm Hc) as [Hstep _].
  assert ((length (changes m c) ≤ 1)%nat → ∃ o, part (m !! cmd_key c) (after m c !! cmd_key c) o ∧
    vstep (cmd_key c) (m !! cmd_key c) o (take n ch)) as Hshort.
  { intros Hl. rewrite <-(Permutation_length Hch) in Hl. apply part_short; [done|done|]. eapply vstep_perm; [|exact Hstep]. by symmetry. }
  destruct c as [key|key t|key|key t left|key i t|key idx|key idx|key sk|key k t|key sk|key];
    cbn [cmd_key cmd_clean] in *; try (apply Hshort; cbn; lia).
  - apply Hshort. unfold changes. cbn [spec]. unfold string_set_spec. destruct (m !! key) as [[]|]; simpl; lia.
  - apply Hshort. unfold changes. cbn [spec]. unfold list_push_spec. destruct (m !! key) as [[]|]; simpl; lia.
  - apply Hshort. unfold changes. cbn [spec]. unfold list_set_spec, list_push_spec, list_put.
    destruct (m !! key) as [[|l| |]|]; try (simpl; lia). destruct (at_index l i); [simpl; lia|]. destruct l; simpl; lia.
  - unfold changes, after in *. cbn [spec] in *. destruct (m !! key) as [[|l| |]|] eqn:Hk; cbn [list_pop_spec] in *;
      try (apply Hshort; cbn; lia).
    pose proof (pops_perm (Z.of_nat (length l)) idx 0 l) as Hp. destruct (pops _ _ _ l) as [p r]. cbn [fst snd] in *.
    rewrite write_lookup. destruct Hv as [_ Hq]. exact (part_list_del key l p r ch n Hc Hq Hp Hch).
  - apply Hshort. unfold changes. cbn [spec]. unfold hashmap_set_spec. destruct (m !! key) as [[]|]; simpl; lia.
  - unfold changes, after in *. cbn [spec] in *. destruct (m !! key) as [[| |h|]|] eqn:Hk; cbn [hashmap_remove_spec] in *;
      try (apply Hshort; cbn; lia).
    pose proof (removes_without key sk h) as Hr. destruct (removes key sk h) as [[h' x] ch0]. cbn [fst snd] in *.
    destruct Hr as (ss & -> & Hss & Hw & _ & _), Hv as [_ Hq]. rewrite write_lookup.
    exact (part_hm_del key h h' ss ch n Hc Hq Hss Hw Hch).
  - destruct Hc as [Hc Hset]. unfold changes, after in *. cbn [spec] in *. destruct (m !! key) as [v|] eqn:Hk; [|apply Hshort; cbn; lia].
    cbn [fst snd] in *. rewrite lookup_delete_eq in *. destruct v as [t|l|h|X]; cbn [delete_jobs] in *;
      [apply Hshort; cbn; lia| | |by destruct (Hset X)].
    + destruct Hv as [_ Hq]. apply (part_list_del key l l [] ch n Hc Hq); [by rewrite app_nil_r|done].
    + destruct Hv as [_ Hq]. change (None : option value) with (opt_hmap ∅). apply (part_hm_del key h ∅ (map_to_list h).*1 ch n Hc Hq).
      * intros s ([s' t] & -> & Hin%elem_of_map_to_list)%list_elem_of_fmap. by eexists.
      * intros x. rewrite lookup_empty. case_decide as Hx; [done|]. destruct (h !! x) as [t|] eqn:E; [|done].
        exfalso. apply Hx, list_elem_of_fmap. exists (x, t). split; [done|]. by apply elem_of_map_to_list.
      * by rewrite <-list_fmap_compose.
Qed.

(** Changes at one key, and the table. *)
Lemma disk_vstep m key o rows rows' ch :
  clean m → vstep key (m !! key) o ch → disk_holds m rows → jobs_rows ch rows rows' →
  disk_holds (write key o m) rows' ∧ clean (write key o m).
Proof.
  intros Hm [Hrows Hnew Hgood] Hr Hj.
  assert (Forall (λ j, j_key j = key) ch) as Hkeys by (eapply list.Forall_impl; [exact Hgood|]; by intros j []).
  destruct (jobs_rows_at ch rows rows' key Hkeys Hj) as [Hat Hsame]. split; intros k; destruct (decide (k = key)) as [->|Hne].
  - rewrite write_lookup. exact (Hrows _ _ ch (Hr _) ltac:(done) Hat).
  - by rewrite Hsame, write_other.
  - by rewrite write_lookup.
  - by rewrite write_other.
Qed.

(** ** Sequences, cut off anywhere *)

Lemma take_concat {A} (ls : list (list A)) n :
  (n ≤ length (concat ls))%nat →
  ∃ k i, take n (concat ls) = concat (take k ls) ++ take i (default [] (ls !! k)) ∧
    n = (length (concat (take k ls)) + i)%nat ∧ (i ≤ length (default [] (ls !! k)))%nat.
Proof.
  revert n. induction ls as [|l ls IH]; intros n Hn; simpl in Hn.
  - exists 0%nat, 0%nat. assert (n = 0%nat) as -> by lia. done.
  - destruct (decide (n ≤ length l)%nat) as [Hl|Hl].
    + exists 0%nat, n. simpl. by rewrite take_app_le.
    + rewrite length_app in Hn. destruct (IH (n - length l)%nat) as (k & i & E & H1 & H2); [lia|].
      exists (S k), i. simpl. rewrite take_app_ge by lia. rewrite E, <-app_assoc, length_app. split_and!; [done|lia|done].
Qed.

Lemma all_changes_take m cs k : all_changes m (take k cs) = take k (all_changes m cs).
Proof. revert m k. induction cs as [|c cs IH]; intros m [|k]; simpl; [done..|]. by rewrite IH. Qed.

Lemma all_changes_at m cs k : all_changes m cs !! k = changes (foldl after m (take k cs)) <$> cs !! k.
Proof. revert m k. induction cs as [|c cs IH]; intros m [|k]; simpl; [done..|]. apply IH. Qed.

Lemma after_take m cs k c : cs !! k = Some c → foldl after m (take (S k) cs) = after (foldl after m (take k cs)) c.
Proof. intros Hc. by rewrite (take_S_r _ _ _ Hc), foldl_snoc. Qed.

Lemma cmds_clean_take m cs k : cmds_clean m cs → cmds_clean m (take k cs).
Proof. revert m k. induction cs as [|c cs IH]; intros m [|k]; simpl; [done..|]. intros [? ?]. split; [done|by apply IH]. Qed.

Lemma cmds_clean_at m cs k c : cmds_clean m cs → cs !! k = Some c → cmd_clean (foldl after m (take k cs)) c.
Proof.
  revert m k. induction cs as [|c' cs IH]; intros m [|k]; simpl; [done..| |].
  - by intros [? _] [= <-].
  - intros [_ ?] ?. by apply IH.
Qed.

Lemma Forall2_concat_take (chs chs' : list (list job)) k :
  Forall2 Permutation chs chs' → length (concat (take k chs)) = length (concat (take k chs')).
Proof.
  intros H. revert k. induction H as [|ch ch' chs chs' Hp _ IH]; intros [|k]; simpl; [done..|].
  by rewrite !length_app, IH, (Permutation_length Hp).
Qed.

Lemma cut_rows `{HT : SqliteTable DB} {HL : SqliteTableLaws DB} m cs chs (d : disk DB) n :
  clean m → cmds_clean m cs → disk_holds m (disk_rows d) → Forall2 Permutation chs (all_changes m cs) →
  (n ≤ length (concat chs))%nat →
  ∃ k m1, between (foldl after m (take k cs)) (foldl after m (take (S k) cs)) m1 ∧ clean m1 ∧
    disk_holds m1 (disk_rows (foldl (apply_job sq_exec) d (take n (concat chs)))) ∧
    (length (concat (take k (all_changes m cs))) ≤ n ≤ length (concat (take (S k) (all_changes m cs))))%nat.
Proof.
  intros Hm Hcs Hd Hp Hn. destruct (take_concat chs n Hn) as (k & i & E & Hni & Hi).
  destruct (changes_good m cs chs Hm Hcs Hp) as [_ Hq]. rewrite E.
  assert (Forall2 Permutation (take k chs) (all_changes m (take k cs))) as Hpk
    by (rewrite all_changes_take; by apply Forall2_take).
  assert (Forall job_quote_free (concat (take k chs) ++ take i (default [] (chs !! k)))) as Hqk
    by (rewrite <-E; by apply Forall_take).
  pose proof (foldl_rows d _ Hqk) as Hj. apply jobs_rows_app in Hj as (rows1 & Hj1 & Hj2).
  destruct (disk_steps m (take k cs) _ _ _ Hm (cmds_clean_take m cs k Hcs) Hd Hpk Hj1) as [Hd1 Hm1].
  set (mk := foldl after m (take k cs)) in *.
  pose proof (all_changes_at m cs k) as Hat. pose proof (Forall2_concat_take _ _ k Hp) as Hl.
  destruct (cs !! k) as [c|] eqn:Hc; cbn [fmap option_fmap option_map] in Hat.
  - destruct (Forall2_lookup_r _ _ _ _ _ Hp Hat) as (ch & Hch & Hpc). rewrite Hch in *. cbn [default] in *. change (id ch) with ch in *.
    pose proof (cmds_clean_at m cs k c Hcs Hc) as Hcc.
    destruct (cmd_part mk c ch i Hm1 Hcc Hpc) as (o & Hpart & Hstep).
    destruct (disk_vstep mk (cmd_key c) o _ _ _ Hm1 Hstep Hd1 Hj2) as [Hd2 Hm2].
    exists k, (write (cmd_key c) o mk). rewrite (after_take m cs k c Hc). split_and!; [|done|done|lia|].
    + intros key. destruct (decide (key = cmd_key c)) as [->|Hne]; [by rewrite write_lookup|].
      rewrite write_other by done. by left.
    + rewrite (take_S_r _ _ _ Hat), concat_app, length_app, <-Hl. cbn [concat]. rewrite app_nil_r, <-(Permutation_length Hpc). lia.
  - assert (chs !! k = None) as Hch.
    { destruct (chs !! k) eqn:E'; [|done]. destruct (Forall2_lookup_l _ _ _ _ _ Hp E') as (? & ? & _). congruence. }
    rewrite Hch in *. cbn [default] in *. rewrite take_nil in *. apply jobs_rows_nil in Hj2. exists k, mk. rewrite <-Hj2 in Hd1. split_and!; [|done|done|lia|].
    + unfold mk. rewrite !firstn_all2 by (apply lookup_ge_None_1 in Hc; lia). intros key. by left.
    + apply lookup_ge_None_1 in Hat. rewrite (firstn_all2 (n := S k)) by lia.
      rewrite (firstn_all2 (all_changes m cs)) in Hl by done. simpl in Hi. lia.
Qed.

(** ** Restarts *)

Section Threads.
Context {D T I : Type} `{KV : KVStore D} {KL : KVStoreLaws D} `{KI : KeyIndex T I} {IL : KeyIndexLaws T I}.
Context (malloc : D → loc) (coin : loc → nat → bool) (junk lvl : Z).
Context (Hlvl : 0 ≤ lvl < 3) (Hmalloc : ∀ d, kv_fresh d (malloc d)).

Definition good_at (o : option value) : Prop := ∀ v, o = Some v → value_good (T := T) v.

Lemma part_good old new o : part old new o → good_at old → good_at new → good_at o.
Proof.
  intros [->|[->|Hp]] Ho Hn; [done..|]. destruct old as [[t|l|h|X]|]; try done; specialize (Ho _ eq_refl); cbn [value_good] in Ho.
  - destruct Hp as (p & r & r' & Hl & -> & _). rewrite Hl in Ho. apply list.Forall_app in Ho as [_ Hr].
    destruct r; [done|]. by intros v [= <-].
  - destruct Hp as (h1 & h2 & Hsub & -> & _). unfold opt_hmap. case_decide; [done|]. intros v [= <-] s t Hs.
    destruct (Ho s t) as [Hg Hn0]; [by eapply lookup_weaken|]. split; [|done]. eapply ki_good_mono; [|exact Hg]. by apply subseteq_dom.
Qed.

Lemma cmds_ok_take fuel m cs k : cmds_ok (T := T) fuel m cs → cmds_ok (T := T) fuel m (take k cs).
Proof. revert m k. induction cs as [|c cs IH]; intros m [|k]; simpl; [done..|]. intros [? ?]. split; [done|by apply IH]. Qed.

(** The maps the engine goes through. *)
Lemma prefix_good fuel (s : engine D T) m cs k key :
  eng_ok s m [] → cmds_ok (T := T) fuel m cs → good_at (foldl after m (take k cs) !! key).
Proof.
  intros Hok Hcs v Hv. destruct (exec_all_run malloc coin junk lvl fuel Hlvl Hmalloc s m [] (take k cs) Hok) as (s' & chs & _ & _ & Hok');
    [by apply cmds_ok_take|]. by eapply eng_ok_good.
Qed.

Context `{HT : SqliteTable DB} {HL : SqliteTableLaws DB} (fuel : nat) (name : region) (brk : loc).
Context (s0 : engine D T) (m0 : vmap) (d : disk DB) (cs : list cmd).
Context (Hs0 : eng_ok s0 m0 []) (Hclean0 : clean m0) (Hdisk0 : disk_holds m0 (disk_rows d)).
Context (Hok : cmds_ok (T := T) fuel m0 cs) (Hclean : cmds_clean m0 cs).

Lemma calls_run :
  ∃ s1 chs, exec_all malloc coin junk lvl fuel cs s0 = Done (s1, replies m0 cs) ∧
    eng_ok s1 (foldl after m0 cs) (concat chs) ∧ Forall2 Permutation chs (all_changes m0 cs).
Proof.
  destruct (exec_all_run malloc coin junk lvl fuel Hlvl Hmalloc s0 m0 [] cs Hs0 Hok) as (s1 & chs & E & Hp & Hs1).
  by exists s1, chs.
Qed.

(** A table cut off anywhere is loaded. *)
Lemma cut_loads chs n :
  Forall2 Permutation chs (all_changes m0 cs) → (n ≤ length (concat chs))%nat →
  let rows := disk_rows (foldl (apply_job sq_exec) d (take n (concat chs))) in
  Z.of_nat (length rows) < 2 ^ 30 →
  ∃ k m1 s2 m2, between (foldl after m0 (take k cs)) (foldl after m0 (take (S k) cs)) m1 ∧
    (length (concat (take k (all_changes m0 cs))) ≤ n ≤ length (concat (take (S k) (all_changes m0 cs))))%nat ∧
    xfiredb_load_rows malloc coin junk rows (empty_engine name brk) = Done (s2, ()) ∧ eng_ok s2 m2 [] ∧ same_map m1 m2.
Proof.
  intros Hp Hn rows Hrows. destruct (cut_rows m0 cs chs d n Hclean0 Hclean Hdisk0 Hp Hn) as (k & m1 & Hb & Hm1 & Hd1 & Hk).
  destruct (load_restores malloc coin junk name brk m1 rows Hmalloc Hd1 Hm1) as (s2 & m2 & E & Hs2 & Hsame); [|done|].
  - intros key v Hv. eapply part_good; [apply Hb|by eapply prefix_good..|exact Hv].
  - by exists k, m1, s2, m2.
Qed.
End Threads.

Section Restarts.
Context {D T I : Type} `{KV : KVStore D} {KL : KVStoreLaws D} `{KI : KeyIndex T I} {IL : KeyIndexLaws T I}.
Context (malloc : D → loc) (coin : loc → nat → bool) (junk lvl : Z).
Context (Hlvl : 0 ≤ lvl < 3) (Hmalloc : ∀ d, kv_fresh d (malloc d)).

(** C2: a restart brings the data back, whatever the interleaving.  Take an engine that
    keeps its changes on disk (a level below 3), whose map the table holds, with nothing
    empty and no quote in it, and calls that meet the conditions of C1 ([cmds_ok]: texts
    are C strings, there are positions and they are [int]s, keys of a hash map do not
    collide, no container outgrows an [int] or the fuel, a list that is deleted with its
    key has one entry at most, fewer than 2^30 keys) and that the queue covers
    ([cmds_clean]: no quote in a key or text, no set is deleted, no entry is set past
    the end of a list).  The calls run without a fault, with the replies of the map, and
    queue changes.  In every run of the engine's and the worker's threads in which
    exactly these were queued and the shutdown has returned, loading the rows of the
    table into an empty engine gives the map after all calls, up to the order of the
    entries of lists; there are fewer than 2^63 changes and 2^30 rows. *)
Theorem exit_restores `{HT : SqliteTable DB} {HL : SqliteTableLaws DB} (fuel : nat) name brk (s0 : engine D T) m0 (d : disk DB) cs :
  eng_ok s0 m0 [] → clean m0 → disk_holds m0 (disk_rows d) → cmds_ok (T := T) fuel m0 cs → cmds_clean m0 cs →
  ∃ s1 chs, exec_all malloc coin junk lvl fuel cs s0 = Done (s1, replies m0 cs) ∧
    eng_ok s1 (foldl after m0 cs) (concat chs) ∧ Forall2 Permutation chs (all_changes m0 cs) ∧
    ∀ y, rtc (step sq_exec lvl) (sys_init d) y → y_engine y = EJoined → y_added y = concat chs →
      Z.of_nat (length (concat chs)) < 2 ^ 63 → Z.of_nat (length (disk_rows (y_disk y))) < 2 ^ 30 →
      ∃ s2 m2, xfiredb_load_rows malloc coin junk (disk_rows (y_disk y)) (empty_engine name brk) = Done (s2, ()) ∧
        eng_ok s2 m2 [] ∧ same_map (foldl after m0 cs) m2.
Proof.
  intros Hs0 Hm0 Hd0 Hok Hclean.
  destruct (calls_run malloc coin junk lvl Hlvl Hmalloc fuel s0 m0 cs Hs0 Hok) as (s1 & chs & E & Hs1 & Hp).
  exists s1, chs. do 3 (split; [done|]). intros y Hr He Ha Hb Hrows.
  rewrite (joined_disk sq_exec lvl Hlvl d y Hr He), Ha in * by (by rewrite Ha).
  destruct (changes_good m0 cs chs Hm0 Hclean Hp) as [_ Hq].
  destruct (disk_steps m0 cs _ _ chs Hm0 Hclean Hd0 Hp (foldl_rows d _ Hq)) as [Hdisk Hcl].
  apply (load_restores malloc coin junk name brk _ _ Hmalloc Hdisk Hcl); [|done].
  intros key v Hv. by eapply eng_ok_good.
Qed.

(** C6: a crash loses the changes that were not written, and nothing else.  The engine, the
    table and the calls are as in C2 ([cmds_ok] and [cmds_clean]: among other things no
    list of two entries or more and no set is deleted with its key, no entry is set past
    the end of a list, and no key or text has a quote).  In every state the two threads
    reach while the calls run, at whatever change, loading the rows of the table, fewer
    than 2^30, gives the map as it was after the first [k] calls, or on the way to the
    next one: some of what that call takes away may still be there.  All changes of the
    [k] calls are among the [n] written ones, and the others are in the queue, but for
    at most one that the worker holds. *)
Theorem crash_restores `{HT : SqliteTable DB} {HL : SqliteTableLaws DB} (fuel : nat) name brk (s0 : engine D T) m0 (d : disk DB) cs :
  eng_ok s0 m0 [] → clean m0 → disk_holds m0 (disk_rows d) → cmds_ok (T := T) fuel m0 cs → cmds_clean m0 cs →
  ∃ s1 chs, exec_all malloc coin junk lvl fuel cs s0 = Done (s1, replies m0 cs) ∧
    eng_ok s1 (foldl after m0 cs) (concat chs) ∧ Forall2 Permutation chs (all_changes m0 cs) ∧
    ∀ y, rtc (step sq_exec lvl) (sys_init d) y → y_added y `prefix_of` concat chs →
      Z.of_nat (length (disk_rows (y_disk y))) < 2 ^ 30 →
      ∃ n k m1 s2 m2, between (foldl after m0 (take k cs)) (foldl after m0 (take (S k) cs)) m1 ∧
        xfiredb_load_rows malloc coin junk (disk_rows (y_disk y)) (empty_engine name brk) = Done (s2, ()) ∧
        eng_ok s2 m2 [] ∧ same_map m1 m2 ∧
        (length (concat (take k (all_changes m0 cs))) ≤ n ≤ length (concat (take (S k) (all_changes m0 cs))))%nat ∧
        bio_size (y_bio y) = s64 (Z.of_nat (length (y_added y)) - Z.of_nat n - in_flight (y_worker y)).
Proof.
  intros Hs0 Hm0 Hd0 Hok Hclean.
  destruct (calls_run malloc coin junk lvl Hlvl Hmalloc fuel s0 m0 cs Hs0 Hok) as (s1 & chs & E & Hs1 & Hp).
  exists s1, chs. do 3 (split; [done|]). intros y Hr [rest Ha] Hrows.
  destruct (written_prefix sq_exec lvl Hlvl d y Hr) as (n & Hn & Hdisk & Hsize).
  assert (take n (y_added y) = take n (concat chs)) as Htake by (by rewrite Ha, take_app_le).
  rewrite Hdisk, Htake in *.
  destruct (cut_loads malloc coin junk lvl Hlvl Hmalloc fuel name brk s0 m0 d cs Hs0 Hm0 Hd0 Hok Hclean chs n Hp)
    as (k & m1 & s2 & m2 & Hb & Hk & E2 & Hs2 & Hsame); [rewrite Ha, length_app; lia|done|].
  by exists n, k, m1, s2, m2.
Qed.
End Restarts.
