(* ===== verification/EngineTheorems.v ===== *)
(** * The engine: what it promises

    The theorems on [xfiredb.c]: the operations refine a map of values, what they
    queue keeps the table equal to the map, and a restart brings the map back; and
    the operations that do not keep this. *)
From Stdlib Require Import Sorting.Sorted.
From S2P Require Import Prelude Chain Atomic Mem Dict CList CString Skiplist KeyIndex SetMap Database Disk MiniSql DiskSpec Bio BioSpec Container ContainerSpec Engine EngineSpec EngineStrings EngineLists EngineIndex EngineMaps EngineKeys EngineRun EnginePersist EngineLoad.
Local Open Scope Z_scope.

Section Theorems.
Context {D T I : Type} `{KV : KVStore D} {KL : KVStoreLaws D} `{KI : KeyIndex T I} {IL : KeyIndexLaws T I}.
Context (malloc : D → loc) (coin : loc → nat → bool) (junk lvl : Z).
Context (Hlvl : 0 ≤ lvl < 3) (Hmalloc : ∀ d, kv_fresh d (malloc d)).

(** C1: the engine behaves as a map from keys to strings, lists and hash maps.  From
    any state that represents a map, any sequence of commands on strings, lists, hash
    maps and whole keys, whose arguments are as a caller must see to, runs without a
    fault, returns the codes and texts that [spec] gives for the map, leaves a state
    that represents the map that [spec] gives, and queues for the disk, after what was
    queued already, the changes that [spec] gives for each command. *)
Theorem engine_refines_map (fuel : nat) (s : engine D T) m js cs :
  eng_ok s m js → cmds_ok (T := T) fuel m cs →
  ∃ s' chs, exec_all malloc coin junk lvl fuel cs s = Done (s', replies m cs) ∧
    eng_ok s' (foldl after m cs) (js ++ concat chs) ∧ Forall2 Permutation chs (all_changes m cs).
Proof.
  intros Hok Hcs. destruct (exec_all_run malloc coin junk lvl fuel Hlvl Hmalloc s m js cs Hok Hcs) as (s' & chs & E & Hp & Hok').
  by exists s', chs.
Qed.

(** A restart brings the data back.  Any such sequence of commands on an empty
    engine, with keys and texts without quotes and no setting of an entry past the end
    of a list, is followed by a run of the worker on an empty table, which ends; loading
    the rows of the table into an empty engine gives a state that represents the same
    map, up to the order of the entries of lists. *)
Lemma restart_restores `{HT : SqliteTable DB} {HL : SqliteTableLaws DB} (fuel : nat) name brk cs (d : disk DB) :
  cmds_ok (T := T) fuel ∅ cs → cmds_clean ∅ cs → disk_rows d = [] →
  ∃ s1 d' b' fuel', exec_all malloc coin junk lvl fuel cs (empty_engine name brk) = Done (s1, replies ∅ cs) ∧
    bio_worker sq_exec fuel' d (g_bio s1) = Done (d', b') ∧
    (Z.of_nat (length (disk_rows d')) < 2 ^ 30 →
     ∃ s2 m', xfiredb_load_rows malloc coin junk (disk_rows d') (empty_engine name brk) = Done (s2, ()) ∧
       eng_ok s2 m' [] ∧ same_map (foldl after ∅ cs) m').
Proof.
  intros Hok Hclean Hd.
  destruct (exec_all_run malloc coin junk lvl fuel Hlvl Hmalloc _ ∅ [] cs (empty_engine_ok name brk) Hok) as (s1 & chs & E1 & Hp & Hs1).
  assert (clean ∅) as Hc0 by (intros k; by rewrite lookup_empty).
  destruct (changes_good ∅ cs chs Hc0 Hclean Hp) as [Hj Hq].
  pose proof Hs1 as (dm & [_ (es & Hbio & _) _ _]). cbn [app] in Hbio.
  destruct (bio_worker_run sq_exec d (g_bio s1) es _ _ Hbio Hj (Nat.lt_succ_diag_r _)) as (b' & Hw & _).
  eexists s1, _, b', _. split; [done|]. split; [exact Hw|]. intros Hlen.
  destruct (disk_steps ∅ cs (disk_rows d) (disk_rows (foldl (apply_job sq_exec) d (concat chs))) chs Hc0 Hclean) as [Hdisk Hcl];
    [intros k; by rewrite Hd, lookup_empty|done|by apply foldl_rows|].
  apply (load_restores malloc coin junk name brk _ _ Hmalloc Hdisk Hcl); [|done]. intros key v Hv. by eapply eng_ok_good.
Qed.

(** ** Positions and keys *)

(** [xfiredb_list_get] hands out exactly the entries at the given positions.  For
    an array of positions, negative ones counted from the end, that are ascending and
    not before the start of the list, it returns [-XFIREDB_OK] and the entries at these
    positions, in order, without those past the end; nothing else changes. *)
Lemma list_get_positions (fuel : nat) (s : engine D T) m js key l idx :
  eng_ok s m js → m !! key = Some (VList l) → Z.of_nat (length l) < 2 ^ 31 → (length l < fuel)%nat →
  idx ≠ [] → Forall is_int idx → Forall (λ v, - Z.of_nat (length l) ≤ v) idx →
  ascending 0 (wrap (Z.of_nat (length l)) <$> idx) →
  ∃ s', xfiredb_list_get fuel key idx (Z.of_nat (length idx)) s =
      Done (s', (- XFIREDB_OK, entries_at (wrap (Z.of_nat (length l)) <$> idx) l)) ∧ eng_ok s' m js.
Proof.
  intros Hok Hm Hmax Hfuel Hne Hint Hlow Hasc.
  destruct (list_get_run s m js key idx fuel Hok Hint Hne) as (s' & E & Hok'); [by rewrite Hm; intros ? [= <-]|].
  exists s'. split; [|done]. by rewrite E, Hm, picks_ascending, omap_zero by done.
Qed.

(** C12: [xfiredb_list_pop] takes exactly the entries at the given positions out of a
    list, for ascending positions that are not negative: it returns how many they are,
    keeps the other entries in their order, queues the deletion of each entry that
    went, in order, and removes the key with its container when no entry is left. *)
Theorem list_pop_positions (fuel : nat) (s : engine D T) m js key l idx :
  eng_ok s m js → m !! key = Some (VList l) → Z.of_nat (length l) < 2 ^ 31 → (length l < fuel)%nat →
  idx ≠ [] → Forall is_int idx → ascending 0 idx →
  ∃ s', xfiredb_list_pop lvl fuel key idx (Z.of_nat (length idx)) s =
      Done (s', Z.of_nat (length (entries_at idx l))) ∧
    eng_ok s' (write key (opt_list (others idx 0 l)) m) (js ++ (del_job key <$> entries_at idx l)).
Proof.
  intros Hok Hm Hmax Hfuel Hne Hint Hasc.
  pose proof (list_pop_run lvl Hlvl s m js key idx fuel Hok Hint Hne) as Hp. rewrite Hm in Hp. cbn [list_pop_spec] in Hp.
  rewrite pops_ascending, omap_zero in Hp by done. apply Hp. by intros ? [= <-].
Qed.

(** [xfiredb_hashmap_remove] removes exactly the given keys: the other keys keep
    their texts, the number of keys that went is returned, and the database key goes
    with its container when the map is empty. *)
Lemma hashmap_remove_keys (s : engine D T) m js key h skeys :
  eng_ok s m js → m !! key = Some (VHashmap h) → good_keys (T := T) (m !! key) skeys → Z.of_nat (size h) < 2 ^ 31 →
  ∃ s' h' ch, xfiredb_hashmap_remove lvl key skeys s = Done (s', Z.of_nat (size h) - Z.of_nat (size h')) ∧
    without skeys h h' ∧ eng_ok s' (write key (opt_hmap h') m) (js ++ ch).
Proof.
  intros Hok Hm Hg Hsz.
  pose proof (engine_hashmap_remove_run malloc lvl Hlvl Hmalloc s m js key skeys Hok Hg) as Hr. rewrite Hm in Hr. cbn [hashmap_remove_spec] in Hr.
  pose proof (removes_without key skeys h) as Hw. pose proof (removes_count key skeys h) as Hn.
  destruct (removes key skeys h) as [[h' n] ch]. destruct Hr as (s' & E & Hok'); [by intros ? [= <-]|].
  destruct Hw as (ss & _ & _ & Hw & _ & Hss). exists s', h', ch. cbn [fst snd] in Hn. split; [by rewrite E, Hn|]. split; [|done].
  intros x. rewrite Hw. destruct (decide (x ∈ ss)) as [Hx|Hx]; rewrite Hss in Hx.
  - by rewrite decide_True by apply Hx.
  - destruct (decide (x ∈ skeys)); [|done]. destruct (h !! x) eqn:E'; [|done]. exfalso. apply Hx. split; [done|by eexists].
Qed.

(** ** Where an operation does not keep its promise *)

(** C24: [xfiredb_list_clear] leaves a dangling container.  It hands every entry to the
    hook, in order, and returns [-XFIREDB_OK], but the key stays in the database with
    the container that was released: the next operation on the key faults. *)
Theorem list_clear_dangles (fuel : nat) (s : engine D T) m js key l data left :
  eng_ok s m js → m !! key = Some (VList l) → (length l < fuel)%nat →
  ∃ s', xfiredb_list_clear lvl fuel key s = Done (s', (- XFIREDB_OK, l)) ∧
    xfiredb_list_length key s' = Stuck ∧ xfiredb_list_push malloc lvl key data left s' = Stuck ∧
    xfiredb_string_get key s' = Stuck.
Proof.
  intros Hok Hm Hfuel. destruct (list_clear_run lvl Hlvl s m js key l fuel Hok Hm Hfuel) as (s' & E & Hd).
  exists s'. split; [done|]. by apply dangling_stuck.
Qed.

(** Two operations report one thing and do another.  [xfiredb_key_delete] of a set
    takes the key out of the database but returns [-XFIREDB_ERR] and queues no change, so
    that the rows of the set stay on disk; [xfiredb_list_set] past the end of a list
    appends the text and returns [-XFIREDB_OK] but queues no change, so that the text is
    lost with the process. *)
Lemma unqueued_changes (fuel : nat) (s : engine D T) m js key :
  eng_ok s m js → Z.of_nat (size m) < 2 ^ 30 →
  (∀ X, m !! key = Some (VSet X) →
     ∃ s', xfiredb_key_delete lvl fuel key s = Done (s', - XFIREDB_ERR) ∧ eng_ok s' (delete key m) js) ∧
  (∀ l idx data, m !! key = Some (VList l) → l ≠ [] → at_index l idx = None → nul_free data →
     Z.of_nat (length l) < 2 ^ 31 → (length l ≤ fuel)%nat →
     ∃ s', xfiredb_list_set malloc junk lvl fuel key idx data s = Done (s', - XFIREDB_OK) ∧
       eng_ok s' (<[key := VList (l ++ [data])]> m) js).
Proof.
  intros Hok Hsz. split.
  - intros X Hm. destruct (key_delete_run lvl Hlvl s m js key fuel Hok) as (s' & ch & E & Hp & Hok'); [by rewrite Hm; intros ? [= <-]|].
    rewrite Hm in E, Hp. exists s'. split; [done|]. apply Permutation_nil_r in Hp as ->. by rewrite app_nil_r in Hok'.
  - intros l idx data Hm Hne Hat Hn Hmax Hfuel.
    pose proof (list_set_run malloc junk lvl Hlvl Hmalloc s m js key idx data fuel Hok Hsz Hn) as Hs. rewrite Hm in Hs.
    cbn [list_set_spec] in Hs. unfold list_put in Hs. rewrite Hat in Hs. destruct l as [|t l]; [done|].
    rewrite app_nil_r in Hs. apply Hs. by intros ? [= <-].
Qed.

(** Positions are not checked.  With no position at all, [xfiredb_list_get] on a
    list that is not empty reads the array out of its bounds; a position before the
    start of the list is wrapped more than once, so that position -5 of a list of three
    entries is the second entry. *)
Lemma list_get_bad_positions (fuel : nat) (s : engine D T) m js key a b c :
  eng_ok s m js → m !! key = Some (VList [a; b; c]) → (3 < fuel)%nat →
  xfiredb_list_get fuel key [] 0 s = Stuck ∧
  ∃ s', xfiredb_list_get fuel key [-5] 1 s = Done (s', (- XFIREDB_OK, [b])).
Proof.
  intros Hok Hm Hfuel. split; cycle 1.
  { destruct (list_get_run s m js key [-5] fuel Hok) as (s' & E & _);
      [repeat constructor; unfold is_int; lia|done|by rewrite Hm; intros ? [= <-]; simpl; split; lia|].
    exists s'. by rewrite Hm in E. }
  destruct Hok as (dm & Hr). unfold xfiredb_list_get. destruct (lookup_run s dm m js ∅ key Hr) as (s1 & _ & Hr1 & Hk). rewrite Hm in Hk.
  destruct Hk as (ptr & ct & Hl & Hat). run Hl. cond. run (get_run _ _ _ _ _ (cont_at_loc _ _ _ _ _ _ Hat)).
  pose proof (ca_rep _ _ _ _ _ _ Hat) as Hv. rewrite (check_type_rep _ _ _ _ Hv). destruct ct as [|lh h ns| |]; try done. cond. ret.
  destruct Hv as (es & Hes). pose proof (list_at_lengths _ _ _ _ _ _ Hes) as Hls. calc (list_first _ _ _ (la_ok _ _ _ _ _ _ Hes)).
  destruct es as [|e es]; [done|]. destruct fuel as [|fuel]; [lia|]. cbn [list_get_loop first_or head default]. change (id e) with e.
  unfold mbind, stm_bind, lift. rewrite decide_False by (by eapply (list_at_not_head _ _ _ _ [])). done.
Qed.
End Theorems.
