(* ===== verification/EngineWitness.v ===== *)
(** * The engine on the dictionary and the skip list

    Runs of the engine's operations over the program's own containers, at which the
    theorems of [EngineTheorems] apply. *)
From Stdlib Require Import Sorting.Sorted.
From S2P Require Import Prelude Chain Atomic Mem Murmur Dict CList CString Skiplist SkiplistSpec SkiplistRuns KeyIndex SetMap Database Disk MiniSql DiskSpec Bio BioSpec Worker Container ContainerSpec Engine EngineSpec EngineStrings EngineLists EngineIndex EngineMaps EngineKeys EngineRun EnginePersist EngineLoad EngineStore EngineThreads EngineTheorems.
Local Open Scope Z_scope.

#[local] Instance store : KVStore dict := dict_store (λ _, 0) dict_globals_init.
#[local] Instance store_laws : KVStoreLaws dict := dict_store_laws (λ _, 0) dict_globals_init.

Abbreviation keys_t := (sheap * skiplist)%type.
Definition coins : loc → nat → bool := λ n i, Z.testbit n (Z.of_nat i).
Definition no_entries : engine dict keys_t := empty_engine (cstr_region "xfiredb") 1.

(** A condition on keys that can be evaluated. *)
Definition good_key (X : gset string) (key : string) : bool :=
  (key_hash key <? SKIPLIST_MAX_SIZE) &&
  forallb (λ k, negb (key_hash k =? key_hash key) || bool_decide (k = key)) (elements X).

Lemma good_key_ok X key : good_key X key = true → ki_good (T := keys_t) X key.
Proof.
  intros [H1 H2]%andb_true_iff. split; [by apply Z.ltb_lt|]. intros k Hk Hh. rewrite forallb_forall in H2.
  specialize (H2 k). rewrite Hh, Z.eqb_refl in H2. apply (bool_decide_eq_true_1 (k = key)), H2.
  by apply list_elem_of_In, elem_of_elements.
Qed.

Lemma good_keys_ok old keys : forallb (good_key (map_keys old)) keys = true → good_keys (T := keys_t) old keys.
Proof.
  intros H. unfold good_keys. apply list.Forall_forall. intros k Hk. apply good_key_ok. rewrite forallb_forall in H.
  by apply H, list_elem_of_In.
Qed.

Lemma nul_free_ok t : forallb (λ b, negb (b =? 0)) (bytes t) = true → nul_free t.
Proof.
  intros H. apply list.Forall_forall. intros b Hb ->. rewrite forallb_forall in H.
  by specialize (H 0 ltac:(by apply list_elem_of_In)).
Qed.
Lemma quote_free_ok t : forallb (λ b, negb (b =? 39)) (bytes t) = true → quote_free t.
Proof.
  intros H. apply list.Forall_forall. intros b Hb ->. rewrite forallb_forall in H.
  by specialize (H 39 ltac:(by apply list_elem_of_In)).
Qed.

(** The conditions on a command, evaluated. *)
Definition list_boundb (fuel : nat) (old : option value) : bool :=
  match old with
  | Some (VList l) => (Z.of_nat (length l) <? 2 ^ 31) && (length l <? fuel)%nat
  | _ => true
  end.
Definition map_boundb (old : option value) : bool :=
  match old with Some (VHashmap h) => Z.of_nat (size h) <? 2 ^ 31 | _ => true end.
Definition nul_freeb (t : string) : bool := forallb (λ b, negb (b =? 0)) (bytes t).
Definition quote_freeb (t : string) : bool := forallb (λ b, negb (b =? 39)) (bytes t).
Definition good_keysb (old : option value) (keys : list string) : bool := forallb (good_key (map_keys old)) keys.
Definition idx_okb (idx : list Z) : bool :=
  forallb (λ v, (- 2 ^ 31 <=? v) && (v <? 2 ^ 31)) idx && negb (bool_decide (idx = [])).
Definition deletableb (fuel : nat) (old : option value) : bool :=
  match old with
  | Some (VList l) => (length l <=? 1)%nat && (length l <? fuel)%nat
  | Some (VHashmap h) => (size h <? fuel)%nat && (Z.of_nat (size h) <? 2 ^ 31)
  | _ => true
  end.

Definition cmd_okb (fuel : nat) (m : vmap) (c : cmd) : bool :=
  (Z.of_nat (size m) <? 2 ^ 30) &&
  match c with
  | StringGet _ => true
  | StringSet _ t | ListPush _ t _ => nul_freeb t
  | ListLength key => list_boundb fuel (m !! key)
  | ListSet key _ t => nul_freeb t && list_boundb fuel (m !! key)
  | ListGet key idx | ListPop key idx => idx_okb idx && list_boundb fuel (m !! key)
  | HashmapGet key skeys => good_keysb (m !! key) skeys
  | HashmapSet key s t => good_keysb (m !! key) [s] && nul_freeb t
  | HashmapRemove key skeys => good_keysb (m !! key) skeys && map_boundb (m !! key)
  | KeyDelete key => deletableb fuel (m !! key)
  end.
Fixpoint cmds_okb (fuel : nat) (m : vmap) (cs : list cmd) : bool :=
  match cs with [] => true | c :: cs => cmd_okb fuel m c && cmds_okb fuel (after m c) cs end.

Lemma list_boundb_ok fuel old : list_boundb fuel old = true → list_bound fuel old.
Proof. intros H l ->. apply andb_true_iff in H as [?%Z.ltb_lt ?%Nat.ltb_lt]. done. Qed.
Lemma map_boundb_ok old : map_boundb old = true → map_bound old.
Proof. intros H h ->. by apply Z.ltb_lt. Qed.
Lemma idx_okb_ok idx : idx_okb idx = true → Forall is_int idx ∧ idx ≠ [].
Proof.
  intros [H1 H2]%andb_true_iff. split; [|by intros ->]. apply list.Forall_forall. intros v Hv. rewrite forallb_forall in H1.
  specialize (H1 v ltac:(by apply list_elem_of_In)). apply andb_true_iff in H1 as [?%Z.leb_le ?%Z.ltb_lt]. done.
Qed.
Lemma deletableb_ok fuel old : deletableb fuel old = true → ∀ v, old = Some v → deletable fuel v.
Proof.
  intros H v ->. destruct v; cbn in *; try done; apply andb_true_iff in H as [H1 H2].
  - by apply Nat.leb_le in H1; apply Nat.ltb_lt in H2.
  - by apply Nat.ltb_lt in H1; apply Z.ltb_lt in H2.
Qed.

Lemma cmd_okb_ok fuel m c : cmd_okb fuel m c = true → cmd_ok (T := keys_t) fuel m c.
Proof.
  intros [?%Z.ltb_lt H]%andb_true_iff. split; [done|].
  destruct c; try apply andb_true_iff in H as [H H']; try done;
    repeat match goal with
    | H : idx_okb _ = true |- _ => apply idx_okb_ok in H as [? ?]
    | H : list_boundb _ _ = true |- _ => apply list_boundb_ok in H
    | H : map_boundb _ = true |- _ => apply map_boundb_ok in H
    | H : nul_freeb _ = true |- _ => apply nul_free_ok in H
    | H : good_keysb _ _ = true |- _ => apply good_keys_ok in H
    | H : deletableb _ _ = true |- _ => pose proof (deletableb_ok _ _ H); clear H
    end; try done.
Qed.

Lemma cmds_okb_ok fuel m cs : cmds_okb fuel m cs = true → cmds_ok (T := keys_t) fuel m cs.
Proof.
  revert m. induction cs as [|c cs IH]; intros m H; [done|]. apply andb_true_iff in H as [H1 H2].
  split; [by apply cmd_okb_ok|by apply IH].
Qed.

Fixpoint ascendingb (i : Z) (vs : list Z) : bool :=
  match vs with [] => true | v :: vs => (i <=? v) && ascendingb (v + 1) vs end.
Lemma ascendingb_ok i vs : ascendingb i vs = true → ascending i vs.
Proof.
  revert i. induction vs as [|v vs IH]; intros i H; [split; constructor|]. apply andb_true_iff in H as [Hv%Z.leb_le [Hs Hf]%IH].
  split; [constructor; [done|]|constructor; [done|]]; (eapply list.Forall_impl; [exact Hf|]; simpl; lia).
Qed.
Lemma above_ok b vs : forallb (Z.leb b) vs = true → Forall (λ v, b ≤ v) vs.
Proof. intros H. apply list.Forall_forall. intros v Hv. rewrite forallb_forall in H. by apply Z.leb_le, H, list_elem_of_In. Qed.

Definition cmd_cleanb (m : vmap) (c : cmd) : bool :=
  match c with
  | StringSet key t | ListPush key t _ => quote_freeb key && quote_freeb t
  | ListSet key i t =>
      quote_freeb key && quote_freeb t &&
      match m !! key with Some (VList l) => bool_decide (is_Some (at_index l i)) | _ => true end
  | ListPop key _ | HashmapRemove key _ => quote_freeb key
  | KeyDelete key => quote_freeb key && match m !! key with Some (VSet _) => false | _ => true end
  | HashmapSet key s t => quote_freeb key && quote_freeb s && quote_freeb t
  | _ => true
  end.
Fixpoint cmds_cleanb (m : vmap) (cs : list cmd) : bool :=
  match cs with [] => true | c :: cs => cmd_cleanb m c && cmds_cleanb (after m c) cs end.

Lemma cmds_cleanb_ok m cs : cmds_cleanb m cs = true → cmds_clean m cs.
Proof.
  revert m. induction cs as [|c cs IH]; intros m H; [done|]. apply andb_true_iff in H as [H1 H2].
  split; [|by apply IH]. destruct c; cbn [cmd_cleanb cmd_clean] in *; rewrite ?andb_true_iff in H1; try done;
    repeat match goal with
    | H : _ ∧ _ |- _ => destruct H
    | H : quote_freeb _ = true |- _ => apply quote_free_ok in H
    end; try done.
  - split_and!; [done..|]. intros l Hl. rewrite Hl in *. by eapply bool_decide_eq_true_1.
  - split; [done|]. intros X HX. by rewrite HX in *.
Qed.

(** ** Runs *)

Definition cmds1 : list cmd :=
  [ListPush "l" "a" false; ListPush "l" "b" false; ListPush "l" "c" false; HashmapSet "h" "f" "x";
   HashmapSet "h" "g" "y"; StringSet "s" "t"].
Definition cmds2 : list cmd := cmds1 ++ [HashmapRemove "h" ["f"]; ListPop "l" [1]; ListGet "l" [-1]; KeyDelete "s"].

Lemma cmds1_ok : cmds_ok (T := keys_t) 10 ∅ cmds1.
Proof. apply cmds_okb_ok. vm_compute. reflexivity. Qed.
Lemma cmds2_ok : cmds_ok (T := keys_t) 10 ∅ cmds2.
Proof. apply cmds_okb_ok. vm_compute. reflexivity. Qed.

Lemma cmds2_clean : cmds_clean ∅ cmds2.
Proof. apply cmds_cleanb_ok. vm_compute. reflexivity. Qed.

Definition run1 := exec_all next_addr coins 0 0 10 cmds1 no_entries.
Lemma level_ok : 0 ≤ 0 < 3.
Proof. done. Qed.

Lemma alloc_ok (d : dict) : kv_fresh d (next_addr d).
Proof. exact (next_addr_fresh d). Qed.

(** The state after [cmds1]. *)
Lemma state1 : ∃ s chs, run1 = Done (s, replies ∅ cmds1) ∧ eng_ok s (foldl after ∅ cmds1) (concat chs).
Proof.
  destruct (exec_all_run next_addr coins 0 0 10 level_ok alloc_ok no_entries ∅ [] cmds1 (empty_engine_ok _ _) cmds1_ok)
    as (s & chs & E & _ & Hok). exists s, chs. unfold run1. split; [exact E|exact Hok].
Qed.
Definition map1 : vmap := foldl after ∅ cmds1.
Lemma map1_l : map1 !! "l" = Some (VList ["a"; "b"; "c"]).
Proof. vm_compute. reflexivity. Qed.
Lemma map1_h : map1 !! "h" = Some (VHashmap {["f" := "x"; "g" := "y"]}).
Proof. vm_compute. reflexivity. Qed.

Lemma engine_refines_map_witness :
  ∃ s' chs, exec_all next_addr coins 0 0 10 cmds2 no_entries = Done (s', replies ∅ cmds2) ∧
    eng_ok s' (foldl after ∅ cmds2) ([] ++ concat chs) ∧ Forall2 Permutation chs (all_changes ∅ cmds2).
Proof.
  apply (engine_refines_map next_addr coins 0 0 level_ok alloc_ok 10 no_entries ∅ [] cmds2);
    [apply empty_engine_ok|exact cmds2_ok].
Defined.

Lemma restart_restores_witness :
  ∃ s1 d' b' fuel', exec_all next_addr coins 0 0 10 cmds2 no_entries = Done (s1, replies ∅ cmds2) ∧
    bio_worker sq_exec fuel' mini_disk (g_bio s1) = Done (d', b') ∧
    (Z.of_nat (length (disk_rows d')) < 2 ^ 30 →
     ∃ s2 m', xfiredb_load_rows next_addr coins 0 (disk_rows d') no_entries = Done (s2, ()) ∧
       eng_ok s2 m' [] ∧ same_map (foldl after ∅ cmds2) m').
Proof.
  apply (restart_restores next_addr coins 0 0 level_ok alloc_ok 10 (cstr_region "xfiredb") 1 cmds2 mini_disk);
    [exact cmds2_ok|exact cmds2_clean|reflexivity].
Defined.

Lemma list_get_positions_witness :
  ∃ s s', run1 = Done (s, replies ∅ cmds1) ∧
    xfiredb_list_get 10 "l" [0; -1] 2 s = Done (s', (- XFIREDB_OK, ["a"; "c"])).
Proof.
  destruct state1 as (s & chs & E & Hok). exists s.
  destruct (list_get_positions 10 s map1 (concat chs) "l" ["a"; "b"; "c"] [0; -1] Hok map1_l) as (s' & E' & _);
    [reflexivity|simpl; lia|done|by apply idx_okb_ok|by apply above_ok|by apply ascendingb_ok|].
  exists s'. by split.
Defined.

Lemma list_pop_positions_witness :
  ∃ s s' js, run1 = Done (s, replies ∅ cmds1) ∧ xfiredb_list_pop 0 10 "l" [0; 2] 2 s = Done (s', 2) ∧
    eng_ok s' (write "l" (Some (VList ["b"])) map1) (js ++ [del_job "l" "a"; del_job "l" "c"]).
Proof.
  destruct state1 as (s & chs & E & Hok). exists s.
  destruct (list_pop_positions 0 level_ok 10 s map1 (concat chs) "l" ["a"; "b"; "c"] [0; 2] Hok map1_l) as (s' & E' & Hok');
    [reflexivity|simpl; lia|done|by apply idx_okb_ok|by apply ascendingb_ok|].
  exists s', (concat chs). split; [exact E|]. split; [exact E'|exact Hok'].
Defined.

Lemma hashmap_remove_keys_witness :
  ∃ s s' h' ch js, run1 = Done (s, replies ∅ cmds1) ∧
    xfiredb_hashmap_remove 0 "h" ["f"; "z"] s = Done (s', 2 - Z.of_nat (size h')) ∧
    without ["f"; "z"] {["f" := "x"; "g" := "y"]} h' ∧ eng_ok s' (write "h" (opt_hmap h') map1) (js ++ ch).
Proof.
  destruct state1 as (s & chs & E & Hok). exists s.
  destruct (hashmap_remove_keys next_addr 0 level_ok alloc_ok s map1 (concat chs) "h" _ ["f"; "z"] Hok map1_h)
    as (s' & h' & ch & E' & Hw & Hok'); [apply good_keys_ok; vm_compute; reflexivity|vm_compute; reflexivity|].
  exists s', h', ch, (concat chs). split; [exact E|]. split; [exact E'|]. split; [exact Hw|exact Hok'].
Defined.

Lemma list_clear_dangles_witness :
  ∃ s s', run1 = Done (s, replies ∅ cmds1) ∧
    xfiredb_list_clear 0 10 "l" s = Done (s', (- XFIREDB_OK, ["a"; "b"; "c"])) ∧ xfiredb_list_length "l" s' = Stuck.
Proof.
  destruct state1 as (s & chs & E & Hok). exists s.
  destruct (list_clear_dangles next_addr 0 level_ok 10 s map1 (concat chs) "l" ["a"; "b"; "c"] "d" false Hok map1_l)
    as (s' & E' & Hl & _); [simpl; lia|].
  exists s'. split; [exact E|]. split; [exact E'|exact Hl].
Defined.

Lemma unqueued_changes_witness :
  ∃ s s' js, run1 = Done (s, replies ∅ cmds1) ∧ xfiredb_list_set next_addr 0 0 10 "l" 7 "d" s = Done (s', - XFIREDB_OK) ∧
    eng_ok s' (<["l" := VList ["a"; "b"; "c"; "d"]]> map1) js.
Proof.
  destruct state1 as (s & chs & E & Hok). exists s.
  destruct (unqueued_changes next_addr 0 0 level_ok alloc_ok 10 s map1 (concat chs) "l" Hok) as [_ H]; [vm_compute; reflexivity|].
  destruct (H ["a"; "b"; "c"] 7 "d" map1_l) as (s' & E' & Hok');
    [done|reflexivity|by apply nul_free_ok|simpl; lia|simpl; lia|].
  exists s', (concat chs). split; [exact E|]. split; [exact E'|exact Hok'].
Defined.

Lemma list_get_bad_positions_witness :
  ∃ s s', run1 = Done (s, replies ∅ cmds1) ∧ xfiredb_list_get 10 "l" [] 0 s = Stuck ∧
    xfiredb_list_get 10 "l" [-5] 1 s = Done (s', (- XFIREDB_OK, ["b"])).
Proof.
  destruct state1 as (s & chs & E & Hok). exists s.
  destruct (list_get_bad_positions 10 s map1 (concat chs) "l" "a" "b" "c" Hok map1_l) as [E1 (s' & E2)]; [lia|].
  exists s'. split; [exact E|]. split; [exact E1|exact E2].
Defined.

(** One string, written by the worker before the engine is joined; and a crash before
    the worker has written anything. *)
Lemma mini_holds : disk_holds ∅ (disk_rows mini_disk).
Proof. intros key. by rewrite lookup_empty. Qed.
Lemma clean_empty : clean ∅.
Proof. intros key. by rewrite lookup_empty. Qed.

Lemma one_change chs : Forall2 Permutation chs (all_changes ∅ [StringSet "k" "v"]) → concat chs = [job_k].
Proof.
  intros (ch & chs' & Hp & H & ->)%Forall2_cons_inv_r. apply Forall2_nil_inv_r in H as ->.
  change (changes ∅ (StringSet "k" "v")) with [job_k] in Hp. apply Permutation_singleton_r in Hp as ->. done.
Qed.

Lemma exit_restores_witness :
  ∃ s1 y, exec_all next_addr coins 0 0 10 [StringSet "k" "v"] no_entries = Done (s1, [(0, [])]) ∧
    rtc (step sq_exec 0) (sys_init mini_disk) y ∧ y_engine y = EJoined ∧ y_added y = [job_k] ∧
    ∃ s2 m2, xfiredb_load_rows next_addr coins 0 (disk_rows (y_disk y)) no_entries = Done (s2, ()) ∧
      eng_ok s2 m2 [] ∧ same_map {["k" := VString "v"]} m2.
Proof.
  destruct (exit_restores next_addr coins 0 0 level_ok alloc_ok 10 (cstr_region "xfiredb") 1 no_entries ∅ mini_disk
    [StringSet "k" "v"] (empty_engine_ok _ _) clean_empty mini_holds) as (s1 & chs & E & _ & Hp & H);
    [apply cmds_okb_ok; vm_compute; reflexivity|apply cmds_cleanb_ok; vm_compute; reflexivity|].
  exists s1, (Sys bio_k_done disk_k true WExit EJoined [job_k]). split; [exact E|].
  assert (rtc (step sq_exec 0) (sys_init mini_disk) (Sys bio_k_done disk_k true WExit EJoined [job_k])) as Hr
    by exact joined_run.
  split; [exact Hr|]. split; [reflexivity|]. split; [reflexivity|].
  rewrite (one_change chs Hp) in H. apply (H _ Hr); reflexivity.
Defined.

Lemma crash_restores_witness :
  ∃ y n k m1 s2 m2, rtc (step sq_exec 0) (sys_init mini_disk) y ∧ y_engine y = EIdle ∧ y_added y = [job_k] ∧
    between (foldl after ∅ (take k [StringSet "k" "v"])) (foldl after ∅ (take (S k) [StringSet "k" "v"])) m1 ∧
    xfiredb_load_rows next_addr coins 0 (disk_rows (y_disk y)) no_entries = Done (s2, ()) ∧
    eng_ok s2 m2 [] ∧ same_map m1 m2 ∧
    (length (concat (take k (all_changes ∅ [StringSet "k" "v"]))) ≤ n)%nat ∧ bio_size (y_bio y) = s64 (1 - Z.of_nat n - 1).
Proof.
  destruct (crash_restores next_addr coins 0 0 level_ok alloc_ok 10 (cstr_region "xfiredb") 1 no_entries ∅ mini_disk
    [StringSet "k" "v"] (empty_engine_ok _ _) clean_empty mini_holds) as (s1 & chs & E & _ & Hp & H);
    [apply cmds_okb_ok; vm_compute; reflexivity|apply cmds_cleanb_ok; vm_compute; reflexivity|].
  rewrite (one_change chs Hp) in H.
  assert (rtc (step sq_exec 0) (sys_init mini_disk) (Sys bio_k_taken mini_disk false (WNode 3) EIdle [job_k])) as Hr
    by exact taken_run.
  destruct (H _ Hr) as (n & k & m1 & s2 & m2 & Hb & E2 & Hs2 & Hsame & Hk & Hsize); [reflexivity|reflexivity|].
  exists (Sys bio_k_taken mini_disk false (WNode 3) EIdle [job_k]), n, k, m1, s2, m2.
  split; [exact Hr|]. split; [reflexivity|]. split; [reflexivity|]. split; [exact Hb|]. split; [exact E2|].
  split; [exact Hs2|]. split; [exact Hsame|]. split; [apply Hk|exact Hsize].
Defined.

(** A set that was loaded, stored again and loaded into an engine with other keys. *)
Definition set_value2 : value := VSet {["x"; "y"]}.
Lemma set_value2_good : value_good (T := keys_t) (I := skiplist_iterator) set_value2.
Proof.
  intros s Hs. apply good_key_ok. assert (s = "x" ∨ s = "y") as [->| ->] by set_solver; vm_compute; reflexivity.
Qed.
Lemma set_value2_clean : text_clean set_value2.
Proof.
  intros s Hs. assert (s = "x" ∨ s = "y") as [->| ->] by set_solver; by apply quote_free_ok.
Qed.

Lemma loaded_set : ∃ s, eng_ok (T := keys_t) (I := skiplist_iterator) (s : engine dict keys_t) {["set" := set_value2]} [].
Proof.
  destruct (load_one_run next_addr coins 0 alloc_ok no_entries ∅ [] "set" set_value2 (val_rows "set" set_value2)
    (empty_engine_ok _ _)) as (s & v' & _ & Hs & Hv); [done|split; [set_solver|exact set_value2_clean]|exact set_value2_good|done|vm_compute; done|].
  cbn in Hv. injection Hv as <-. by exists s.
Qed.

Lemma container_roundtrip_witness :
  ∃ (s : engine dict keys_t) s1 c s2 ch rows s0 s3 m0 v', lookup_db "set" s = Done (s1, (0, c)) ∧
    xfiredb_store_container 0 10 true "set" c s1 = Done (s2, ()) ∧ length ch = 2%nat ∧
    (disk_load_key sq_exec (foldl (apply_job sq_exec) disk_k ch) "set").1.2 = row_cells <$> rows ∧
    xfiredb_load_rows next_addr coins 0 rows s0 = Done (s3, ()) ∧
    eng_ok s3 (<["set" := v']> m0) [] ∧ same_value (Some set_value2) (Some v').
Proof.
  destruct loaded_set as (s & Hs).
  destruct (container_roundtrip next_addr coins 0 0 level_ok alloc_ok 10 s {["set" := set_value2]} [] "set" set_value2
    disk_k no_entries ∅ [] Hs) as (s1 & c & s2 & ch & E1 & E2 & _ & Hl & _ & rows & E3 & Hrest);
    [reflexivity|exact set_value2_clean|by apply quote_free_ok|vm_compute; lia|reflexivity|apply empty_engine_ok|reflexivity|vm_compute; reflexivity|].
  destruct (decide (value_size set_value2 = 0%nat)) as [Hz|_]; [vm_compute in Hz; discriminate|].
  destruct Hrest as (s3 & v' & E4 & Hs3 & Hv). exists s, s1, c, s2, ch, rows, no_entries, s3, ∅, v'. split; [exact E1|]. split; [exact E2|]. split; [exact Hl|].
  split; [exact E3|]. split; [exact E4|]. split; [exact Hs3|exact Hv].
Defined.

(** ** A run that goes wrong *)

(** A list whose entries were pushed on the left comes back reversed after a
    restart: the table does not record the side, and loading appends. *)
Lemma restart_reverses_list :
  match exec_all next_addr coins 0 0 10 [ListPush "k" "a" true; ListPush "k" "b" true; ListGet "k" [0; 1]] no_entries with
  | Done (s, rs) =>
      rs = [(0, []); (0, []); (0, [Some "b"; Some "a"])] ∧
      match bio_worker mini_exec 10 mini_disk (g_bio s) with
      | Done (d, _) =>
          match xfiredb_load_rows next_addr coins 0 (disk_rows d) no_entries with
          | Done (s', _) =>
              (exec_all next_addr coins 0 0 10 [ListGet "k" [0; 1]] s') ≫= (λ '(_, rs), Done rs) =
                Done [(0, [Some "a"; Some "b"])]
          | _ => False
          end
      | _ => False
      end
  | _ => False
  end.
Proof. vm_compute. split; reflexivity. Qed.
