(* ===== verification/EngineShared.v ===== *)
(** * One string in several nodes of the queue

    [xfiredb_key_delete] of a list allocates the text of the key once and queues it with
    every entry; the worker releases it with the first of these nodes.  The queue is
    followed past the ownership that [bio_ok] asks for. *)
From S2P Require Import Prelude Chain Atomic Mem Murmur Dict CList CString Skiplist KeyIndex SetMap Database Disk MiniSql Bio BioSpec Container ContainerSpec Engine EngineSpec EngineStrings EngineLists EngineIndex EngineMaps EngineKeys EngineRun EngineLoad EngineWitness.
Local Open Scope Z_scope.

(** ** A queue whose last nodes share a string *)

Lemma ent_job_mono strs strs' e j : strs ⊆ strs' → ent_job strs e j → ent_job strs' e j.
Proof.
  intros Hs [H1 H2 H3 H4]. split; [done|by eapply lookup_weaken|..].
  - destruct (j_arg j); [by eapply lookup_weaken|done].
  - destruct (j_new j); [by eapply lookup_weaken|done].
Qed.

(** The nodes [es] own their strings; the nodes [rest], behind them, all have [bk], with
    the text of [key], for their key and a string of their own for their argument. *)
Record shared (b : bio) (bk : loc) (key : string) (es : list qent) (js : list job) (rest : list qent) : Prop := {
  sh_queue : queue_ok b (es ++ rest);
  sh_mem : mem_ok b;
  sh_jobs : Forall2 (ent_job (b_strs b)) es js;
  sh_owns : NoDup (owns es);
  sh_key : b_strs b !! bk = Some key;
  sh_free : bk ∉ owns es;
  sh_rest : Forall (λ e, e_key e = bk ∧ e_arg e ≠ bk ∧ e_arg e ∉ owns es ∧ ∃ t, ent_job (b_strs b) e (del_job key t)) rest }.

Lemma sprintf_mem t b : mem_ok b → mem_ok (xfiredb_sprintf t b).1 ∧ b_strs b ⊆ b_strs (xfiredb_sprintf t b).1 ∧ b_strs b !! b_brk b = None.
Proof.
  intros [M1 M2 M3]. assert (b_strs b !! b_brk b = None) as Hn.
  { destruct (b_strs b !! b_brk b) eqn:E; [|done]. specialize (M3 (b_brk b) ltac:(by eexists)). lia. }
  split; [|split; [by apply insert_subseteq|done]]. split; simpl; [lia|..].
  - intros a ?%M2. lia.
  - intros a [? [[<- _]|[_ ?]]%lookup_insert_Some]; [lia|]. specialize (M3 a ltac:(by eexists)). lia.
Qed.

(** Another entry is queued with the same string. *)
Lemma shared_add lvl b bk key es js rest t :
  0 ≤ lvl < 3 → shared b bk key es js rest →
  let '(b1, a) := xfiredb_sprintf t b in
  ∃ b2 e, bio_queue_add lvl bk a NULL LIST_DEL b1 = Done b2 ∧ shared b2 bk key es js (rest ++ [e]).
Proof.
  intros Hl [Q M J O K F R]. destruct (sprintf_mem t b M) as (M1 & Hsub & Hfresh). destruct (xfiredb_sprintf t b) as [b1 a] eqn:E.
  unfold xfiredb_sprintf in E. injection E as <- <-. cbn [fst] in *.
  set (b1 := Bio _ (<[b_brk b := t]> (b_strs b)) _ _ _ _) in *.
  assert (queue_ok b1 (es ++ rest)) as Q1 by by destruct Q.
  destruct (bio_queue_add_run lvl b1 (es ++ rest) bk (b_brk b) NULL LIST_DEL Hl Q1 M1) as (b2 & E2 & Q2 & M2 & Hs2 & _).
  exists b2, (QEnt (b_brk b1) bk (b_brk b) NULL LIST_DEL). split; [exact E2|].
  assert (b_brk b ≠ bk) as Hbk by congruence.
  split; rewrite ?Hs2; [by rewrite app_assoc|done| |done|by eapply lookup_weaken|done|].
  - eapply list.Forall2_impl; [exact J|]. intros e j. by apply ent_job_mono.
  - apply Forall_app. split.
    + eapply list.Forall_impl; [exact R|]. intros e (? & ? & ? & t' & ?). split_and!; try done. exists t'. by eapply ent_job_mono.
    + constructor; [|constructor]. cbn [e_key e_arg]. split_and!; [done|done| |].
      * intros Hin. eapply owns_strs in Hin as [? Hin]; [|exact J]. congruence.
      * exists t. split; cbn; [done|by rewrite lookup_insert_ne|by rewrite lookup_insert_eq|done].
Qed.

Lemma shared_node_strs b bk key es js e rest :
  shared b bk key es js (e :: rest) → ∃ t, ent_job (b_strs b) e (del_job key t) ∧ NoDup (e_strs e) ∧ bk ∈ e_strs e.
Proof.
  intros Hs. pose proof (sh_rest _ _ _ _ _ _ Hs) as R. apply list.Forall_cons in R as [(Hk & Ha & _ & t & Hj) _]. exists t. split; [done|].
  pose proof (mem_null b (sh_mem _ _ _ _ _ _ Hs)) as Hnull. pose proof (sh_key _ _ _ _ _ _ Hs) as Hkey.
  destruct Hj as [_ _ Harg Hnew]. cbn in Harg, Hnew. assert (bk ≠ NULL) by congruence. assert (e_arg e ≠ NULL) by congruence.
  unfold e_strs. rewrite Hk, Hnew. rewrite !filter_cons, filter_nil, !decide_True by done. rewrite decide_False by (intros H'; by apply H').
  split; [|by left]. repeat constructor; set_solver.
Qed.

Lemma pop_node b e es :
  queue_ok b (e :: es) → mem_ok b →
  ∃ b1, bio_queue_pop b = Done (b1, e_loc e) ∧ e_loc e ≠ NULL ∧ e_loc e ∉ e_loc <$> es ∧ queue_ok b1 es ∧ mem_ok b1 ∧
    ent_at (b_heap b1) e ∧ b_strs b1 = b_strs b.
Proof.
  intros Q [M1 M2 M3]. destruct (bio_queue_pop_run b _ Q) as (b1 & -> & Q1 & He & S1 & B1 & D1 & _). pose proof (qo_nodup _ _ Q) as Hu.
  rewrite fmap_cons in Hu. apply list.NoDup_cons in Hu as [Hn Hu]. apply list.NoDup_cons in Hu as [Hne _].
  exists b1. split_and!; try done; [intros Heq; apply Hn; rewrite <-Heq; by left|]. split; rewrite ?B1, ?S1; [done| |done].
  intros a Ha. apply M2, elem_of_dom. rewrite <-D1. by apply elem_of_dom.
Qed.

(** The worker faults at the second of the nodes that share the string. *)
Lemma shared_stuck {DB} (sq_exec : DB → string → DB * Z * list cells_t) d b bk key es js rest fuel :
  shared b bk key es js rest → (2 ≤ length rest)%nat → Forall (λ j, job_ok j = true) js → (S (length js) < fuel)%nat →
  bio_worker sq_exec fuel d b = Stuck.
Proof.
  intros Hs Hlen Hj. revert d b js fuel Hs Hj. induction es as [|e es IH]; intros d b js fuel Hs Hj Hf;
    (destruct fuel as [|fuel]; [lia|]); cbn [bio_worker].
  - destruct rest as [|e1 [|e2 rest]]; cbn [length] in Hlen; try lia.
    destruct (shared_node_strs _ _ _ _ _ _ _ Hs) as (t & Ht & Hnd & Hin). destruct Hs as [Q M J O K F R]. cbn [app] in Q.
    destruct (pop_node b _ _ Q M) as (b1 & -> & Hn & Hne & Q1 & M1 & He1 & S1). rewrite bind_Done, decide_False by done.
    destruct (bio_process_node sq_exec d b1 e1 (e2 :: rest) (del_job key t)) as (b2 & -> & Q2 & M2 & Hdrop & _); try done.
    { by rewrite S1. }
    rewrite bind_Done. destruct fuel as [|fuel]; [lia|]. cbn [bio_worker].
    destruct (pop_node b2 _ _ Q2 M2) as (b3 & -> & Hn2 & _ & Q3 & _ & (nd & Hnd2 & He2) & S3). rewrite bind_Done, decide_False by done.
    unfold bio_process. rewrite Hnd2. cbn [deref]. rewrite bind_Done. unfold bio_dispatch, c_str.
    apply list.Forall_cons in R as [_ R]. apply list.Forall_cons in R as [(Hk2 & _) _].
    assert (q_key nd = bk) as -> by (rewrite <-Hk2, <-He2; done).
    rewrite S3, (Hdrop bk), decide_True by done. reflexivity.
  - pose proof (sh_jobs _ _ _ _ _ _ Hs) as J. destruct js as [|j js]; [by inversion J|].
    apply list.Forall_cons in Hj as [Hj Hjs]. destruct Hs as [Q M _ O K F R]. apply Forall2_cons_1 in J as [Hej J]. cbn [app] in Q.
    change (owns (e :: es)) with (owns ([e] ++ es)) in O, F, R. rewrite owns_app, owns_one in O, F.
    apply list.NoDup_app in O as (O1 & O2 & O3).
    destruct (pop_node b _ _ Q M) as (b1 & -> & Hn & Hne & Q1 & M1 & He & S1). rewrite bind_Done, decide_False by done.
    destruct (bio_process_node sq_exec d b1 e (es ++ rest) j) as (b2 & -> & Q2 & M2 & Hdrop & _); try done.
    { by rewrite S1. }
    rewrite bind_Done. rewrite S1 in Hdrop. pose proof (mem_null b M) as Hnull. apply (IH _ _ js); [|done|cbn [length] in Hf; lia].
    split; [done|done| |done| | |].
    + by eapply drop_jobs; [exact J|done|exact O2|].
    + rewrite Hdrop, decide_False; [done|]. intros Hin. apply F, elem_of_app. by left.
    + intros Hin. apply F, elem_of_app. by right.
    + eapply list.Forall_impl; [exact R|]. intros e' (Hk' & Ha' & Hno & t & Ht). rewrite owns_app, owns_one, not_elem_of_app in Hno.
      split_and!; [done|done|by apply Hno|]. exists t. eapply ent_job_frame; [|done|exact Ht].
      intros a [Hnz Hin]%list_elem_of_filter. rewrite Hdrop, decide_False; [done|]. destruct Ht as [_ _ _ Hnew]. cbn in Hnew.
      rewrite Hk', Hnew in Hin. apply not_elem_of_app in F as [F _].
      apply elem_of_cons in Hin as [->|Hin]; [done|]. apply elem_of_cons in Hin as [->|Hin]; [apply Hno|]. by apply list_elem_of_singleton in Hin as ->.
Qed.

(** ** Deleting a list *)

Section Shared.
Context {D T I : Type} `{KV : KVStore D} {KL : KVStoreLaws D} `{KI : KeyIndex T I} {IL : KeyIndexLaws T I}.
Context (lvl : Z) (Hlvl : 0 ≤ lvl < 3).
Implicit Types (s : engine D T).

Lemma delete_list_shared bk key es js s c lh h ns nes l rest n rv fuel :
  g_conts s !! c = Some (CList lh h ns) → list_at lh h ns (g_brk s) nes l → shared (g_bio s) bk key es js rest →
  (∀ e es', nes = e :: es' → n = first_or (lh_head lh) es') → (length l < fuel)%nat →
  ∃ s' rest', delete_list_loop lvl fuel bk c (first_or (lh_head lh) nes) n rv s = Done (s', rv + Z.of_nat (length l)) ∧
    shared (g_bio s') bk key es js (rest ++ rest') ∧ length rest' = length l ∧ is_Some (g_conts s' !! c).
Proof.
  revert s lh h ns nes l rest n rv. induction fuel as [|fuel IH]; intros s lh h ns nes l rest n rv Hc Hat Hs Hnext Hfuel; [lia|].
  cbn [delete_list_loop].
  assert (get_container c s = Done (s, CList lh h ns)) as Hget by (unfold get_container; by rewrite Hc).
  run Hget. ret. pose proof (list_at_lengths _ _ _ _ _ _ Hat) as Hls. destruct l as [|t l], nes as [|e nes]; try (simpl in *; lia).
  - rewrite decide_True by done. exists s, []. split; [rewrite Z.add_0_r; done|]. rewrite app_nil_r. split_and!; [done|done|]. by eexists.
  - cbn [first_or head default]. change (id e) with e. rewrite decide_False by (by eapply (list_at_not_head _ _ _ _ [])).
    pose proof (list_at_text _ _ _ _ [] e nes [] t l Hat eq_refl) as Ht. calc (node_text_ok _ _ _ Ht).
    destruct (del_rep _ _ _ _ [] e nes [] t l Hat eq_refl) as (_ & h1 & lh1 & Hdel & Hhd & Hat1). cbn [node_free app] in Hat1.
    pose proof (shared_add lvl _ bk key es js rest t Hlvl Hs) as Hadd. destruct (xfiredb_sprintf t (g_bio s)) as [b1 a] eqn:Es.
    destruct Hadd as (b2 & e' & E2 & Hs2).
    assert (sprintf t s = Done (Engine (g_db s) (g_conts s) (g_brk s) b1, a)) as E1 by (unfold sprintf; by rewrite Es). run E1.
    assert (queue lvl bk a NULL LIST_DEL (Engine (g_db s) (g_conts s) (g_brk s) b1) = Done (Engine (g_db s) (g_conts s) (g_brk s) b2, ()))
      as E3 by (unfold queue; cbn [g_bio]; by rewrite E2). run E3. calc Hdel. cbn [node_free].
    set (s3 := Engine (g_db s) (<[c := CList lh1 (delete e h1) (delete e ns)]> (g_conts s)) (g_brk s) b2).
    assert (put_container c (CList lh1 (delete e h1) (delete e ns)) (Engine (g_db s) (g_conts s) (g_brk s) b2) = Done (s3, ())) as E4 by done.
    run E4. rewrite (Hnext e nes eq_refl), <-Hhd.
    destruct (list_next_any _ lh1 [] nes (la_ok _ _ _ _ _ _ Hat1)) as (n' & En & Hnext'). calc En.
    destruct (IH s3 lh1 (delete e h1) (delete e ns) nes l (rest ++ [e']) n' (rv + 1)) as (s' & rest' & E5 & Hs' & Hl & Hc');
      [apply lookup_insert_eq|exact Hat1|exact Hs2|exact Hnext'|cbn [length] in Hfuel; lia|].
    exists s', (e' :: rest'). rewrite E5. split; [do 2 f_equal; cbn [length]; lia|]. rewrite <-app_assoc in Hs'.
    split_and!; [exact Hs'|cbn [length]; lia|done].
Qed.

(** C25: deleting a key that holds a list of two entries or more makes the worker use freed
    memory.  From any state of the engine that represents a map and has queued only
    changes that have the strings their operation needs ([job_ok]), [xfiredb_key_delete] of such a key
    runs and returns the number of entries; but it has queued the same copy of the key
    with every entry, and whatever the database answers, the worker, after it has
    written what was queued before and the first of the entries, reads the copy that it
    has released. *)
Theorem key_delete_double_release {DB} (sq_exec : DB → string → DB * Z * list cells_t) s m js key l (fuel : nat) :
  eng_ok s m js → m !! key = Some (VList l) → (2 ≤ length l < fuel)%nat → Forall (λ j, job_ok j = true) js →
  ∃ s', xfiredb_key_delete lvl fuel key s = Done (s', Z.of_nat (length l)) ∧
    ∀ d n, (S (length js) < n)%nat → bio_worker sq_exec n d (g_bio s') = Stuck.
Proof.
  intros (dm & Hr) Hm [Hl Hfuel] Hj. unfold xfiredb_key_delete.
  destruct (delete_run s dm m js ∅ key Hr) as (s1 & S1 & Hr1 & Hk). rewrite Hm in Hk. destruct Hk as (c & ct & E & _ & Hat). run E. cond.
  pose proof (cont_at_loc _ _ _ _ _ _ Hat) as Hloc. run (get_run _ _ _ _ _ Hloc). pose proof (ca_rep _ _ _ _ _ _ Hat) as Hv.
  destruct ct as [|lh h ns| |]; try done. destruct Hv as (nes & Hes). cbn [c_type].
  destruct (er_bio _ _ _ _ _ Hr1) as (es & [Q M J O] & _). destruct (sprintf_mem key _ M) as (M2 & Hsub & Hfresh).
  run (eq_refl : sprintf key s1 = Done (Engine (g_db s1) (g_conts s1) (g_brk s1) (xfiredb_sprintf key (g_bio s1)).1, b_brk (g_bio s1))). ret.
  set (s2 := Engine _ _ _ _).
  assert (shared (g_bio s2) (b_brk (g_bio s1)) key es js []) as Hs2.
  { split; [rewrite app_nil_r; by destruct Q|done| |done|apply lookup_insert_eq| |constructor].
    - eapply list.Forall2_impl; [exact J|]. intros e j. by apply ent_job_mono.
    - intros Hin. eapply owns_strs in Hin as [? Hin]; [|exact J]. congruence. }
  destruct (list_next_any h lh [] nes (la_ok _ _ _ _ _ _ Hes)) as (n & En & Hnext).
  calc (list_first _ _ _ (la_ok _ _ _ _ _ _ Hes)). calc En.
  destruct (delete_list_shared _ key es js s2 c lh h ns nes l [] n 0 fuel (ca_get _ _ _ _ _ _ Hat) Hes Hs2 Hnext Hfuel)
    as (s3 & rest & E3 & Hs3 & Hlen & [ct3 Hc3]). run E3.
  assert (free_container c s3 = Done (Engine (g_db s3) (delete c (g_conts s3)) (g_brk s3) (g_bio s3), ())) as E4
    by (unfold free_container; by rewrite Hc3). run E4.
  eexists. split; [done|]. intros d k Hk. eapply shared_stuck; [exact Hs3|cbn [app]; lia|done..].
Qed.
End Shared.

(** ** A run *)

#[local] Instance store : KVStore dict := dict_store (λ _, 0) dict_globals_init.
#[local] Instance store_laws : KVStoreLaws dict := dict_store_laws (λ _, 0) dict_globals_init.

Definition two_pushes : list cmd := [ListPush "k" "a" false; ListPush "k" "b" false].
Lemma two_pushes_ok : cmds_ok (T := keys_t) 10 ∅ two_pushes.
Proof. apply cmds_okb_ok. vm_compute. reflexivity. Qed.

Lemma key_delete_double_release_witness :
  ∃ s s', exec_all next_addr coins 0 0 10 two_pushes no_entries = Done (s, replies ∅ two_pushes) ∧
    xfiredb_key_delete 0 10 "k" s = Done (s', 2) ∧ ∀ d, bio_worker mini_exec 10 d (g_bio s') = Stuck.
Proof.
  destruct (exec_all_run next_addr coins 0 0 10 level_ok alloc_ok no_entries ∅ [] two_pushes (empty_engine_ok _ _) two_pushes_ok)
    as (s & chs & E & Hp & Hok).
  assert (concat chs = [Job LIST_ADD "k" None (Some "a"); Job LIST_ADD "k" None (Some "b")]) as Hc.
  { vm_compute in Hp. do 2 (apply Forall2_cons_inv_r in Hp as (? & ? & ->%Permutation_singleton_r & Hp & ->)).
    by apply Forall2_nil_inv_r in Hp as ->. }
  destruct (key_delete_double_release 0 level_ok mini_exec s _ _ "k" ["a"; "b"] 10 Hok) as (s' & E' & Hw);
    [reflexivity|simpl; lia|rewrite Hc; repeat constructor|].
  exists s, s'. split; [exact E|]. split; [exact E'|]. intros d. apply Hw. rewrite Hc. simpl. lia.
Defined.
