(* ===== verification/EngineWorked.v ===== *)
(** * The engine beside the rehash worker

    The engine over a dictionary whose worker runs between the sections of every
    operation, by any schedule, compared with the engine over a dictionary alone. *)
From S2P Require Import Prelude Chain Atomic Mem Murmur Dict DictSpec DictWorked CList CString Skiplist KeyIndex SetMap Database Disk Bio BioSpec Container ContainerSpec Engine EngineSpec EngineRun EnginePersist EngineLoad EngineWitness.
Local Open Scope Z_scope.

(** ** Two stores

    Computations of the engine over two stores are compared on states that have the same
    containers, queue and addresses, and stores that represent the same map.  A
    computation may add [b] keys. *)

(** The same outcome: both end, fault or run out of fuel. *)
Definition same_outcome {A B} (R : A → B → Prop) (o0 : outcome A) (o1 : outcome B) : Prop :=
  match o0, o1 with
  | Done a, Done b => R a b
  | Stuck, Stuck | OutOfFuel, OutOfFuel => True
  | _, _ => False
  end.

Section TwoStores.
Context {D0 D1 T I : Type} `{KV0 : KVStore D0} `{!KVStoreLaws D0} `{KV1 : KVStore D1} `{!KVStoreLaws D1} `{KI : KeyIndex T I}.
Context (malloc0 : D0 → loc) (malloc1 : D1 → loc) (coin : loc → nat → bool) (junk lvl : Z).
Context (Hm0 : ∀ d, kv_fresh d (malloc0 d)) (Hm1 : ∀ d, kv_fresh d (malloc1 d)).

Record alike (m : gmap string Z) (s0 : engine D0 T) (s1 : engine D1 T) : Prop := Alike {
  al_rep0 : kv_rep (db_container (g_db s0)) m;
  al_rep1 : kv_rep (db_container (g_db s1)) m;
  al_conts : g_conts s0 = g_conts s1;
  al_brk : g_brk s0 = g_brk s1;
  al_bio : g_bio s0 = g_bio s1 }.

Definition agree {A} (b : nat) (c0 : stm (engine D0 T) A) (c1 : stm (engine D1 T) A) : Prop :=
  ∀ m s0 s1, alike m s0 s1 → Z.of_nat (size m + b) < 2 ^ 30 →
    same_outcome (λ r0 r1, r0.2 = r1.2 ∧ ∃ m', alike m' r0.1 r1.1 ∧ (size m' ≤ size m + b)%nat) (c0 s0) (c1 s1).

(** *** The rules *)

Lemma agree_ret {A} b (a : A) : agree b (mret a) (mret a).
Proof. intros m s0 s1 Hs _. split; [done|]. exists m. split; [done|]. lia. Qed.

Lemma agree_bind_split {A B} (b b' b'' : nat) (c0 : stm (engine D0 T) A) c1 (f0 : A → stm (engine D0 T) B) f1 :
  (b' + b'' ≤ b)%nat → agree b' c0 c1 → (∀ a, agree b'' (f0 a) (f1 a)) → agree b (c0 ≫= f0) (c1 ≫= f1).
Proof.
  intros Hb Hc Hf m s0 s1 Hs Hsz. specialize (Hc m s0 s1 Hs ltac:(lia)). unfold mbind, stm_bind, same_outcome in *.
  destruct (c0 s0) as [[s0' a]| |], (c1 s1) as [[s1' a1]| |]; try done. destruct Hc as (Ha & m' & Hs' & Hsz'). cbn [fst snd] in *. subst a1.
  rewrite !bind_Done. specialize (Hf a m' s0' s1' Hs' ltac:(lia)). unfold same_outcome in Hf.
  destruct (f0 a s0') as [[? ?]| |], (f1 a s1') as [[? ?]| |]; try done. destruct Hf as (? & m'' & ? & ?).
  split; [done|]. exists m''. split; [done|]. lia.
Qed.
Lemma agree_bind {A B} b (c0 : stm (engine D0 T) A) c1 (f0 : A → stm (engine D0 T) B) f1 :
  agree 0 c0 c1 → (∀ a, agree b (f0 a) (f1 a)) → agree b (c0 ≫= f0) (c1 ≫= f1).
Proof. by apply agree_bind_split. Qed.

(** Computations that add no key may be used where some may be added. *)
Lemma agree_weaken {A} b (c0 : stm (engine D0 T) A) c1 : agree 0 c0 c1 → agree b c0 c1.
Proof.
  intros Hc m s0 s1 Hs Hsz. specialize (Hc m s0 s1 Hs ltac:(lia)). unfold same_outcome in *.
  destruct (c0 s0) as [[? ?]| |], (c1 s1) as [[? ?]| |]; try done. destruct Hc as (? & m' & ? & ?). split; [done|].
  exists m'. split; [done|]. lia.
Qed.

(** What does not depend on the store: the containers, the queue, the addresses. *)
Lemma agree_conts {A} b (f : gmap loc (container T) → loc → bio → outcome (gmap loc (container T) * loc * bio * A)) c0 c1 :
  (∀ s, c0 s = '(conts, brk, bio, a) ← f (g_conts s) (g_brk s) (g_bio s); Done (Engine (g_db s) conts brk bio, a)) →
  (∀ s, c1 s = '(conts, brk, bio, a) ← f (g_conts s) (g_brk s) (g_bio s); Done (Engine (g_db s) conts brk bio, a)) →
  agree b c0 c1.
Proof.
  intros E0 E1 m s0 s1 [? ? Hc Hk Hb] _. rewrite E0, E1, <-Hc, <-Hk, <-Hb.
  destruct (f (g_conts s0) (g_brk s0) (g_bio s0)) as [[[[conts brk] bi] a]| |]; [|done..].
  split; [done|]. exists m. split; [done|]. cbn [fst]. lia.
Qed.

Lemma agree_lift {A} b (o : outcome A) : agree b (lift o) (lift o).
Proof. intros m s0 s1 Hs _. unfold lift. destruct o; [|done..]. split; [done|]. exists m. split; [done|]. cbn [fst]. lia. Qed.
Lemma agree_new_addr b : agree b new_addr new_addr.
Proof. by apply (agree_conts b (λ c k bi, Done (c, k + 1, bi, k))). Qed.
Lemma agree_get b c : agree b (get_container c) (get_container c).
Proof.
  by apply (agree_conts b (λ cs k bi, ct ← deref (cs !! c); Done (cs, k, bi, ct))); intros [d cs k bi];
    unfold get_container; cbn; destruct (cs !! c).
Qed.
Lemma agree_put b c ct : agree b (put_container c ct) (put_container c ct).
Proof. by apply (agree_conts b (λ cs k bi, Done (<[c := ct]> cs, k, bi, ()))). Qed.
Lemma agree_free b c : agree b (free_container c) (free_container c).
Proof.
  by apply (agree_conts b (λ cs k bi, _ ← deref (cs !! c); Done (delete c cs, k, bi, ()))); intros [d cs k bi];
    unfold free_container; cbn; destruct (cs !! c).
Qed.
Lemma agree_sprintf b t : agree b (sprintf t) (sprintf t).
Proof. by apply (agree_conts b (λ cs k bi, let '(bi, a) := xfiredb_sprintf t bi in Done (cs, k, bi, a))). Qed.
Lemma agree_free_text b a : agree b (free_text a) (free_text a).
Proof.
  by apply (agree_conts b (λ cs k bi, bi ← free_str a bi; Done (cs, k, bi, ()))); intros [d cs k bi]; unfold free_text; cbn;
    destruct (free_str a bi).
Qed.
Lemma agree_queue b key arg newdata op : agree b (queue lvl key arg newdata op) (queue lvl key arg newdata op).
Proof.
  by apply (agree_conts b (λ cs k bi, bi ← bio_queue_add lvl key arg newdata op bi; Done (cs, k, bi, ()))); intros [d cs k bi];
    unfold queue; cbn; destruct (bio_queue_add lvl key arg newdata op bi).
Qed.
Lemma agree_fuel {A} b : agree (A := A) b (λ _, OutOfFuel) (λ _, OutOfFuel).
Proof. done. Qed.

(** The calls of the store. *)
Lemma agree_lookup b key : agree b (lookup_db key) (lookup_db key).
Proof.
  intros m s0 s1 [R0 R1 Hc Hk Hb] _. unfold lookup_db, db_lookup.
  destruct (kv_lookup_ok _ m key NULL 0 R0) as (d0 & z0 & -> & R0'), (kv_lookup_ok _ m key NULL 0 R1) as (d1 & z1 & -> & R1').
  destruct (m !! key); (split; [done|]); exists m; (split; [done|cbn [fst]; lia]).
Qed.
Lemma agree_delete b key : agree b (delete_db key) (delete_db key).
Proof.
  intros m s0 s1 [R0 R1 Hc Hk Hb] _. unfold delete_db, db_delete.
  destruct (kv_delete_ok _ m key NULL R0) as (d0 & -> & R0'), (kv_delete_ok _ m key NULL R1) as (d1 & -> & R1').
  rewrite !bind_Done. split; [done|]. exists (delete key m). split; [done|]. pose proof (size_delete_le m key). lia.
Qed.
Lemma agree_store b key c : agree (S b) (store_db malloc0 key c) (store_db malloc1 key c).
Proof.
  intros m s0 s1 [R0 R1 Hc Hk Hb] Hsz. unfold store_db, db_store.
  destruct (kv_add_ok _ m key c _ R0 ltac:(lia) (Hm0 _)) as (d0 & -> & R0'), (kv_add_ok _ m key c _ R1 ltac:(lia) (Hm1 _)) as (d1 & -> & R1').
  rewrite !bind_Done. split; [done|]. eexists. split; [split; [exact R0'|exact R1'|done..]|].
  destruct (m !! key); [lia|]. pose proof (size_insert_le m key c). lia.
Qed.

(** *** The operations

    A computation is taken apart along its binds, conditions and matches. *)
#[local] Create HintDb agree.
#[local] Hint Resolve agree_ret agree_lift agree_new_addr agree_get agree_put agree_free agree_sprintf agree_free_text agree_queue
  agree_fuel agree_lookup agree_delete agree_store : agree.
Ltac agree_step :=
  lazymatch goal with
  | |- agree 1 (store_db _ _ _ ≫= _) _ => apply (agree_bind_split 1 1 0); [lia| |let a := fresh "a" in intros a]
  | |- agree _ (_ ≫= _) (_ ≫= _) => apply agree_bind; [|let a := fresh "a" in intros a]
  | |- agree _ (if ?b then _ else _) _ => destruct b
  | |- agree _ (match ?a with _ => _ end) _ => destruct a
  end.
Ltac agrees := repeat (cbn beta iota; first [solve [auto with agree nocore]|agree_step]).

Lemma agree_container_alloc b t : agree b (container_alloc t) (container_alloc t).
Proof. unfold container_alloc. agrees. Qed.
Lemma agree_push_new b c data left : agree b (push_new c data left) (push_new c data left).
Proof. unfold push_new. agrees. Qed.
Lemma agree_add_new b c skey data : agree b (add_new coin c skey data) (add_new coin c skey data).
Proof. unfold add_new. agrees. Qed.
Lemma agree_add_new_key b c skey : agree b (add_new_key coin c skey) (add_new_key coin c skey).
Proof. unfold add_new_key. agrees. Qed.
Lemma agree_drop_empty_list b key c : agree b (drop_empty_list key c) (drop_empty_list key c).
Proof. unfold drop_empty_list. agrees. Qed.
Lemma agree_drop_empty_hashmap b key c : agree b (drop_empty_hashmap key c) (drop_empty_hashmap key c).
Proof. unfold drop_empty_hashmap. agrees. Qed.
Lemma agree_row_container b av ptr t : agree b (row_container av ptr t) (row_container av ptr t).
Proof. unfold row_container, container_alloc. agrees. Qed.
Lemma agree_store_change b key arg nd op : agree b (store_change lvl key arg nd op) (store_change lvl key arg nd op).
Proof. unfold store_change. agrees. Qed.
#[local] Hint Resolve agree_container_alloc agree_push_new agree_add_new agree_add_new_key agree_drop_empty_list
  agree_drop_empty_hashmap agree_row_container agree_store_change : agree.

Lemma agree_list_pop_loop fuel b key c cur tmp idx num i counter :
  agree b (list_pop_loop lvl fuel key c cur tmp idx num i counter) (list_pop_loop lvl fuel key c cur tmp idx num i counter).
Proof. revert cur tmp idx i counter. induction fuel; intros; cbn [list_pop_loop]; agrees. Qed.
Lemma agree_list_set_loop fuel b c cur idx data k1 k2 i :
  agree b (list_set_loop junk lvl fuel c cur idx data k1 k2 i) (list_set_loop junk lvl fuel c cur idx data k1 k2 i).
Proof. revert cur i. induction fuel; intros; cbn [list_set_loop]; cbv zeta; agrees. Qed.
Lemma agree_hashmap_remove_loop b key c skeys n :
  agree b (hashmap_remove_loop lvl key c skeys n) (hashmap_remove_loop lvl key c skeys n).
Proof. revert n. induction skeys; intros; cbn [hashmap_remove_loop]; agrees. Qed.
Lemma agree_delete_list_loop fuel b k c cur tmp rv :
  agree b (delete_list_loop lvl fuel k c cur tmp rv) (delete_list_loop lvl fuel k c cur tmp rv).
Proof. revert cur tmp rv. induction fuel; intros; cbn [delete_list_loop]; agrees. Qed.
Lemma agree_delete_hashmap_loop fuel b hook key c it :
  agree b (delete_hashmap_loop lvl fuel hook key c it) (delete_hashmap_loop lvl fuel hook key c it).
Proof. revert b it. induction fuel; intros; cbn [delete_hashmap_loop]; agrees. Qed.
Lemma agree_clear_list_loop fuel b key c cur tmp :
  agree b (clear_list_loop lvl fuel key c cur tmp) (clear_list_loop lvl fuel key c cur tmp).
Proof. revert b cur tmp. induction fuel; intros; cbn [clear_list_loop]; agrees. Qed.
#[local] Hint Resolve agree_list_pop_loop agree_list_set_loop agree_hashmap_remove_loop agree_delete_list_loop
  agree_delete_hashmap_loop agree_clear_list_loop : agree.

Lemma agree_list_push key data left :
  agree 1 (xfiredb_list_push malloc0 lvl key data left) (xfiredb_list_push malloc1 lvl key data left).
Proof. unfold xfiredb_list_push. agrees. Qed.
#[local] Hint Resolve agree_list_push : agree.

Lemma agree_exec fuel c : agree 1 (exec malloc0 coin junk lvl fuel c) (exec malloc1 coin junk lvl fuel c).
Proof.
  destruct c; cbn [exec].
  all: try (apply (agree_bind_split 1 1 0); [lia| |intros []; apply agree_ret || intros; apply agree_ret]).
  all: cbv [xfiredb_string_get xfiredb_string_set xfiredb_list_length xfiredb_list_set xfiredb_list_get xfiredb_list_pop
    xfiredb_hashmap_get xfiredb_hashmap_set xfiredb_hashmap_remove xfiredb_key_delete]; agrees.
Qed.

Lemma agree_list_clear fuel b key : agree b (xfiredb_list_clear lvl fuel key) (xfiredb_list_clear lvl fuel key).
Proof. unfold xfiredb_list_clear. agrees. Qed.
Lemma agree_hashmap_clear fuel b key : agree b (xfiredb_hashmap_clear lvl fuel key) (xfiredb_hashmap_clear lvl fuel key).
Proof. unfold xfiredb_hashmap_clear. agrees. Qed.

Lemma agree_load r : agree 1 (xfiredb_load malloc0 coin junk (r_key r) (r_skey r) (r_type r) (r_value r))
  (xfiredb_load malloc1 coin junk (r_key r) (r_skey r) (r_type r) (r_value r)).
Proof. unfold xfiredb_load. cbv zeta. agrees. Qed.
End TwoStores.

(** ** Calls *)

Inductive call :=
  | Command (c : cmd)
  | ListClear (key : string)
  | HashmapClear (key : string)
  | LoadRow (r : row).

Section Calls.
Context {D T I : Type} `{KV : KVStore D} `{KI : KeyIndex T I}.
Context (malloc : D → loc) (coin : loc → nat → bool) (junk lvl : Z) (fuel : nat).

(** A call, with its code and the texts that it returns or hands to the hook. *)
Definition perform (c : call) : stm (engine D T) reply :=
  match c with
  | Command c => exec malloc coin junk lvl fuel c
  | ListClear key => '(rv, l) ← xfiredb_list_clear lvl fuel key; mret (rv, Some <$> l)
  | HashmapClear key => '(rv, l) ← xfiredb_hashmap_clear lvl fuel key; mret (rv, l ≫= λ p, [Some p.1; Some p.2])
  | LoadRow r => _ ← xfiredb_load malloc coin junk (r_key r) (r_skey r) (r_type r) (r_value r); mret (0, [])
  end.
Fixpoint perform_all (cs : list call) : stm (engine D T) (list reply) :=
  match cs with
  | [] => mret []
  | c :: cs => r ← perform c; rs ← perform_all cs; mret (r :: rs)
  end.
End Calls.

Section CallsAgree.
Context {D0 D1 T I : Type} `{KV0 : KVStore D0} `{!KVStoreLaws D0} `{KV1 : KVStore D1} `{!KVStoreLaws D1} `{KI : KeyIndex T I}.
Context (malloc0 : D0 → loc) (malloc1 : D1 → loc) (coin : loc → nat → bool) (junk lvl : Z) (fuel : nat).
Context (Hm0 : ∀ d, kv_fresh d (malloc0 d)) (Hm1 : ∀ d, kv_fresh d (malloc1 d)).

Lemma agree_perform c : agree 1 (perform malloc0 coin junk lvl fuel c) (perform malloc1 coin junk lvl fuel c).
Proof.
  destruct c as [c|key|key|r]; cbn [perform]; [by apply agree_exec|..];
    (apply (agree_bind_split 1 1 0); [lia| |intros []; apply agree_ret || intros; apply agree_ret]);
    [apply agree_list_clear|apply agree_hashmap_clear|by apply agree_load].
Qed.

Lemma agree_all cs : agree (length cs) (perform_all malloc0 coin junk lvl fuel cs) (perform_all malloc1 coin junk lvl fuel cs).
Proof.
  induction cs as [|c cs IH]; cbn [perform_all length]; [apply agree_ret|].
  apply (agree_bind_split _ 1 (length cs)); [lia|apply agree_perform|]. intros r.
  apply (agree_bind_split _ (length cs) 0); [lia|done|]. intros rs. apply agree_ret.
Qed.
End CallsAgree.

(** ** The dictionary with and without its worker *)

Section Beside.
Context {T I : Type} `{KI : KeyIndex T I}.
Context (load64 : loc → Z) (g : dict_globals) (schedule : list nat).
Context (malloc : dict → loc) (coin : loc → nat → bool) (junk lvl : Z).
Context (Hmalloc : ∀ d, malloc d ∉ e_addr <$> entries d).

#[local] Instance alone : KVStore dict := dict_store load64 g.
#[local] Instance alone_laws : KVStoreLaws dict := dict_store_laws load64 g.
#[local] Instance beside : KVStore worked := worked_store load64 g schedule.
#[local] Instance beside_laws : KVStoreLaws worked := worked_store_laws load64 g schedule.

(** C4: the rehash worker cannot be observed.  Take an engine whose dictionary has no
    worker and one whose dictionary has, alike but for where the entries of the
    dictionaries are, and make the same calls on both, whatever they are: commands,
    clearing and loading rows, also those on which the engine faults.  Whatever the
    worker does before each locked section of each operation, both engines fault, or
    both run (a loop out of fuel in one is out of fuel in the other), and then they have
    returned the same codes and texts and are alike again: the same containers at the
    same addresses, the same queue for the disk, and dictionaries that hold the same
    map.  The keys and the calls together are fewer than 2^30. *)
Theorem engine_beside_rehash (fuel : nat) (s0 : engine dict T) (s1 : engine worked T) m cs :
  alike m s0 s1 → Z.of_nat (size m + length cs) < 2 ^ 30 →
  same_outcome (λ r0 r1, r0.2 = r1.2 ∧ ∃ m', alike m' r0.1 r1.1)
    (perform_all malloc coin junk lvl fuel cs s0) (perform_all (λ w, malloc (wd w)) coin junk lvl fuel cs s1).
Proof.
  intros Hs Hsz. pose proof (agree_all malloc (λ w, malloc (wd w)) coin junk lvl fuel Hmalloc (λ w, Hmalloc (wd w)) cs m s0 s1 Hs Hsz) as H.
  unfold same_outcome in *. destruct (perform_all malloc _ _ _ _ _ _) as [[? ?]| |], (perform_all _ _ _ _ _ cs s1) as [[? ?]| |]; [|done..].
  destruct H as (? & m' & ? & _). split; [done|by exists m'].
Qed.
End Beside.

#[local] Existing Instance alone_laws.
#[local] Existing Instance beside_laws.

(** ** A run

    The fifth key makes the dictionary grow; the worker makes a call before every
    section, and three before each of the first. *)
Definition cmds6 : list cmd :=
  ((λ k, StringSet k "v") <$> ["a"; "f"; "i"; "b"; "c"; "d"]) ++ [StringGet "a"; ListPush "l" "x" true; KeyDelete "f"; StringGet "f"; StringGet "d"].
Definition busy : list nat := [3; 3; 3; 0; 0]%nat ++ replicate 60 1%nat.

(** A list of two entries is deleted, and another one cleared, after which its length
    is asked for: the engine reads freed memory. *)
Definition calls6 : list call :=
  (Command <$> cmds6 ++ [ListPush "l" "y" false; KeyDelete "l"; ListPush "m" "z" true]) ++ [ListClear "m"; Command (ListLength "m")].

Definition beside_empty : engine worked keys_t :=
  empty_engine (H := beside (λ _, 0) dict_globals_init busy) (cstr_region "xfiredb") 1.

Lemma engine_beside_rehash_witness :
  same_outcome (λ r0 r1, r0.2 = r1.2 ∧ ∃ m', alike (KV0 := alone (λ _, 0) dict_globals_init) (KV1 := beside (λ _, 0) dict_globals_init busy) m' r0.1 r1.1)
    (perform_all (KV := alone (λ _, 0) dict_globals_init) next_addr coins 0 0 10 calls6 no_entries)
    (perform_all (KV := beside (λ _, 0) dict_globals_init busy) (λ w, next_addr (wd w)) coins 0 0 10 calls6 beside_empty) ∧
  perform_all (KV := alone (λ _, 0) dict_globals_init) next_addr coins 0 0 10 calls6 no_entries = Stuck.
Proof.
  split; [|vm_compute; reflexivity].
  apply (engine_beside_rehash (λ _, 0) dict_globals_init busy next_addr coins 0 0 next_addr_fresh 10 no_entries beside_empty ∅);
    [split; [apply dict_store_laws|apply worked_store_laws|reflexivity..]|reflexivity].
Defined.

(** In this run the two dictionaries do not look alike: after five keys the worker has
    moved every entry, the last one between its insertion and the writing of its value,
    and the other dictionary is still being rehashed. *)
Lemma busy_differs :
  ∃ s0 s1 rs,
    exec_all (KV := alone (λ _, 0) dict_globals_init) next_addr coins 0 0 10 (take 5 cmds6) no_entries = Done (s0, rs) ∧
    exec_all (KV := beside (λ _, 0) dict_globals_init busy) (λ w, next_addr (wd w)) coins 0 0 10 (take 5 cmds6)
      beside_empty = Done (s1, rs) ∧
    d_rehashing (db_container (g_db s0)) = true ∧ d_rehashing (wd (db_container (g_db s1))) = false.
Proof. eexists _, _, _. split; [vm_compute; reflexivity|]. split; [vm_compute; reflexivity|]. split; vm_compute; reflexivity. Qed.
