(* ===== verification/RbObjects.v ===== *)
(** * Objects of the Ruby extension: [ext/xfiredb-serv/database.c], [list.c], [hashmap.c], [set.c]

    The server is a Ruby program.  A list, a hash map or a set is a Ruby object that
    wraps a [db_entry_container]; the database maps keys to containers.  A container
    lives as long as its object, which the garbage collector may take as soon as the
    program does not hold it, or as long as it is in the database, whichever is longer:
    [intree] and [obj_released] record which of the two still need it.

    Containers are modelled by the values they hold: [ContainerSpec] and the files of the
    engine show that [list_rpush], [list_del], [string_set], [hashmap_add] and the others
    do to the nodes what is done to the values here, as long as the keys of a hash map or
    a set do not collide.  Hash maps and sets have their counter beside their entries,
    since clearing does not reset it.  The database is the finite map that [Database] shows it to be, and the
    queue is the list of the changes on it.  [order] is the order in which the keys of a
    hash map or a set are met, which their skip lists determine.

    The Ruby C interface is not code of the program: objects are numbered as they are
    made, and the number stands for the pointer the object wraps.  Arguments that are to
    be strings or integers are; a method is called on an object of its class. *)
From S2P Require Import Prelude Atomic Dict Bio BioSpec Container Engine EngineLists EngineStore.
Local Open Scope Z_scope.

(** ** Data *)

Inductive VALUE :=
  | Qnil | Qfalse | Qtrue
  | RString (text : string)
  | RInt (n : Z)
  | RObj (v : loc).
#[export] Instance VALUE_eq_dec : EqDecision VALUE.
Proof. solve_decision. Defined.

(** What a container holds, and the counter of a hash map or a set. *)
Abbreviation contents := (value * Z)%type.

(** [key] is an address, or [NULL].  [type] and [release] are those of the value. *)
Record db_entry_container := Entry {
  en_key : loc;
  en_c : contents;
  en_intree : bool;
  en_obj_released : bool;
  en_obj : VALUE }.

Definition put_key (k : loc) (x : db_entry_container) := Entry k (en_c x) (en_intree x) (en_obj_released x) (en_obj x).
Definition put_c (c : contents) (x : db_entry_container) := Entry (en_key x) c (en_intree x) (en_obj_released x) (en_obj x).
Definition put_intree (b : bool) (x : db_entry_container) := Entry (en_key x) (en_c x) b (en_obj_released x) (en_obj x).
Definition put_released (b : bool) (x : db_entry_container) := Entry (en_key x) (en_c x) (en_intree x) b (en_obj x).
Definition put_obj (v : VALUE) (x : db_entry_container) := Entry (en_key x) (en_c x) (en_intree x) (en_obj_released x) v.

(** The containers and the copies of their keys, the database, the objects that were not
    collected, the queue, [load_state], and the next unused address and number. *)
Record server := Server {
  sv_entries : gmap loc db_entry_container;
  sv_strs : gmap loc string;
  sv_db : gmap string loc;
  sv_objs : gmap loc loc;
  sv_queue : list job;
  sv_load : bool;
  sv_brk : loc;
  sv_num : loc }.

Definition with_entries (m : gmap loc db_entry_container) (s : server) : server :=
  Server m (sv_strs s) (sv_db s) (sv_objs s) (sv_queue s) (sv_load s) (sv_brk s) (sv_num s).
Definition with_strs (m : gmap loc string) (s : server) : server :=
  Server (sv_entries s) m (sv_db s) (sv_objs s) (sv_queue s) (sv_load s) (sv_brk s) (sv_num s).
Definition with_db (m : gmap string loc) (s : server) : server :=
  Server (sv_entries s) (sv_strs s) m (sv_objs s) (sv_queue s) (sv_load s) (sv_brk s) (sv_num s).
Definition with_objs (m : gmap loc loc) (s : server) : server :=
  Server (sv_entries s) (sv_strs s) (sv_db s) m (sv_queue s) (sv_load s) (sv_brk s) (sv_num s).
Definition with_queue (js : list job) (s : server) : server :=
  Server (sv_entries s) (sv_strs s) (sv_db s) (sv_objs s) js (sv_load s) (sv_brk s) (sv_num s).
Definition with_load (b : bool) (s : server) : server :=
  Server (sv_entries s) (sv_strs s) (sv_db s) (sv_objs s) (sv_queue s) b (sv_brk s) (sv_num s).
Definition with_brk (a : loc) (s : server) : server :=
  Server (sv_entries s) (sv_strs s) (sv_db s) (sv_objs s) (sv_queue s) (sv_load s) a (sv_num s).
Definition with_num (v : loc) (s : server) : server :=
  Server (sv_entries s) (sv_strs s) (sv_db s) (sv_objs s) (sv_queue s) (sv_load s) (sv_brk s) v.

(** Before anything is stored. *)
Definition new_server (load_state : bool) : server := Server ∅ ∅ ∅ ∅ [] load_state 1 1.

Abbreviation M := (stm server).
Definition stuck {A} : M A := λ _, Stuck.

(** ** Memory, the database and the queue *)

Definition get_entry (e : loc) : M db_entry_container := λ s, x ← deref (sv_entries s !! e); Done (s, x).
Definition set_entry (e : loc) (f : db_entry_container → db_entry_container) : M () := λ s,
  x ← deref (sv_entries s !! e); Done (with_entries (<[e := f x]> (sv_entries s)) s, ()).
Definition new_entry (x : db_entry_container) : M loc := λ s,
  Done (with_brk (sv_brk s + 1) (with_entries (<[sv_brk s := x]> (sv_entries s)) s), sv_brk s).
Definition free_entry (e : loc) : M () := λ s,
  _ ← deref (sv_entries s !! e); Done (with_entries (delete e (sv_entries s)) s, ()).

(** [xfiredb_sprintf(&key, "%s", t)], and [xfiredb_free(key)], which takes [NULL]. *)
Definition new_key (t : string) : M loc := λ s,
  Done (with_brk (sv_brk s + 1) (with_strs (<[sv_brk s := t]> (sv_strs s)) s), sv_brk s).
Definition free_key (k : loc) : M () := λ s,
  if k =? NULL then Done (s, ())
  else _ ← deref (sv_strs s !! k); Done (with_strs (delete k (sv_strs s)) s, ()).
Definition key_text (k : loc) : M string := λ s, t ← deref (sv_strs s !! k); Done (s, t).

(** [Data_Wrap_Struct] and [Data_Get_Struct]. *)
Definition wrap_struct (e : loc) : M VALUE := λ s,
  Done (with_num (sv_num s + 1) (with_objs (<[sv_num s := e]> (sv_objs s)) s), RObj (sv_num s)).
Definition get_struct (self : loc) : M loc := λ s, e ← deref (sv_objs s !! self); Done (s, e).

Definition drop_obj (self : loc) : M () := λ s, Done (with_objs (delete self (sv_objs s)) s, ()).

Definition xfiredb_set_loadstate (b : bool) : M () := λ s, Done (with_load b s, ()).

(** Changes go to the queue when [load_state] is set. *)
Definition queue (js : list job) : M () := λ s,
  Done (with_queue (if sv_load s then sv_queue s ++ js else sv_queue s) s, ()).
(** [xfiredb_notice_disk], which copies its arguments. *)
Definition notice (op : bio_operation_t) (key : string) (arg new : option string) : M () :=
  queue [Job op key arg new].
(** [if(c->key) xfiredb_notice_disk(c->key, arg, new, op)] *)
Definition notice_key (op : bio_operation_t) (e : loc) (arg new : option string) : M () :=
  x ← get_entry e;
  if en_key x =? NULL then mret () else t ← key_text (en_key x); notice op t arg new.

(** [db_lookup], [db_delete] and [db_store]. *)
Definition db_find (key : string) : M (option loc) := λ s, Done (s, sv_db s !! key).
Definition db_remove (key : string) : M (option loc) := λ s, Done (with_db (delete key (sv_db s)) s, sv_db s !! key).
Definition db_put (key : string) (e : loc) : M Z := λ s,
  match sv_db s !! key with
  | Some _ => Done (s, - XFIREDB_ERR)
  | None => Done (with_db (<[key := e]> (sv_db s)) s, - XFIREDB_OK)
  end.

Section Objects.
(** The order in which the keys of a hash map or a set are met. *)
Context (order : gset string → list string).

(** ** Emptying containers *)

(** The loop of [raw_rb_list_clear]. *)
Fixpoint clear_items (e : loc) (l : list string) (n : Z) : M () :=
  match l with
  | [] => mret ()
  | t :: l =>
      _ ← set_entry e (put_c (VList l, n));
      _ ← notice_key LIST_DEL e (Some t) None;
      clear_items e l n
  end.
Definition raw_rb_list_clear (e : loc) : M () :=
  x ← get_entry e;
  match en_c x with (VList l, n) => clear_items e l n | _ => stuck end.

(** The loop of [rb_hashmap_remove]; [hashmap_iterator_delete] keeps the counter. *)
Fixpoint remove_items (e : loc) (h : gmap string string) (ks : list string) (n : Z) : M () :=
  match ks with
  | [] => mret ()
  | k :: ks =>
      _ ← notice_key HM_DEL e (Some k) None;
      _ ← set_entry e (put_c (VHashmap (delete k h), n));
      remove_items e (delete k h) ks n
  end.
Definition rb_hashmap_remove (e : loc) : M () :=
  x ← get_entry e;
  match en_c x with (VHashmap h, n) => remove_items e h (order (dom h)) n | _ => stuck end.

(** [for_each_set] of [rb_set_remove]; [set_clear] keeps the counter. *)
Fixpoint notice_all (op : bio_operation_t) (e : loc) (ks : list string) : M () :=
  match ks with
  | [] => mret ()
  | k :: ks => _ ← notice_key op e (Some k) None; notice_all op e ks
  end.
Definition rb_set_remove (e : loc) : M () :=
  x ← get_entry e;
  match en_c x with
  | (VSet X, n) =>
      _ ← (if en_key x =? NULL then mret () else notice_all SET_DEL e (order X));
      set_entry e (put_c (VSet ∅, n))
  | _ => stuck
  end.

(** ** Releasing containers *)

(** [container_destroy(&container->c); xfiredb_free(container->key);
    xfiredb_free(container);] *)
Definition destroy_entry (e : loc) : M () :=
  x ← get_entry e;
  _ ← free_key (en_key x);
  free_entry e.

(** When a key is deleted: the container goes if its object is gone. *)
Definition free_with (clear : loc → M ()) (e : loc) : M () :=
  _ ← clear e;
  x ← get_entry e;
  if en_obj_released x && negb (en_intree x) then destroy_entry e else mret ().
Definition rb_list_free : loc → M () := free_with raw_rb_list_clear.
Definition rb_hashmap_free : loc → M () := free_with rb_hashmap_remove.
Definition rb_set_free : loc → M () := free_with rb_set_remove.

(** When the collector takes the object: the container goes if it is not in the
    database. *)
Definition release_with (clear : loc → M ()) (e : loc) : M () :=
  _ ← set_entry e (put_released true);
  x ← get_entry e;
  if negb (en_intree x) then _ ← clear e; destroy_entry e else mret ().
Definition rb_list_release : loc → M () := release_with raw_rb_list_clear.
Definition rb_hashmap_release : loc → M () := release_with rb_hashmap_remove.
Definition rb_set_release : loc → M () := release_with rb_set_remove.

(** The collector takes an object and calls [release] of its type. *)
Definition collect (v : loc) : M VALUE :=
  e ← get_struct v;
  _ ← drop_obj v;
  x ← get_entry e;
  _ ← match en_c x with
      | (VList _, _) => rb_list_release e
      | (VHashmap _, _) => rb_hashmap_release e
      | (VSet _, _) => rb_set_release e
      | (VString _, _) => stuck
      end;
  mret Qnil.

(** ** Lists *)

(** [container_init] of a new container, with its object; [rb_set_alloc] leaves [obj]
    zero, which is [Qfalse]. *)
Definition rb_list_alloc : M VALUE :=
  e ← new_entry (Entry NULL (VList [], 0) false false Qfalse);
  v ← wrap_struct e;
  _ ← set_entry e (put_obj v);
  mret v.

(** What the methods see of the container. *)
Definition get_list (e : loc) : M (list string * Z) :=
  x ← get_entry e; match en_c x with (VList l, n) => mret (l, n) | _ => stuck end.
Definition get_hashmap (e : loc) : M (gmap string string * Z) :=
  x ← get_entry e; match en_c x with (VHashmap h, n) => mret (h, n) | _ => stuck end.
Definition get_set (e : loc) : M (gset string * Z) :=
  x ← get_entry e; match en_c x with (VSet X, n) => mret (X, n) | _ => stuck end.

Definition rb_list_push (self : loc) (data : string) : M VALUE :=
  e ← get_struct self;
  _ ← notice_key LIST_ADD e None (Some data);
  '(l, n) ← get_list e;
  _ ← set_entry e (put_c (VList (l ++ [data]), n));
  mret (RObj self).

Definition rb_list_clear (self : loc) : M VALUE :=
  e ← get_struct self;
  _ ← raw_rb_list_clear e;
  mret (RObj self).

Definition rb_list_length (self : loc) : M VALUE :=
  e ← get_struct self;
  '(l, _) ← get_list e;
  mret (RInt (s32 (Z.of_nat (length l)))).

(** [list_ref]: how far into the list the entry at [idx] is. *)
Fixpoint list_ref_loop (l : list string) (counter idx : Z) (i : nat) : option nat :=
  match l with
  | [] => None
  | _ :: l => if counter =? idx then Some i else list_ref_loop l (counter + 1) idx (S i)
  end.
Definition list_ref (l : list string) (idx : Z) : option nat := list_ref_loop l 0 idx 0.

Definition rb_list_set (self : loc) (idx : Z) (data : string) : M VALUE :=
  e ← get_struct self;
  '(l, n) ← get_list e;
  match list_ref l idx with
  | None => mret Qnil
  | Some i =>
      _ ← notice_key LIST_UPDATE e (l !! i) (Some data);
      _ ← set_entry e (put_c (VList (<[i := data]> l), n));
      mret (RString data)
  end.

Definition rb_list_pop (self : loc) (idx : Z) : M VALUE :=
  e ← get_struct self;
  '(l, n) ← get_list e;
  match list_ref l idx with
  | None => mret Qnil
  | Some i =>
      _ ← set_entry e (put_c (VList (delete i l), n));
      _ ← notice_key LIST_DEL e (l !! i) None;
      mret (RString (default "" (l !! i)))
  end.

Definition rb_list_ref (self : loc) (idx : Z) : M VALUE :=
  e ← get_struct self;
  '(l, _) ← get_list e;
  match list_ref l idx with
  | None => mret Qnil
  | Some i => mret (RString (default "" (l !! i)))
  end.

(** [rb_list_each] with a block: the length is read again after each round. *)
Fixpoint rb_list_each (fuel : nat) (self : loc) (i : Z) (block : VALUE → M ()) : M VALUE :=
  match fuel with
  | O => λ _, OutOfFuel
  | S fuel =>
      n ← rb_list_length self;
      match n with
      | RInt n =>
          if i <? n then
            r ← rb_list_ref self i;
            _ ← block r;
            rb_list_each fuel self (i + 1) block
          else mret (RObj self)
      | _ => stuck
      end
  end.

(** ** Hash maps *)

Definition rb_hashmap_alloc : M VALUE :=
  e ← new_entry (Entry NULL (VHashmap ∅, atomic_init) false false Qfalse);
  v ← wrap_struct e;
  _ ← set_entry e (put_obj v);
  mret v.

Definition rb_hashmap_size (self : loc) : M VALUE :=
  e ← get_struct self;
  '(_, n) ← get_hashmap e;
  mret (RInt (atomic_get n)).

Definition rb_hashmap_clear (self : loc) : M VALUE :=
  e ← get_struct self;
  _ ← rb_hashmap_remove e;
  mret (RObj self).

(** [block] is the block that was given, if any. *)
Definition rb_hashmap_delete (self : loc) (key : string) (block : option (VALUE → M VALUE)) : M VALUE :=
  e ← get_struct self;
  '(h, n) ← get_hashmap e;
  match h !! key, block with
  | None, Some block => block (RString key)
  | None, None => mret Qnil
  | Some data, _ =>
      _ ← set_entry e (put_c (VHashmap (delete key h), atomic_dec n));
      _ ← notice_key HM_DEL e (Some key) None;
      mret (RString data)
  end.

Definition rb_hashmap_ref (self : loc) (key : string) : M VALUE :=
  e ← get_struct self;
  '(h, _) ← get_hashmap e;
  match h !! key with
  | None => mret Qnil
  | Some data => mret (RString data)
  end.

Definition rb_hashmap_store (self : loc) (key data : string) : M VALUE :=
  e ← get_struct self;
  '(h, n) ← get_hashmap e;
  match h !! key with
  | None =>
      _ ← set_entry e (put_c (VHashmap (<[key := data]> h), atomic_inc n));
      _ ← notice_key HM_ADD e (Some key) (Some data);
      mret (RString data)
  | Some _ =>
      _ ← set_entry e (put_c (VHashmap (<[key := data]> h), n));
      _ ← notice_key HM_UPDATE e (Some key) (Some data);
      mret (RString data)
  end.

(** ** Sets *)

Definition rb_set_alloc : M VALUE :=
  e ← new_entry (Entry NULL (VSet ∅, atomic_init) false false Qfalse);
  wrap_struct e.

Definition rb_set_add (self : loc) (key : string) : M VALUE :=
  e ← get_struct self;
  '(X, n) ← get_set e;
  if decide (key ∈ X) then mret Qnil
  else
    _ ← set_entry e (put_c (VSet ({[key]} ∪ X), atomic_inc n));
    _ ← notice_key SET_ADD e (Some key) None;
    mret (RString key).

Definition rb_set_remove_key (self : loc) (key : string) : M VALUE :=
  e ← get_struct self;
  '(X, n) ← get_set e;
  if decide (key ∈ X) then
    _ ← set_entry e (put_c (VSet (X ∖ {[key]}), atomic_dec n));
    _ ← notice_key SET_DEL e (Some key) None;
    mret (RString key)
  else mret Qnil.

Definition rb_set_clear (self : loc) : M VALUE :=
  e ← get_struct self;
  _ ← rb_set_remove e;
  mret (RObj self).

Definition rb_set_include (self : loc) (key : string) : M VALUE :=
  e ← get_struct self;
  '(X, _) ← get_set e;
  mret (if decide (key ∈ X) then Qtrue else Qfalse).

Definition rb_set_size (self : loc) : M VALUE :=
  e ← get_struct self;
  '(_, n) ← get_set e;
  mret (RInt (atomic_get n)).

(** ** The database *)

(** [rb_container_to_obj]: an object that was collected is made again. *)
Definition rb_container_to_obj (e : loc) : M VALUE :=
  x ← get_entry e;
  _ ← (if en_obj_released x then
         v ← wrap_struct e;
         _ ← set_entry e (put_obj v);
         set_entry e (put_released false)
       else mret ());
  x ← get_entry e;
  mret (en_obj x).

(** The text of a string, or the object. *)
Definition entry_value (e : loc) : M VALUE :=
  x ← get_entry e;
  match en_c x with
  | (VString t, _) => mret (RString t)
  | _ => rb_container_to_obj e
  end.

Definition rb_db_ref (key : string) : M VALUE :=
  o ← db_find key;
  match o with
  | None => mret Qnil
  | Some e => entry_value e
  end.

Definition rb_db_size : M VALUE := λ s, Done (s, RInt (Z.of_nat (size (sv_db s)))).

(** The write to [obj] at the end comes after the container may be gone. *)
Definition raw_rb_db_delete (e : loc) : M () :=
  _ ← set_entry e (put_intree false);
  x ← get_entry e;
  match en_c x with
  | (VString _, _) =>
      t ← key_text (en_key x);
      _ ← notice STRING_DEL t None None;
      destroy_entry e
  | (VList _, _) => _ ← rb_list_free e; set_entry e (put_obj Qnil)
  | (VHashmap _, _) => _ ← rb_hashmap_free e; set_entry e (put_obj Qnil)
  | (VSet _, _) => _ ← rb_set_free e; set_entry e (put_obj Qnil)
  end.

(** [xfiredb_store_container]. *)
Definition jobs_of (key : string) (v : value) : list job :=
  match v with
  | VString t => [Job STRING_ADD key None (Some t)]
  | VList l => list_add_job key <$> l
  | VHashmap h => (λ k, Job HM_ADD key (Some k) (h !! k)) <$> order (dom h)
  | VSet X => set_add_job key <$> order X
  end.
Definition store_container (key : string) (e : loc) : M () :=
  x ← get_entry e;
  queue (jobs_of key (en_c x).1).

(** The new container of a string, or that of an object; [Data_Get_Struct] raises a
    [TypeError] for what is neither. *)
Definition store_entry (data : VALUE) : M (option loc) :=
  match data with
  | RString t => e ← new_entry (Entry NULL (VString t, 0) false false Qnil); mret (Some e)
  | RObj v =>
      e ← get_struct v;
      _ ← set_entry e (put_obj data);
      _ ← set_entry e (put_intree true);
      mret (Some e)
  | _ => mret None
  end.
Definition insert_entry (key : string) (e : loc) (data : VALUE) : M VALUE :=
  k ← new_key key;
  _ ← set_entry e (put_key k);
  rv ← db_put key e;
  if rv =? - XFIREDB_OK then _ ← store_container key e; mret data
  else _ ← set_entry e (put_intree false); mret Qnil.

(** What becomes of the container that was deleted, and whether it is used again: a text
    over a text is changed in place. *)
Definition replace_entry (key : string) (e : loc) (data : VALUE) : M (option VALUE) :=
  x ← get_entry e;
  if decide (en_obj x = data) then mret None
  else
    match en_c x, data with
    | (VString _, n), RString t =>
        _ ← set_entry e (put_c (VString t, n));
        _ ← notice STRING_UPDATE key None (Some t);
        rv ← db_put key e;
        mret (Some (if rv =? - XFIREDB_OK then data else Qnil))
    | _, _ => _ ← raw_rb_db_delete e; mret None
    end.

Definition store_new (key : string) (data : VALUE) : M (option VALUE) :=
  e ← store_entry data;
  match e with
  | None => mret None
  | Some e => v ← insert_entry key e data; mret (Some v)
  end.

(** [None] when the call raises. *)
Definition rb_db_store (key : string) (data : VALUE) : M (option VALUE) :=
  o ← db_remove key;
  rv ← match o with None => mret None | Some e => replace_entry key e data end;
  match rv with
  | Some rv => mret (Some rv)
  | None => store_new key data
  end.

Definition rb_db_delete (key : string) : M VALUE :=
  o ← db_remove key;
  match o with
  | None => mret Qnil
  | Some e => _ ← raw_rb_db_delete e; mret (RString key)
  end.

(** [rb_db_each_pair] with a block that at most deletes the key it is given; the
    iterator meets the keys in the order [ks]. *)
Fixpoint rb_db_each_pair (ks : list string) (block : string → VALUE → M ()) : M () :=
  match ks with
  | [] => mret ()
  | key :: ks =>
      o ← db_find key;
      match o with
      | None => rb_db_each_pair ks block
      | Some e =>
          v ← entry_value e;
          _ ← block key v;
          rb_db_each_pair ks block
      end
  end.
End Objects.
