(* ===== verification/RbLog.v ===== *)
(** * The log of the server: [ext/xfiredb-serv/log.c], [lib/xfiredb-serv/log.rb]

    The server writes its messages with [Log.write], which hands the text to [raw_xfiredb_log]
    of [log.c] as a format.  The Ruby interface is as in [RbObjects]: a method raises when
    it returns [None]. *)
From Stdlib Require Import Ascii.
From S2P Require Import Prelude Log RbObjects.
Local Open Scope Z_scope.

(** ** Methods *)

(** [StringValueCStr]: a string without a NUL character. *)
Definition has_nul (t : string) : bool := bool_decide (0 ∈ bytes t).
Definition StringValueCStr (v : VALUE) : option string :=
  match v with RString t => if has_nul t then None else Some t | _ => None end.

Definition rb_log_msg (klass msg : VALUE) (s : logger) : outcome (logger * option VALUE) :=
  match StringValueCStr msg with
  | None => Done (s, None)
  | Some log => s ← raw_xfiredb_log log s; Done (s, Some klass)
  end.

Definition rb_log_msg2 (args : list VALUE) (self : VALUE) (s : logger) : outcome (logger * option VALUE) :=
  let argc := Z.of_nat (length args) in
  if (argc <? 1) || (3 <? argc) then Done (s, None)
  else
    match args !! 0%nat ≫= StringValueCStr with
    | None => Done (s, None)
    | Some msg =>
        let error := if argc <? 2 then false else bool_decide (args !! 1%nat = Some Qtrue) in
        let console := if argc <? 3 then false else bool_decide (args !! 2%nat = Some Qtrue) in
        s ← (if error then raw_xfiredb_log_err msg s
             else if console then raw_xfiredb_log_console msg s
             else raw_xfiredb_log msg s);
        Done (s, Some self)
    end.

(** ** Messages of the server *)

Section Messages.
(** The class [XFireDB::Log]. *)
Context (klass : VALUE).

Definition log_write (text : string) (s : logger) : outcome (logger * option VALUE) := rb_log_msg2 [RString text] klass s.

Definition LOG_SERVER : string := "[server]: ".

(** A call that raises ends the method. *)
Definition connecting_client (client : string) (user : option string) (s : logger) : outcome (logger * option VALUE) :=
  '(s, r) ← log_write (LOG_SERVER +:+ "Client [" +:+ client +:+ "] connected") s;
  match r, user with
  | None, _ => Done (s, None)
  | Some _, None => Done (s, Some Qnil)
  | Some _, Some user => log_write (" (authenticated as " +:+ user +:+ ")" +:+ newline) s
  end.

Definition auth_fail (ip user : string) (s : logger) : outcome (logger * option VALUE) :=
  log_write (LOG_SERVER +:+ "Client [" +:+ ip +:+ "] failed to authenticate as " +:+ user +:+ newline) s.

(** ** Texts as formats *)

(** Every [%] is followed by another, and what is printed then. *)
Fixpoint plain (t : string) : bool :=
  match t with
  | EmptyString => true
  | String "%"%char (String "%"%char t) => plain t
  | String "%"%char _ => false
  | String _ t => plain t
  end.
Fixpoint single (t : string) : string :=
  match t with
  | EmptyString => EmptyString
  | String "%"%char (String "%"%char t) => String "%"%char (single t)
  | String c t => String c (single t)
  end.

(** Induction over a text, a pair of characters at a time. *)
Lemma text_pair_ind (P : string → Prop) :
  P "" → (∀ c, P (String c "")) → (∀ c c' t, P t → P (String c' t) → P (String c (String c' t))) → ∀ t, P t.
Proof.
  intros H0 H1 H2 t. enough (P t ∧ ∀ c, P (String c t)) by by destruct H. induction t as [|c t [IH1 IH2]]; [done|]. split; [done|].
  intros c0. by apply H2.
Qed.

Lemma plain_cons c t : c ≠ "%"%char → plain (String c t) = plain t.
Proof. by destruct c as [[] [] [] [] [] [] [] []]. Qed.
Lemma single_cons c t : c ≠ "%"%char → single (String c t) = String c (single t).
Proof. by destruct c as [[] [] [] [] [] [] [] []]. Qed.
Lemma printf_cons c t args : c ≠ "%"%char → printf (String c t) args = (u ← printf t args; Done (String c u)).
Proof. by destruct c as [[] [] [] [] [] [] [] []]. Qed.

Lemma printf_plain t : printf t [] = if plain t then Done (single t) else Stuck.
Proof.
  induction t as [|c|c c' t IH1 IH2] using text_pair_ind; [done| |].
  - destruct (decide (c = "%"%char)) as [->|Hc]; [done|]. by rewrite printf_cons, plain_cons, single_cons.
  - destruct (decide (c = "%"%char)) as [->|Hc].
    + destruct c' as [[] [] [] [] [] [] [] []]; try done. cbn [printf plain single]. rewrite IH1. by destruct (plain t).
    + rewrite printf_cons, plain_cons, single_cons, IH2 by done. by destruct (plain (String c' t)).
Qed.

(** A text before a character that is not [%]. *)
Lemma plain_app a c b : c ≠ "%"%char → plain (a +:+ String c b) = plain a && plain b.
Proof.
  intros Hc. induction a as [|d|d d' a IH1 IH2] using text_pair_ind; [by apply plain_cons| |].
  - change (String d "" +:+ String c b) with (String d (String c b)). destruct (decide (d = "%"%char)) as [->|Hd].
    + by destruct c as [[] [] [] [] [] [] [] []].
    + by rewrite !plain_cons.
  - change (String d (String d' a) +:+ String c b) with (String d (String d' (a +:+ String c b))).
    change (String d' a +:+ String c b) with (String d' (a +:+ String c b)) in IH2. destruct (decide (d = "%"%char)) as [->|Hd].
    + by destruct d' as [[] [] [] [] [] [] [] []].
    + by rewrite !(plain_cons d).
Qed.
Lemma single_app a c b : c ≠ "%"%char → plain a = true → single (a +:+ String c b) = single a +:+ String c (single b).
Proof.
  intros Hc. induction a as [|d|d d' a IH1 IH2] using text_pair_ind; [by rewrite <-(single_cons c)| |].
  - destruct (decide (d = "%"%char)) as [->|Hd]; [done|]. intros _. change (String d "" +:+ String c b) with (String d (String c b)).
    by rewrite !single_cons.
  - change (String d (String d' a) +:+ String c b) with (String d (String d' (a +:+ String c b))).
    change (String d' a +:+ String c b) with (String d' (a +:+ String c b)) in IH2. destruct (decide (d = "%"%char)) as [->|Hd].
    + destruct d' as [[] [] [] [] [] [] [] []]; try done. cbn [plain single]. intros H. by rewrite IH1.
    + rewrite !(single_cons d), plain_cons by done. intros H. by rewrite IH2.
Qed.
End Messages.

(** ** Failed logins *)

Lemma has_nul_app a b : has_nul (a +:+ b) = has_nul a || has_nul b.
Proof. unfold has_nul. rewrite bytes_app. apply eq_bool_prop_intro. rewrite orb_True, !bool_decide_spec. apply elem_of_app. Qed.

Definition auth_fail_text (ip user : string) : string :=
  LOG_SERVER +:+ "Client [" +:+ ip +:+ "] failed to authenticate as " +:+ user +:+ newline.

Lemma auth_fail_text_has_nul ip user : has_nul ip = false → has_nul user = false → has_nul (auth_fail_text ip user) = false.
Proof. intros Hip Huser. unfold auth_fail_text. by rewrite !has_nul_app, Hip, Huser. Qed.

Lemma auth_fail_text_plain ip user : plain (auth_fail_text ip user) = plain ip && plain user.
Proof.
  unfold auth_fail_text.
  change (plain (LOG_SERVER +:+ ?x)) with (plain x). change (plain ("Client [" +:+ ?x)) with (plain x).
  change ("] failed to authenticate as " +:+ ?x) with (String "]"%char (" failed to authenticate as " +:+ x)).
  rewrite plain_app by done. change (plain (" failed to authenticate as " +:+ ?x)) with (plain x).
  unfold newline. rewrite plain_app by done. by rewrite andb_true_r.
Qed.

Lemma auth_fail_text_single ip user : plain ip = true → plain user = true →
  single (auth_fail_text ip user) = auth_fail_text (single ip) (single user).
Proof.
  intros Hip Huser. unfold auth_fail_text.
  change (single (LOG_SERVER +:+ ?x)) with (LOG_SERVER +:+ single x). change (single ("Client [" +:+ ?x)) with ("Client [" +:+ single x).
  change ("] failed to authenticate as " +:+ ?x) with (String "]"%char (" failed to authenticate as " +:+ x)).
  rewrite single_app by done. change (single (" failed to authenticate as " +:+ ?x)) with (" failed to authenticate as " +:+ single x).
  unfold newline. by rewrite single_app.
Qed.

(** C9: the name of a login that fails is taken for a format.  The name comes from a client
    that has not authenticated.  If every [%] of it is doubled, the message is logged, with
    one [%] for two; with any other [%] the server's behaviour is undefined. *)
Theorem auth_fail_formats klass ip user name t s :
  has_nul ip = false → has_nul user = false → stream_at (lg_out s) name t t s → lg_out s ≠ STDERR →
  if plain ip && plain user then
    ∃ s' t', t' = t +:+ auth_fail_text (single ip) (single user) ∧
      auth_fail klass ip user s = Done (s', Some klass) ∧ stream_at (lg_out s') name t' t' s'
  else auth_fail klass ip user s = Stuck.
Proof.
  intros Hip Huser Hs Ho.
  assert (auth_fail klass ip user s = (s ← raw_xfiredb_log (auth_fail_text ip user) s; Done (s, Some klass))) as E.
  { unfold auth_fail, log_write, rb_log_msg2. change (LOG_SERVER +:+ _) with (auth_fail_text ip user). cbn [length lookup list_lookup mbind option_bind StringValueCStr].
    by rewrite auth_fail_text_has_nul. }
  pose proof (printf_plain (auth_fail_text ip user)) as Hp. rewrite auth_fail_text_plain in Hp.
  rewrite E. unfold raw_xfiredb_log. destruct (plain ip && plain user) eqn:Hpl.
  - apply andb_true_iff in Hpl as [Hi Hu]. rewrite auth_fail_text_single in Hp by done.
    destruct (fprintf_at (lg_out s) name t t s _ _ _ Hs Ho Hp) as (s1 & E1 & H1 & Hon1).
    destruct (fflush_at _ _ _ _ _ H1) as (s2 & E2 & H2 & Hon2). exists s2. eexists. split; [done|].
    rewrite E1. cbn [mbind outcome_bind]. rewrite (oa_out _ _ _ _ Hon1), E2. split; [done|].
    by rewrite (oa_out _ _ _ _ Hon2), (oa_out _ _ _ _ Hon1).
  - unfold fprintf. destruct Hs as (b & Hf & _). rewrite Hf. cbn [deref mbind outcome_bind]. by rewrite Hp.
Qed.

Definition demo_server : logger :=
  default (log_start ∅) (match xfiredb_log_init (λ _, true) (Some "xfiredb.stdout") (Some "xfiredb.stderr") (log_start ∅) with Done s => Some s | _ => None end).

Lemma auth_fail_formats_witness :
  auth_fail Qnil "10.0.0.7" "%n%n" demo_server = Stuck ∧
  ∃ s' t', t' = "[server]: Client [10.0.0.7] failed to authenticate as 100%" +:+ newline ∧
    auth_fail Qnil "10.0.0.7" "100%%" demo_server = Done (s', Some Qnil) ∧ stream_at (lg_out s') "xfiredb.stdout" t' t' s'.
Proof.
  assert (stream_at (lg_out demo_server) "xfiredb.stdout" "" "" demo_server) as Hs by by (exists ""; split_and!; vm_compute).
  split.
  - exact (auth_fail_formats Qnil "10.0.0.7" "%n%n" "xfiredb.stdout" "" demo_server eq_refl eq_refl Hs ltac:(done)).
  - exact (auth_fail_formats Qnil "10.0.0.7" "100%%" "xfiredb.stdout" "" demo_server eq_refl eq_refl Hs ltac:(done)).
Defined.
