(* ===== verification/RbSpec.v ===== *)
(** * What the Ruby objects promise

    [world] is what a Ruby program knows: the values in the database, the objects it can
    hold, and which of them stand for a value in the database.  [rb_spec] says what a call
    returns, what the world is afterwards and which changes are queued.  The runs of the
    methods are below; [RbLifetimes] shows that the containers keep up with the world. *)
From S2P Require Import Prelude Atomic Dict Bio BioSpec Container Engine EngineSpec EngineLists EngineStore RbObjects.
Local Open Scope Z_scope.

(** ** The methods of an object *)

Inductive method :=
  | LPush (t : string) | LPop (i : Z) | LRef (i : Z) | LSet (i : Z) (t : string) | LLength | LClear
  | HStore (k t : string) | HRef (k : string) | HDelete (k : string) | HSize | HClear
  | SAdd (k : string) | SRemove (k : string) | SInclude (k : string) | SSize | SClear.

(** A change without its key. *)
Abbreviation change := (bio_operation_t * option string * option string)%type.
Definition job_at (key : string) (ch : change) : job := Job ch.1.1 key ch.1.2 ch.2.
Definition jobs_at (key : option string) (chs : list change) : list job :=
  match key with Some key => job_at key <$> chs | None => [] end.

Definition index_at (l : list string) (i : Z) : option nat :=
  if decide (0 ≤ i < Z.of_nat (length l)) then Some (Z.to_nat i) else None.

Definition is_string (v : value) : bool := match v with VString _ => true | _ => false end.

(** A container without its entries; the counter stays. *)
Definition cleared (c : contents) : contents :=
  (match c.1 with VString t => VString t | VList _ => VList [] | VHashmap _ => VHashmap ∅ | VSet _ => VSet ∅ end, c.2).

Section Spec.
Context (order : gset string → list string).

Definition clear_changes (c : contents) : list change :=
  match c.1 with
  | VString _ => []
  | VList l => (λ t, (LIST_DEL, Some t, None)) <$> l
  | VHashmap h => (λ k, (HM_DEL, Some k, None)) <$> order (dom h)
  | VSet X => (λ k, (SET_DEL, Some k, None)) <$> order X
  end.

(** What a method returns, the contents afterwards and the changes; [None] when the
    object has no such method. *)
Definition method_spec (m : method) (self : loc) (c : contents) : option (VALUE * contents * list change) :=
  match m, c with
  | LPush t, (VList l, n) => Some (RObj self, (VList (l ++ [t]), n), [(LIST_ADD, None, Some t)])
  | LPop i, (VList l, n) =>
      Some (match index_at l i with
            | Some j => (RString (default "" (l !! j)), (VList (delete j l), n), [(LIST_DEL, l !! j, None)])
            | None => (Qnil, c, [])
            end)
  | LRef i, (VList l, n) =>
      Some (match index_at l i with Some j => RString (default "" (l !! j)) | None => Qnil end, c, [])
  | LSet i t, (VList l, n) =>
      Some (match index_at l i with
            | Some j => (RString t, (VList (<[j := t]> l), n), [(LIST_UPDATE, l !! j, Some t)])
            | None => (Qnil, c, [])
            end)
  | LLength, (VList l, n) => Some (RInt (s32 (Z.of_nat (length l))), c, [])
  | HStore k t, (VHashmap h, n) =>
      Some (match h !! k with
            | None => (RString t, (VHashmap (<[k := t]> h), atomic_inc n), [(HM_ADD, Some k, Some t)])
            | Some _ => (RString t, (VHashmap (<[k := t]> h), n), [(HM_UPDATE, Some k, Some t)])
            end)
  | HRef k, (VHashmap h, n) => Some (match h !! k with Some t => RString t | None => Qnil end, c, [])
  | HDelete k, (VHashmap h, n) =>
      Some (match h !! k with
            | Some t => (RString t, (VHashmap (delete k h), atomic_dec n), [(HM_DEL, Some k, None)])
            | None => (Qnil, c, [])
            end)
  | HSize, (VHashmap h, n) => Some (RInt n, c, [])
  | SAdd k, (VSet X, n) =>
      Some (if decide (k ∈ X) then (Qnil, c, [])
            else (RString k, (VSet ({[k]} ∪ X), atomic_inc n), [(SET_ADD, Some k, None)]))
  | SRemove k, (VSet X, n) =>
      Some (if decide (k ∈ X) then (RString k, (VSet (X ∖ {[k]}), atomic_dec n), [(SET_DEL, Some k, None)])
            else (Qnil, c, []))
  | SInclude k, (VSet X, n) => Some (if decide (k ∈ X) then Qtrue else Qfalse, c, [])
  | SSize, (VSet X, n) => Some (RInt n, c, [])
  | LClear, (VList _, _) | HClear, (VHashmap _, _) | SClear, (VSet _, _) =>
      Some (RObj self, cleared c, clear_changes c)
  | _, _ => None
  end.

Definition run_method (m : method) (self : loc) : M VALUE :=
  match m with
  | LPush t => rb_list_push self t | LPop i => rb_list_pop self i | LRef i => rb_list_ref self i
  | LSet i t => rb_list_set self i t | LLength => rb_list_length self | LClear => rb_list_clear self
  | HStore k t => rb_hashmap_store self k t | HRef k => rb_hashmap_ref self k
  | HDelete k => rb_hashmap_delete self k None | HSize => rb_hashmap_size self | HClear => rb_hashmap_clear order self
  | SAdd k => rb_set_add self k | SRemove k => rb_set_remove_key self k | SInclude k => rb_set_include self k
  | SSize => rb_set_size self | SClear => rb_set_clear order self
  end.

(** ** The world and the calls *)

(** An object stands for the value at a key, or has its own: one that was never stored,
    or that was stored under a key that is deleted. *)
Inductive holder := At (key : string) | Own (old : option string) (c : contents).
#[export] Instance holder_eq_dec : EqDecision holder.
Proof. assert (EqDecision value) by solve_decision. solve_decision. Defined.

Record world := World {
  w_db : gmap string contents;
  w_obj : gmap loc holder;
  w_load : bool;
  w_num : loc }.
Definition new_world (load_state : bool) : world := World ∅ ∅ load_state 1.

Definition obj_at (w : world) (key : string) : option loc :=
  fst <$> head (filter (λ p, p.2 = At key) (map_to_list (w_obj w))).

Definition w_get (w : world) (v : loc) : option contents :=
  match w_obj w !! v with Some (At key) => w_db w !! key | Some (Own _ c) => Some c | None => None end.
Definition w_key (w : world) (v : loc) : option string :=
  match w_obj w !! v with Some (At key) => Some key | Some (Own old _) => old | None => None end.
Definition w_put (w : world) (v : loc) (c : contents) : world :=
  match w_obj w !! v with
  | Some (At key) => World (<[key := c]> (w_db w)) (w_obj w) (w_load w) (w_num w)
  | Some (Own old _) => World (w_db w) (<[v := Own old c]> (w_obj w)) (w_load w) (w_num w)
  | None => w
  end.
Definition w_store (key : string) (c : contents) (w : world) : world :=
  World (<[key := c]> (w_db w)) (w_obj w) (w_load w) (w_num w).
Definition w_hold (v : loc) (h : holder) (w : world) : world :=
  World (w_db w) (<[v := h]> (w_obj w)) (w_load w) (w_num w).
Definition w_new (h : holder) (w : world) : world :=
  World (w_db w) (<[w_num w := h]> (w_obj w)) (w_load w) (w_num w + 1).

Inductive call :=
  | ListNew | HashmapNew | SetNew
  | Call (v : loc) (m : method)
  | DbStore (key : string) (data : VALUE)
  | DbRef (key : string)
  | DbDelete (key : string)
  | DbSize
  | Collect (v : loc)
  | SetLoad (b : bool).

(** The result of a call; [None] when it raises. *)
Definition run_call (c : call) : M (option VALUE) :=
  match c with
  | ListNew => r ← rb_list_alloc; mret (Some r)
  | HashmapNew => r ← rb_hashmap_alloc; mret (Some r)
  | SetNew => r ← rb_set_alloc; mret (Some r)
  | Call v m => r ← run_method m v; mret (Some r)
  | DbStore key data => rb_db_store order key data
  | DbRef key => r ← rb_db_ref key; mret (Some r)
  | DbDelete key => r ← rb_db_delete order key; mret (Some r)
  | DbSize => r ← rb_db_size; mret (Some r)
  | Collect v => r ← collect order v; mret (Some r)
  | SetLoad b => _ ← xfiredb_set_loadstate b; mret (Some Qnil)
  end.

(** Deleting what is at a key: an object that stands for it keeps an empty container. *)
Definition delete_spec (w : world) (key : string) : world * list job :=
  match w_db w !! key with
  | None => (w, [])
  | Some c =>
      (World (delete key (w_db w)) ((λ h, if decide (h = At key) then Own (Some key) (cleared c) else h) <$> w_obj w)
         (w_load w) (w_num w),
       if is_string c.1 then [Job STRING_DEL key None None] else job_at key <$> clear_changes c)
  end.

Definition rb_spec (w : world) (c : call) : VALUE * world * list job :=
  match c with
  | ListNew => (RObj (w_num w), w_new (Own None (VList [], 0)) w, [])
  | HashmapNew => (RObj (w_num w), w_new (Own None (VHashmap ∅, 0)) w, [])
  | SetNew => (RObj (w_num w), w_new (Own None (VSet ∅, 0)) w, [])
  | Call v m =>
      match w_get w v ≫= method_spec m v with
      | Some (r, c', chs) => (r, w_put w v c', jobs_at (w_key w v) chs)
      | None => (Qnil, w, [])
      end
  | DbStore key data =>
      let '(w', js) := delete_spec w key in
      match data, w_db w !! key with
      | RString t, Some (VString _, n) => (data, w_store key (VString t, n) w, [Job STRING_UPDATE key None (Some t)])
      | RString t, _ => (data, w_store key (VString t, 0) w', js ++ [Job STRING_ADD key None (Some t)])
      | RObj v, _ =>
          match w_obj w !! v with
          | Some (Own _ c) => (data, w_store key c (w_hold v (At key) w'), js ++ jobs_of order key c.1)
          | _ => (Qnil, w, [])
          end
      | _, _ => (Qnil, w, [])
      end
  | DbRef key =>
      match w_db w !! key, obj_at w key with
      | None, _ => (Qnil, w, [])
      | Some (VString t, _), _ => (RString t, w, [])
      | Some _, Some v => (RObj v, w, [])
      | Some _, None => (RObj (w_num w), w_new (At key) w, [])
      end
  | DbDelete key =>
      let '(w', js) := delete_spec w key in
      (if decide (is_Some (w_db w !! key)) then RString key else Qnil, w', js)
  | DbSize => (RInt (Z.of_nat (size (w_db w))), w, [])
  | Collect v =>
      (Qnil, World (w_db w) (delete v (w_obj w)) (w_load w) (w_num w),
       match w_obj w !! v with Some (Own old c) => jobs_at old (clear_changes c) | _ => [] end)
  | SetLoad b => (Qnil, World (w_db w) (w_obj w) b (w_num w), [])
  end.

(** What a program must see to.  A key that holds an object is deleted or stored over
    only while that object is not collected; an object is stored once, and methods are
    called on objects of their class. *)
Definition may_delete (w : world) (key : string) : Prop :=
  match w_db w !! key with
  | Some c => is_string c.1 = true ∨ is_Some (obj_at w key)
  | None => True
  end.
Definition allowed (w : world) (c : call) : Prop :=
  match c with
  | Call v m => is_Some (w_get w v ≫= method_spec m v)
  | DbStore key (RString _) | DbDelete key => may_delete w key
  | DbStore key (RObj v) => may_delete w key ∧ ∃ c, w_obj w !! v = Some (Own None c)
  | DbStore _ _ => False
  | Collect v => is_Some (w_obj w !! v)
  | _ => True
  end.
End Spec.
