(* ===== verification/RbRuns.v ===== *)
(** * Runs of the Ruby extension

    What the operations of [RbObjects] do to one container: the methods, emptying,
    deleting and collecting. *)
From S2P Require Import Prelude Atomic Dict Bio BioSpec Container Engine EngineSpec EngineLists EngineStore RbObjects RbSpec.
Local Open Scope Z_scope.

(** ** The state *)

Definition entry_set (e : loc) (x : db_entry_container) (s : server) : server :=
  with_entries (<[e := x]> (sv_entries s)) s.
Definition queued (js : list job) (s : server) : server :=
  with_queue (if sv_load s then sv_queue s ++ js else sv_queue s) s.

Lemma queued_nil s : queued [] s = s.
Proof. destruct s as [? ? ? ? ? l]. unfold queued, with_queue. cbn. f_equal. destruct l; [apply app_nil_r|done]. Qed.
Lemma queued_app js1 js2 s : queued js2 (queued js1 s) = queued (js1 ++ js2) s.
Proof. unfold queued, with_queue. cbn. f_equal. destruct (sv_load s); [by rewrite <-app_assoc|done]. Qed.
Lemma queued_entry_set js e x s : queued js (entry_set e x s) = entry_set e x (queued js s).
Proof. done. Qed.
Lemma entry_set_twice e x y s : entry_set e y (entry_set e x s) = entry_set e y s.
Proof. unfold entry_set, with_entries. cbn. by rewrite insert_insert_eq. Qed.
Lemma entry_set_id e x s : sv_entries s !! e = Some x → entry_set e x s = s.
Proof. intros H. unfold entry_set. rewrite insert_id by done. by destruct s. Qed.
Lemma entry_set_lookup e x s : sv_entries (entry_set e x s) !! e = Some x.
Proof. apply lookup_insert_eq. Qed.
Lemma put_c_id x : put_c (en_c x) x = x.
Proof. by destruct x. Qed.
Lemma queued_jobs_nil key s : queued (jobs_at key []) s = s.
Proof. destruct key; apply queued_nil. Qed.
Lemma jobs_at_app key a b : jobs_at key (a ++ b) = jobs_at key a ++ jobs_at key b.
Proof. destruct key; [apply fmap_app|done]. Qed.

(** The key that a container has a copy of. *)
Definition key_is (s : server) (x : db_entry_container) (key : option string) : Prop :=
  match key with
  | None => en_key x = NULL
  | Some t => en_key x ≠ NULL ∧ sv_strs s !! en_key x = Some t
  end.

(** ** Primitives *)

Lemma get_entry_run s e x : sv_entries s !! e = Some x → get_entry e s = Done (s, x).
Proof. intros H. unfold get_entry. by rewrite H. Qed.
Lemma set_entry_run s e x f : sv_entries s !! e = Some x → set_entry e f s = Done (entry_set e (f x) s, ()).
Proof. intros H. unfold set_entry. by rewrite H. Qed.
Lemma get_struct_run s v e : sv_objs s !! v = Some e → get_struct v s = Done (s, e).
Proof. intros H. unfold get_struct. by rewrite H. Qed.
Lemma key_text_run s k t : sv_strs s !! k = Some t → key_text k s = Done (s, t).
Proof. intros H. unfold key_text. by rewrite H. Qed.

Lemma notice_key_run s e x key op a v :
  sv_entries s !! e = Some x → key_is s x key → notice_key op e a v s = Done (queued (jobs_at key [(op, a, v)]) s, ()).
Proof.
  intros He Hk. unfold notice_key. run (get_entry_run _ _ _ He). destruct key as [t|]; cbn [key_is] in Hk.
  - destruct Hk as [Hn Ht]. rewrite (proj2 (Z.eqb_neq _ _) Hn). by run (key_text_run _ _ _ Ht).
  - rewrite Hk. cbn. by rewrite queued_nil.
Qed.

Lemma get_list_run s e x l n : sv_entries s !! e = Some x → en_c x = (VList l, n) → get_list e s = Done (s, (l, n)).
Proof. intros He Hc. unfold get_list. run (get_entry_run _ _ _ He). by rewrite Hc. Qed.
Lemma get_hashmap_run s e x h n : sv_entries s !! e = Some x → en_c x = (VHashmap h, n) → get_hashmap e s = Done (s, (h, n)).
Proof. intros He Hc. unfold get_hashmap. run (get_entry_run _ _ _ He). by rewrite Hc. Qed.
Lemma get_set_run s e x X n : sv_entries s !! e = Some x → en_c x = (VSet X, n) → get_set e s = Done (s, (X, n)).
Proof. intros He Hc. unfold get_set. run (get_entry_run _ _ _ He). by rewrite Hc. Qed.

Lemma list_ref_loop_at l c idx i :
  list_ref_loop l c idx i = if decide (c ≤ idx < c + Z.of_nat (length l)) then Some (i + Z.to_nat (idx - c))%nat else None.
Proof.
  revert c i. induction l as [|t l IH]; intros c i; cbn [list_ref_loop length].
  - by rewrite decide_False by lia.
  - destruct (Z.eqb_spec c idx) as [->|Hne].
    + rewrite decide_True by lia. f_equal. lia.
    + rewrite IH. repeat case_decide; try lia; [|done]. f_equal. lia.
Qed.
Lemma list_ref_at l idx : list_ref l idx = index_at l idx.
Proof. unfold list_ref, index_at. rewrite list_ref_loop_at, Z.sub_0_r. done. Qed.

(** ** Emptying a container *)

Lemma stm_bind_stuck {S A B} (m : stm S A) (f : A → stm S B) s : m s = Stuck → (m ≫= f) s = Stuck.
Proof. intros H. unfold mbind, stm_bind. by rewrite H. Qed.

Section Runs.
Context (order : gset string → list string) (Horder : ∀ X, order X ≡ₚ elements X).

Lemma key_is_same s s' x y key :
  sv_strs s' = sv_strs s → en_key y = en_key x → key_is s x key → key_is s' y key.
Proof. intros Hs Hk. unfold key_is. by rewrite Hs, Hk. Qed.

Lemma clear_items_run s e x key l n :
  sv_entries s !! e = Some x → en_c x = (VList l, n) → key_is s x key →
  clear_items e l n s = Done (queued (jobs_at key (clear_changes order (VList l, n))) (entry_set e (put_c (VList [], n) x) s), ()).
Proof.
  revert s x. induction l as [|t l IH]; intros s x He Hc Hk; cbn [clear_items].
  - rewrite <-Hc, put_c_id, entry_set_id by done. rewrite Hc. cbn. by rewrite queued_jobs_nil.
  - run (set_entry_run _ _ _ (put_c (VList l, n)) He).
    run (notice_key_run (entry_set e (put_c (VList l, n) x) s) e _ key LIST_DEL (Some t) None (entry_set_lookup _ _ _) Hk).
    rewrite queued_entry_set.
    erewrite IH; [|apply entry_set_lookup|done|by eapply key_is_same].
    rewrite entry_set_twice, <-!queued_entry_set, queued_app. by rewrite <-jobs_at_app.
Qed.

Lemma remove_items_run s e x key h ks n :
  sv_entries s !! e = Some x → en_c x = (VHashmap h, n) → key_is s x key → (∀ k, k ∈ dom h → k ∈ ks) →
  remove_items e h ks n s =
    Done (queued (jobs_at key ((λ k, (HM_DEL, Some k, None)) <$> ks)) (entry_set e (put_c (VHashmap ∅, n) x) s), ()).
Proof.
  revert s x h. induction ks as [|k ks IH]; intros s x h He Hc Hk Hks; cbn [remove_items].
  - assert (h = ∅) as ->.
    { apply dom_empty_inv_L. apply set_eq. intros k. split; [|set_solver]. intros H%Hks. by apply not_elem_of_nil in H. }
    rewrite <-Hc, put_c_id, entry_set_id by done. by rewrite queued_jobs_nil.
  - run (notice_key_run _ _ _ _ HM_DEL (Some k) None He Hk).
    run (set_entry_run (queued (jobs_at key [(HM_DEL, Some k, None)]) s) e x (put_c (VHashmap (delete k h), n)) He).
    erewrite IH; [|apply entry_set_lookup|done|by eapply key_is_same|].
    + rewrite entry_set_twice, <-!queued_entry_set, queued_app. by rewrite <-jobs_at_app.
    + intros k'. rewrite dom_delete_L. intros [Hk' Hne]%elem_of_difference. apply Hks in Hk'. set_solver.
Qed.

Lemma notice_all_run s e x key op ks :
  sv_entries s !! e = Some x → key_is s x key →
  notice_all op e ks s = Done (queued (jobs_at key ((λ k, (op, Some k, None)) <$> ks)) s, ()).
Proof.
  revert s. induction ks as [|k ks IH]; intros s He Hk; cbn [notice_all].
  - by rewrite queued_jobs_nil.
  - run (notice_key_run _ _ _ _ op (Some k) None He Hk). rewrite IH by done. by rewrite queued_app, <-jobs_at_app.
Qed.

(** The function that empties a container of a type. *)
Definition clear_of (v : value) : loc → M () :=
  match v with
  | VString _ => λ _, stuck
  | VList _ => raw_rb_list_clear
  | VHashmap _ => rb_hashmap_remove order
  | VSet _ => rb_set_remove order
  end.

Lemma clear_run s e x key :
  sv_entries s !! e = Some x → is_string (en_c x).1 = false → key_is s x key →
  clear_of (en_c x).1 e s =
    Done (queued (jobs_at key (clear_changes order (en_c x))) (entry_set e (put_c (cleared (en_c x)) x) s), ()).
Proof.
  intros He Hty Hk. destruct (en_c x) as [[t|l|h|X] n] eqn:Hc; [done|..]; cbn [clear_of fst].
  - unfold raw_rb_list_clear. run (get_entry_run _ _ _ He). rewrite Hc. by apply clear_items_run.
  - unfold rb_hashmap_remove. run (get_entry_run _ _ _ He). rewrite Hc.
    apply remove_items_run; [done..|]. intros k Hin. rewrite Horder. by apply elem_of_elements.
  - unfold rb_set_remove. run (get_entry_run _ _ _ He). rewrite Hc.
    assert ((if en_key x =? NULL then mret () else notice_all SET_DEL e (order X)) s =
      Done (queued (jobs_at key (clear_changes order (VSet X, n))) s, ())) as E.
    { destruct (Z.eqb_spec (en_key x) NULL) as [Hn|Hn]; [|by apply (notice_all_run s e x)].
      destruct key; [by destruct Hk|]. cbn. by rewrite queued_nil. }
    run E. by rewrite (set_entry_run (queued _ s) e x _ He).
Qed.

(** ** Methods *)

Ltac read_with L Hc He := erewrite stm_bind_run; [|eapply L; [exact He|exact Hc]].
Ltac write_with He := erewrite stm_bind_run; [|eapply set_entry_run; exact He].
Ltac notice_with Hk He := erewrite stm_bind_run; [|eapply notice_key_run; [first [exact He|apply entry_set_lookup]|exact Hk]].
Ltac method_step Hc Hk He :=
  first [read_with get_list_run Hc He | read_with get_hashmap_run Hc He | read_with get_set_run Hc He
        | write_with He | notice_with Hk He]; cbn beta iota.

(** Methods that read. *)
Lemma unchanged s e x key c : sv_entries s !! e = Some x → en_c x = c → queued (jobs_at key []) (entry_set e (put_c c x) s) = s.
Proof. intros He <-. by rewrite put_c_id, entry_set_id, queued_jobs_nil. Qed.

Lemma method_run s v e x key m r c' chs :
  sv_objs s !! v = Some e → sv_entries s !! e = Some x → key_is s x key →
  method_spec order m v (en_c x) = Some (r, c', chs) →
  run_method order m v s = Done (queued (jobs_at key chs) (entry_set e (put_c c' x) s), r).
Proof.
  intros Hv He Hk Hm. destruct (en_c x) as [[t|l|h|X] n] eqn:Hc; destruct m; try discriminate Hm;
    cbn [run_method method_spec] in *; injection Hm as Hm;
    unfold rb_list_push, rb_list_pop, rb_list_ref, rb_list_set, rb_list_length, rb_list_clear, rb_hashmap_store, rb_hashmap_ref,
      rb_hashmap_delete, rb_hashmap_size, rb_hashmap_clear, rb_set_add, rb_set_remove_key, rb_set_include, rb_set_size, rb_set_clear;
    run (get_struct_run _ _ _ Hv);
    try (pose proof (clear_run s e x key He) as E; rewrite Hc in E; cbn [clear_of fst] in E; specialize (E eq_refl Hk); by run E; subst);
    repeat method_step Hc Hk He; rewrite ?list_ref_at;
    repeat (case_match; simplify_eq; repeat method_step Hc Hk He);
    simplify_eq; first [done | by rewrite (unchanged s e x)].
Qed.

(** ** Deleting and collecting *)

(** Without the container at [e], whose key is at [k]. *)
Definition gone (e k : loc) (s : server) : server :=
  with_entries (delete e (sv_entries s)) (with_strs (if k =? NULL then sv_strs s else delete k (sv_strs s)) s).

Lemma gone_set e k x s : gone e k (entry_set e x s) = gone e k s.
Proof. unfold gone, entry_set, with_entries. cbn. by rewrite delete_insert_eq. Qed.

Lemma destroy_entry_run s e x key :
  sv_entries s !! e = Some x → key_is s x key → destroy_entry e s = Done (gone e (en_key x) s, ()).
Proof.
  intros He Hk. unfold destroy_entry. run (get_entry_run _ _ _ He).
  assert (free_key (en_key x) s = Done (with_strs (if en_key x =? NULL then sv_strs s else delete (en_key x) (sv_strs s)) s, ())) as E.
  { unfold free_key. destruct (Z.eqb_spec (en_key x) NULL) as [Hn|Hn]; [by destruct s|].
    destruct key; [|done]. destruct Hk as [_ ->]. done. }
  run E. unfold free_entry. cbn [sv_entries with_strs]. by rewrite He.
Qed.

(** Emptied, with the changes queued. *)
Definition emptied (e : loc) (x : db_entry_container) (key : option string) (s : server) : server :=
  queued (jobs_at key (clear_changes order (en_c x))) (entry_set e (put_c (cleared (en_c x)) x) s).

Lemma free_with_run s e x key :
  sv_entries s !! e = Some x → is_string (en_c x).1 = false → key_is s x key →
  free_with (clear_of (en_c x).1) e s =
    Done (if en_obj_released x && negb (en_intree x) then gone e (en_key x) (emptied e x key s) else emptied e x key s, ()).
Proof.
  intros He Hty Hk. unfold free_with. run (clear_run s e x key He Hty Hk). fold (emptied e x key s).
  assert (sv_entries (emptied e x key s) !! e = Some (put_c (cleared (en_c x)) x)) as He1 by apply entry_set_lookup.
  run (get_entry_run _ _ _ He1). cbn [put_c en_obj_released en_intree].
  case_match; [|done]. by apply (destroy_entry_run _ e (put_c (cleared (en_c x)) x) key).
Qed.

Lemma release_with_run s e x key :
  sv_entries s !! e = Some x → is_string (en_c x).1 = false → key_is s x key →
  release_with (clear_of (en_c x).1) e s =
    Done (if en_intree x then entry_set e (put_released true x) s else gone e (en_key x) (emptied e (put_released true x) key s), ()).
Proof.
  intros He Hty Hk. unfold release_with. run (set_entry_run _ _ _ (put_released true) He).
  pose proof (entry_set_lookup e (put_released true x) s) as He1. run (get_entry_run _ _ _ He1). cbn [put_released en_intree].
  destruct (en_intree x); cbn [negb]; [done|].
  pose proof (clear_run _ e _ key He1 Hty Hk) as E. cbn [put_released en_c] in E. run E.
  assert (entry_set e (put_c (cleared (en_c x)) (put_released true x)) (entry_set e (put_released true x) s) =
    entry_set e (put_c (cleared (en_c x)) (put_released true x)) s) as -> by apply entry_set_twice.
  by apply (destroy_entry_run _ e (put_c (cleared (en_c x)) (put_released true x)) key); [apply entry_set_lookup|].
Qed.

Lemma raw_delete_container s e x :
  sv_entries s !! e = Some x → is_string (en_c x).1 = false →
  raw_rb_db_delete order e s =
    (_ ← free_with (clear_of (en_c x).1) e; set_entry e (put_obj Qnil)) (entry_set e (put_intree false x) s).
Proof.
  intros He Hty. unfold raw_rb_db_delete. run (set_entry_run _ _ _ (put_intree false) He).
  run (get_entry_run _ _ _ (entry_set_lookup e (put_intree false x) s)). cbn [put_intree en_c].
  by destruct (en_c x) as [[] ?].
Qed.

(** A container with an object that was not collected stays when its key is deleted. *)
Lemma raw_delete_run s e x key :
  sv_entries s !! e = Some x → is_string (en_c x).1 = false → en_obj_released x = false → key_is s x key →
  raw_rb_db_delete order e s =
    Done (queued (jobs_at key (clear_changes order (en_c x)))
           (entry_set e (put_obj Qnil (put_c (cleared (en_c x)) (put_intree false x))) s), ()).
Proof.
  intros He Hty Hrel Hk. rewrite (raw_delete_container s e x) by done.
  run (free_with_run _ e (put_intree false x) key (entry_set_lookup _ _ s) Hty Hk). cbn [put_intree en_obj_released]. rewrite Hrel.
  cbn [andb].
  rewrite (set_entry_run (emptied e (put_intree false x) key (entry_set e (put_intree false x) s)) e _ _ (entry_set_lookup _ _ _)).
  unfold emptied. by rewrite !queued_entry_set, !entry_set_twice.
Qed.

(** A container whose object was collected is freed, and then written to. *)
Lemma raw_delete_collected s e x key :
  sv_entries s !! e = Some x → is_string (en_c x).1 = false → en_obj_released x = true → key_is s x key →
  raw_rb_db_delete order e s = Stuck.
Proof.
  intros He Hty Hrel Hk. rewrite (raw_delete_container s e x) by done.
  run (free_with_run _ e (put_intree false x) key (entry_set_lookup _ _ s) Hty Hk). cbn [put_intree en_obj_released en_intree].
  rewrite Hrel. cbn [andb negb]. unfold set_entry, gone. cbn [sv_entries with_entries]. by rewrite lookup_delete_eq.
Qed.

Lemma raw_delete_string s e x t n key :
  sv_entries s !! e = Some x → en_c x = (VString t, n) → key_is s x (Some key) →
  raw_rb_db_delete order e s = Done (gone e (en_key x) (queued [Job STRING_DEL key None None] s), ()).
Proof.
  intros He Hc Hk. unfold raw_rb_db_delete. run (set_entry_run _ _ _ (put_intree false) He).
  pose proof (entry_set_lookup e (put_intree false x) s) as He1. run (get_entry_run _ _ _ He1). cbn [put_intree en_c en_key]. rewrite Hc.
  run (key_text_run (entry_set e (put_intree false x) s) _ _ (proj2 Hk)).
  run (eq_refl : notice STRING_DEL key None None (entry_set e (put_intree false x) s) =
    Done (queued [Job STRING_DEL key None None] (entry_set e (put_intree false x) s), ())).
  rewrite (destroy_entry_run _ e (put_intree false x) (Some key)) by done. by rewrite queued_entry_set, gone_set.
Qed.

(** What the collector does. *)
Lemma collect_run s v e x key :
  sv_objs s !! v = Some e → sv_entries s !! e = Some x → is_string (en_c x).1 = false → key_is s x key →
  collect order v s = Done (
    let s := with_objs (delete v (sv_objs s)) s in
    if en_intree x then entry_set e (put_released true x) s
    else gone e (en_key x) (queued (jobs_at key (clear_changes order (en_c x))) s), Qnil).
Proof.
  intros Hv He Hty Hk. unfold collect. run (get_struct_run _ _ _ Hv).
  set (s1 := with_objs (delete v (sv_objs s)) s). run (eq_refl : drop_obj v s = Done (s1, ())). cbv zeta.
  run (get_entry_run s1 _ _ He). pose proof (release_with_run s1 e x key He Hty Hk) as E.
  assert (match en_c x with
    | (VList _, _) => rb_list_release e | (VHashmap _, _) => rb_hashmap_release order e
    | (VSet _, _) => rb_set_release order e | (VString _, _) => stuck
    end = release_with (clear_of (en_c x).1) e) as -> by by destruct (en_c x) as [[] ?].
  run E. destruct (en_intree x); [done|]. unfold emptied. by rewrite queued_entry_set, gone_set.
Qed.
End Runs.
