(* ===== verification/RbLifetimes.v ===== *)
(** * Lifetimes of containers

    [ok] relates the containers to the world: each value that the program can reach is in
    one container, at a key of the database or in an object that has its own; the flags
    of the container say which; and no other container, nor a copy of a key, is left.
    Every call that is allowed keeps it, and returns what [rb_spec] promises. *)
From S2P Require Import Prelude Atomic Dict Bio BioSpec Container Engine EngineSpec EngineLists EngineStore RbObjects RbSpec RbRuns.
Local Open Scope Z_scope.

(** ** The invariant *)

(** Where a value is. *)
Inductive place := PKey (key : string) | PObj (v : loc).
#[export] Instance place_eq_dec : EqDecision place.
Proof. solve_decision. Defined.

Definition held (w : world) (p : place) : option contents :=
  match p with
  | PKey key => w_db w !! key
  | PObj v => match w_obj w !! v with Some (Own _ c) => Some c | _ => None end
  end.
Definition addr (s : server) (p : place) : option loc :=
  match p with PKey key => sv_db s !! key | PObj v => sv_objs s !! v end.

(** The object of a container that is in the database. *)
Definition object_ok (w : world) (key : string) (x : db_entry_container) : Prop :=
  if en_obj_released x then (∃ v, en_obj x = RObj v) ∧ ∀ v, w_obj w !! v ≠ Some (At key)
  else ∃ v, en_obj x = RObj v ∧ ∀ v', w_obj w !! v' = Some (At key) ↔ v' = v.

Definition place_ok (s : server) (w : world) (p : place) (x : db_entry_container) : Prop :=
  match p with
  | PKey key =>
      key_is s x (Some key) ∧
      if is_string (en_c x).1 then en_obj x = Qnil ∧ ∀ v, w_obj w !! v ≠ Some (At key)
      else en_intree x = true ∧ object_ok w key x
  | PObj v =>
      is_string (en_c x).1 = false ∧ en_intree x = false ∧ en_obj_released x = false ∧ key_is s x (w_key w v)
  end.

Record ok (s : server) (w : world) : Prop := {
  ok_load : sv_load s = w_load w;
  ok_num : sv_num s = w_num w;
  ok_fresh v : w_num w ≤ v → w_obj w !! v = None;
  ok_pos : 0 < sv_brk s;
  ok_brk a : sv_brk s ≤ a → sv_entries s !! a = None ∧ sv_strs s !! a = None;
  ok_places p c : held w p = Some c → ∃ e x, addr s p = Some e ∧ sv_entries s !! e = Some x ∧ en_c x = c ∧ place_ok s w p x;
  ok_keys key : w_db w !! key = None → sv_db s !! key = None;
  ok_none v : w_obj w !! v = None → sv_objs s !! v = None;
  ok_at v key : w_obj w !! v = Some (At key) → is_Some (w_db w !! key) ∧ sv_objs s !! v = sv_db s !! key;
  ok_inj p q e : is_Some (held w p) → is_Some (held w q) → addr s p = Some e → addr s q = Some e → p = q;
  ok_all e : is_Some (sv_entries s !! e) → ∃ p, is_Some (held w p) ∧ addr s p = Some e;
  ok_strs a : is_Some (sv_strs s !! a) → a ≠ NULL ∧ ∃ e x, sv_entries s !! e = Some x ∧ en_key x = a;
  ok_copies e1 e2 x1 x2 :
    sv_entries s !! e1 = Some x1 → sv_entries s !! e2 = Some x2 → en_key x1 = en_key x2 → en_key x1 = NULL ∨ e1 = e2 }.

Lemma new_server_ok b : ok (new_server b) (new_world b).
Proof.
  split; try done.
  - intros p c H. destruct p; cbn in H; by rewrite lookup_empty in H.
  - intros p q e H. destruct p; cbn in H; rewrite lookup_empty in H; by destruct H.
  - intros e H. cbn in H. rewrite lookup_empty in H. by destruct H.
  - intros a H. cbn in H. rewrite lookup_empty in H. by destruct H.
Qed.

Lemma queued_ok js s w : ok s w → ok (queued js s) w.
Proof. intros []. by split. Qed.

(** The key of a container is its own. *)
Lemma place_key s w p x : place_ok s w p x → ∃ key, key_is s x key ∧ key = match p with PKey key => Some key | PObj v => w_key w v end.
Proof. destruct p; intros H; eexists; (split; [|done]); apply H. Qed.

Lemma place_ok_frame s s' w w' p x :
  (∀ t, sv_strs s !! en_key x = Some t → sv_strs s' !! en_key x = Some t) →
  match p with
  | PKey key => ∀ v, w_obj w' !! v = Some (At key) ↔ w_obj w !! v = Some (At key)
  | PObj v => w_key w' v = w_key w v
  end → place_ok s w p x → place_ok s' w' p x.
Proof.
  intros Hs Hw. destruct p as [key|v]; cbn [place_ok].
  - intros [[Hn Ht] H]. split; [by split; [|apply Hs]|]. destruct (is_string (en_c x).1).
    + destruct H as [? H]. split; [done|]. intros v Hv. by apply Hw, H in Hv.
    + destruct H as [? H]. split; [done|]. unfold object_ok in *. destruct (en_obj_released x).
      * destruct H as [? H]. split; [done|]. intros v Hv. by apply Hw, H in Hv.
      * destruct H as (v & ? & H). exists v. split; [done|]. intros v'. by rewrite Hw.
  - intros (? & ? & ? & Hk). rewrite Hw. split_and!; try done. unfold key_is in *. destruct (w_key w v); [|done].
    destruct Hk. split; [done|]. by apply Hs.
Qed.

(** ** Changing the contents of a place *)

Definition w_set (p : place) (c : contents) (w : world) : world :=
  match p with
  | PKey key => w_store key c w
  | PObj v => match w_obj w !! v with Some (Own old _) => w_hold v (Own old c) w | _ => w end
  end.

Lemma held_set w p c c' : held w p = Some c → held (w_set p c' w) p = Some c'.
Proof.
  destruct p as [key|v]; cbn; [intros _; apply lookup_insert_eq|].
  destruct (w_obj w !! v) as [[|]|] eqn:E; try done. intros _. cbn. by rewrite lookup_insert_eq.
Qed.
Lemma held_set_ne w p q c' : q ≠ p → held (w_set p c' w) q = held w q.
Proof.
  intros Hne. destruct p as [key|v]; cbn.
  - destruct q; cbn; [|done]. apply lookup_insert_ne. congruence.
  - destruct (w_obj w !! v) as [[|]|] eqn:E; try done. destruct q; cbn; [done|]. by rewrite lookup_insert_ne by congruence.
Qed.
Lemma set_at w p c' v key : w_obj (w_set p c' w) !! v = Some (At key) ↔ w_obj w !! v = Some (At key).
Proof.
  destruct p as [k|v']; cbn; [done|]. destruct (w_obj w !! v') as [[|]|] eqn:E; try done. cbn.
  destruct (decide (v = v')) as [->|]; [|by rewrite lookup_insert_ne]. rewrite lookup_insert_eq, E. by split.
Qed.
Lemma set_key w p c' v : w_key (w_set p c' w) v = w_key w v.
Proof.
  destruct p as [k|v']; cbn; [done|]. destruct (w_obj w !! v') as [[|]|] eqn:E; try done. unfold w_key. cbn.
  destruct (decide (v = v')) as [->|]; [|by rewrite lookup_insert_ne]. by rewrite lookup_insert_eq, E.
Qed.
Lemma set_none w p c' v : w_obj (w_set p c' w) !! v = None ↔ w_obj w !! v = None.
Proof.
  destruct p as [k|v']; cbn; [done|]. destruct (w_obj w !! v') as [[|]|] eqn:E; try done. cbn.
  destruct (decide (v = v')) as [->|]; [|by rewrite lookup_insert_ne]. by rewrite lookup_insert_eq, E.
Qed.
Lemma set_rest w p c' : w_load (w_set p c' w) = w_load w ∧ w_num (w_set p c' w) = w_num w.
Proof. destruct p; cbn; [done|]. by destruct (w_obj w !! v) as [[|]|]. Qed.

Lemma ok_place s w p c : ok s w → held w p = Some c →
  ∃ e x, addr s p = Some e ∧ sv_entries s !! e = Some x ∧ en_c x = c ∧ place_ok s w p x.
Proof. intros Hok Hp. destruct (ok_places _ _ Hok p c Hp) as (e & x & ? & ? & ? & ?). by exists e, x. Qed.

Lemma ok_owner s w e x : ok s w → sv_entries s !! e = Some x →
  ∃ p, held w p = Some (en_c x) ∧ addr s p = Some e ∧ place_ok s w p x.
Proof.
  intros Hok He. destruct (ok_all _ _ Hok e) as (p & [c Hp] & Ha); [done|].
  destruct (ok_place s w p c Hok Hp) as (e0 & x0 & Ha0 & He0 & <- & Hpl). simplify_eq. by exists p.
Qed.

(** ** One container changes

    The container at [e] changes, is new or goes; [ps] are the places that it moves
    between. *)
Section Update.
Context (s s' : server) (w w' : world) (e : loc) (ps : list place) (Hok : ok s w).
Context (He : ∀ a, a ≠ e → sv_entries s' !! a = sv_entries s !! a).
Context (Hold : ∀ p, p ∈ ps → is_Some (held w p) → addr s p = Some e).
Context (Howned : is_Some (sv_entries s !! e) → ∃ p, p ∈ ps ∧ is_Some (held w p)).
Context (Hheld : ∀ p, p ∉ ps → held w' p = held w p ∧ (is_Some (held w p) → addr s' p = addr s p)).
Context (Hframe : ∀ p, p ∉ ps → is_Some (held w p) → match p with
  | PKey key => ∀ v, w_obj w' !! v = Some (At key) ↔ w_obj w !! v = Some (At key)
  | PObj v => w_key w' v = w_key w v
  end).
Context (Hstrs : ∀ a, sv_strs s' !! a = sv_strs s !! a ∨ sv_brk s ≤ a ∨
  a ≠ NULL ∧ ∃ x, sv_entries s !! e = Some x ∧ en_key x = a).
Context (Hnew : ∀ p c, p ∈ ps → held w' p = Some c →
  addr s' p = Some e ∧ (∃ x, sv_entries s' !! e = Some x ∧ en_c x = c ∧ place_ok s' w' p x) ∧
  ∀ q, q ∈ ps → is_Some (held w' q) → q = p).
Context (Hlast : is_Some (sv_entries s' !! e) → ∃ p, p ∈ ps ∧ is_Some (held w' p)).
Context (Hcopy : ∀ a, is_Some (sv_strs s' !! a) →
  is_Some (sv_strs s !! a) ∧ (∀ x, sv_entries s !! e = Some x → en_key x ≠ a) ∨
  a ≠ NULL ∧ ∃ x, sv_entries s' !! e = Some x ∧ en_key x = a).
Context (Hkey : ∀ x, sv_entries s' !! e = Some x →
  en_key x = NULL ∨ sv_brk s ≤ en_key x ∨ ∃ x0, sv_entries s !! e = Some x0 ∧ en_key x0 = en_key x).

Lemma update_key_below e1 x : sv_entries s !! e1 = Some x → en_key x < sv_brk s.
Proof.
  intros Hx. destruct (ok_owner _ _ _ _ Hok Hx) as (p & _ & _ & Hpl).
  destruct (place_key _ _ _ _ Hpl) as ([t|] & Hk & _); cbn in Hk; [|rewrite Hk; apply Hok].
  destruct (decide (en_key x < sv_brk s)); [done|]. destruct (ok_brk _ _ Hok (en_key x)); [lia|]. destruct Hk. congruence.
Qed.

(** Another place keeps its container. *)
Lemma update_other p c : p ∉ ps → held w p = Some c →
  ∃ a x, a ≠ e ∧ addr s' p = Some a ∧ addr s p = Some a ∧ sv_entries s' !! a = Some x ∧ en_c x = c ∧ place_ok s' w' p x.
Proof.
  intros Hn Hp. destruct (ok_place _ _ p c Hok Hp) as (a & x & Ha & Hx & Hc & Hpl).
  assert (a ≠ e) as Hne.
  { intros ->. destruct Howned as (q & Hq & Hqs); [done|]. destruct Hn.
    by rewrite (ok_inj _ _ Hok p q e ltac:(done) Hqs Ha (Hold q Hq Hqs)). }
  exists a, x. rewrite (proj2 (Hheld p Hn) ltac:(done)), (He a Hne). split_and!; try done.
  eapply place_ok_frame; [|apply Hframe; done|exact Hpl]. intros t Ht.
  destruct (Hstrs (en_key x)) as [->|[Hlt|(Hnn & x0 & Hx0 & Hk)]]; [done|pose proof (update_key_below _ _ Hx); lia|].
  destruct (ok_copies _ _ Hok e a x0 x Hx0 Hx Hk); congruence.
Qed.

Lemma update_place p c : held w' p = Some c →
  ∃ a x, addr s' p = Some a ∧ sv_entries s' !! a = Some x ∧ en_c x = c ∧ place_ok s' w' p x ∧ (a = e ↔ p ∈ ps).
Proof.
  intros Hp. destruct (decide (p ∈ ps)) as [Hin|Hin].
  - destruct (Hnew p c Hin Hp) as (Ha & (x & ? & ? & ?) & _). exists e, x. by split_and!.
  - rewrite (proj1 (Hheld p Hin)) in Hp. destruct (update_other p c Hin Hp) as (a & x & ? & ? & ? & ? & ? & ?). exists a, x. by split_and!.
Qed.

Lemma ok_update :
  sv_load s' = w_load w' → sv_num s' = w_num w' → (∀ v, w_num w' ≤ v → w_obj w' !! v = None) → 0 < sv_brk s' →
  (∀ a, sv_brk s' ≤ a → sv_entries s' !! a = None ∧ sv_strs s' !! a = None) →
  (∀ key, w_db w' !! key = None → sv_db s' !! key = None) →
  (∀ v, w_obj w' !! v = None → sv_objs s' !! v = None) →
  (∀ v key, w_obj w' !! v = Some (At key) → is_Some (w_db w' !! key) ∧ sv_objs s' !! v = sv_db s' !! key) →
  ok s' w'.
Proof.
  intros H1 H2 H3 H4 H5 H6 H7 H8. split; try done.
  - intros p c Hp. destruct (update_place p c Hp) as (a & x & ? & ? & ? & ? & _). by exists a, x.
  - intros p q a [c Hp] [d Hq] Ha Hb.
    destruct (update_place p c Hp) as (a1 & x & Ha1 & _ & _ & _ & Hi). destruct (update_place q d Hq) as (a2 & y & Hb1 & _ & _ & _ & Hj).
    simplify_eq. destruct (decide (a = e)) as [->|Hne].
    + destruct (Hnew q d (proj1 Hj eq_refl) Hq) as (_ & _ & Huniq). apply Huniq; [by apply Hi|done].
    + assert (p ∉ ps ∧ q ∉ ps) as [Hpn Hqn] by tauto.
      rewrite (proj1 (Hheld p Hpn)) in Hp. rewrite (proj1 (Hheld q Hqn)) in Hq.
      rewrite (proj2 (Hheld p Hpn)) in Ha by done. rewrite (proj2 (Hheld q Hqn)) in Hb by done. by eapply (ok_inj _ _ Hok).
  - intros a Hx. destruct (decide (a = e)) as [->|Hne].
    + destruct (Hlast Hx) as (p & Hin & [c Hp]). exists p. split; [done|]. by destruct (Hnew p c Hin Hp).
    + rewrite He in Hx by done. destruct (ok_all _ _ Hok a Hx) as (p & Hp & Ha). exists p.
      assert (p ∉ ps) as Hn by (intros Hin; pose proof (Hold p Hin Hp); congruence).
      destruct (Hheld p Hn) as [-> Hadr]. by rewrite Hadr.
  - intros a Hs. destruct (Hcopy a Hs) as [[Hs0 Hno]|(? & x & ? & ?)]; [|split; [done|by exists e, x]].
    destruct (ok_strs _ _ Hok a Hs0) as (Hn & e0 & x & Hx & Hk). split; [done|]. exists e0, x. rewrite He; [done|]. intros ->. by destruct (Hno x Hx).
  - assert (∀ e2 x1 x2, e2 ≠ e → sv_entries s' !! e = Some x1 → sv_entries s' !! e2 = Some x2 → en_key x1 = en_key x2 → en_key x1 = NULL) as Hone.
    { intros e2 x1 x2 Hne Hx1 Hx2 Hk. rewrite He in Hx2 by done. destruct (Hkey x1 Hx1) as [?|[Hlt|(x0 & Hx0 & Hk0)]]; [done| |].
      - pose proof (update_key_below _ _ Hx2). lia.
      - destruct (ok_copies _ _ Hok e e2 x0 x2 Hx0 Hx2) as [?|?]; congruence. }
    intros e1 e2 x1 x2 Hx1 Hx2 Hk. destruct (decide (e1 = e)) as [->|Hn1], (decide (e2 = e)) as [->|Hn2].
    + by right.
    + left. by eapply Hone.
    + left. rewrite Hk. by eapply (Hone e1).
    + rewrite He in Hx1, Hx2 by done. by eapply (ok_copies _ _ Hok).
Qed.
End Update.

(** ** What happens to a container *)

Lemma not_in_one {A} (p q : A) : p ∉ [q] ↔ p ≠ q.
Proof. by rewrite list_elem_of_singleton. Qed.
Lemma not_in_two {A} (p q r : A) : p ∉ [q; r] ↔ p ≠ q ∧ p ≠ r.
Proof. rewrite not_elem_of_cons, list_elem_of_singleton. done. Qed.

(** Its contents change. *)
Lemma ok_put s w p e x c' :
  ok s w → held w p = Some (en_c x) → addr s p = Some e → sv_entries s !! e = Some x →
  is_string c'.1 = is_string (en_c x).1 → ok (entry_set e (put_c c' x) s) (w_set p c' w).
Proof.
  intros Hok Hp Ha He Hty. destruct (ok_place s w p _ Hok Hp) as (e' & x' & Ha' & He' & _ & Hpl). simplify_eq.
  destruct (set_rest w p c') as [Hl Hn]. eapply (ok_update s _ w _ e [p]); try done; cbn [entry_set sv_entries with_entries].
  - intros a Hne. by rewrite lookup_insert_ne.
  - by intros q ->%list_elem_of_singleton _.
  - intros _. exists p. split; [by left|done].
  - intros q Hq%not_in_one. by rewrite held_set_ne.
  - intros [key|v] Hq _; [intros v; apply set_at|apply set_key].
  - intros a. by left.
  - intros q c ->%list_elem_of_singleton Hc. erewrite held_set in Hc by done. simplify_eq. split; [done|]. split.
    + exists (put_c c x). rewrite lookup_insert_eq. split_and!; try done. eapply (place_ok_frame s _ w); [done| |].
      * destruct p; [intros; apply set_at|apply set_key].
      * destruct p; cbn in *; by rewrite Hty.
    + by intros q ->%list_elem_of_singleton.
  - intros _. exists p. split; [by left|]. by erewrite held_set.
  - intros a Hs. destruct (decide (en_key x = a)) as [<-|Hne].
    + right. split; [by apply (ok_strs _ _ Hok)|]. exists (put_c c' x). by rewrite lookup_insert_eq.
    + left. split; [done|]. intros y Hy. by simplify_eq.
  - intros y. rewrite lookup_insert_eq. intros [= <-]. right. right. by exists x.
  - rewrite Hl. apply Hok.
  - rewrite Hn. apply Hok.
  - rewrite Hn. intros v Hv. by apply set_none, Hok.
  - apply Hok.
  - intros a Ha0. destruct (ok_brk _ _ Hok a Ha0) as [H1 H2]. split; [|done]. cbn. rewrite lookup_insert_ne by congruence. done.
  - intros key H. apply (ok_keys _ _ Hok). destruct (decide (p = PKey key)) as [->|Hne].
    + cbn in H. by rewrite lookup_insert_eq in H.
    + change (held (w_set p c' w) (PKey key) = None) in H. by rewrite held_set_ne in H.
  - intros v H%set_none. by apply Hok.
  - intros v key H%set_at. destruct (ok_at _ _ Hok v key H) as [H1 H2]. split; [|done].
    destruct (decide (p = PKey key)) as [->|Hne].
    + cbn. by rewrite lookup_insert_eq.
    + change (is_Some (held (w_set p c' w) (PKey key))). by rewrite held_set_ne.
Qed.

(** It is made with its object; [o] is [obj]. *)
Definition added (o : VALUE) (c : contents) (s : server) : server :=
  Server (<[sv_brk s := Entry NULL c false false o]> (sv_entries s)) (sv_strs s) (sv_db s)
    (<[sv_num s := sv_brk s]> (sv_objs s)) (sv_queue s) (sv_load s) (sv_brk s + 1) (sv_num s + 1).

Lemma held_new w c p : w_obj w !! w_num w = None →
  held (w_new (Own None c) w) p = if decide (p = PObj (w_num w)) then Some c else held w p.
Proof.
  intros Hn. destruct p as [key|v]; cbn; [done|].
  destruct (decide (v = w_num w)) as [->|Hne]; [by rewrite lookup_insert_eq, decide_True|].
  by rewrite lookup_insert_ne, decide_False by congruence.
Qed.

Lemma ok_new s w o c : ok s w → is_string c.1 = false → ok (added o c s) (w_new (Own None c) w).
Proof.
  intros Hok Hty. pose proof (ok_num _ _ Hok) as Hnum. pose proof (ok_fresh _ _ Hok (w_num w) ltac:(lia)) as Hfr.
  destruct (ok_brk _ _ Hok (sv_brk s) ltac:(lia)) as [Hbe Hbs].
  eapply (ok_update s _ w _ (sv_brk s) [PObj (w_num w)]); try done; cbn [added w_new sv_entries sv_strs sv_db sv_objs sv_brk sv_num w_db w_obj].
  - intros a Hne. by rewrite lookup_insert_ne.
  - intros p ->%list_elem_of_singleton. cbn. rewrite Hfr. by intros [].
  - rewrite Hbe. by intros [].
  - intros p Hp%not_in_one. rewrite held_new, decide_False by done. split; [done|]. intros _. destruct p as [|v]; [done|]. cbn.
    rewrite lookup_insert_ne; [done|]. congruence.
  - intros [key|v] Hp%not_in_one _.
    + intros v. cbn. destruct (decide (v = w_num w)) as [->|]; [by rewrite lookup_insert_eq, Hfr|by rewrite lookup_insert_ne].
    + unfold w_key. cbn. by rewrite lookup_insert_ne by congruence.
  - intros a. by left.
  - intros p c0 ->%list_elem_of_singleton Hc. rewrite held_new, decide_True in Hc by done. simplify_eq. cbn.
    rewrite Hnum, lookup_insert_eq. split; [done|]. split; [|by intros q ->%list_elem_of_singleton].
    exists (Entry NULL c0 false false o). rewrite lookup_insert_eq. split_and!; try done. unfold w_key. cbn. by rewrite lookup_insert_eq.
  - intros _. exists (PObj (w_num w)). rewrite held_new, decide_True by done. split; [by left|done].
  - intros a Hs. left. split; [done|]. rewrite Hbe. done.
  - intros x. rewrite lookup_insert_eq. intros [= <-]. by left.
  - apply Hok.
  - cbn. by rewrite Hnum.
  - intros v Hv. rewrite lookup_insert_ne by (cbn in Hv; lia). apply Hok. cbn in Hv. lia.
  - pose proof (ok_pos _ _ Hok). cbn. lia.
  - intros a Ha. destruct (ok_brk _ _ Hok a ltac:(lia)). by rewrite lookup_insert_ne by lia.
  - apply Hok.
  - intros v. rewrite Hnum. destruct (decide (v = w_num w)) as [->|]; [by rewrite lookup_insert_eq|]. rewrite !lookup_insert_ne by done. apply Hok.
  - intros v key. rewrite Hnum. destruct (decide (v = w_num w)) as [->|]; [by rewrite lookup_insert_eq|]. rewrite !lookup_insert_ne by done. apply Hok.
Qed.

Lemma no_object s w key v : ok s w → w_db w !! key = None → w_obj w !! v ≠ Some (At key).
Proof. intros Hok Hn H. destruct (ok_at _ _ Hok v key H) as [[? Hs] _]. congruence. Qed.

(** The container of an object is stored at a key. *)
Definition stored (e : loc) (x : db_entry_container) (key : string) (v : loc) (s : server) : server :=
  Server (<[e := Entry (sv_brk s) (en_c x) true (en_obj_released x) (RObj v)]> (sv_entries s)) (<[sv_brk s := key]> (sv_strs s))
    (<[key := e]> (sv_db s)) (sv_objs s) (sv_queue s) (sv_load s) (sv_brk s + 1) (sv_num s).

Lemma ok_stored s w e x key v :
  ok s w → w_obj w !! v = Some (Own None (en_c x)) → w_db w !! key = None → sv_objs s !! v = Some e → sv_entries s !! e = Some x →
  ok (stored e x key v s) (w_store key (en_c x) (w_hold v (At key) w)).
Proof.
  intros Hok Hv Hkey Ho Hx. pose proof (ok_pos _ _ Hok) as Hpos. destruct (ok_brk _ _ Hok (sv_brk s) ltac:(lia)) as [Hbe Hbs].
  destruct (ok_place s w (PObj v) (en_c x) Hok) as (e0 & x0 & Ha0 & Hx0 & _ & Hty & Hin & Hrel & Hk); [by cbn; rewrite Hv|].
  cbn in Ha0. simplify_eq. unfold w_key in Hk. rewrite Hv in Hk. cbn in Hk.
  assert (∀ v' k, v' ≠ v → w_obj (w_hold v (At key) w) !! v' = Some (At k) ↔ w_obj w !! v' = Some (At k)) as Hother.
  { intros v' k Hne. cbn. by rewrite lookup_insert_ne. }
  eapply (ok_update s _ w _ e [PObj v; PKey key]); try done;
    cbn [stored w_store w_hold sv_entries sv_strs sv_db sv_objs sv_brk sv_num w_db w_obj w_num].
  - intros a Hne. by rewrite lookup_insert_ne.
  - intros p [->| ->%list_elem_of_singleton]%elem_of_cons Hs; [done|]. cbn in Hs. rewrite Hkey in Hs. by destruct Hs.
  - intros _. exists (PObj v). split; [by left|]. cbn. by rewrite Hv.
  - intros p [H1 H2]%not_in_two. destruct p as [k|u]; cbn; by rewrite !lookup_insert_ne by congruence.
  - intros [k|u] [H1 H2]%not_in_two _.
    + intros v'. cbn. destruct (decide (v' = v)) as [->|]; [rewrite lookup_insert_eq, Hv|by rewrite lookup_insert_ne]. split; congruence.
    + unfold w_key. cbn. by rewrite lookup_insert_ne by congruence.
  - intros a. destruct (decide (a = sv_brk s)) as [->|]; [right; left; lia|left]. by rewrite lookup_insert_ne.
  - intros p c [->| ->%list_elem_of_singleton]%elem_of_cons Hc; cbn in Hc; rewrite lookup_insert_eq in Hc; [done|]. simplify_eq.
    cbn. rewrite lookup_insert_eq. split; [done|]. split.
    + exists (Entry (sv_brk s) (en_c x) true (en_obj_released x) (RObj v)). rewrite lookup_insert_eq. cbn. rewrite Hty. split_and!; try done.
      * unfold NULL. lia.
      * apply lookup_insert_eq.
      * unfold object_ok. cbn. rewrite Hrel. exists v. split; [done|]. intros v'.
        destruct (decide (v' = v)) as [->|Hne]; [by rewrite lookup_insert_eq|]. rewrite lookup_insert_ne by done. split; [|done].
        intros H. by destruct (no_object s w key v' Hok Hkey).
    + intros q [->| ->%list_elem_of_singleton]%elem_of_cons Hq; [|done]. cbn in Hq. rewrite lookup_insert_eq in Hq. by destruct Hq.
  - intros _. exists (PKey key). split; [right; left|]. cbn. by rewrite lookup_insert_eq.
  - intros a Ha. destruct (decide (a = sv_brk s)) as [->|Hne].
    + right. split; [unfold NULL; lia|]. eexists. rewrite lookup_insert_eq. done.
    + left. rewrite lookup_insert_ne in Ha by done. split; [done|]. intros y Hy. simplify_eq. rewrite Hk. by destruct (ok_strs _ _ Hok a Ha).
  - intros y. rewrite lookup_insert_eq. intros [= <-]. right. left. cbn. lia.
  - apply Hok.
  - apply Hok.
  - intros u Hu. rewrite lookup_insert_ne; [by apply Hok|]. intros <-. pose proof (ok_fresh _ _ Hok v Hu). congruence.
  - cbn. lia.
  - intros a Ha. destruct (ok_brk _ _ Hok a ltac:(lia)). rewrite !lookup_insert_ne by (try lia; congruence). done.
  - intros k. destruct (decide (k = key)) as [->|]; [by rewrite lookup_insert_eq|]. rewrite !lookup_insert_ne by done. apply Hok.
  - intros u. destruct (decide (u = v)) as [->|]; [by rewrite lookup_insert_eq|]. rewrite lookup_insert_ne by done. apply Hok.
  - intros u k. destruct (decide (u = v)) as [->|Hne].
    + rewrite lookup_insert_eq. intros [= <-]. by rewrite !lookup_insert_eq.
    + rewrite lookup_insert_ne by done. intros Hu. destruct (decide (k = key)) as [->|Hk'].
      * by destruct (no_object s w key u Hok Hkey).
      * rewrite !lookup_insert_ne by done. by apply Hok.
Qed.

(** A text is stored at a key. *)
Definition stored_text (t key : string) (s : server) : server :=
  Server (<[sv_brk s := Entry (sv_brk s + 1) (VString t, 0) false false Qnil]> (sv_entries s)) (<[sv_brk s + 1 := key]> (sv_strs s))
    (<[key := sv_brk s]> (sv_db s)) (sv_objs s) (sv_queue s) (sv_load s) (sv_brk s + 2) (sv_num s).

Lemma ok_stored_text s w t key :
  ok s w → w_db w !! key = None → ok (stored_text t key s) (w_store key (VString t, 0) w).
Proof.
  intros Hok Hkey. pose proof (ok_pos _ _ Hok) as Hpos. destruct (ok_brk _ _ Hok (sv_brk s) ltac:(lia)) as [Hbe Hbs].
  eapply (ok_update s _ w _ (sv_brk s) [PKey key]); try done;
    cbn [stored_text w_store sv_entries sv_strs sv_db sv_objs sv_brk sv_num w_db w_obj w_num].
  - intros a Hne. by rewrite lookup_insert_ne.
  - intros p ->%list_elem_of_singleton. cbn. rewrite Hkey. by intros [].
  - rewrite Hbe. by intros [].
  - intros p Hp%not_in_one. destruct p as [k|u]; cbn; [|done]. by rewrite !lookup_insert_ne by congruence.
  - by intros [k|u] _ _.
  - intros a. destruct (decide (a = sv_brk s + 1)) as [->|]; [right; left; lia|left]. by rewrite lookup_insert_ne.
  - intros p c ->%list_elem_of_singleton Hc. cbn in Hc |- *. rewrite lookup_insert_eq in Hc. rewrite lookup_insert_eq. simplify_eq. split; [done|].
    split; [|by intros q ->%list_elem_of_singleton]. eexists. rewrite lookup_insert_eq. split_and!; try done.
    + cbn. unfold NULL. lia.
    + apply lookup_insert_eq.
    + cbn. split; [done|]. intros v. by apply (no_object s w).
  - intros _. exists (PKey key). split; [by left|]. cbn. by rewrite lookup_insert_eq.
  - intros a Ha. destruct (decide (a = sv_brk s + 1)) as [->|Hne].
    + right. split; [unfold NULL; lia|]. eexists. rewrite lookup_insert_eq. done.
    + left. rewrite lookup_insert_ne in Ha by done. split; [done|]. rewrite Hbe. done.
  - intros y. rewrite lookup_insert_eq. intros [= <-]. right. left. cbn. lia.
  - apply Hok.
  - apply Hok.
  - apply Hok.
  - cbn. lia.
  - intros a Ha. destruct (ok_brk _ _ Hok a ltac:(lia)). by rewrite !lookup_insert_ne by lia.
  - intros k. destruct (decide (k = key)) as [->|]; [by rewrite lookup_insert_eq|]. rewrite !lookup_insert_ne by done. apply Hok.
  - apply Hok.
  - intros u k Hu. destruct (decide (k = key)) as [->|Hk'].
    + by destruct (no_object s w key u Hok Hkey).
    + rewrite !lookup_insert_ne by done. by apply Hok.
Qed.

(** The text at a key goes, with its container. *)
Lemma ok_deleted_text s w e x key :
  ok s w → w_db w !! key = Some (en_c x) → sv_db s !! key = Some e → sv_entries s !! e = Some x → is_string (en_c x).1 = true →
  ok (gone e (en_key x) (with_db (delete key (sv_db s)) s)) (World (delete key (w_db w)) (w_obj w) (w_load w) (w_num w)).
Proof.
  intros Hok Hkey Hdb Hx Hty.
  destruct (ok_place s w (PKey key) (en_c x) Hok Hkey) as (e0 & x0 & Ha0 & Hx0 & _ & [Hn Ht] & Hp). cbn in Ha0. simplify_eq.
  rewrite Hty in Hp. destruct Hp as [_ Hno].
  eapply (ok_update s _ w _ e [PKey key]); try done; unfold gone; cbn [with_entries with_strs with_db sv_entries sv_strs sv_db sv_objs sv_brk sv_num w_db w_obj w_num];
    rewrite ?(proj2 (Z.eqb_neq _ _) Hn).
  - intros a Hne. by rewrite lookup_delete_ne.
  - by intros p ->%list_elem_of_singleton.
  - intros _. exists (PKey key). split; [by left|]. by eexists.
  - intros p Hp%not_in_one. destruct p as [k|u]; cbn; [|done]. by rewrite !lookup_delete_ne by congruence.
  - by intros [k|u] _ _.
  - intros a. destruct (decide (a = en_key x)) as [->|]; [right; right; split; [done|by exists x]|left]. by rewrite lookup_delete_ne.
  - intros p c ->%list_elem_of_singleton Hc. cbn in Hc. by rewrite lookup_delete_eq in Hc.
  - rewrite lookup_delete_eq. by intros [].
  - intros a [t Ha]. apply lookup_delete_Some in Ha as [Hne Ha]. left. split; [done|]. intros y Hy. by simplify_eq.
  - intros y. by rewrite lookup_delete_eq.
  - apply Hok.
  - apply Hok.
  - apply Hok.
  - apply Hok.
  - intros a Ha. destruct (ok_brk _ _ Hok a Ha) as [H1 H2]. split; apply lookup_delete_None; by right.
  - intros k. destruct (decide (k = key)) as [->|]; [by rewrite !lookup_delete_eq|]. rewrite !lookup_delete_ne by done. apply Hok.
  - apply Hok.
  - intros u k Hu. assert (k ≠ key) by (intros ->; by apply (Hno u)). rewrite !lookup_delete_ne by done. by apply Hok.
Qed.

(** The collector takes an object that stands for a value of the database. *)
Lemma ok_collected_at s w e x key v :
  ok s w → w_obj w !! v = Some (At key) → sv_objs s !! v = Some e → sv_entries s !! e = Some x → is_string (en_c x).1 = false →
  en_intree x = true ∧ ok (with_objs (delete v (sv_objs s)) (entry_set e (put_released true x) s)) (World (w_db w) (delete v (w_obj w)) (w_load w) (w_num w)).
Proof.
  intros Hok Hv Hov Hx Hty. destruct (ok_at _ _ Hok v key Hv) as [[c Hc] Ho].
  destruct (ok_place s w (PKey key) c Hok Hc) as (e0 & x0 & Ha0 & Hx0 & <- & Hk & Hp). cbn in Ha0. assert (e0 = e) as -> by congruence. simplify_eq.
  rewrite Hty in Hp. destruct Hp as [Hin Hobj]. split; [done|].
  assert (∀ u, w_obj w !! u = Some (At key) → u = v) as Huniq.
  { unfold object_ok in Hobj. destruct (en_obj_released x); [by destruct (proj2 Hobj v)|]. destruct Hobj as (v0 & _ & Hu). intros u Hu0%Hu. apply Hu in Hv. congruence. }
  eapply (ok_update s _ w _ e [PKey key]); try done;
    cbn [with_objs entry_set with_entries sv_entries sv_strs sv_db sv_objs sv_brk sv_num w_db w_obj w_num].
  - intros a Hne. by rewrite lookup_insert_ne.
  - by intros p ->%list_elem_of_singleton.
  - intros _. exists (PKey key). split; [by left|]. by eexists.
  - intros p Hp. destruct p as [k|u]; cbn; [done|]. destruct (decide (u = v)) as [->|].
    + rewrite lookup_delete_eq, Hv. split; [done|]. by intros [].
    + by rewrite !lookup_delete_ne.
  - intros [k|u] Hp%not_in_one Hs.
    + intros u. cbn. destruct (decide (u = v)) as [->|]; [rewrite lookup_delete_eq, Hv; split; congruence|by rewrite lookup_delete_ne].
    + unfold w_key. cbn. destruct (decide (u = v)) as [->|]; [|by rewrite lookup_delete_ne]. cbn in Hs. rewrite Hv in Hs. by destruct Hs.
  - intros a. by left.
  - intros p c ->%list_elem_of_singleton Hc0. cbn in Hc0. rewrite Hc in Hc0. simplify_eq. split; [done|].
    split; [|by intros q ->%list_elem_of_singleton]. exists (put_released true x). rewrite lookup_insert_eq. split_and!; try done.
    cbn. rewrite Hty. split; [done|]. split; [done|]. unfold object_ok in *. cbn.
    split; [destruct (en_obj_released x); naive_solver|]. intros u Hu. apply lookup_delete_Some in Hu as [Hne Hu]. by apply Huniq in Hu.
  - intros _. exists (PKey key). split; [by left|]. by eexists.
  - intros a Ha. destruct (decide (en_key x = a)) as [<-|Hne].
    + right. split; [by apply Hk|]. eexists. by rewrite lookup_insert_eq.
    + left. split; [done|]. intros y Hy. by simplify_eq.
  - intros y. rewrite lookup_insert_eq. intros [= <-]. right. right. by exists x.
  - apply Hok.
  - apply Hok.
  - intros u Hu. apply lookup_delete_None. right. by apply Hok.
  - apply Hok.
  - intros a Ha. destruct (ok_brk _ _ Hok a Ha) as [H1 H2]. split; [|done]. rewrite lookup_insert_ne by congruence. done.
  - apply Hok.
  - intros u. destruct (decide (u = v)) as [->|]; [by rewrite !lookup_delete_eq|]. rewrite !lookup_delete_ne by done. apply Hok.
  - intros u k [Hne Hu]%lookup_delete_Some. rewrite lookup_delete_ne by done. by apply Hok.
Qed.

(** The collector takes an object that has its own container. *)
Lemma ok_collected_own s w e x old v :
  ok s w → w_obj w !! v = Some (Own old (en_c x)) → sv_objs s !! v = Some e → sv_entries s !! e = Some x →
  en_intree x = false ∧ key_is s x old ∧
  ok (with_objs (delete v (sv_objs s)) (gone e (en_key x) s)) (World (w_db w) (delete v (w_obj w)) (w_load w) (w_num w)).
Proof.
  intros Hok Hv Hov Hx.
  destruct (ok_place s w (PObj v) (en_c x) Hok) as (e0 & x0 & Ha0 & Hx0 & _ & Hty & Hin & Hrel & Hk); [by cbn; rewrite Hv|].
  cbn in Ha0. simplify_eq. unfold w_key in Hk. rewrite Hv in Hk. split; [done|]. split; [done|].
  assert (∀ a, a ≠ en_key x → (if en_key x =? NULL then sv_strs s else delete (en_key x) (sv_strs s)) !! a = sv_strs s !! a) as Hs.
  { intros a Hne. destruct (en_key x =? NULL); [done|]. by rewrite lookup_delete_ne. }
  assert (∀ a t, (if en_key x =? NULL then sv_strs s else delete (en_key x) (sv_strs s)) !! a = Some t → sv_strs s !! a = Some t ∧ en_key x ≠ a) as Hs'.
  { intros a t. destruct (Z.eqb_spec (en_key x) NULL) as [E|E].
    - intros Ha. split; [done|]. rewrite E. intros <-. by destruct (ok_strs _ _ Hok NULL) as [? _].
    - by intros [? ?]%lookup_delete_Some. }
  eapply (ok_update s _ w _ e [PObj v]); try done; unfold gone;
    cbn [with_objs with_entries with_strs sv_entries sv_strs sv_db sv_objs sv_brk sv_num w_db w_obj w_num].
  - intros a Hne. by rewrite lookup_delete_ne.
  - by intros p ->%list_elem_of_singleton.
  - intros _. exists (PObj v). split; [by left|]. cbn. by rewrite Hv.
  - intros p Hp%not_in_one. destruct p as [k|u]; cbn; [done|]. by rewrite !lookup_delete_ne by congruence.
  - intros [k|u] Hp%not_in_one _.
    + intros u. cbn. destruct (decide (u = v)) as [->|]; [rewrite lookup_delete_eq, Hv; split; congruence|by rewrite lookup_delete_ne].
    + unfold w_key. cbn. by rewrite lookup_delete_ne by congruence.
  - intros a. destruct (decide (a = en_key x)) as [->|]; [|left; by apply Hs].
    destruct (Z.eqb_spec (en_key x) NULL); [by left|]. right. right. split; [done|]. by exists x.
  - intros p c ->%list_elem_of_singleton Hc. cbn in Hc. by rewrite lookup_delete_eq in Hc.
  - rewrite lookup_delete_eq. by intros [].
  - intros a [t Ha]. apply Hs' in Ha as [Ha Hne]. left. split; [done|]. intros y Hy. by simplify_eq.
  - intros y. by rewrite lookup_delete_eq.
  - apply Hok.
  - apply Hok.
  - intros u Hu. apply lookup_delete_None. right. by apply Hok.
  - apply Hok.
  - intros a Ha. destruct (ok_brk _ _ Hok a Ha) as [H1 H2]. split; [apply lookup_delete_None; by right|].
    apply eq_None_not_Some. intros [t [E _]%Hs']. congruence.
  - apply Hok.
  - intros u. destruct (decide (u = v)) as [->|]; [by rewrite !lookup_delete_eq|]. rewrite !lookup_delete_ne by done. apply Hok.
  - intros u k [Hne Hu]%lookup_delete_Some. rewrite lookup_delete_ne by done. by apply Hok.
Qed.

(** An object is made for a value of the database that has none. *)
Definition wrapped (e : loc) (x : db_entry_container) (s : server) : server :=
  Server (<[e := put_released false (put_obj (RObj (sv_num s)) x)]> (sv_entries s)) (sv_strs s) (sv_db s)
    (<[sv_num s := e]> (sv_objs s)) (sv_queue s) (sv_load s) (sv_brk s) (sv_num s + 1).

Lemma ok_wrapped s w e x key :
  ok s w → w_db w !! key = Some (en_c x) → sv_db s !! key = Some e → sv_entries s !! e = Some x → is_string (en_c x).1 = false →
  en_obj_released x = true → ok (wrapped e x s) (w_new (At key) w).
Proof.
  intros Hok Hkey Hdb Hx Hty Hrel. pose proof (ok_num _ _ Hok) as Hnum. pose proof (ok_fresh _ _ Hok (w_num w) ltac:(lia)) as Hfr.
  destruct (ok_place s w (PKey key) (en_c x) Hok Hkey) as (e0 & x0 & Ha0 & Hx0 & _ & Hk & Hp). cbn in Ha0. simplify_eq.
  rewrite Hty in Hp. destruct Hp as [Hin Hobj]. unfold object_ok in Hobj. rewrite Hrel in Hobj. destruct Hobj as [_ Hobj].
  eapply (ok_update s _ w _ e [PKey key]); try done; cbn [wrapped w_new sv_entries sv_strs sv_db sv_objs sv_brk sv_num w_db w_obj w_num].
  - intros a Hne. by rewrite lookup_insert_ne.
  - by intros p ->%list_elem_of_singleton.
  - intros _. exists (PKey key). split; [by left|]. by eexists.
  - intros p Hp. destruct p as [k|u]; cbn; [done|]. rewrite Hnum. destruct (decide (u = w_num w)) as [->|].
    + rewrite lookup_insert_eq, Hfr. split; [done|]. by intros [].
    + by rewrite !lookup_insert_ne.
  - intros [k|u] Hp%not_in_one Hs.
    + intros u. cbn. destruct (decide (u = w_num w)) as [->|]; [rewrite lookup_insert_eq, Hfr; split; congruence|by rewrite lookup_insert_ne].
    + unfold w_key. cbn. destruct (decide (u = w_num w)) as [->|]; [|by rewrite lookup_insert_ne]. cbn in Hs. rewrite Hfr in Hs. by destruct Hs.
  - intros a. by left.
  - intros p c ->%list_elem_of_singleton Hc0. cbn in Hc0. rewrite Hkey in Hc0. simplify_eq. split; [done|].
    split; [|by intros q ->%list_elem_of_singleton]. eexists. rewrite lookup_insert_eq. split_and!; try done.
    cbn. rewrite Hty. split; [done|]. split; [done|]. unfold object_ok. cbn. exists (w_num w). rewrite Hnum. split; [done|]. intros u.
    destruct (decide (u = w_num w)) as [->|]; [by rewrite lookup_insert_eq|]. rewrite lookup_insert_ne by done. split; [|done]. intros Hu. by destruct (Hobj u).
  - intros _. exists (PKey key). split; [by left|]. by eexists.
  - intros a Ha. destruct (decide (en_key x = a)) as [<-|Hne].
    + right. split; [by apply Hk|]. eexists. by rewrite lookup_insert_eq.
    + left. split; [done|]. intros y Hy. by simplify_eq.
  - intros y. rewrite lookup_insert_eq. intros [= <-]. right. right. by exists x.
  - apply Hok.
  - by rewrite Hnum.
  - intros u Hu. rewrite lookup_insert_ne by (cbn in Hu; lia). apply Hok. cbn in Hu. lia.
  - apply Hok.
  - intros a Ha. destruct (ok_brk _ _ Hok a Ha) as [H1 H2]. split; [|done]. rewrite lookup_insert_ne by congruence. done.
  - apply Hok.
  - intros u. rewrite Hnum. destruct (decide (u = w_num w)) as [->|]; [by rewrite lookup_insert_eq|]. rewrite !lookup_insert_ne by done. apply Hok.
  - intros u k. rewrite Hnum. destruct (decide (u = w_num w)) as [->|].
    + rewrite !lookup_insert_eq. intros [= <-]. by rewrite Hdb.
    + rewrite !lookup_insert_ne by done. apply Hok.
Qed.

(** The key of a container with an object is deleted: the object keeps it, empty. *)
Lemma ok_deleted_object s w e x key v :
  ok s w → w_obj w !! v = Some (At key) → w_db w !! key = Some (en_c x) → sv_db s !! key = Some e → sv_entries s !! e = Some x →
  is_string (en_c x).1 = false →
  en_obj_released x = false ∧
  ok (entry_set e (put_obj Qnil (put_c (cleared (en_c x)) (put_intree false x))) (with_db (delete key (sv_db s)) s))
     (World (delete key (w_db w)) (<[v := Own (Some key) (cleared (en_c x))]> (w_obj w)) (w_load w) (w_num w)).
Proof.
  intros Hok Hv Hkey Hdb Hx Hty. destruct (ok_at _ _ Hok v key Hv) as [_ Ho]. rewrite Hdb in Ho.
  destruct (ok_place s w (PKey key) (en_c x) Hok Hkey) as (e0 & x0 & Ha0 & Hx0 & _ & Hk & Hp). cbn in Ha0. simplify_eq.
  rewrite Hty in Hp. destruct Hp as [Hin Hobj]. unfold object_ok in Hobj.
  destruct (en_obj_released x) eqn:Hrel; [by destruct (proj2 Hobj v)|]. split; [done|]. destruct Hobj as (v0 & _ & Hu).
  assert (∀ u, u ≠ v → w_obj w !! u ≠ Some (At key)) as Hno by (intros u Hne Hu0%Hu; apply Hu in Hv; congruence). clear Hu v0.
  eapply (ok_update s _ w _ e [PKey key; PObj v]); try done;
    cbn [entry_set with_db with_entries sv_entries sv_strs sv_db sv_objs sv_brk sv_num w_db w_obj w_num].
  - intros a Hne. by rewrite lookup_insert_ne.
  - by intros p [->| ->%list_elem_of_singleton]%elem_of_cons.
  - intros _. exists (PKey key). split; [by left|]. by eexists.
  - intros p [H1 H2]%not_in_two. destruct p as [k|u]; cbn; [by rewrite !lookup_delete_ne by congruence|].
    by rewrite lookup_insert_ne by congruence.
  - intros [k|u] [H1 H2]%not_in_two _.
    + intros u. cbn. destruct (decide (u = v)) as [->|]; [rewrite lookup_insert_eq, Hv; split; congruence|by rewrite lookup_insert_ne].
    + unfold w_key. cbn. by rewrite lookup_insert_ne by congruence.
  - intros a. by left.
  - intros p c [->| ->%list_elem_of_singleton]%elem_of_cons Hc; cbn in Hc; [by rewrite lookup_delete_eq in Hc|].
    rewrite lookup_insert_eq in Hc. simplify_eq. split; [done|]. split.
    + eexists. rewrite lookup_insert_eq. split_and!; try done. split; [by cbn; destruct (en_c x) as [[] ?]|]. split_and!; try done.
      unfold w_key. cbn. by rewrite lookup_insert_eq.
    + intros q [->| ->%list_elem_of_singleton]%elem_of_cons Hq; [|done]. cbn in Hq. rewrite lookup_delete_eq in Hq. by destruct Hq.
  - intros _. exists (PObj v). split; [right; left|]. cbn. by rewrite lookup_insert_eq.
  - intros a Ha. destruct (decide (en_key x = a)) as [<-|Hne].
    + right. split; [by apply Hk|]. eexists. by rewrite lookup_insert_eq.
    + left. split; [done|]. intros y Hy. by simplify_eq.
  - intros y. rewrite lookup_insert_eq. intros [= <-]. right. right. by exists x.
  - apply Hok.
  - apply Hok.
  - intros u Hu. rewrite lookup_insert_ne; [by apply Hok|]. intros <-. pose proof (ok_fresh _ _ Hok v Hu). congruence.
  - apply Hok.
  - intros a Ha. destruct (ok_brk _ _ Hok a Ha) as [H1 H2]. split; [|done]. rewrite lookup_insert_ne by congruence. done.
  - intros k. destruct (decide (k = key)) as [->|]; [by rewrite !lookup_delete_eq|]. rewrite !lookup_delete_ne by done. apply Hok.
  - intros u. destruct (decide (u = v)) as [->|]; [by rewrite lookup_insert_eq|]. rewrite lookup_insert_ne by done. apply Hok.
  - intros u k. destruct (decide (u = v)) as [->|Hne]; [by rewrite lookup_insert_eq|]. rewrite lookup_insert_ne by done. intros Hu.
    assert (k ≠ key) by (intros ->; by apply (Hno u)). rewrite !lookup_delete_ne by done. by apply Hok.
Qed.

(** ** Looking an object up *)

Lemma obj_at_Some w key v : obj_at w key = Some v → w_obj w !! v = Some (At key).
Proof.
  unfold obj_at. destruct (filter _ _) as [|[u h] l] eqn:E; [done|]. intros [= <-].
  assert ((u, h) ∈ filter (λ p, p.2 = At key) (map_to_list (w_obj w))) as [Hh Hin]%list_elem_of_filter by (rewrite E; by left).
  cbn in Hh. subst h. by apply elem_of_map_to_list.
Qed.
Lemma obj_at_None w key v : obj_at w key = None → w_obj w !! v ≠ Some (At key).
Proof.
  unfold obj_at. destruct (filter _ _) as [|p l] eqn:E; [|done]. intros _ Hv%elem_of_map_to_list.
  assert ((v, At key) ∈ filter (λ p, p.2 = At key) (map_to_list (w_obj w))) as Hin by (by apply list_elem_of_filter).
  rewrite E in Hin. by apply not_elem_of_nil in Hin.
Qed.

Lemma forget_none w key c : (∀ v, w_obj w !! v ≠ Some (At key)) →
  (λ h, if decide (h = At key) then Own (Some key) (cleared c) else h) <$> w_obj w = w_obj w.
Proof.
  intros Hn. apply map_eq. intros v. rewrite lookup_fmap. destruct (w_obj w !! v) as [h|] eqn:E; [|done]. cbn.
  by rewrite decide_False by (intros ->; by apply (Hn v)).
Qed.
Lemma forget_one w key c v : w_obj w !! v = Some (At key) → (∀ u, w_obj w !! u = Some (At key) → u = v) →
  (λ h, if decide (h = At key) then Own (Some key) (cleared c) else h) <$> w_obj w = <[v := Own (Some key) (cleared c)]> (w_obj w).
Proof.
  intros Hv Hu. apply map_eq. intros u. rewrite lookup_fmap. destruct (decide (u = v)) as [->|Hne].
  - rewrite Hv, lookup_insert_eq. cbn. by rewrite decide_True.
  - rewrite lookup_insert_ne by done. destruct (w_obj w !! u) as [h|] eqn:E; [|done]. cbn.
    rewrite decide_False; [done|]. intros ->. by destruct Hne; apply Hu.
Qed.
