(* ===== verification/RbServer.v ===== *)
(** * The server's objects keep their promises

    Every allowed call of a Ruby program runs, returns what [rb_spec] says, queues the
    changes it says and keeps [ok]; so does every sequence of them. *)
From S2P Require Import Prelude Atomic Dict Bio BioSpec Container Engine EngineSpec EngineLists EngineStore RbObjects RbSpec RbRuns RbLifetimes.
Local Open Scope Z_scope.

Section Server.
Context (order : gset string → list string) (Horder : ∀ X, order X ≡ₚ elements X).

(** ** Steps *)

(** The run [m] from [s] returns [r], queues [js] and leaves the world [w]. *)
Definition promised {A} (m : M A) (s : server) (r : A) (w : world) (js : list job) : Prop :=
  ∃ s', m s = Done (queued js s', r) ∧ ok s' w ∧ sv_queue s' = sv_queue s.

Lemma promised_bind {A B} (m : M A) (f : A → M B) s a r w w' js1 js2 :
  promised m s a w js1 → (∀ s', ok s' w → promised (f a) s' r w' js2) →
  w_load w = w_load w' → promised (m ≫= f) s r w' (js1 ++ js2).
Proof.
  intros (s1 & E & Hok & Hq) Hf Hl. destruct (Hf (queued js1 s1) (queued_ok _ _ _ Hok)) as (s2 & E2 & Hok2 & Hq2).
  exists (with_queue (sv_queue s) s2). split_and!; [|by destruct Hok2|done].
  run E. rewrite E2. pose proof (ok_load _ _ Hok) as Hl1. pose proof (ok_load _ _ Hok2) as Hl2.
  f_equal. f_equal. unfold queued, with_queue. cbn. rewrite Hq2. unfold queued. cbn. rewrite Hq. f_equal.
  rewrite Hl1, Hl2, Hl. destruct (w_load w'); [by rewrite app_assoc|done].
Qed.

Lemma promised_id {A} (m : M A) s r w : (∃ s', m s = Done (s', r) ∧ ok s' w ∧ sv_queue s' = sv_queue s) → promised m s r w [].
Proof. intros (s' & E & H). exists s'. by rewrite queued_nil. Qed.

(** ** Methods *)

Lemma w_set_same w p c c' : w_set p c' w = w_set p c' (w_set p c w).
Proof.
  destruct p as [key|v]; cbn; [by unfold w_store; cbn; rewrite insert_insert_eq|].
  destruct (w_obj w !! v) as [[]|] eqn:E; rewrite ?E; try done. unfold w_hold. cbn. by rewrite lookup_insert_eq, insert_insert_eq.
Qed.

Lemma place_of_object s w v c : ok s w → w_get w v = Some c →
  ∃ p e x, held w p = Some c ∧ addr s p = Some e ∧ sv_objs s !! v = Some e ∧ sv_entries s !! e = Some x ∧ en_c x = c ∧
    key_is s x (w_key w v) ∧ ∀ c', w_put w v c' = w_set p c' w.
Proof.
  intros Hok. unfold w_get, w_key, w_put. destruct (w_obj w !! v) as [[key|old c0]|] eqn:Hv; [| |done]; intros Hc.
  - destruct (ok_at _ _ Hok v key Hv) as [_ Ho]. destruct (ok_place s w (PKey key) c Hok Hc) as (e & x & Ha & Hx & Hcx & Hpl).
    exists (PKey key), e, x. split_and!; try done; [by rewrite Ho|apply Hpl].
  - simplify_eq. destruct (ok_place s w (PObj v) c Hok) as (e & x & Ha & Hx & Hcx & Hpl); [by cbn; rewrite Hv|].
    exists (PObj v), e, x. split_and!; try done; [by cbn; rewrite Hv| |by cbn; rewrite Hv].
    destruct Hpl as (_ & _ & _ & Hk). unfold w_key in Hk. by rewrite Hv in Hk.
Qed.

Lemma method_type m v c r c' chs : method_spec order m v c = Some (r, c', chs) → is_string c'.1 = is_string c.1.
Proof.
  destruct c as [[t|l|h|X] n], m; cbn; try discriminate; intros [= E]; repeat case_match; by simplify_eq.
Qed.

Lemma method_promised s w v m c r c' chs :
  ok s w → w_get w v = Some c → method_spec order m v c = Some (r, c', chs) →
  promised (run_method order m v) s r (w_put w v c') (jobs_at (w_key w v) chs).
Proof.
  intros Hok Hg Hm. destruct (place_of_object s w v c Hok Hg) as (p & e & x & Hp & Ha & Ho & Hx & <- & Hk & ->).
  exists (entry_set e (put_c c' x) s). split_and!; [by apply method_run| |done].
  apply ok_put; try done. by eapply method_type.
Qed.

(** ** New objects *)

Lemma alloc_run s c : (e ← new_entry (Entry NULL c false false Qfalse); v ← wrap_struct e; _ ← set_entry e (put_obj v); mret v) s =
  Done (added (RObj (sv_num s)) c s, RObj (sv_num s)).
Proof.
  unfold mbind, stm_bind, mbind, outcome_bind, new_entry, wrap_struct, set_entry, deref, with_entries.
  cbn [sv_entries with_brk with_objs with_num]. rewrite lookup_insert_eq. cbn. by rewrite insert_insert_eq.
Qed.

Lemma new_promised s w (m : M VALUE) o c :
  ok s w → m s = Done (added o c s, RObj (sv_num s)) → is_string c.1 = false →
  promised m s (RObj (w_num w)) (w_new (Own None c) w) [].
Proof.
  intros Hok E Hty. apply promised_id. rewrite <-(ok_num _ _ Hok). eexists. split; [exact E|]. split; [by apply ok_new|done].
Qed.

(** ** Deleting a key *)

Lemma delete_promised s w key c :
  ok s w → w_db w !! key = Some c → may_delete w key →
  ∃ e x, sv_db s !! key = Some e ∧ sv_entries s !! e = Some x ∧ en_c x = c ∧
    (∀ data, (is_string c.1 = true → data ≠ Qnil) → (∀ v, data = RObj v → w_obj w !! v ≠ Some (At key)) → en_obj x ≠ data) ∧
    promised (raw_rb_db_delete order e) (with_db (delete key (sv_db s)) s) () (delete_spec order w key).1 (delete_spec order w key).2.
Proof.
  intros Hok Hc Hdel. unfold may_delete in Hdel. rewrite Hc in Hdel.
  destruct (ok_place s w (PKey key) c Hok Hc) as (e & x & Ha & Hx & <- & Hk & Hp). exists e, x. cbn in Ha.
  unfold delete_spec. rewrite Hc. cbn [fst snd]. destruct (is_string (en_c x).1) eqn:Hty.
  - destruct Hp as [Hobj Hno]. destruct (en_c x) as [[t| | |] n] eqn:Hcx; try done. split_and!; try done.
    + intros data Hd _. rewrite Hobj. intros <-. by apply Hd.
    + rewrite forget_none by done. exists (gone e (en_key x) (with_db (delete key (sv_db s)) s)). split_and!; [|by eapply ok_deleted_text; rewrite ?Hcx|done].
      by rewrite (raw_delete_string order (with_db _ s) e x t n key Hx Hcx Hk).
  - destruct Hdel as [|[v Hv%obj_at_Some]]; [done|].
    destruct (ok_deleted_object s w e x key v Hok Hv Hc Ha Hx Hty) as [Hrel Hok'].
    destruct Hp as [_ Hobj]. unfold object_ok in Hobj. rewrite Hrel in Hobj. destruct Hobj as (v0 & Hv0 & Hu). split_and!; try done.
    + intros data _ Hd. rewrite Hv0. intros <-. by apply (Hd v0), Hu.
    + rewrite (forget_one w key (en_c x) v Hv) by (intros u H%Hu; apply Hu in Hv; congruence).
      eexists. split_and!; [|exact Hok'|done]. by apply (raw_delete_run order Horder _ e x (Some key)).
Qed.

(** ** Storing *)

Lemma rb_store_container_run s e x key :
  sv_entries s !! e = Some x → store_container order key e s = Done (queued (jobs_of order key (en_c x).1) s, ()).
Proof. intros Hx. unfold store_container. by run (get_entry_run _ _ _ Hx). Qed.

Lemma insert_entry_run s e x key data :
  sv_entries s !! e = Some x → sv_db s !! key = None →
  insert_entry order key e data s =
    Done (queued (jobs_of order key (en_c x).1)
      (Server (<[e := put_key (sv_brk s) x]> (sv_entries s)) (<[sv_brk s := key]> (sv_strs s)) (<[key := e]> (sv_db s)) (sv_objs s)
        (sv_queue s) (sv_load s) (sv_brk s + 1) (sv_num s)), data).
Proof.
  intros Hx Hk. unfold insert_entry.
  run (eq_refl : new_key key s = Done (with_brk (sv_brk s + 1) (with_strs (<[sv_brk s := key]> (sv_strs s)) s), sv_brk s)).
  run (set_entry_run (with_brk (sv_brk s + 1) (with_strs (<[sv_brk s := key]> (sv_strs s)) s)) e x (put_key (sv_brk s)) Hx).
  set (s1 := entry_set e (put_key (sv_brk s) x) _).
  assert (db_put key e s1 = Done (with_db (<[key := e]> (sv_db s1)) s1, - XFIREDB_OK)) as E.
  { unfold db_put. cbn [s1 entry_set with_entries with_brk with_strs sv_db]. by rewrite Hk. }
  run E. rewrite Z.eqb_refl. by run (rb_store_container_run (with_db (<[key := e]> (sv_db s1)) s1) e _ key (lookup_insert_eq _ _ _)).
Qed.

Lemma store_text_promised s w key t :
  ok s w → w_db w !! key = None →
  promised (store_new order key (RString t)) s (Some (RString t)) (w_store key (VString t, 0) w) [Job STRING_ADD key None (Some t)].
Proof.
  intros Hok Hk. unfold store_new, promised. exists (stored_text t key s). split_and!; [|by apply ok_stored_text|done].
  set (s1 := with_brk (sv_brk s + 1) (with_entries (<[sv_brk s := Entry NULL (VString t, 0) false false Qnil]> (sv_entries s)) s)).
  run (eq_refl : store_entry (RString t) s = Done (s1, Some (sv_brk s))).
  assert (sv_entries s1 !! sv_brk s = Some (Entry NULL (VString t, 0) false false Qnil)) as Hx by apply lookup_insert_eq.
  run (insert_entry_run s1 _ _ key (RString t) Hx (ok_keys _ _ Hok key Hk)). unfold stored_text. cbn. rewrite insert_insert_eq.
  by replace (sv_brk s + 1 + 1) with (sv_brk s + 2) by lia.
Qed.

Lemma store_object_promised s w key v c :
  ok s w → w_db w !! key = None → w_obj w !! v = Some (Own None c) →
  promised (store_new order key (RObj v)) s (Some (RObj v)) (w_store key c (w_hold v (At key) w)) (jobs_of order key c.1).
Proof.
  intros Hok Hk Hv. destruct (ok_place s w (PObj v) c Hok) as (e & x & Ha & Hx & <- & _); [by cbn; rewrite Hv|]. cbn in Ha.
  unfold store_new, promised. exists (stored e x key v s). split_and!; [|by apply ok_stored|done].
  assert (store_entry (RObj v) s = Done (entry_set e (put_intree true (put_obj (RObj v) x)) s, Some e)) as E.
  { unfold store_entry. run (get_struct_run _ _ _ Ha). run (set_entry_run _ _ _ (put_obj (RObj v)) Hx).
    run (set_entry_run _ _ _ (put_intree true) (entry_set_lookup e (put_obj (RObj v) x) s)). by rewrite entry_set_twice. }
  run E. run (insert_entry_run _ _ _ key (RObj v) (entry_set_lookup e (put_intree true (put_obj (RObj v) x)) s) (ok_keys _ _ Hok key Hk)).
  unfold stored, entry_set. cbn. by rewrite insert_insert_eq.
Qed.

Lemma delete_spec_db w key : w_db (delete_spec order w key).1 !! key = None ∧ w_load (delete_spec order w key).1 = w_load w.
Proof. unfold delete_spec. destruct (w_db w !! key) eqn:E; [|done]. cbn. by rewrite lookup_delete_eq. Qed.
Lemma delete_spec_own w key v old c : w_obj w !! v = Some (Own old c) → w_obj (delete_spec order w key).1 !! v = Some (Own old c).
Proof. intros Hv. unfold delete_spec. destruct (w_db w !! key); [|done]. cbn. by rewrite lookup_fmap, Hv. Qed.

(** What becomes of the value at the key. *)
Lemma remove_promised s w key data :
  ok s w → may_delete w key → data ≠ Qnil → (∀ v, data = RObj v → w_obj w !! v ≠ Some (At key)) →
  (∀ t c, data = RString t → w_db w !! key = Some c → is_string c.1 = false) →
  promised (o ← db_remove key; match o with None => mret None | Some e => replace_entry order key e data end) s
    None (delete_spec order w key).1 (delete_spec order w key).2.
Proof.
  intros Hok Hdel Hnil Hobj Htext. destruct (w_db w !! key) as [c|] eqn:Hc.
  - destruct (delete_promised s w key c Hok Hc Hdel) as (e & x & Hdb & Hx & Hcx & Hne & s' & E & Hok' & Hq).
    exists s'. split_and!; try done. unfold db_remove at 1, mbind at 1, stm_bind at 1, mbind at 1, outcome_bind at 1. rewrite Hdb.
    unfold replace_entry. run (get_entry_run (with_db (delete key (sv_db s)) s) e x Hx).
    rewrite decide_False by (apply Hne; [done|done]).
    destruct (en_c x) as [[t| | |] n] eqn:Hcx', data as [| | |t'| |]; try (by run E). subst c. by specialize (Htext t' _ eq_refl eq_refl).
  - exists s. unfold delete_spec. rewrite Hc. rewrite queued_nil. split_and!; try done.
    unfold db_remove, mbind, stm_bind, mbind, outcome_bind. rewrite (ok_keys _ _ Hok key Hc), delete_id by (by apply (ok_keys _ _ Hok)). by destruct s.
Qed.

(** A text over a text. *)
Lemma update_promised s w key t t0 n :
  ok s w → w_db w !! key = Some (VString t0, n) →
  promised (rb_db_store order key (RString t)) s (Some (RString t)) (w_store key (VString t, n) w) [Job STRING_UPDATE key None (Some t)].
Proof.
  intros Hok Hc. destruct (ok_place s w (PKey key) _ Hok Hc) as (e & x & Hdb & Hx & Hcx & Hk & Hp). cbn in Hdb.
  assert (en_obj x = Qnil) as Hobj by (rewrite Hcx in Hp; apply Hp).
  exists (entry_set e (put_c (VString t, n) x) s). split_and!; [| |done].
  - unfold rb_db_store. set (s1 := with_db (delete key (sv_db s)) s).
    run (eq_refl : db_remove key s = Done (s1, sv_db s !! key)). rewrite Hdb.
    set (s2 := queued [Job STRING_UPDATE key None (Some t)] (entry_set e (put_c (VString t, n) x) s)).
    assert (replace_entry order key e (RString t) s1 = Done (s2, Some (RString t))) as E; [|by run E].
    unfold replace_entry. run (get_entry_run s1 e x Hx). rewrite decide_False by congruence. rewrite Hcx.
    run (set_entry_run s1 e x (put_c (VString t, n)) Hx).
    set (s3 := entry_set e (put_c (VString t, n) x) s1).
    run (eq_refl : notice STRING_UPDATE key None (Some t) s3 = Done (queued [Job STRING_UPDATE key None (Some t)] s3, ())).
    assert (db_put key e (queued [Job STRING_UPDATE key None (Some t)] s3) = Done (s2, - XFIREDB_OK)) as E.
    { unfold db_put. cbn [queued with_queue s3 s1 entry_set with_entries with_db sv_db]. rewrite lookup_delete_eq.
      unfold with_db, s2, queued, with_queue. cbn. by rewrite insert_delete_id. }
    run E. by rewrite Z.eqb_refl.
  - apply (ok_put s w (PKey key)); rewrite ?Hcx; done.
Qed.

Lemma store_promised s w key data :
  ok s w → allowed order w (DbStore key data) →
  let '(r, w', js) := rb_spec order w (DbStore key data) in promised (rb_db_store order key data) s (Some r) w' js.
Proof.
  intros Hok Hal. cbn [rb_spec]. destruct (delete_spec order w key) as [w1 js1] eqn:Hd.
  destruct (delete_spec_db w key) as [Hk1 Hl1]. rewrite Hd in Hk1, Hl1. cbn [fst] in Hk1, Hl1.
  assert (∀ rv w' js2, data ≠ Qnil → may_delete w key → (∀ v, data = RObj v → w_obj w !! v ≠ Some (At key)) →
    (∀ t c, data = RString t → w_db w !! key = Some c → is_string c.1 = false) → w_load w' = w_load w →
    (∀ s', ok s' w1 → promised (store_new order key data) s' (Some rv) w' js2) →
    promised (rb_db_store order key data) s (Some rv) w' (js1 ++ js2)) as Hmain.
  { intros rv w' js2 Hnil Hdel Hobj Htext Hl Hst. pose proof (remove_promised s w key data Hok Hdel Hnil Hobj Htext) as Hr. rewrite Hd in Hr. cbn [fst snd] in Hr.
    destruct (promised_bind _ (λ o, match o with Some rv => mret (Some rv) | None => store_new order key data end) s _ (Some rv) _ w' _ js2 Hr) as (s' & E & H).
    - intros s' Hs'. by apply Hst.
    - congruence.
    - exists s'. split; [|done]. rewrite <-E. unfold rb_db_store, mbind, stm_bind, mbind, outcome_bind. by destruct (db_remove key s) as [[? ?]| |]. }
  destruct data as [| | |t|n|v]; try done.
  - destruct (w_db w !! key) as [[[t0|l|h|X] n]|] eqn:Hc; [by eapply update_promised|..];
      (apply Hmain; [done|done|done|intros ? c _ H; by simplify_eq| |intros s' Hs'; by apply store_text_promised]; done).
  - destruct Hal as [Hdel [c Hv]]. rewrite Hv.
    assert (promised (rb_db_store order key (RObj v)) s (Some (RObj v)) (w_store key c (w_hold v (At key) w1)) (js1 ++ jobs_of order key c.1)) as Hp.
    { apply Hmain; [done|done|intros u [= <-]; congruence|done|done|]. intros s' Hs'. apply store_object_promised; [done|done|].
      pose proof (delete_spec_own w key v None c Hv) as H. by rewrite Hd in H. }
    by destruct (w_db w !! key) as [[[] ?]|].
Qed.

(** ** Reading the database, and the collector *)

Lemma ref_promised s w key :
  ok s w → let '(r, w', js) := rb_spec order w (DbRef key) in promised (rb_db_ref key) s r w' js.
Proof.
  intros Hok. cbn [rb_spec]. destruct (w_db w !! key) as [c|] eqn:Hc.
  - destruct (ok_place s w (PKey key) _ Hok Hc) as (e & x & Hdb & Hx & Hcx & Hk & Hp). cbn in Hdb.
    assert (∀ r w', rb_db_ref key s = (match en_c x with (VString t, _) => mret (RString t) | _ => rb_container_to_obj e end) s →
      promised (match en_c x with (VString t, _) => mret (RString t) | _ => rb_container_to_obj e end) s r w' [] →
      promised (rb_db_ref key) s r w' []) as Hm by (intros r w' E (s' & E' & H); exists s'; by rewrite E).
    assert (rb_db_ref key s = (match en_c x with (VString t, _) => mret (RString t) | _ => rb_container_to_obj e end) s) as E.
    { unfold rb_db_ref. run (eq_refl : db_find key s = Done (s, sv_db s !! key)). rewrite Hdb. unfold entry_value. by run (get_entry_run s e x Hx). }
    rewrite Hcx in Hm, E, Hp.
    assert (is_string c.1 = false → promised (rb_container_to_obj e) s
      (match obj_at w key with Some v => RObj v | None => RObj (w_num w) end)
      (match obj_at w key with Some v => w | None => w_new (At key) w end) []) as Hobj.
    { intros Hty. rewrite Hty in Hp. destruct Hp as [_ Ho]. unfold object_ok in Ho. apply promised_id. unfold rb_container_to_obj. run (get_entry_run s e x Hx).
      destruct (en_obj_released x) eqn:Hrel.
      - destruct (obj_at w key) as [v|] eqn:Hv; [by destruct (proj2 Ho v); apply obj_at_Some|].
        set (s1 := with_num (sv_num s + 1) (with_objs (<[sv_num s := e]> (sv_objs s)) s)).
        assert ((v ← wrap_struct e; _ ← set_entry e (put_obj v); set_entry e (put_released false)) s = Done (wrapped e x s, ())) as E1.
        { run (eq_refl : wrap_struct e s = Done (s1, RObj (sv_num s))). run (set_entry_run s1 e x (put_obj (RObj (sv_num s))) Hx).
          rewrite (set_entry_run _ e _ (put_released false) (entry_set_lookup e (put_obj (RObj (sv_num s)) x) s1)). by rewrite entry_set_twice. }
        run E1. exists (wrapped e x s). split_and!; [|subst c; by eapply ok_wrapped|done].
        run (get_entry_run (wrapped e x s) e _ (lookup_insert_eq _ _ _)). by rewrite <-(ok_num _ _ Hok).
      - destruct Ho as (v & Hv & Hu). destruct (obj_at w key) as [u|] eqn:Hat.
        + apply obj_at_Some, Hu in Hat as ->. exists s. split_and!; try done.
          run (eq_refl : (mret () : M ()) s = Done (s, ())). run (get_entry_run s e x Hx). by rewrite Hv.
        + destruct (obj_at_None _ _ v Hat). by apply Hu. }
    destruct c as [[t|l|h|X] n]; [apply (Hm _ _ E), promised_id; by exists s|..];
      specialize (Hobj eq_refl); destruct (obj_at w key); by apply (Hm _ _ E).
  - apply promised_id. exists s. split_and!; try done. unfold rb_db_ref.
    run (eq_refl : db_find key s = Done (s, sv_db s !! key)). by rewrite (ok_keys _ _ Hok key Hc).
Qed.

Lemma collect_promised s w v :
  ok s w → is_Some (w_obj w !! v) → let '(r, w', js) := rb_spec order w (Collect v) in promised (collect order v) s r w' js.
Proof.
  intros Hok [h Hv]. cbn [rb_spec]. rewrite Hv. destruct h as [key|old c].
  - destruct (ok_at _ _ Hok v key Hv) as [[c Hc] Ho].
    destruct (ok_place s w (PKey key) c Hok Hc) as (e & x & Hdb & Hx & Hcx & Hk & Hp). cbn in Hdb. rewrite Hdb in Ho.
    assert (is_string (en_c x).1 = false) as Hty.
    { destruct (is_string (en_c x).1); [|done]. destruct Hp as [_ Hno]. by destruct (Hno v). }
    destruct (ok_collected_at s w e x key v Hok Hv Ho Hx Hty) as [Hin Hok']. apply promised_id. eexists. split_and!; [|exact Hok'|done].
    rewrite (collect_run order Horder s v e x (Some key)) by done. by rewrite Hin.
  - destruct (ok_place s w (PObj v) c Hok) as (e & x & Ha & Hx & Hcx & Hpl); [by cbn; rewrite Hv|]. cbn in Ha. subst c.
    destruct (ok_collected_own s w e x old v Hok Hv Ha Hx) as (Hin & Hk & Hok'). eexists. split_and!; [|exact Hok'|done].
    rewrite (collect_run order Horder s v e x old) by (try done; apply Hpl). by rewrite Hin.
Qed.

Lemma db_size s w : ok s w → size (sv_db s) = size (w_db w).
Proof.
  intros Hok. rewrite <-!size_dom. f_equal. apply set_eq. intros key. rewrite !elem_of_dom. split.
  - intros [e He]. destruct (w_db w !! key) eqn:E; [done|]. pose proof (ok_keys _ _ Hok key E). congruence.
  - intros [c Hc]. destruct (ok_place s w (PKey key) c Hok Hc) as (e & x & Ha & _). by exists e.
Qed.

(** ** Any call *)

Definition rb_reply (w : world) (c : call) : VALUE := (rb_spec order w c).1.1.
Definition rb_after (w : world) (c : call) : world := (rb_spec order w c).1.2.
Definition rb_changes (w : world) (c : call) : list job := (rb_spec order w c).2.

Lemma promised_some (m : M VALUE) s r w js : promised m s r w js → promised (r ← m; mret (Some r)) s (Some r) w js.
Proof. intros (s' & E & H). exists s'. split; [by run E|done]. Qed.

Lemma call_promised s w c :
  ok s w → allowed order w c → promised (run_call order c) s (Some (rb_reply w c)) (rb_after w c) (rb_changes w c).
Proof.
  intros Hok Hal. unfold rb_reply, rb_after, rb_changes. destruct c as [| | |v m|key data|key|key| |v|b]; cbn [run_call].
  - apply promised_some. by apply (new_promised s w _ _ _ Hok (alloc_run s _)).
  - apply promised_some. by apply (new_promised s w _ _ _ Hok (alloc_run s _)).
  - apply promised_some. by apply (new_promised s w _ Qfalse (VSet ∅, 0) Hok).
  - apply promised_some. cbn [rb_spec allowed] in *. destruct (w_get w v) as [c|] eqn:Hg; [|by destruct Hal]. cbn [option_bind mbind] in *.
    destruct (method_spec order m v c) as [[[r c'] chs]|] eqn:Hm; [|by destruct Hal]. by eapply method_promised.
  - pose proof (store_promised s w key data Hok Hal) as H. by destruct (rb_spec order w (DbStore key data)) as [[r w'] js].
  - apply promised_some. pose proof (ref_promised s w key Hok) as H. by destruct (rb_spec order w (DbRef key)) as [[r w'] js].
  - apply promised_some. cbn [rb_spec]. pose proof (delete_spec_db w key) as [_ Hl].
    destruct (w_db w !! key) as [c|] eqn:Hc.
    + rewrite decide_True by done. destruct (delete_promised s w key c Hok Hc Hal) as (e & x & Hdb & _ & _ & _ & s' & E & H).
      destruct (delete_spec order w key) as [w' js]. exists s'. split; [|done]. unfold rb_db_delete.
      run (eq_refl : db_remove key s = Done (with_db (delete key (sv_db s)) s, sv_db s !! key)). rewrite Hdb. by run E.
    + unfold delete_spec. rewrite Hc. rewrite decide_False by (by intros []). apply promised_id. exists s. split; [|done].
      unfold rb_db_delete. run (eq_refl : db_remove key s = Done (with_db (delete key (sv_db s)) s, sv_db s !! key)).
      pose proof (ok_keys _ _ Hok key Hc) as Hn. rewrite Hn, delete_id by done. by destruct s.
  - apply promised_some, promised_id. exists s. split; [|done]. unfold rb_db_size. by rewrite (db_size s w Hok).
  - apply promised_some. pose proof (collect_promised s w v Hok Hal) as H. by destruct (rb_spec order w (Collect v)) as [[r w'] js].
  - exists (with_load b s). rewrite queued_nil. split; [done|]. split; [|done]. destruct Hok. by split.
Qed.

(** ** Sequences *)

Fixpoint run_calls (cs : list call) : M (list (option VALUE)) :=
  match cs with
  | [] => mret []
  | c :: cs => r ← run_call order c; rs ← run_calls cs; mret (r :: rs)
  end.
Fixpoint calls_allowed (w : world) (cs : list call) : Prop :=
  match cs with [] => True | c :: cs => allowed order w c ∧ calls_allowed (rb_after w c) cs end.
Fixpoint rb_replies (w : world) (cs : list call) : list (option VALUE) :=
  match cs with [] => [] | c :: cs => Some (rb_reply w c) :: rb_replies (rb_after w c) cs end.
(** What is queued: nothing while [load_state] is unset. *)
Definition logged (w : world) (c : call) : list job := if w_load (rb_after w c) then rb_changes w c else [].
Fixpoint all_logged (w : world) (cs : list call) : list job :=
  match cs with [] => [] | c :: cs => logged w c ++ all_logged (rb_after w c) cs end.

Lemma rb_calls_run s w cs :
  ok s w → calls_allowed w cs →
  ∃ s', run_calls cs s = Done (s', rb_replies w cs) ∧ ok s' (foldl rb_after w cs) ∧ sv_queue s' = sv_queue s ++ all_logged w cs.
Proof.
  revert s w. induction cs as [|c cs IH]; intros s w Hok Hal; cbn [run_calls calls_allowed rb_replies all_logged foldl] in *.
  - exists s. rewrite app_nil_r. by split_and!.
  - destruct Hal as [Hc Hcs]. destruct (call_promised s w c Hok Hc) as (s1 & E & Hok1 & Hq).
    destruct (IH (queued (rb_changes w c) s1) _ (queued_ok _ _ _ Hok1) Hcs) as (s2 & E2 & Hok2 & Hq2).
    exists s2. split_and!; [by run E; run E2|done|]. rewrite Hq2. unfold logged. cbn. rewrite Hq, <-(ok_load _ _ Hok1).
    destruct (sv_load s1); [by rewrite app_assoc|done].
Qed.

Lemma calls_allowed_app w cs1 cs2 :
  calls_allowed w (cs1 ++ cs2) ↔ calls_allowed w cs1 ∧ calls_allowed (foldl rb_after w cs1) cs2.
Proof. revert w. induction cs1 as [|c cs1 IH]; intros w; cbn [app calls_allowed foldl]; [tauto|]. rewrite IH. tauto. Qed.
End Server.
