(* ===== verification/RbEach.v ===== *)
(** * Blocks over hash maps and sets: [rb_hashmap_each] and [rb_set_each]

    The iterator holds a node and reads its successor when the block has returned, so what
    the block did to the map counts: keys that were added behind the last one are met, and
    when the node was freed, whether or not its key was stored again, it is read all the
    same.  A block is a sequence of calls of the extension.  Since none of them frees a node
    and allocates another for the same key, it is enough to compare the keys after each
    call to tell the nodes apart. *)
From S2P Require Import Prelude Atomic Dict Bio BioSpec Container Engine EngineSpec EngineLists EngineStore RbObjects RbSpec RbRuns RbLifetimes RbServer.
Local Open Scope Z_scope.

(** ** Nodes *)

(** The keys of the nodes of a hash map or a set. *)
Definition keys_of (v : value) : gset string := match v with VHashmap h => dom h | VSet X => X | _ => ∅ end.

(** The node of each key, by the number it was given when it was allocated.  When the keys
    are [X]: the nodes of keys that are left stay, others were freed, and a key that is new
    has a new node, with the number [stamp]. *)
Definition renode (X : gset string) (nodes : gmap string Z) (stamp : Z) : gmap string Z :=
  filter (λ p, p.1 ∈ X) nodes ∪ gset_to_gmap stamp X.

Definition of_outcome {A} (o : outcome A) : M A := λ s, a ← o; Done (s, a).

Section Each.
(** The order of the skip lists, as in [RbObjects]. *)
Context (order : gset string → list string).

(** The keys behind [k]. *)
Fixpoint keys_after (k : string) (ks : list string) : outcome (list string) :=
  match ks with
  | [] => Stuck
  | k' :: ks => if decide (k' = k) then Done ks else keys_after k ks
  end.
(** [hashmap_iterator_next] and [set_iterator_next]; [current] is the node the iterator
    holds, which was freed if its key has no node, or another one. *)
Definition iterator_next (ks : list string) (nodes : gmap string Z) (current : option (string * Z))
    : outcome (option (string * Z)) :=
  rest ← match current with
         | None => Done ks
         | Some (k, n) => if decide (nodes !! k = Some n) then keys_after k ks else Stuck
         end;
  match rest with
  | [] => Done None
  | k :: _ => n ← deref (nodes !! k); Done (Some (k, n))
  end.

(** The keys of the map or the set that the object wraps. *)
Definition keys_now (self : loc) : M (gset string) :=
  e ← get_struct self;
  x ← get_entry e;
  match en_c x with (VHashmap h, _) => mret (dom h) | (VSet X, _) => mret X | _ => stuck end.

(** [rb_yield]: the calls of the block, one after another, and the nodes after each.  [None]
    when a call raises: the exception leaves [each]. *)
Fixpoint rb_yield (self : loc) (cs : list call) (nodes : gmap string Z) (stamp : Z) : M (option (gmap string Z * Z)) :=
  match cs with
  | [] => mret (Some (nodes, stamp))
  | c :: cs =>
      r ← run_call order c;
      match r with
      | None => mret None
      | Some _ => X ← keys_now self; rb_yield self cs (renode X nodes stamp) (stamp + 1)
      end
  end.

(** The loop of both; [value]: what is read of the node, with the key, for the block. *)
Fixpoint each_loop (fuel : nat) (value : string → M VALUE) (block : string → VALUE → list call) (self : loc)
    (nodes : gmap string Z) (stamp : Z) (current : option (string * Z)) : M (option VALUE) :=
  match fuel with
  | O => λ _, OutOfFuel
  | S fuel =>
      X ← keys_now self;
      node ← of_outcome (iterator_next (order X) nodes current);
      match node with
      | None => mret (Some (RObj self))
      | Some (key, n) =>
          x ← value key;
          r ← rb_yield self (block key x) nodes stamp;
          match r with
          | None => mret None
          | Some (nodes, stamp) => each_loop fuel value block self nodes stamp (Some (key, n))
          end
      end
  end.

(** [string_get] of the node. *)
Definition node_value (self : loc) (key : string) : M VALUE :=
  e ← get_struct self;
  '(h, _) ← get_hashmap e;
  t ← of_outcome (deref (h !! key));
  mret (RString t).

Definition rb_hashmap_each (fuel : nat) (self : loc) (block : string → VALUE → list call) : M (option VALUE) :=
  X ← keys_now self;
  each_loop fuel (node_value self) block self (gset_to_gmap 0 X) 1 None.
Definition rb_set_each (fuel : nat) (self : loc) (block : VALUE → list call) : M (option VALUE) :=
  X ← keys_now self;
  each_loop fuel (λ key, mret (RString key)) (λ _, block) self (gset_to_gmap 0 X) 1 None.

(** ** Runs *)

Lemma renode_dom X nodes stamp : dom (renode X nodes stamp) = X.
Proof.
  apply set_eq. intros k. unfold renode. rewrite elem_of_dom, lookup_union_is_Some, lookup_gset_to_gmap. split.
  - intros [[n [_ Hk]%map_lookup_filter_Some]|[n Hk]]; [done|]. by case_guard.
  - intros Hk. right. rewrite option_guard_True by done. by eexists.
Qed.
Lemma renode_same X nodes stamp : dom nodes = X → renode X nodes stamp = nodes.
Proof.
  intros <-. unfold renode. rewrite map_filter_id by (intros k n Hk; cbn; apply elem_of_dom; by eexists).
  apply map_eq. intros k. rewrite lookup_union, lookup_gset_to_gmap. destruct (nodes !! k) eqn:E; [by destruct (guard _)|].
  rewrite option_guard_False; [done|]. by rewrite not_elem_of_dom.
Qed.
(** A node that is gone does not come back. *)
Lemma renode_lost X nodes stamp k n : nodes !! k ≠ Some n → n ≠ stamp → renode X nodes stamp !! k ≠ Some n.
Proof.
  intros Hk Hn. unfold renode. rewrite lookup_union_Some_raw, lookup_gset_to_gmap. intros [H|[_ H]].
  - apply map_lookup_filter_Some in H as [H _]. done.
  - case_guard; [|done]. by injection H.
Qed.
Lemma renode_gone X nodes stamp k n : k ∉ X → renode X nodes stamp !! k ≠ Some n.
Proof. intros Hk Hn. apply Hk. rewrite <-(renode_dom X nodes stamp). apply elem_of_dom. by eexists. Qed.

Lemma keys_after_app ks k ks' : k ∉ ks → keys_after k (ks ++ k :: ks') = Done ks'.
Proof.
  induction ks as [|k' ks IH]; intros Hk; cbn; [by rewrite decide_True|]. apply not_elem_of_cons in Hk as [Hne Hk].
  rewrite decide_False by congruence. by apply IH.
Qed.

(** The node of the last key that was met. *)
Definition met (nodes : gmap string Z) (done : list string) : option (string * Z) :=
  k ← list.last done; n ← nodes !! k; Some (k, n).

Lemma iterator_next_met nodes don rest :
  NoDup (don ++ rest) → (∀ k, k ∈ don ++ rest → is_Some (nodes !! k)) →
  iterator_next (don ++ rest) nodes (met nodes don) =
    Done match rest with [] => None | k :: _ => met nodes (don ++ [k]) end.
Proof.
  intros Hnd Hdom.
  assert (match met nodes don with None => Done (don ++ rest)
          | Some (k, n) => if decide (nodes !! k = Some n) then keys_after k (don ++ rest) else Stuck end = Done rest) as E.
  { unfold met. destruct (rev_case don) as [->|(l & k & ->)]; [done|]. rewrite list.last_snoc.
    destruct (Hdom k) as [n Hn]; [set_solver|]. cbn [mbind option_bind]. rewrite Hn. cbn [mbind option_bind]. rewrite decide_True by done.
    rewrite <-app_assoc in Hnd |- *. cbn [app] in *. apply keys_after_app. apply list.NoDup_app in Hnd as (_ & Hnd & _). intros Hk. by destruct (Hnd k Hk); left. }
  unfold iterator_next. rewrite E, bind_Done. destruct rest as [|k rest]; [done|]. destruct (Hdom k) as [n Hn]; [set_solver|].
  unfold met. rewrite list.last_snoc. cbn [mbind option_bind]. by rewrite Hn.
Qed.

Context (Horder : ∀ X, order X ≡ₚ elements X).

Lemma order_NoDup X : NoDup (order X).
Proof. rewrite Horder. apply NoDup_elements. Qed.
Lemma order_elem X k : k ∈ order X ↔ k ∈ X.
Proof. rewrite Horder. apply elem_of_elements. Qed.

(** The object of a map or a set. *)
Definition is_keyed (v : value) : Prop := match v with VHashmap _ | VSet _ => True | _ => False end.

Lemma keys_now_run s w v c : ok s w → w_get w v = Some c → is_keyed c.1 → keys_now v s = Done (s, keys_of c.1).
Proof.
  intros Hok Hg Hk. destruct (place_of_object s w v c Hok Hg) as (p & e & x & _ & _ & Ho & Hx & Hc & _). unfold keys_now.
  run (get_struct_run _ _ _ Ho). run (get_entry_run _ _ _ Hx). rewrite Hc. by destruct c as [[] n].
Qed.
Lemma node_value_run s w v h n k t : ok s w → w_get w v = Some (VHashmap h, n) → h !! k = Some t → node_value v k s = Done (s, RString t).
Proof.
  intros Hok Hg Hk. destruct (place_of_object s w v _ Hok Hg) as (p & e & x & _ & _ & Ho & Hx & Hc & _). unfold node_value.
  run (get_struct_run _ _ _ Ho). run (get_hashmap_run _ _ _ _ _ Hx Hc). rewrite Hk. done.
Qed.

(** Calls that keep the keys keep the nodes. *)
Lemma rb_yield_keeps s w v X cs nodes stamp (I : world → Prop) :
  ok s w → I w → (∀ w, I w → ∃ c, w_get w v = Some c ∧ is_keyed c.1 ∧ keys_of c.1 = X) → dom nodes = X →
  (∀ w c, I w → c ∈ cs → allowed order w c ∧ I (rb_after order w c)) →
  ∃ s', rb_yield v cs nodes stamp s = Done (s', Some (nodes, stamp + Z.of_nat (length cs))) ∧
    run_calls order cs s = Done (s', rb_replies order w cs) ∧ ok s' (foldl (rb_after order) w cs) ∧ I (foldl (rb_after order) w cs).
Proof.
  intros Hok HI Hkeys Hn. revert s w stamp Hok HI. induction cs as [|c cs IH]; intros s w stamp Hok HI Hcs; cbn [rb_yield run_calls rb_replies foldl].
  - exists s. split_and!; [by rewrite Z.add_0_r|done..].
  - destruct (Hcs w c HI) as [Hal HI1]; [by left|]. destruct (call_promised order Horder s w c Hok Hal) as (s1 & E & Hok1 & _).
    pose proof (queued_ok (rb_changes order w c) _ _ Hok1) as Hok2. destruct (Hkeys _ HI1) as (c1 & Hg & Hk & HX).
    destruct (IH _ _ (stamp + 1) Hok2 HI1) as (s' & Ey & Er & Hok' & HI'); [intros w' c' ? ?; apply Hcs; [done|by right]|].
    exists s'. split_and!; [|by run E; run Er|done|done]. run E. run (keys_now_run _ _ _ _ Hok2 Hg Hk).
    rewrite HX, renode_same, Ey by done. do 3 f_equal. cbn [length]. f_equal. lia.
Qed.

Lemma keys_now_total v s : keys_now v s = Stuck ∨ ∃ X, keys_now v s = Done (s, X).
Proof.
  unfold keys_now. destruct (sv_objs s !! v) as [e|] eqn:Eo; [|left; apply stm_bind_stuck; unfold get_struct; by rewrite Eo].
  run (get_struct_run _ _ _ Eo). destruct (sv_entries s !! e) as [x|] eqn:Ee; [|left; apply stm_bind_stuck; unfold get_entry; by rewrite Ee].
  run (get_entry_run _ _ _ Ee). destruct (en_c x) as [[] m]; try (by left); right; by eexists.
Qed.

(** Any calls: the keys afterwards are those of the nodes, and a node that is gone does not
    come back. *)
Lemma rb_yield_any s w v cs nodes stamp :
  ok s w → calls_allowed order w cs →
  rb_yield v cs nodes stamp s = Stuck ∨
  ∃ s' nodes' stamp', rb_yield v cs nodes stamp s = Done (s', Some (nodes', stamp')) ∧ ok s' (foldl (rb_after order) w cs) ∧ stamp ≤ stamp' ∧
    (∀ k n, nodes !! k ≠ Some n → n < stamp → nodes' !! k ≠ Some n) ∧
    (cs ≠ [] → ∀ c, w_get (foldl (rb_after order) w cs) v = Some c → is_keyed c.1 → dom nodes' = keys_of c.1).
Proof.
  revert s w nodes stamp. induction cs as [|c cs IH]; intros s w nodes stamp Hok Hal; cbn [rb_yield foldl].
  { right. exists s, nodes, stamp. by split_and!. }
  destruct Hal as [Hc Hcs]. destruct (call_promised order Horder s w c Hok Hc) as (s1 & E & Hok1 & _).
  pose proof (queued_ok (rb_changes order w c) _ _ Hok1) as Hok2. rewrite (stm_bind_run _ _ _ _ _ E). set (s2 := queued _ s1) in *.
  destruct (keys_now_total v s2) as [Es|(X & Ex)].
  { left. by apply stm_bind_stuck. }
  rewrite (stm_bind_run _ _ _ _ _ Ex).
  destruct (IH s2 _ (renode X nodes stamp) (stamp + 1) Hok2 Hcs) as [Es|(s' & nodes' & stamp' & E' & Hok' & Hst & Hlost & Hdom)]; [by left|].
  right. exists s', nodes', stamp'. split_and!; [done|done|lia| |].
  - intros k n Hk Hn. apply Hlost; [apply renode_lost; [done|lia]|lia].
  - intros _ c' Hg Hk. destruct cs as [|c1 cs]; [|by apply Hdom]. cbn [rb_yield] in E'. injection E' as <- <- <-.
    pose proof (keys_now_run _ _ _ _ Hok2 Hg Hk) as Ex'. rewrite Ex in Ex'. injection Ex' as ->. apply renode_dom.
Qed.

Lemma rb_yield_app v cs1 cs2 nodes stamp s s1 nodes1 stamp1 :
  rb_yield v cs1 nodes stamp s = Done (s1, Some (nodes1, stamp1)) →
  rb_yield v (cs1 ++ cs2) nodes stamp s = rb_yield v cs2 nodes1 stamp1 s1.
Proof.
  revert s nodes stamp. induction cs1 as [|c cs1 IH]; intros s nodes stamp; cbn [app rb_yield]; [by intros [= -> -> ->]|].
  unfold mbind, stm_bind, mbind, outcome_bind. destruct (run_call order c s) as [[s2 [r|]]| |]; [|done..].
  destruct (keys_now v s2) as [[s3 X]| |]; [|done..]. apply IH.
Qed.

(** ** Blocks that leave the keys alone *)

Lemma of_outcome_run {A} (o : outcome A) a s : o = Done a → of_outcome o s = Done (s, a).
Proof. by intros ->. Qed.

(** The calls that are made for the keys [ks]; [value]: what the block is given. *)
Fixpoint each_calls (value : world → string → VALUE) (block : string → VALUE → list call) (w : world) (ks : list string) : list call :=
  match ks with
  | [] => []
  | k :: ks => let cs := block k (value w k) in cs ++ each_calls value block (foldl (rb_after order) w cs) ks
  end.

Lemma run_calls_app cs1 cs2 s s1 s2 rs1 rs2 :
  run_calls order cs1 s = Done (s1, rs1) → run_calls order cs2 s1 = Done (s2, rs2) → run_calls order (cs1 ++ cs2) s = Done (s2, rs1 ++ rs2).
Proof.
  revert s rs1. induction cs1 as [|c cs1 IH]; intros s rs1; cbn [app run_calls]; [by intros [= -> <-]|].
  intros H1 H2. unfold mbind, stm_bind, mbind, outcome_bind in *. destruct (run_call order c s) as [[s0 r]| |]; [|done..].
  destruct (run_calls order cs1 s0) as [[s3 rs]| |] eqn:E; [|done..]. injection H1 as -> <-. by rewrite (IH _ _ E H2).
Qed.

Lemma each_rounds read value block v X nodes (I : world → Prop) :
  (∀ s w k, ok s w → I w → k ∈ X → read k s = Done (s, value w k)) →
  (∀ w, I w → ∃ c, w_get w v = Some c ∧ is_keyed c.1 ∧ keys_of c.1 = X) → dom nodes = X →
  (∀ w k x c, I w → c ∈ block k x → allowed order w c ∧ I (rb_after order w c)) →
  ∀ rest don fuel s w stamp, don ++ rest = order X → (length rest < fuel)%nat → ok s w → I w →
  ∃ s' rs, each_loop fuel read block v nodes stamp (met nodes don) s = Done (s', Some (RObj v)) ∧
    run_calls order (each_calls value block w rest) s = Done (s', rs).
Proof.
  intros Hread Hkeys Hn Hblock.
  assert (∀ k, k ∈ order X → is_Some (nodes !! k)) as Hnode by (intros k' Hk'; apply elem_of_dom; rewrite Hn; by apply order_elem).
  induction rest as [|k rest IH]; intros don [|fuel] s w stamp Hd Hf Hok HI; try (cbn in Hf; lia); cbn [each_loop];
    destruct (Hkeys w HI) as (c & Hg & Hk & HX); run (keys_now_run _ _ _ _ Hok Hg Hk); rewrite HX, <-Hd.
  all: pose proof (iterator_next_met nodes don) as Hit.
  - rewrite (stm_bind_run _ _ _ _ _ (of_outcome_run _ _ s (Hit [] ltac:(rewrite Hd; apply order_NoDup) ltac:(rewrite Hd; exact Hnode)))).
    exists s, []. by split.
  - rewrite (stm_bind_run _ _ _ _ _ (of_outcome_run _ _ s (Hit (k :: rest) ltac:(rewrite Hd; apply order_NoDup) ltac:(rewrite Hd; exact Hnode)))).
    assert (k ∈ X) as HkX by (apply order_elem; rewrite <-Hd; set_solver). destruct (Hnode k) as [n Hkn]; [by apply order_elem|].
    assert (met nodes (don ++ [k]) = Some (k, n)) as Hm by (unfold met; rewrite list.last_snoc; cbn [mbind option_bind]; by rewrite Hkn).
    rewrite Hm. run (Hread s w k Hok HI HkX). cbn [each_calls].
    destruct (rb_yield_keeps s w v X (block k (value w k)) nodes stamp I Hok HI Hkeys Hn) as (s1 & Ey & Er & Hok1 & HI1);
      [intros w' c' HI' Hc'; by eapply Hblock|]. run Ey. rewrite <-Hm.
    destruct (IH (don ++ [k]) fuel s1 (foldl (rb_after order) w (block k (value w k))) (stamp + Z.of_nat (length (block k (value w k))))) as (s' & rs & E' & Er'); [by rewrite <-app_assoc|cbn in Hf; lia|done|done|].
    exists s'. eexists. split; [exact E'|]. by eapply run_calls_app.
Qed.

(** What a block over a map is given with a key. *)
Definition value_at (v : loc) (w : world) (k : string) : VALUE :=
  match w_get w v with Some (VHashmap h, _) => RString (default "" (h !! k)) | _ => Qnil end.

(** ** Blocks that take the node away *)

Lemma first_nodes X : map_Forall (λ _ n, n = 0) (gset_to_gmap 0 X : gmap string Z).
Proof. intros k n. rewrite lookup_gset_to_gmap_Some. by intros [_ <-]. Qed.

Lemma w_get_put w v c c' : w_get w v = Some c → w_get (w_put w v c') v = Some c'.
Proof.
  unfold w_get, w_put. destruct (w_obj w !! v) as [[key|old c0]|] eqn:Hv; [| |done]; intros Hc; unfold w_store, w_hold; cbn.
  - by rewrite Hv, lookup_insert_eq.
  - by rewrite lookup_insert_eq.
Qed.

Lemma rb_yield_app_stuck v cs1 cs2 nodes stamp s : rb_yield v cs1 nodes stamp s = Stuck → rb_yield v (cs1 ++ cs2) nodes stamp s = Stuck.
Proof.
  revert s nodes stamp. induction cs1 as [|c cs1 IH]; intros s nodes stamp; cbn [app rb_yield]; [done|].
  unfold mbind, stm_bind, mbind, outcome_bind. destruct (run_call order c s) as [[s2 [r|]]| |]; [|done..].
  destruct (keys_now v s2) as [[s3 X]| |]; [|done..]. apply IH.
Qed.

(** Whatever else the block does, storing the key again included. *)
Lemma each_loses s w read block v c k ks x cs1 cs2 c1 fuel nodes :
  ok s w → w_get w v = Some c → is_keyed c.1 → dom nodes = keys_of c.1 → map_Forall (λ _ n, n = 0) nodes →
  order (keys_of c.1) = k :: ks → read k s = Done (s, x) →
  block k x = cs1 ++ cs2 → calls_allowed order w (cs1 ++ cs2) →
  w_get (foldl (rb_after order) w cs1) v = Some c1 → is_keyed c1.1 → k ∉ keys_of c1.1 →
  each_loop (S (S fuel)) read block v nodes 1 None s = Stuck.
Proof.
  intros Hok Hg Hk Hn H0 Ho Hx Hb Hal Hg1 Hk1 Hgone. assert (k ∈ keys_of c.1) as HkX by (apply order_elem; rewrite Ho; by left).
  assert (nodes !! k = Some 0) as Hk0.
  { rewrite <-Hn in HkX. apply elem_of_dom in HkX as [n Hkn]. by rewrite Hkn, (H0 k n Hkn). }
  cbn [each_loop]. run (keys_now_run _ _ _ _ Hok Hg Hk). rewrite Ho.
  assert (iterator_next (k :: ks) nodes None = Done (Some (k, 0))) as E by (unfold iterator_next; rewrite bind_Done, Hk0; done).
  run (of_outcome_run _ _ s E). run Hx. rewrite Hb. apply calls_allowed_app in Hal as [Hal1 Hal2].
  destruct (rb_yield_any s w v cs1 nodes 1 Hok Hal1) as [Es|(s1 & nodes1 & stamp1 & E1 & Hok1 & Hst & _ & Hdom)].
  { apply stm_bind_stuck. clear -Es. by apply rb_yield_app_stuck. }
  assert (nodes1 !! k ≠ Some 0) as Hlost.
  { intros Hk'. apply Hgone. rewrite <-(Hdom) with c1; [apply elem_of_dom; by eexists| |done|done].
    intros ->. cbn in Hg1. rewrite Hg in Hg1. injection Hg1 as <-. done. }
  destruct (rb_yield_any s1 _ v cs2 nodes1 stamp1 Hok1 Hal2) as [Es|(s2 & nodes2 & stamp2 & E2 & Hok2 & _ & Hlost2 & _)].
  { apply stm_bind_stuck. by rewrite (rb_yield_app _ _ _ _ _ _ _ _ _ E1). }
  assert (rb_yield v (cs1 ++ cs2) nodes 1 s = Done (s2, Some (nodes2, stamp2))) as E12 by by rewrite (rb_yield_app _ _ _ _ _ _ _ _ _ E1).
  run E12. destruct (keys_now_total v s2) as [Es|(X2 & EX)]; [by apply stm_bind_stuck|]. run EX. apply stm_bind_stuck.
  unfold of_outcome, iterator_next. rewrite decide_False; [done|]. apply Hlost2; [done|lia].
Qed.

(** C27: iterating over a hash map of a program.  After any allowed calls, [each] runs a
    block that makes allowed calls and leaves the keys of the map alone once for every key,
    in the order of the list, with the value the key has by then: it makes exactly the
    calls of these blocks, one after another, and returns the map.  The iterator holds the
    node: if the calls of the block for the first key take this key out of the map, even if
    later ones store it again, [each] reads a node that was freed; so it does on every map
    that is not empty when the block deletes the key it is given. *)
Theorem ruby_each b cs v h n :
  calls_allowed order (new_world b) cs →
  let w := foldl (rb_after order) (new_world b) cs in
  w_get w v = Some (VHashmap h, n) →
  ∃ s rs, run_calls order cs (new_server b) = Done (s, rs) ∧
    (∀ block (I : world → Prop), I w →
       (∀ w, I w → ∃ h' n', w_get w v = Some (VHashmap h', n') ∧ dom h' = dom h) →
       (∀ w k x c, I w → c ∈ block k x → allowed order w c ∧ I (rb_after order w c)) →
       ∃ s' rs', rb_hashmap_each (S (size h)) v block s = Done (s', Some (RObj v)) ∧
         run_calls order (each_calls (value_at v) block w (order (dom h))) s = Done (s', rs')) ∧
    (∀ block k ks cs1 cs2 h1 n1 fuel, order (dom h) = k :: ks →
       block k (value_at v w k) = cs1 ++ cs2 → calls_allowed order w (cs1 ++ cs2) →
       w_get (foldl (rb_after order) w cs1) v = Some (VHashmap h1, n1) → h1 !! k = None →
       rb_hashmap_each (S (S fuel)) v block s = Stuck) ∧
    (h ≠ ∅ → ∀ fuel, rb_hashmap_each (S (S fuel)) v (λ k _, [Call v (HDelete k)]) s = Stuck ∧
       ∀ t, rb_hashmap_each (S (S fuel)) v (λ k _, [Call v (HDelete k); Call v (HStore k t)]) s = Stuck).
Proof.
  intros Hal w Hg. destruct (rb_calls_run order Horder _ _ cs (new_server_ok b) Hal) as (s & E & Hok & _). fold w in Hok. eexists s, _. split; [exact E|].
  assert (∀ block k ks cs1 cs2 h1 n1 fuel, order (dom h) = k :: ks →
    block k (value_at v w k) = cs1 ++ cs2 → calls_allowed order w (cs1 ++ cs2) →
    w_get (foldl (rb_after order) w cs1) v = Some (VHashmap h1, n1) → h1 !! k = None →
    rb_hashmap_each (S (S fuel)) v block s = Stuck) as Hlose.
  { intros block k ks cs1 cs2 h1 n1 fuel Ho Hb Hal2 Hg1 Hk1. unfold rb_hashmap_each. run (keys_now_run _ _ _ _ Hok Hg Logic.I).
    assert (k ∈ dom h) as [t Ht]%elem_of_dom by (apply order_elem; rewrite Ho; by left).
    eapply (each_loses s w _ block v _ k ks (RString t) cs1 cs2 _ fuel _ Hok Hg Logic.I); [apply dom_gset_to_gmap|apply first_nodes|exact Ho| | |done|exact Hg1|done|].
    - by eapply node_value_run.
    - rewrite <-Hb. unfold value_at. by rewrite Hg, Ht.
    - by apply not_elem_of_dom. }
  split; [|split; [exact Hlose|]].
  - intros block I HI Hkeys Hblock. unfold rb_hashmap_each. run (keys_now_run _ _ _ _ Hok Hg Logic.I). cbn [fst keys_of].
    apply (each_rounds (node_value v) (value_at v) block v (dom h) (gset_to_gmap 0 (dom h)) I) with (don := []); [| |apply dom_gset_to_gmap|done|done| |done|done].
    + intros s0 w0 k Hok0 HI0 Hk. destruct (Hkeys w0 HI0) as (h0 & n0 & Hg0 & Hd). rewrite <-Hd in Hk. apply elem_of_dom in Hk as [t Ht].
      unfold value_at. rewrite Hg0, Ht. by eapply node_value_run.
    + intros w0 HI0. destruct (Hkeys w0 HI0) as (h0 & n0 & Hg0 & Hd). by exists (VHashmap h0, n0).
    + rewrite Horder. change (length (elements (dom h))) with (size (dom h)). rewrite size_dom. lia.
  - intros Hne fuel. destruct (order (dom h)) as [|k ks] eqn:Ho.
    { destruct Hne. apply dom_empty_inv_L. apply set_eq. intros k. rewrite <-order_elem, Ho. set_solver. }
    assert (k ∈ dom h) as [t0 Ht]%elem_of_dom by (apply order_elem; rewrite Ho; by left).
    assert (allowed order w (Call v (HDelete k))) as Hdel by (cbn; rewrite Hg; cbn; by rewrite Ht).
    assert (w_get (rb_after order w (Call v (HDelete k))) v = Some (VHashmap (delete k h), atomic_dec n)) as Hg1.
    { unfold rb_after. cbn [rb_spec]. rewrite Hg. cbn [mbind option_bind method_spec]. rewrite Ht. cbn [fst snd]. by eapply w_get_put. }
    split.
    + eapply (Hlose _ k ks [Call v (HDelete k)] []); [done|done|by split|exact Hg1|apply lookup_delete_eq].
    + intros t. eapply (Hlose _ k ks [Call v (HDelete k)] [Call v (HStore k t)]); [done|done| |exact Hg1|apply lookup_delete_eq].
      split; [done|]. split; [|done]. cbn [allowed]. rewrite Hg1. cbn. by rewrite lookup_delete_eq.
Qed.

(** The same for a set, with the keys as values. *)
Lemma ruby_set_each b cs v X n :
  calls_allowed order (new_world b) cs →
  let w := foldl (rb_after order) (new_world b) cs in
  w_get w v = Some (VSet X, n) →
  ∃ s rs, run_calls order cs (new_server b) = Done (s, rs) ∧
    (∀ block (I : world → Prop), I w →
       (∀ w, I w → ∃ n', w_get w v = Some (VSet X, n')) →
       (∀ w x c, I w → c ∈ block x → allowed order w c ∧ I (rb_after order w c)) →
       ∃ s' rs', rb_set_each (S (size X)) v block s = Done (s', Some (RObj v)) ∧
         run_calls order (each_calls (λ _, RString) (λ _, block) w (order X)) s = Done (s', rs')) ∧
    (∀ block k ks cs1 cs2 X1 n1 fuel, order X = k :: ks →
       block (RString k) = cs1 ++ cs2 → calls_allowed order w (cs1 ++ cs2) →
       w_get (foldl (rb_after order) w cs1) v = Some (VSet X1, n1) → k ∉ X1 →
       rb_set_each (S (S fuel)) v block s = Stuck).
Proof.
  intros Hal w Hg. destruct (rb_calls_run order Horder _ _ cs (new_server_ok b) Hal) as (s & E & Hok & _). fold w in Hok. eexists s, _. split; [exact E|]. split.
  - intros block I HI Hkeys Hblock. unfold rb_set_each. run (keys_now_run _ _ _ _ Hok Hg Logic.I). cbn [fst keys_of].
    apply (each_rounds _ (λ _, RString) (λ _, block) v X (gset_to_gmap 0 X) I) with (don := []); [done| |apply dom_gset_to_gmap| |done| |done|done].
    + intros w0 HI0. destruct (Hkeys w0 HI0) as (n0 & Hg0). by exists (VSet X, n0).
    + intros w0 _ x c. apply Hblock.
    + rewrite Horder. change (length (elements X)) with (size X). lia.
  - intros block k ks cs1 cs2 X1 n1 fuel Ho Hb Hal2 Hg1 Hk1. unfold rb_set_each. run (keys_now_run _ _ _ _ Hok Hg Logic.I).
    by eapply (each_loses s w _ (λ _, block) v _ k ks (RString k) cs1 cs2 _ fuel _ Hok Hg Logic.I); [apply dom_gset_to_gmap|apply first_nodes|exact Ho| | | |exact Hg1|..].
Qed.
End Each.
