(* ===== verification/RbDisk.v ===== *)
(** * What the server's objects write

    The changes that the methods and the database of the Ruby extension queue keep the
    table in step with the world, as long as objects whose key was deleted are only
    read. *)
From S2P Require Import Prelude Atomic Dict Disk MiniSql DiskSpec Bio BioSpec Container Engine EngineSpec EngineLists EngineIndex EnginePersist EngineStore RbObjects RbSpec RbRuns RbLifetimes RbServer.
Local Open Scope Z_scope.

(** ** Steps of the rows of one key *)

Definition rstep (key : string) (old new : list row) (ch : list job) : Prop :=
  (∀ rows rows', rows ≡ₚ old → jobs_rows ch rows rows' → rows' ≡ₚ new) ∧ Forall (job_good key) ch.

Lemma vstep_rstep key old new ch : vstep key old new ch → rstep key (rows_of key old) (rows_of key new) ch.
Proof. intros [Hr _ Hg]. split; [|done]. intros rows rows' Hp Hj. by eapply Hr. Qed.
Lemma rstep_nil key old : rstep key old old [].
Proof. split; [|constructor]. by intros rows rows' Hp ->%jobs_rows_nil. Qed.
Lemma rstep_app key r1 r2 r3 ch1 ch2 : rstep key r1 r2 ch1 → rstep key r2 r3 ch2 → rstep key r1 r3 (ch1 ++ ch2).
Proof.
  intros [H1 G1] [H2 G2]. split; [|by apply list.Forall_app]. intros rows rows' Hp (rows1 & Hj1 & Hj2)%jobs_rows_app.
  eapply H2; [|exact Hj2]. by eapply H1.
Qed.
Lemma rstep_one key old new j :
  (∀ rows rows', rows ≡ₚ old → job_rows j rows rows' → rows' ≡ₚ new) → job_good key j → rstep key old new [j].
Proof. intros Hr Hg. split; [|by constructor]. intros rows rows' Hp Hj%jobs_rows_one. by eapply Hr. Qed.

(** Adding the rows of a value. *)
Lemma rstep_adds key ch new :
  Forall is_add ch → add_row <$> ch ≡ₚ new → Forall (job_good key) ch → rstep key [] new ch.
Proof.
  intros Ha Hn Hg. split; [|done]. intros rows rows' ->%Permutation_nil_r Hj. by rewrite (add_rows _ _ _ Ha Hj).
Qed.

(** ** Sets *)

Abbreviation set_rows key X := (set_row key <$> elements X).

Lemma set_add_step key (X : gset string) k :
  k ∉ X → quote_free key → quote_free k → rstep key (set_rows key X) (set_rows key ({[k]} ∪ X)) [Job SET_ADD key (Some k) None].
Proof.
  intros Hk Hq Hqk. apply rstep_one; [|by apply job_good_intro; [done| |done|apply quote_free_empty]].
  intros rows rows' Hr Hj. unfold job_rows in Hj. cbn in Hj. subst rows'.
  rewrite elements_union_singleton by done. cbn [fmap list_fmap]. rewrite Hr. symmetry. apply Permutation_cons_append.
Qed.

Lemma set_del_rows key (X : gset string) k rows rows' :
  rows ≡ₚ set_rows key X → job_rows (Job SET_DEL key (Some k) None) rows rows' → rows' ≡ₚ set_rows key (X ∖ {[k]}).
Proof.
  intros Hr Hj. unfold job_rows in Hj. cbn in Hj. change (id k) with k in Hj. subst rows'. rewrite Hr. clear Hr.
  assert (∀ Y : gset string, k ∉ Y → delete_where (is_sub_row "set" key k) (set_rows key Y) = set_rows key Y) as Hnone.
  { intros Y Hk. apply delete_none. intros r (k' & -> & Hin%elem_of_elements)%list_elem_of_fmap. apply bool_decide_eq_false_2.
    intros (_ & _ & E). cbn in E. congruence. }
  destruct (decide (k ∈ X)) as [Hin|Hin].
  - assert (X = {[k]} ∪ X ∖ {[k]}) as HX by (apply union_difference_singleton_L; done). rewrite HX at 1.
    rewrite elements_union_singleton by set_solver. cbn [fmap list_fmap]. rewrite delete_cons.
    assert (is_sub_row "set" key k (set_row key k) = true) as -> by (by apply bool_decide_eq_true_2).
    rewrite Hnone; [done|set_solver].
  - rewrite Hnone by done. replace (X ∖ {[k]}) with X by set_solver. done.
Qed.

Lemma set_del_step key (X : gset string) ks :
  quote_free key → (∀ k, k ∈ ks → quote_free k) →
  rstep key (set_rows key X) (set_rows key (X ∖ list_to_set ks)) ((λ k, Job SET_DEL key (Some k) None) <$> ks).
Proof.
  intros Hq Hks. split.
  - clear Hks. revert X. induction ks as [|k ks IH]; intros X rows rows' Hr Hj.
    + apply jobs_rows_nil in Hj as ->. by replace (X ∖ list_to_set []) with X by set_solver.
    + inversion Hj as [|? ? ? rows1 ? Hj1 Hj2]; subst. pose proof (set_del_rows key X k rows rows1 Hr Hj1) as Hr1.
      rewrite list_to_set_cons. replace (X ∖ ({[k]} ∪ list_to_set ks)) with ((X ∖ {[k]}) ∖ list_to_set ks) by set_solver. by eapply IH.
  - apply list.Forall_fmap, list.Forall_forall. intros k Hk. apply job_good_intro; [done|done|by apply Hks|apply quote_free_empty].
Qed.

(** ** Methods *)

Definition method_clean (m : method) : Prop :=
  match m with
  | LPush t | LSet _ t => quote_free t
  | HStore k t => quote_free k ∧ quote_free t
  | SAdd k => quote_free k
  | _ => True
  end.

Lemma opt_list_rows key l : rows_of key (opt_list l) = list_row key <$> l.
Proof. by destruct l. Qed.

Section Rows.
Context (order : gset string → list string) (Horder : ∀ X, order X ≡ₚ elements X).

Lemma map_clean_delete h k : map_clean h → map_clean (delete k h).
Proof. intros Hh s t [_ H]%lookup_delete_Some. by apply Hh. Qed.

(** Emptying a container. *)
Lemma clear_rows key c :
  quote_free key → text_clean c.1 → is_string c.1 = false →
  rstep key (val_rows key c.1) [] (job_at key <$> clear_changes order c).
Proof.
  intros Hk Hc Hty. destruct c as [[t|l|h|X] n]; [done|..]; unfold clear_changes; cbn [fst text_clean val_rows] in *; rewrite <-list_fmap_compose.
  - pose proof (vstep_rstep _ _ _ _ (list_del_step key l l [] Hk Hc ltac:(by rewrite app_nil_r))) as H. exact H.
  - assert (∀ k, k ∈ order (dom h) → is_Some (h !! k)) as Hin.
    { intros k. by rewrite Horder, elem_of_elements, elem_of_dom. }
    pose proof (vstep_rstep _ _ _ _ (hm_del_step key h ∅ (order (dom h)) Hk Hc Hin ltac:(
      intros x; rewrite lookup_empty; case_decide as Hx; [done|]; symmetry; apply not_elem_of_dom; by rewrite Horder, elem_of_elements in Hx))) as H.
    rewrite opt_hmap_rows, map_to_list_empty in H. exact H.
  - pose proof (set_del_step key X (order X) Hk ltac:(intros k; rewrite Horder, elem_of_elements; apply Hc)) as H.
    assert (X ∖ list_to_set (order X) = ∅) as HX.
    { apply set_eq. intros k. rewrite elem_of_difference, elem_of_list_to_set, Horder, elem_of_elements. set_solver. }
    rewrite HX, elements_empty in H. exact H.
Qed.

Lemma index_at_Some l i j : index_at l i = Some j → ∃ xs t ys, l = xs ++ t :: ys ∧ j = length xs ∧ l !! j = Some t.
Proof.
  unfold index_at. case_decide as Hi; [|done]. intros [= <-].
  destruct (lookup_lt_is_Some_2 l (Z.to_nat i)) as [t Ht]; [lia|].
  destruct (list_elem_of_split_length _ _ _ Ht) as (xs & ys & -> & Hl). by exists xs, t, ys.
Qed.

Lemma list_method_rows key l m v n r c' chs :
  quote_free key → Forall quote_free l → method_clean m → method_spec order m v (VList l, n) = Some (r, c', chs) →
  rstep key (val_rows key (VList l)) (val_rows key c'.1) (job_at key <$> chs) ∧ text_clean c'.1.
Proof.
  intros Hk Hl Hm E.
  destruct m; cbn in E; try discriminate E; injection E as E.
  - simplify_eq. assert (l ++ [t] ≡ₚ t :: l) as Hp by (symmetry; apply Permutation_cons_append). split.
    + exact (vstep_rstep _ _ _ _ (list_add_step key (Some (VList l)) l (l ++ [t]) t eq_refl Hp Hl Hk Hm)).
    + cbn. rewrite Hp. by constructor.
  - destruct (index_at l i) as [j|] eqn:Hi; simplify_eq; [|split; [apply rstep_nil|done]].
    destruct (index_at_Some l i j Hi) as (xs & t & ys & -> & -> & Ht). rewrite Ht. cbn [fst].
    assert (delete (length xs) (xs ++ t :: ys) = xs ++ ys) as -> by by rewrite delete_middle.
    assert (xs ++ t :: ys ≡ₚ [t] ++ xs ++ ys) as Hp by (by rewrite <-Permutation_middle). split.
    + pose proof (vstep_rstep _ _ _ _ (list_del_step key _ [t] (xs ++ ys) Hk Hl Hp)) as H. by rewrite opt_list_rows in H.
    + rewrite Hp in Hl. cbn. by apply list.Forall_cons in Hl as [_ ?].
  - destruct (index_at l i); simplify_eq; (split; [apply rstep_nil|done]).
  - destruct (index_at l i) as [j|] eqn:Hi; simplify_eq; [|split; [apply rstep_nil|done]].
    destruct (index_at_Some l i j Hi) as (xs & t0 & ys & -> & -> & Ht). rewrite Ht. cbn [fst].
    rewrite insert_app_r_alt, Nat.sub_diag by lia. cbn [list_insert]. split.
    + exact (vstep_rstep _ _ _ _ (list_update_step key xs t0 ys t Hk Hl Hm)).
    + cbn. apply list.Forall_app in Hl as [? [? ?]%list.Forall_cons]. apply list.Forall_app. split; [done|by constructor].
  - simplify_eq. split; [apply rstep_nil|done].
  - simplify_eq. split; [exact (clear_rows key (VList l, n) Hk Hl eq_refl)|]. constructor.
Qed.

Lemma hashmap_method_rows key h m v n r c' chs :
  quote_free key → map_clean h → method_clean m → method_spec order m v (VHashmap h, n) = Some (r, c', chs) →
  rstep key (val_rows key (VHashmap h)) (val_rows key c'.1) (job_at key <$> chs) ∧ text_clean c'.1.
Proof.
  intros Hk Hh Hm E.
  destruct m; cbn in E; try discriminate E; injection E as E.
  - destruct Hm as [Hqk Hqt]. destruct (h !! k) as [t0|] eqn:Hl; simplify_eq; cbn [fst]; (split; [|by apply map_clean_insert]).
    + exact (vstep_rstep _ _ _ _ (hm_update_step key h k t0 t Hl Hh Hk Hqk Hqt)).
    + exact (vstep_rstep _ _ _ _ (hm_add_step key (Some (VHashmap h)) h k t eq_refl Hl Hh Hk Hqk Hqt)).
  - simplify_eq. split; [apply rstep_nil|done].
  - destruct (h !! k) as [t|] eqn:Hl; simplify_eq; [|split; [apply rstep_nil|done]]. split; [|by apply map_clean_delete].
    assert (vstep key (Some (VHashmap h)) (opt_hmap (delete k h)) ((λ k, Job HM_DEL key (Some k) None) <$> [k])) as Hs.
    { apply hm_del_step; [done|done|by intros k' ->%list_elem_of_singleton|].
      intros x. case_decide as Hx; [apply list_elem_of_singleton in Hx as ->; apply lookup_delete_eq|].
      apply lookup_delete_ne. intros ->. by destruct Hx; left. }
    apply vstep_rstep in Hs. by rewrite opt_hmap_rows in Hs.
  - simplify_eq. split; [apply rstep_nil|done].
  - simplify_eq. split; [|by intros ? ?; rewrite lookup_empty]. pose proof (clear_rows key (VHashmap h, n) Hk Hh eq_refl) as H.
    cbn [cleared fst val_rows]. by rewrite map_to_list_empty.
Qed.

Lemma set_method_rows key X m v n r c' chs :
  quote_free key → (∀ k, k ∈ X → quote_free k) → method_clean m → method_spec order m v (VSet X, n) = Some (r, c', chs) →
  rstep key (val_rows key (VSet X)) (val_rows key c'.1) (job_at key <$> chs) ∧ text_clean c'.1.
Proof.
  intros Hk HX Hm E.
  destruct m; cbn in E; try discriminate E; injection E as E.
  - case_decide as Hin; simplify_eq; [split; [apply rstep_nil|done]|]. split; [by apply set_add_step|]. cbn. set_solver.
  - case_decide as Hin; simplify_eq; [|split; [apply rstep_nil|done]]. split; [|cbn; set_solver].
    pose proof (set_del_step key X [k] Hk ltac:(intros k' ->%list_elem_of_singleton; by apply HX)) as H.
    by replace (X ∖ list_to_set [k]) with (X ∖ {[k]}) in H by set_solver.
  - simplify_eq. split; [apply rstep_nil|done].
  - simplify_eq. split; [apply rstep_nil|done].
  - simplify_eq. split; [|by intros ? ?%not_elem_of_empty]. pose proof (clear_rows key (VSet X, n) Hk HX eq_refl) as H.
    cbn [cleared fst val_rows]. by rewrite elements_empty.
Qed.

Lemma method_rows key m v c r c' chs :
  quote_free key → text_clean c.1 → method_clean m → method_spec order m v c = Some (r, c', chs) →
  rstep key (val_rows key c.1) (val_rows key c'.1) (job_at key <$> chs) ∧ text_clean c'.1.
Proof.
  destruct c as [[t|l|h|X] n]; cbn [fst text_clean]; [by destruct m|apply list_method_rows|apply hashmap_method_rows|apply set_method_rows].
Qed.

(** Storing a value where there is none. *)
Lemma store_rows key v : quote_free key → text_clean v → rstep key [] (val_rows key v) (jobs_of order key v).
Proof.
  intros Hk Hv. assert (jobs_of order key v ≡ₚ store_jobs key v) as Hp.
  { destruct v as [t|l|h|X]; cbn [jobs_of store_jobs]; [done|done| |by rewrite Horder].
    rewrite Horder, elements_dom_list, <-list_fmap_compose. apply Permutation_refl', list_fmap_ext.
    intros i [k t] Hin. cbn. unfold hm_add_job. cbn. f_equal. apply elem_of_map_to_list. by eapply list_elem_of_lookup_2. }
  apply rstep_adds.
  - rewrite Hp. apply store_jobs_add.
  - by rewrite Hp, store_jobs_rows.
  - rewrite Hp. destruct v as [t|l|h|X]; cbn [store_jobs text_clean] in *.
    + constructor; [|constructor]. by apply job_good_intro; [| |apply quote_free_empty|].
    + apply list.Forall_fmap. eapply list.Forall_impl; [exact Hv|]. intros t Ht. by apply job_good_intro; [| |apply quote_free_empty|].
    + apply list.Forall_fmap, list.Forall_forall. intros [k t] Hin%elem_of_map_to_list. destruct (Hv k t Hin). by apply job_good_intro.
    + apply list.Forall_fmap, list.Forall_forall. intros k Hin%elem_of_elements. apply job_good_intro; [done|done|by apply Hv|apply quote_free_empty].
Qed.

(** ** Calls *)

(** The rows that the value at a key has. *)
Definition rows_in (w : world) (key : string) : list row :=
  match w_db w !! key with Some c => val_rows key c.1 | None => [] end.

Record world_clean (w : world) : Prop := {
  wc_db key c : w_db w !! key = Some c → quote_free key ∧ text_clean c.1;
  wc_at v key c : w_obj w !! v = Some (At key) → w_db w !! key = Some c → is_string c.1 = false;
  wc_own v old c : w_obj w !! v = Some (Own old c) → text_clean c.1 ∧ is_string c.1 = false ∧ (is_Some old → cleared c = c) }.

(** Methods that change nothing. *)
Definition reads (m : method) : bool :=
  match m with LRef _ | LLength | HRef _ | HSize | SInclude _ | SSize => true | _ => false end.

(** An object whose key was deleted is only read; no key and no text has a quote; changes
    are not switched off. *)
Definition tidy (w : world) (c : call) : Prop :=
  match c with
  | Call v m => method_clean m ∧ match w_obj w !! v with Some (Own (Some _) _) => reads m = true | _ => True end
  | DbStore key data => quote_free key ∧ match data with RString t => quote_free t | _ => True end
  | SetLoad b => b = true
  | _ => True
  end.

Lemma clear_cleared c : cleared c = c → is_string c.1 = false → clear_changes order c = [].
Proof.
  assert (order ∅ = []) as Ho by (apply Permutation_nil_r; rewrite Horder; by rewrite elements_empty).
  destruct c as [[t|l|h|X] n]; unfold cleared; cbn [fst snd is_string]; intros Hc ?; [done|..]; simplify_eq; unfold clear_changes; cbn [fst];
    rewrite ?dom_empty_L, ?Ho; done.
Qed.
Lemma cleared_twice c : cleared (cleared c) = cleared c.
Proof. by destruct c as [[] ?]. Qed.
Lemma cleared_text c : is_string c.1 = false → text_clean (cleared c).1.
Proof.
  destruct c as [[t|l|h|X] n]; cbn; [done|constructor|intros _ s t; by rewrite lookup_empty|intros _ k; by rewrite elem_of_empty].
Qed.

Lemma reads_nothing m v c r c' chs : reads m = true → method_spec order m v c = Some (r, c', chs) → c' = c ∧ chs = [].
Proof. intros Hr E. destruct c as [[] n], m; try discriminate Hr; try discriminate E; cbn in E; injection E as E; simplify_eq; done. Qed.

(** What a call does to the rows. *)
Definition rows_step (w w' : world) (js : list job) : Prop :=
  ∃ key, rstep key (rows_in w key) (rows_in w' key) js ∧ ∀ k, k ≠ key → rows_in w' k = rows_in w k.

Lemma rows_step_same w w' : w_db w' = w_db w → rows_step w w' [].
Proof. intros Hd. exists "". unfold rows_in. rewrite Hd. split; [apply rstep_nil|done]. Qed.

Lemma delete_rows w key :
  world_clean w → quote_free key → rstep key (rows_in w key) [] (delete_spec order w key).2 ∧
    (∀ k, k ≠ key → rows_in (delete_spec order w key).1 k = rows_in w k) ∧ world_clean (delete_spec order w key).1.
Proof.
  intros Hw Hk. unfold delete_spec, rows_in. destruct (w_db w !! key) as [c|] eqn:Hc; cbn [fst snd]; [|split; [apply rstep_nil|done]].
  destruct (wc_db _ Hw key c Hc) as [_ Hcl]. split_and!.
  - destruct (is_string c.1) eqn:Hty; [|by apply clear_rows]. destruct c as [[t| | |] n]; try done. cbn [fst val_rows].
    exact (vstep_rstep _ _ _ _ (string_del_step key t Hk)).
  - intros k Hne. cbn. by rewrite lookup_delete_ne.
  - split; cbn.
    + intros k c' [_ H]%lookup_delete_Some. by apply (wc_db _ Hw).
    + intros v k c'. rewrite lookup_fmap. destruct (w_obj w !! v) as [h|] eqn:Hv; [|done]. cbn.
      case_decide as Hh; [done|]. intros [= ->] [_ H]%lookup_delete_Some. by eapply (wc_at _ Hw).
    + intros v old c'. rewrite lookup_fmap. destruct (w_obj w !! v) as [h|] eqn:Hv; [|done]. cbn. case_decide as Hh.
      * subst h. intros [= <- <-]. pose proof (wc_at _ Hw v key c Hv Hc) as Hty. split_and!; [by apply cleared_text| |intros _; apply cleared_twice].
        by destruct c as [[] ?].
      * intros [= ->]. by apply (wc_own _ Hw v).
Qed.

Lemma method_clean_step w v m c r c' chs :
  world_clean w → w_get w v = Some c → method_spec order m v c = Some (r, c', chs) → tidy w (Call v m) →
  rows_step w (w_put w v c') (jobs_at (w_key w v) chs) ∧ world_clean (w_put w v c').
Proof.
  intros Hw Hg Hm [Hmc Hr]. unfold w_get, w_put, w_key in *. destruct (w_obj w !! v) as [[key|old c0]|] eqn:Hv; [| |done].
  - destruct (wc_db _ Hw key c Hg) as [Hk Hc]. destruct (method_rows key m v c r c' chs Hk Hc Hmc Hm) as [Hs Hc']. split.
    + exists key. unfold rows_in. cbn. rewrite Hg, lookup_insert_eq. split; [done|]. intros k Hne. by rewrite lookup_insert_ne.
    + split; cbn.
      * intros k c1 [[<- <-]|[_ H]]%lookup_insert_Some; [done|]. by apply (wc_db _ Hw).
      * intros u k c1 Hu [[<- <-]|[_ H]]%lookup_insert_Some; [|by eapply (wc_at _ Hw)].
        rewrite (method_type order m v c r c' chs Hm). by eapply (wc_at _ Hw).
      * apply (wc_own _ Hw).
  - simplify_eq. destruct (wc_own _ Hw v old c Hv) as (Hc & Hty & Hold). destruct old as [key|].
    + destruct (reads_nothing m v c r c' chs Hr Hm) as [-> ->]. split; [by apply rows_step_same|].
      rewrite insert_id by done. by destruct w.
    + split; [by apply rows_step_same|].
      destruct (method_rows "" m v c r c' chs quote_free_empty Hc Hmc Hm) as [_ Hc']. split; cbn.
      * apply (wc_db _ Hw).
      * intros u k c1 [[_ ?]|[_ H]]%lookup_insert_Some; [done|]. by eapply (wc_at _ Hw).
      * intros u o c1 [[<- ?]|[_ H]]%lookup_insert_Some; [|by apply (wc_own _ Hw u)]. simplify_eq. split_and!; [done| |by intros []].
        by rewrite (method_type order m _ c r _ chs Hm).
Qed.

Lemma new_clean w c : world_clean w → text_clean c.1 → is_string c.1 = false → world_clean (w_new (Own None c) w).
Proof.
  intros Hw Hc Hty. split; cbn.
  - apply (wc_db _ Hw).
  - intros u k c1 [[_ ?]|[_ H]]%lookup_insert_Some; [done|]. by eapply (wc_at _ Hw).
  - intros u o c1 [[<- ?]|[_ H]]%lookup_insert_Some; [|by apply (wc_own _ Hw u)]. simplify_eq. split_and!; [done..|by intros []].
Qed.

(** A value is stored where there was another. *)
Lemma store_clean w key c js w1 :
  world_clean w → quote_free key → text_clean c.1 → delete_spec order w key = (w1, js) → w_db w1 !! key = None →
  rows_step w (w_store key c w1) (js ++ jobs_of order key c.1).
Proof.
  intros Hw Hk Hc Hd Hn. destruct (delete_rows w key Hw Hk) as (H1 & H2 & _). rewrite Hd in H1, H2. cbn [fst snd] in H1, H2.
  exists key. split.
  - eapply rstep_app; [exact H1|]. unfold rows_in at 1. cbn. rewrite lookup_insert_eq. by apply store_rows.
  - intros k Hne. rewrite <-H2 by done. unfold rows_in. cbn. by rewrite lookup_insert_ne.
Qed.

Lemma no_at_deleted w key v : is_Some (w_db w !! key) → w_obj (delete_spec order w key).1 !! v ≠ Some (At key).
Proof.
  intros [c Hc]. unfold delete_spec. rewrite Hc. cbn. rewrite lookup_fmap. destruct (w_obj w !! v); [|done]. cbn. case_decide; congruence.
Qed.

Lemma store_world_clean w key c :
  world_clean w → quote_free key → text_clean c.1 → (∀ v, w_obj w !! v = Some (At key) → is_string c.1 = false) →
  world_clean (w_store key c w).
Proof.
  intros Hw Hk Hc Hat. split; cbn.
  - intros k c1 [[<- <-]|[_ H]]%lookup_insert_Some; [done|]. by apply (wc_db _ Hw).
  - intros u k c1 Hu [[<- <-]|[_ H]]%lookup_insert_Some; [by eapply Hat|]. by eapply (wc_at _ Hw).
  - apply (wc_own _ Hw).
Qed.
Lemma hold_world_clean w v key :
  world_clean w → w_db w !! key = None → world_clean (w_hold v (At key) w).
Proof.
  intros Hw Hn. split; cbn.
  - apply (wc_db _ Hw).
  - intros u k c1 [[<- ?]|[_ H]]%lookup_insert_Some Hc; [congruence|]. by eapply (wc_at _ Hw).
  - intros u o c1 [[_ ?]|[_ H]]%lookup_insert_Some; [done|]. by apply (wc_own _ Hw u).
Qed.

Lemma store_call_rows s w key data :
  ok s w → allowed order w (DbStore key data) → world_clean w → tidy w (DbStore key data) →
  rows_step w (rb_after order w (DbStore key data)) (rb_changes order w (DbStore key data)) ∧ world_clean (rb_after order w (DbStore key data)).
Proof.
  intros Hok Hal Hw [Hk Hd]. unfold rb_after, rb_changes. cbn [rb_spec].
  destruct (delete_rows w key Hw Hk) as (_ & _ & Hw1). destruct (delete_spec order w key) as [w1 js] eqn:Hdel. cbn [fst] in Hw1.
  assert (w_db w1 !! key = None) as Hn by (pose proof (proj1 (delete_spec_db order w key)) as H; by rewrite Hdel in H).
  assert (∀ v, w_obj w1 !! v ≠ Some (At key)) as Hno.
  { intros v. destruct (w_db w !! key) eqn:Hc.
    - pose proof (no_at_deleted w key v ltac:(by eexists)) as H. by rewrite Hdel in H.
    - unfold delete_spec in Hdel. rewrite Hc in Hdel. simplify_eq. by apply (no_object s). }
  destruct data as [| | |t|n|v]; try done.
  - assert (∀ t0 n, w_db w !! key = Some (VString t0, n) →
      rows_step w (w_store key (VString t, n) w) [Job STRING_UPDATE key None (Some t)] ∧ world_clean (w_store key (VString t, n) w)) as Hup.
    { intros t0 n Hc. split.
      - exists key. unfold rows_in. cbn. rewrite Hc, lookup_insert_eq. split; [|intros k Hne; by rewrite lookup_insert_ne].
        exact (vstep_rstep _ _ _ _ (string_update_step key t0 t Hk Hd)).
      - apply store_world_clean; [done..|]. intros v Hv. by apply (wc_at _ Hw v key _ Hv) in Hc. }
    assert (rows_step w (w_store key (VString t, 0) w1) (js ++ [Job STRING_ADD key None (Some t)]) ∧ world_clean (w_store key (VString t, 0) w1)) as Hadd.
    { split; [by apply (store_clean w key (VString t, 0) js w1)|]. apply store_world_clean; [done..|]. intros v Hv. by destruct (Hno v). }
    destruct (w_db w !! key) as [[[t0|l|h|X] n]|] eqn:Hc; cbn [fst snd]; [by eapply Hup|done..].
  - destruct Hal as [_ [c Hv]]. destruct (wc_own _ Hw v None c Hv) as (Hc & Hty & _).
    assert (rows_step w (w_store key c (w_hold v (At key) w1)) (js ++ jobs_of order key c.1) ∧ world_clean (w_store key c (w_hold v (At key) w1))) as H.
    { split.
      - destruct (store_clean w key c js w1 Hw Hk Hc Hdel Hn) as (k & H1 & H2). by exists k.
      - apply store_world_clean; [by apply hold_world_clean|done..]. }
    rewrite Hv. by destruct (w_db w !! key) as [[[] ?]|].
Qed.

(** Every call, in a world that the containers keep up with. *)
Lemma call_rows s w c :
  ok s w → allowed order w c → world_clean w → tidy w c →
  rows_step w (rb_after order w c) (rb_changes order w c) ∧ world_clean (rb_after order w c).
Proof.
  intros Hok Hal Hw Ht. destruct c as [| | |v m|key data|key|key| |v|b]; [| | | |by apply (store_call_rows s)|..]; unfold rb_after, rb_changes; cbn [rb_spec fst snd].
  - split; [by apply rows_step_same|]. apply new_clean; [done|constructor|done].
  - split; [by apply rows_step_same|]. apply new_clean; [done|intros ? ?; by rewrite lookup_empty|done].
  - split; [by apply rows_step_same|]. apply new_clean; [done|intros ?; by rewrite elem_of_empty|done].
  - cbn [allowed] in Hal. destruct (w_get w v) as [c|] eqn:Hg; [|by destruct Hal]. cbn [option_bind mbind] in *.
    destruct (method_spec order m v c) as [[[r c'] chs]|] eqn:Hm; [|by destruct Hal]. by eapply method_clean_step.
  - destruct (w_db w !! key) as [c|] eqn:Hc; [|by split; [apply rows_step_same|]].
    assert (∀ c', c' = c → rows_step w w [] ∧ world_clean w) as Hsame by (intros _ _; by split; [apply rows_step_same|]).
    assert (is_string c.1 = false → rows_step w (w_new (At key) w) [] ∧ world_clean (w_new (At key) w)) as Hnew.
    { intros Hty. split; [by apply rows_step_same|]. split; cbn.
      - apply (wc_db _ Hw).
      - intros u k c1 [[<- ?]|[_ H]]%lookup_insert_Some Hc1; [|by eapply (wc_at _ Hw)]. simplify_eq. done.
      - intros u o c1 [[_ ?]|[_ H]]%lookup_insert_Some; [done|]. by apply (wc_own _ Hw u). }
    destruct c as [[t|l|h|X] n]; [by eapply Hsame|..]; (destruct (obj_at w key); [by eapply Hsame|by apply Hnew]).
  - destruct (w_db w !! key) as [c|] eqn:Hc.
    + destruct (wc_db _ Hw key c Hc) as [Hk _]. destruct (delete_rows w key Hw Hk) as (H1 & H2 & H3). pose proof (proj1 (delete_spec_db order w key)) as Hn.
      destruct (delete_spec order w key) as [w1 js]. cbn [fst snd] in *. split; [|done]. exists key. split; [|done].
      unfold rows_in in *. rewrite Hn. done.
    + unfold delete_spec. rewrite Hc. cbn [fst snd]. by split; [apply rows_step_same|].
  - by split; [apply rows_step_same|].
  - cbn [allowed] in Hal. destruct (w_obj w !! v) as [h|] eqn:Hv; [|by destruct Hal].
    assert (world_clean (World (w_db w) (delete v (w_obj w)) (w_load w) (w_num w))) as Hw'.
    { split; cbn; [apply (wc_db _ Hw)|..].
      - intros u k c1 [_ H]%lookup_delete_Some. by eapply (wc_at _ Hw).
      - intros u o c1 [_ H]%lookup_delete_Some. by apply (wc_own _ Hw u). }
    assert (match h with At _ => [] | Own old c => jobs_at old (clear_changes order c) end = []) as E.
    { destruct h as [|[key|] c]; try done. destruct (wc_own _ Hw v (Some key) c Hv) as (_ & Hty & Hcl). cbn. by rewrite clear_cleared by eauto. }
    split; [|done]. destruct h as [key|old c]; [by apply rows_step_same|]. rewrite E. by apply rows_step_same.
  - split; [by apply rows_step_same|]. destruct Hw. by split.
Qed.
End Rows.
