(* ===== verification/RbRestart.v ===== *)
(** * Stopping and starting the server

    What the objects of a program wrote, and what [Engine#start] of
    [lib/xfiredb-serv/engine.rb] makes of it: the database comes back. *)
From S2P Require Import Prelude Atomic Dict KeyIndex Database Disk MiniSql DiskSpec Bio BioSpec Container Engine EngineSpec EngineLists EngineIndex EngineRun EnginePersist EngineLoad EngineStore RbObjects RbSpec RbRuns RbLifetimes RbServer RbDisk.
Local Open Scope Z_scope.

(** ** Loading, as [engine.rb] does it *)

Section Load.
Context (order : gset string → list string).

(** The class of an object of the extension. *)
Definition rb_class (v : VALUE) : M (option container_type_t) :=
  match v with
  | RObj u => e ← get_struct u; x ← get_entry e; mret (Some (type_of (en_c x).1))
  | RString _ => mret (Some CONTAINER_STRING)
  | _ => mret None
  end.

(** [@db[key] ||= XFireDB::List.new] and the like. *)
Definition or_new (key : string) (alloc : M VALUE) : M () :=
  r ← rb_db_ref key;
  match r with
  | Qnil | Qfalse => o ← alloc; _ ← rb_db_store order key o; mret ()
  | _ => mret ()
  end.
(** The object at the key, if it is of the class; the method that adds the row to it. *)
Definition add_to (key : string) (class : container_type_t) (m : method) : M () :=
  r ← rb_db_ref key;
  c ← rb_class r;
  match r with
  | RObj v => if decide (c = Some class) then _ ← run_method order m v; mret () else mret ()
  | _ => mret ()
  end.

Definition load_string (key data : string) : M () := _ ← rb_db_store order key (RString data); mret ().
Definition load_list_entry (key data : string) : M () :=
  _ ← or_new key rb_list_alloc; add_to key CONTAINER_LIST (LPush data).
Definition load_map_entry (key hash data : string) : M () :=
  _ ← or_new key rb_hashmap_alloc; add_to key CONTAINER_HASHMAP (HStore hash data).
Definition load_set_entry (key skey : string) : M () :=
  _ ← or_new key rb_set_alloc; add_to key CONTAINER_SET (SAdd skey).

Definition load_entry (r : row) : M () :=
  if decide (r_type r = "string") then load_string (r_key r) (r_value r)
  else if decide (r_type r = "list") then load_list_entry (r_key r) (r_value r)
  else if decide (r_type r = "hashmap") then load_map_entry (r_key r) (r_skey r) (r_value r)
  else if decide (r_type r = "set") then load_set_entry (r_key r) (r_skey r)
  else mret ().

(** [Engine#start], after [init]. *)
Fixpoint load_entries (rows : list row) : M () :=
  match rows with [] => mret () | r :: rows => _ ← load_entry r; load_entries rows end.
Definition start (rows : list row) : M () :=
  _ ← xfiredb_set_loadstate false;
  _ ← load_entries rows;
  xfiredb_set_loadstate true.

(** [Engine#exit]: every entry is deleted. *)
Definition exit_soft (ks : list string) : M () :=
  _ ← xfiredb_set_loadstate false;
  rb_db_each_pair ks (λ key _, _ ← rb_db_delete order key; mret ()).
End Load.

(** ** The table *)

Section Restart.
Context (order : gset string → list string) (Horder : ∀ X, order X ≡ₚ elements X).

(** The table holds the world. *)
Definition rows_hold (w : world) (rows : list row) : Prop := ∀ key, rows_at key rows ≡ₚ rows_in w key.

Lemma rows_step_hold w w' js rows rows' :
  rows_step w w' js → rows_hold w rows → jobs_rows js rows rows' → rows_hold w' rows'.
Proof.
  intros (key & [Hr Hg] & Hother) Hh Hj k.
  assert (Forall (λ j, j_key j = key) js) as Hkeys by (eapply list.Forall_impl; [exact Hg|]; by intros j []).
  destruct (jobs_rows_at js rows rows' key Hkeys Hj) as [Hat Hsame].
  destruct (decide (k = key)) as [->|Hne]; [exact (Hr _ _ (Hh key) Hat)|]. by rewrite Hsame, Hother.
Qed.

Fixpoint calls_tidy (w : world) (cs : list call) : Prop :=
  match cs with [] => True | c :: cs => tidy w c ∧ calls_tidy (rb_after order w c) cs end.

Lemma tidy_load w c : tidy w c → w_load w = true → w_load (rb_after order w c) = true.
Proof.
  intros Ht Hl. unfold rb_after. destruct c as [| | |v m|key data|key|key| |v|b]; cbn [rb_spec fst snd]; try done.
  - destruct (w_get w v ≫= _) as [[[r c'] chs]|]; [|done]. cbn. unfold w_put. by destruct (w_obj w !! v) as [[]|].
  - pose proof (proj2 (delete_spec_db order w key)) as Hd. destruct (delete_spec order w key) as [w1 js]. cbn [fst] in Hd. rewrite Hl in Hd.
    destruct data as [| | |t|n|v]; try done; destruct (w_db w !! key) as [[[] ?]|]; try done; by destruct (w_obj w !! v) as [[]|].
  - destruct (w_db w !! key) as [[[] ?]|]; try done; by destruct (obj_at w key).
  - pose proof (proj2 (delete_spec_db order w key)) as Hd. destruct (delete_spec order w key) as [w1 js]. cbn in *. congruence.
Qed.

Lemma rows_step_good w w' js : rows_step w w' js → Forall (λ j, job_ok j = true) js ∧ Forall job_quote_free js.
Proof. intros (key & [_ Hg] & _). split; (eapply list.Forall_impl; [exact Hg|]; by intros j (? & ? & ?)). Qed.

Lemma calls_rows s w cs :
  ok s w → calls_allowed order w cs → world_clean w → calls_tidy w cs → w_load w = true →
  world_clean (foldl (rb_after order) w cs) ∧ w_load (foldl (rb_after order) w cs) = true ∧
  Forall (λ j, job_ok j = true) (all_logged order w cs) ∧ Forall job_quote_free (all_logged order w cs) ∧
  ∀ rows rows', rows_hold w rows → jobs_rows (all_logged order w cs) rows rows' → rows_hold (foldl (rb_after order) w cs) rows'.
Proof.
  revert s w. induction cs as [|c cs IH]; intros s w Hok Hal Hw Ht Hl; cbn [calls_allowed calls_tidy all_logged foldl] in *.
  - split_and!; try done. by intros rows rows' Hh ->%jobs_rows_nil.
  - destruct Hal as [Hc Hcs], Ht as [Ht Hts]. pose proof (tidy_load w c Ht Hl) as Hl1.
    destruct (call_rows order Horder s w c Hok Hc Hw Ht) as [Hstep Hw1]. destruct (rows_step_good _ _ _ Hstep) as [G1 G2].
    destruct (call_promised order Horder s w c Hok Hc) as (s1 & _ & Hok1 & _).
    destruct (IH s1 _ Hok1 Hcs Hw1 Hts Hl1) as (H1 & H2 & H3 & H4 & H5). unfold logged. rewrite Hl1.
    split_and!; [done|done|by apply list.Forall_app|by apply list.Forall_app|].
    intros rows rows' Hh (rows1 & Hj1 & Hj2)%jobs_rows_app. eapply H5; [|exact Hj2]. by eapply rows_step_hold.
Qed.

Lemma new_world_clean : world_clean (new_world true).
Proof. split; cbn; intros *; by rewrite lookup_empty. Qed.
Lemma new_world_holds b : rows_hold (new_world b) [].
Proof. intros key. unfold rows_in. cbn. by rewrite lookup_empty. Qed.

(** ** Loading *)

Definition values (w : world) : vmap := fst <$> w_db w.

(** A run that queues nothing. *)
Definition quiet {A} (m : M A) (s : server) (r : A) (w : world) : Prop :=
  ∃ s', m s = Done (s', r) ∧ ok s' w ∧ sv_queue s' = sv_queue s.

Lemma promised_quiet {A} (m : M A) s r w js : promised m s r w js → w_load w = false → quiet m s r w.
Proof.
  intros (s' & E & Hok & Hq) Hl. pose proof (ok_load _ _ Hok) as Hl'. rewrite Hl in Hl'.
  exists (queued js s'). split_and!; [done|by apply queued_ok|]. unfold queued. cbn. by rewrite Hl'.
Qed.
Lemma quiet_bind {A B} (m : M A) (f : A → M B) s a w r w' :
  quiet m s a w → (∀ s', ok s' w → quiet (f a) s' r w') → quiet (m ≫= f) s r w'.
Proof.
  intros (s1 & E & Hok & Hq) Hf. destruct (Hf s1 Hok) as (s2 & E2 & Hok2 & Hq2). exists s2. split_and!; [by run E|done|congruence].
Qed.
Lemma quiet_ret {A} (a : A) s w : ok s w → quiet (mret a) s a w.
Proof. intros Hok. by exists s. Qed.

(** The object at a key, made when there is none. *)
Lemma ref_object s w key c :
  ok s w → w_load w = false → w_db w !! key = Some c → is_string c.1 = false →
  ∃ v w', quiet (rb_db_ref key) s (RObj v) w' ∧ w_db w' = w_db w ∧ w_load w' = false ∧ w_obj w' !! v = Some (At key).
Proof.
  intros Hok Hl Hc Hty. pose proof (ref_promised order s w key Hok) as H. cbn [rb_spec] in H. rewrite Hc in H.
  destruct (obj_at w key) as [v|] eqn:Hat.
  - exists v, w. split_and!; [|done|done|by apply obj_at_Some]. destruct c as [[] ?]; [done|..]; by eapply promised_quiet.
  - exists (w_num w), (w_new (At key) w). split_and!; [|done|done|apply lookup_insert_eq].
    destruct c as [[] ?]; [done|..]; by eapply promised_quiet.
Qed.

Lemma class_run s w v key c :
  ok s w → w_obj w !! v = Some (At key) → w_db w !! key = Some c → quiet (rb_class (RObj v)) s (Some (type_of c.1)) w.
Proof.
  intros Hok Hv Hc. destruct (place_of_object s w v c Hok) as (p & e & x & _ & _ & Ho & Hx & <- & _); [by unfold w_get; rewrite Hv|].
  exists s. split; [|done]. unfold rb_class. run (get_struct_run _ _ _ Ho). by run (get_entry_run _ _ _ Hx).
Qed.

Lemma add_to_run s w key c class m c' :
  ok s w → w_load w = false → w_db w !! key = Some c → is_string c.1 = false → type_of c.1 = class →
  (∀ v, ∃ r chs, method_spec order m v c = Some (r, c', chs)) →
  ∃ w', quiet (add_to order key class m) s () w' ∧ w_db w' = <[key := c']> (w_db w) ∧ w_load w' = false.
Proof.
  intros Hok Hl Hc Hty Hcl Hm. destruct (ref_object s w key c Hok Hl Hc Hty) as (v & w1 & Hq & Hdb & Hl1 & Hv).
  rewrite <-Hdb in Hc. destruct (Hm v) as (r & chs & Hmv). exists (w_put w1 v c'). split_and!.
  - eapply quiet_bind; [exact Hq|]. intros s1 Hok1. eapply quiet_bind; [by eapply class_run|]. intros s2 Hok2.
    rewrite decide_True by congruence. eapply quiet_bind; [|intros s3 Hok3; by apply quiet_ret].
    eapply promised_quiet; [eapply method_promised; [done|done| |exact Hmv]|].
    + unfold w_get. by rewrite Hv.
    + unfold w_put. by rewrite Hv.
  - unfold w_put. rewrite Hv. cbn. by rewrite Hdb.
  - unfold w_put. by rewrite Hv.
Qed.

Lemma or_new_run s w key (alloc : M VALUE) c0 :
  ok s w → w_load w = false → is_string c0.1 = false →
  (∀ s', ∃ o, alloc s' = Done (added o c0 s', RObj (sv_num s'))) → w_db w !! key = None →
  ∃ w', quiet (or_new order key alloc) s () w' ∧ w_db w' = <[key := c0]> (w_db w) ∧ w_load w' = false.
Proof.
  intros Hok Hl Hty Ha Hn. set (w1 := w_new (Own None c0) w).
  assert (w_obj w1 !! w_num w = Some (Own None c0)) as Hv by apply lookup_insert_eq.
  exists (w_store key c0 (w_hold (w_num w) (At key) w1)). split_and!; [|done|done].
  eapply quiet_bind. { eapply promised_quiet; [|done]. pose proof (ref_promised order s w key Hok) as H. cbn [rb_spec] in H. by rewrite Hn in H. }
  intros s1 Hok1. cbn beta iota. destruct (Ha s1) as [o E].
  eapply quiet_bind; [eapply promised_quiet; [by apply (new_promised s1 w alloc o c0)|done]|]. intros s2 Hok2. fold w1 in Hok2.
  eapply quiet_bind; [|intros s3 Hok3; by apply quiet_ret]. eapply promised_quiet; [|done].
  pose proof (store_promised order Horder s2 w1 key (RObj (w_num w)) Hok2) as H. cbn [rb_spec] in H.
  assert (w_db w1 !! key = None) as Hn1 by done. unfold delete_spec in H. rewrite Hn1, Hv in H. apply H.
  split; [unfold may_delete; by rewrite Hn1|by exists c0].
Qed.

Lemma or_new_keeps s w key (alloc : M VALUE) c :
  ok s w → w_load w = false → w_db w !! key = Some c → is_string c.1 = false →
  ∃ w', quiet (or_new order key alloc) s () w' ∧ w_db w' = w_db w ∧ w_load w' = false.
Proof.
  intros Hok Hl Hc Hty. destruct (ref_object s w key c Hok Hl Hc Hty) as (v & w1 & Hq & Hdb & Hl1 & Hv). exists w1. split_and!; [|done|done].
  eapply quiet_bind; [exact Hq|]. intros s1 Hok1. by apply quiet_ret.
Qed.

(** A row of an object of one of the classes. *)
Lemma load_object_run s w key alloc c0 class m c' :
  ok s w → w_load w = false → is_string c0.1 = false → (∀ s', ∃ o, alloc s' = Done (added o c0 s', RObj (sv_num s'))) →
  type_of c0.1 = class → (∀ c, w_db w !! key = Some c → type_of c.1 = class) →
  (∀ v, ∃ r chs, method_spec order m v (default c0 (w_db w !! key)) = Some (r, c', chs)) →
  ∃ w', quiet (_ ← or_new order key alloc; add_to order key class m) s () w' ∧ w_db w' = <[key := c']> (w_db w) ∧ w_load w' = false.
Proof.
  intros Hok Hl Hty Ha Hcl Hold Hm.
  assert (∀ c : contents, type_of c.1 = class → is_string c.1 = false) as Hns by (intros [[] ?]; [|done..]; subst class; by destruct c0 as [[] ?]).
  destruct (w_db w !! key) as [c|] eqn:Hc; cbn [default] in Hm.
  - pose proof (Hold c eq_refl) as Hclc. destruct (or_new_keeps s w key alloc c Hok Hl Hc (Hns c Hclc)) as (w1 & (s1 & E1 & Hok1 & Hq1) & Hdb1 & Hl1).
    destruct (add_to_run s1 w1 key c class m c' Hok1 Hl1 ltac:(by rewrite Hdb1) (Hns c Hclc) Hclc Hm) as (w2 & (s2 & E2 & Hok2 & Hq2) & Hdb2 & Hl2).
    exists w2. rewrite Hdb2, Hdb1. split_and!; [|done|done]. exists s2. split_and!; [by run E1|done|congruence].
  - destruct (or_new_run s w key alloc c0 Hok Hl Hty Ha Hc) as (w1 & (s1 & E1 & Hok1 & Hq1) & Hdb1 & Hl1).
    destruct (add_to_run s1 w1 key c0 class m c' Hok1 Hl1 ltac:(by rewrite Hdb1, lookup_insert_eq) Hty Hcl Hm) as (w2 & (s2 & E2 & Hok2 & Hq2) & Hdb2 & Hl2).
    exists w2. rewrite Hdb2, Hdb1, insert_insert_eq. split_and!; [|done|done]. exists s2. split_and!; [by run E1|done|congruence].
Qed.

Section Values.
Context {D T I : Type} `{KV : KVStore D} {KL : KVStoreLaws D} `{KI : KeyIndex T I} {IL : KeyIndexLaws T I}.

Definition known_type (r : row) : Prop :=
  r_type r = "string" ∨ r_type r = "list" ∨ r_type r = "hashmap" ∨ r_type r = "set".

Lemma values_at w key : values w !! key = fst <$> w_db w !! key.
Proof. apply lookup_fmap. Qed.

(** The rows of the four types. *)
Definition loads (w : world) (m : M ()) (s : server) (key : string) (v : value) : Prop :=
  ∃ w', quiet m s () w' ∧ values w' = <[key := v]> (values w) ∧ w_load w' = false.

Lemma loads_object s w key alloc c0 class m c' :
  ok s w → w_load w = false → is_string c0.1 = false → (∀ s', ∃ o, alloc s' = Done (added o c0 s', RObj (sv_num s'))) →
  type_of c0.1 = class → (∀ c, w_db w !! key = Some c → type_of c.1 = class) →
  (∀ v, ∃ r chs, method_spec order m v (default c0 (w_db w !! key)) = Some (r, c', chs)) →
  loads w (_ ← or_new order key alloc; add_to order key class m) s key c'.1.
Proof.
  intros Hok Hl Hty Ha Hcl Hold Hm. destruct (load_object_run s w key alloc c0 class m c' Hok Hl Hty Ha Hcl Hold Hm) as (w' & Hq & Hdb & Hl').
  exists w'. split_and!; [done| |done]. unfold values. by rewrite Hdb, fmap_insert.
Qed.

Lemma load_string_run s w key t :
  ok s w → w_load w = false → w_db w !! key = None → loads w (load_string order key t) s key (VString t).
Proof.
  intros Hok Hl Hn. exists (w_store key (VString t, 0) w). split_and!; [|unfold values; cbn; by rewrite fmap_insert|done].
  eapply quiet_bind; [|intros s1 Hok1; by apply quiet_ret]. eapply promised_quiet; [|done].
  pose proof (store_promised order Horder s w key (RString t) Hok) as H. cbn [rb_spec] in H. unfold delete_spec in H. rewrite Hn in H.
  apply H. cbn. unfold may_delete. by rewrite Hn.
Qed.

Lemma load_list_run s w key t l :
  ok s w → w_load w = false → (fst <$> w_db w !! key = None ∧ l = [] ∨ fst <$> w_db w !! key = Some (VList l)) →
  loads w (load_list_entry order key t) s key (VList (l ++ [t])).
Proof.
  intros Hok Hl Hc. assert (∃ n, default (VList [], 0) (w_db w !! key) = (VList l, n)) as [n Hd].
  { destruct (w_db w !! key) as [[v n]|]; destruct Hc as [[? ->]|[= ->]]; first [done|by eexists]. }
  apply (loads_object s w key _ (VList [], 0) CONTAINER_LIST (LPush t) (VList (l ++ [t]), n)); try done.
  - intros s'. eexists. apply alloc_run.
  - intros c Hcd. rewrite Hcd in Hc. by destruct Hc as [[? _]|[= ->]].
  - intros v. rewrite Hd. by eexists _, _.
Qed.

Lemma load_map_run s w key k t h :
  ok s w → w_load w = false → (fst <$> w_db w !! key = None ∧ h = ∅ ∨ fst <$> w_db w !! key = Some (VHashmap h)) →
  loads w (load_map_entry order key k t) s key (VHashmap (<[k := t]> h)).
Proof.
  intros Hok Hl Hc. assert (∃ n, default (VHashmap ∅, 0) (w_db w !! key) = (VHashmap h, n)) as [n Hd].
  { destruct (w_db w !! key) as [[v n]|]; destruct Hc as [[? ->]|[= ->]]; first [done|by eexists]. }
  apply (loads_object s w key _ (VHashmap ∅, 0) CONTAINER_HASHMAP (HStore k t) (VHashmap (<[k := t]> h), match h !! k with None => atomic_inc n | Some _ => n end)); try done.
  - intros s'. eexists. apply alloc_run.
  - intros c Hcd. rewrite Hcd in Hc. by destruct Hc as [[? _]|[= ->]].
  - intros v. rewrite Hd. cbn. destruct (h !! k); by eexists _, _.
Qed.

Lemma load_set_run s w key k X :
  ok s w → w_load w = false → (fst <$> w_db w !! key = None ∧ X = ∅ ∨ fst <$> w_db w !! key = Some (VSet X)) →
  loads w (load_set_entry order key k) s key (VSet ({[k]} ∪ X)).
Proof.
  intros Hok Hl Hc. assert (∃ n, default (VSet ∅, 0) (w_db w !! key) = (VSet X, n)) as [n Hd].
  { destruct (w_db w !! key) as [[v n]|]; destruct Hc as [[? ->]|[= ->]]; first [done|by eexists]. }
  apply (loads_object s w key _ (VSet ∅, 0) CONTAINER_SET (SAdd k) (VSet ({[k]} ∪ X), if decide (k ∈ X) then n else atomic_inc n)); try done.
  - intros s'. by exists Qfalse.
  - intros c Hcd. rewrite Hcd in Hc. by destruct Hc as [[? _]|[= ->]].
  - intros v. rewrite Hd. cbn. case_decide as Hk; [|by eexists _, _]. replace ({[k]} ∪ X) with X by set_solver. by eexists _, _.
Qed.

Lemma load_entry_run s w r :
  ok s w → w_load w = false → known_type r → row_ok (T := T) (values w !! r_key r) r →
  ∃ w', quiet (load_entry order r) s () w' ∧ values w' = load_row (values w) r ∧ w_load w' = false.
Proof.
  intros Hok Hl Hk [_ Hr]. unfold load_row, load_value. rewrite values_at in *.
  destruct r as [key k ty t]. cbn [r_key r_skey r_type r_value] in *. unfold known_type in Hk. cbn [r_type] in Hk.
  destruct Hk as [->|[->|[->| ->]]].
  - destruct (fst <$> w_db w !! key) eqn:Hc; [by destruct Hr|]. apply fmap_None in Hc. by apply load_string_run.
  - destruct (fst <$> w_db w !! key) as [[|l| |]|] eqn:Hc; try by destruct Hr.
    + apply load_list_run; [done..|]. by right.
    + apply (load_list_run s w key t []); [done..|]. by left.
  - destruct (fst <$> w_db w !! key) as [[| |h|]|] eqn:Hc; try by destruct Hr.
    + apply load_map_run; [done..|]. by right.
    + apply (load_map_run s w key k t ∅); [done..|]. by left.
  - destruct (fst <$> w_db w !! key) as [[| | |X]|] eqn:Hc; try by destruct Hr.
    + apply load_set_run; [done..|]. by right.
    + pose proof (load_set_run s w key k ∅ Hok Hl ltac:(by left)) as H. by rewrite union_empty_r_L in H.
Qed.

Lemma load_entries_run s w rows :
  ok s w → w_load w = false → Forall known_type rows → (∀ key, rows_ok (T := T) (values w !! key) (rows_at key rows)) →
  ∃ w', quiet (load_entries order rows) s () w' ∧ values w' = foldl load_row (values w) rows ∧ w_load w' = false.
Proof.
  revert s w. induction rows as [|r rows IH]; intros s w Hok Hl Hk Hr; cbn [load_entries foldl].
  - exists w. split_and!; [by apply quiet_ret|done|done].
  - apply list.Forall_cons in Hk as [Hk Hks]. pose proof (Hr (r_key r)) as Hr1. rewrite rows_at_cons, decide_True in Hr1 by done.
    destruct Hr1 as [Hr1 Hr2]. destruct (load_entry_run s w r Hok Hl Hk Hr1) as (w1 & (s1 & E1 & Hok1 & Hq1) & Hv1 & Hl1).
    destruct (IH s1 w1 Hok1 Hl1 Hks) as (w2 & (s2 & E2 & Hok2 & Hq2) & Hv2 & Hl2).
    + intros key. rewrite Hv1. unfold load_row. destruct (decide (key = r_key r)) as [->|Hne]; [by rewrite write_lookup|].
      rewrite write_other by done. specialize (Hr key). by rewrite rows_at_cons, decide_False in Hr by done.
    + exists w2. split_and!; [|by rewrite Hv2, Hv1|done]. exists s2. split_and!; [by run E1|done|congruence].
Qed.

(** What of a value is on disk: nothing, when it is empty. *)
Definition kept (v : value) : option value :=
  match v with
  | VString t => Some (VString t)
  | VList l => opt_list l
  | VHashmap h => opt_hmap h
  | VSet X => if decide (X = ∅) then None else Some (VSet X)
  end.

Lemma kept_rows key v : rows_of key (kept v) = val_rows key v.
Proof.
  destruct v as [t|l|h|X]; cbn [kept val_rows]; [done|apply opt_list_rows|apply opt_hmap_rows|].
  case_decide as HX; [subst; by rewrite elements_empty|done].
Qed.
Lemma kept_clean v : text_clean v → clean_at (kept v).
Proof.
  destruct v as [t|l|h|X]; cbn [kept text_clean]; [done|by destruct l| |].
  - intros Hh. unfold opt_hmap. by case_decide.
  - intros HX. by case_decide.
Qed.
Lemma kept_good v : value_good (T := T) v → ∀ v', kept v = Some v' → value_good (T := T) v'.
Proof.
  intros Hv v'. destruct v as [t|l|h|X]; cbn [kept]; [by intros [= <-]|by destruct l; [done|intros [= <-]]|..].
  - unfold opt_hmap. case_decide; [done|]. by intros [= <-].
  - case_decide; [done|]. by intros [= <-].
Qed.
Lemma val_rows_known key v : Forall known_type (val_rows key v).
Proof.
  destruct v; cbn [val_rows]; [by constructor; [left|constructor]|..]; apply list.Forall_fmap, list.Forall_forall; intros ? _; unfold known_type; cbn; tauto.
Qed.

(** A table that holds the world brings its values back. *)
Lemma start_restores w rows b :
  world_clean w → rows_hold w rows → (∀ key v, values w !! key = Some v → value_good (T := T) v) →
  ∃ s w', start order rows (new_server b) = Done (s, ()) ∧ ok s w' ∧ w_load w' = true ∧ sv_queue s = [] ∧
    ∀ key, same_value (values w !! key ≫= kept) (values w' !! key).
Proof.
  intros Hw Hh Hg.
  assert (∀ key, rows_ok (T := T) None (rows_at key rows) ∧ same_value (values w !! key ≫= kept) (foldl load_value None (rows_at key rows))) as Hkey.
  { intros key. apply (load_key_rows (D := D) (T := T) (I := I) key); rewrite ?values_at; specialize (Hh key); unfold rows_in in Hh; specialize (Hg key);
      rewrite values_at in Hg; destruct (w_db w !! key) as [c|] eqn:Hc; cbn [option_map fmap option_fmap mbind option_bind] in *; try done.
    - apply kept_clean. by apply (wc_db _ Hw key c Hc).
    - apply kept_good. by apply Hg.
    - by rewrite kept_rows. }
  assert (Forall known_type rows) as Hk.
  { apply list.Forall_forall. intros r Hr. assert (r ∈ rows_at (r_key r) rows) as Hin by (by apply rows_at_in).
    rewrite (Hh (r_key r)) in Hin. unfold rows_in in Hin. destruct (w_db w !! r_key r) as [c|]; [|by apply not_elem_of_nil in Hin].
    by eapply list.Forall_forall; [apply val_rows_known|]. }
  destruct (load_entries_run (new_server false) (new_world false) rows (new_server_ok false) eq_refl Hk) as (w1 & (s1 & E1 & Hok1 & Hq1) & Hv1 & Hl1).
  { intros key. rewrite values_at. cbn. rewrite lookup_empty. apply Hkey. }
  exists (with_load true s1), (World (w_db w1) (w_obj w1) true (w_num w1)). split_and!; [|by destruct Hok1|done|done|].
  - unfold start. run (eq_refl : xfiredb_set_loadstate false (new_server b) = Done (new_server false, ())). by run E1.
  - intros key. change (values (World _ _ _ _)) with (values w1). rewrite Hv1, load_rows_at.
    replace (values (new_world false) !! key) with (@None value) by (by rewrite values_at; cbn; rewrite lookup_empty). apply Hkey.
Qed.
End Values.
End Restart.
