(* ===== verification/RbTheorems.v ===== *)
(** * Theorems about the Ruby extension

    What a Ruby program sees, what it leaves behind and what goes wrong when a program
    does what the extension does not provide for. *)
From S2P Require Import Prelude Atomic Dict KeyIndex Database Disk MiniSql DiskSpec Bio BioSpec Container Engine EngineSpec EngineLists EngineRun EnginePersist EngineLoad EngineStore RbObjects RbSpec RbRuns RbLifetimes RbServer RbDisk RbRestart.
Local Open Scope Z_scope.

Section Theorems.
Context (order : gset string → list string) (Horder : ∀ X, order X ≡ₚ elements X).

(** ** Leaving nothing behind *)

Lemma ok_empty s w : ok s w → w_db w = ∅ → w_obj w = ∅ → sv_entries s = ∅ ∧ sv_strs s = ∅.
Proof.
  intros Hok Hd Ho. assert (sv_entries s = ∅) as He.
  { apply map_eq. intros e. rewrite lookup_empty. destruct (sv_entries s !! e) as [x|] eqn:Hx; [|done].
    destruct (ok_owner s w e x Hok Hx) as (p & Hp & _). destruct p as [key|v]; cbn in Hp; [by rewrite Hd, lookup_empty in Hp|].
    by rewrite Ho, lookup_empty in Hp. }
  split; [done|]. apply map_eq. intros a. rewrite lookup_empty. destruct (sv_strs s !! a) as [t|] eqn:Hs; [|done].
  destruct (ok_strs _ _ Hok a) as (_ & e & x & Hx & _); [done|]. by rewrite He, lookup_empty in Hx.
Qed.

(** One round of [Engine#exit]: the entry is read, which makes its object if it was
    collected, and deleted. *)
Lemma each_delete_round s w key c :
  ok s w → w_load w = false → w_db w !! key = Some c →
  ∃ w', quiet (r ← rb_db_ref key; _ ← rb_db_delete order key; mret ()) s () w' ∧ w_db w' = delete key (w_db w) ∧ w_load w' = false.
Proof.
  intros Hok Hl Hc.
  assert (∃ r w1, quiet (rb_db_ref key) s r w1 ∧ w_db w1 = w_db w ∧ w_load w1 = false ∧ may_delete w1 key) as (r & w1 & Hq & Hdb & Hl1 & Hm).
  { destruct (is_string c.1) eqn:Hty.
    - exists (match c.1 with VString t => RString t | _ => Qnil end), w. split_and!; [|done|done|unfold may_delete; rewrite Hc; by left].
      pose proof (ref_promised order s w key Hok) as H. cbn [rb_spec] in H. rewrite Hc in H. destruct c as [[t| | |] n]; try done. by eapply promised_quiet.
    - destruct (ref_object order s w key c Hok Hl Hc Hty) as (v & w1 & Hq & Hdb & Hl1 & Hv). exists (RObj v), w1. split_and!; try done.
      unfold may_delete. rewrite Hdb, Hc. right. destruct (obj_at w1 key) eqn:Hat; [done|]. by destruct (obj_at_None w1 key v Hat). }
  rewrite <-Hdb in Hc. exists (delete_spec order w1 key).1. split_and!.
  - eapply quiet_bind; [exact Hq|]. intros s1 Hok1. eapply quiet_bind; [|intros s2 Hok2; by apply quiet_ret].
    destruct (delete_promised order Horder s1 w1 key c Hok1 Hc Hm) as (e & x & Hdb1 & _ & _ & _ & s2 & E & H).
    apply (promised_quiet _ _ (RString key) _ (delete_spec order w1 key).2); [|by rewrite (proj2 (delete_spec_db order w1 key))].
    exists s2. split; [|done]. unfold rb_db_delete.
    run (eq_refl : db_remove key s1 = Done (with_db (delete key (sv_db s1)) s1, sv_db s1 !! key)). rewrite Hdb1. by run E.
  - unfold delete_spec. rewrite Hc. cbn. by rewrite Hdb.
  - by rewrite (proj2 (delete_spec_db order w1 key)).
Qed.

Lemma each_delete_run s w ks :
  ok s w → w_load w = false → (∀ key, is_Some (w_db w !! key) → key ∈ ks) →
  ∃ w', quiet (rb_db_each_pair ks (λ key _, _ ← rb_db_delete order key; mret ())) s () w' ∧ w_db w' = ∅ ∧ w_load w' = false.
Proof.
  revert s w. induction ks as [|key ks IH]; intros s w Hok Hl Hks; cbn [rb_db_each_pair].
  - exists w. split_and!; [by apply quiet_ret| |done]. apply map_eq. intros k. rewrite lookup_empty.
    destruct (w_db w !! k) eqn:E; [|done]. destruct (not_elem_of_nil k). apply Hks. by eexists.
  - destruct (w_db w !! key) as [c|] eqn:Hc.
    + destruct (each_delete_round s w key c Hok Hl Hc) as (w1 & (s1 & E1 & Hok1 & Hq1) & Hdb1 & Hl1).
      destruct (IH s1 w1 Hok1 Hl1) as (w2 & (s2 & E2 & Hok2 & Hq2) & Hdb2 & Hl2).
      { intros k Hk. rewrite Hdb1 in Hk. destruct Hk as [d [Hne Hk]%lookup_delete_Some].
        assert (k ∈ key :: ks) as [->|?]%elem_of_cons by (apply Hks; by eexists); done. }
      exists w2. split_and!; [|done|done]. exists s2. split_and!; [|done|congruence].
      destruct (ok_place s w (PKey key) c Hok Hc) as (e & x & Hdb & Hx & Hcx & _). cbn in Hdb.
      assert (rb_db_ref key s = entry_value e s) as Eref.
      { unfold rb_db_ref. run (eq_refl : db_find key s = Done (s, sv_db s !! key)). by rewrite Hdb. }
      run (eq_refl : db_find key s = Done (s, sv_db s !! key)). rewrite Hdb. revert E1. unfold mbind, stm_bind, mbind, outcome_bind. rewrite Eref.
      destruct (entry_value e s) as [[s0 r]| |]; [|done..]. destruct (rb_db_delete order key s0) as [[s0' r']| |]; [|done..].
      intros [= ->]. exact E2.
    + destruct (IH s w Hok Hl) as (w2 & (s2 & E2 & Hok2 & Hq2) & Hdb2 & Hl2).
      { intros k [d Hk]. assert (k ∈ key :: ks) as [->|?]%elem_of_cons by (apply Hks; by eexists); [congruence|done]. }
      exists w2. split_and!; [|done|done]. exists s2. split_and!; [|done|congruence].
      run (eq_refl : db_find key s = Done (s, sv_db s !! key)). by rewrite (ok_keys _ _ Hok key Hc).
Qed.

Lemma exit_run s w ks :
  ok s w → (∀ key, is_Some (w_db w !! key) → key ∈ ks) →
  ∃ s' w', exit_soft order ks s = Done (s', ()) ∧ ok s' w' ∧ w_db w' = ∅ ∧ w_load w' = false ∧ sv_queue s' = sv_queue s.
Proof.
  intros Hok Hks. assert (ok (with_load false s) (World (w_db w) (w_obj w) false (w_num w))) as Hok0 by by destruct Hok.
  destruct (each_delete_run _ _ ks Hok0 eq_refl Hks) as (w' & (s' & E & Hok' & Hq) & Hdb & Hl). by exists s', w'.
Qed.

(** The collector takes every object that is left. *)
Lemma collect_all_run s w vs :
  ok s w → w_load w = false → NoDup vs → (∀ v, v ∈ vs ↔ is_Some (w_obj w !! v)) →
  ∃ s' w' rs, run_calls order (Collect <$> vs) s = Done (s', rs) ∧ ok s' w' ∧ w_db w' = w_db w ∧ w_obj w' = ∅.
Proof.
  intros Hok. revert s w Hok. induction vs as [|v vs IH]; intros s w Hok Hl Hnd Hvs; cbn [fmap list_fmap run_calls].
  - exists s, w, []. split_and!; try done. apply map_eq. intros v. rewrite lookup_empty. destruct (w_obj w !! v) eqn:E; [|done].
    destruct (not_elem_of_nil v). apply Hvs. by eexists.
  - apply list.NoDup_cons in Hnd as [Hv Hnd]. assert (is_Some (w_obj w !! v)) as Hs by (apply Hvs; by left).
    destruct (call_promised order Horder s w (Collect v) Hok Hs) as (s1 & E & Hok1 & _).
    set (w1 := World (w_db w) (delete v (w_obj w)) (w_load w) (w_num w)).
    assert (rb_after order w (Collect v) = w1) as Ha by done. rewrite Ha in Hok1.
    destruct (IH _ w1 (queued_ok (rb_changes order w (Collect v)) _ _ Hok1) Hl Hnd) as (s2 & w2 & rs & E2 & Hok2 & Hdb & Ho).
    + intros u. cbn. destruct (decide (u = v)) as [->|Hne].
      * rewrite lookup_delete_eq. split; [done|by intros []].
      * rewrite lookup_delete_ne by done. rewrite <-Hvs, elem_of_cons. split; [by right|]. by intros [?|?].
    + exists s2, w2, (Some (rb_reply order w (Collect v)) :: rs). split_and!; [|done|done|done]. run E. by run E2.
Qed.

(** ** What a program can rely on *)

(** The counter of a hash map or a set is the number of its entries. *)
Definition counted (c : contents) : Prop :=
  match c with
  | (VHashmap h, n) => n = s32 (Z.of_nat (size h))
  | (VSet X, n) => n = s32 (Z.of_nat (size X))
  | _ => True
  end.
Definition w_counted (w : world) : Prop :=
  (∀ key c, w_db w !! key = Some c → counted c) ∧ (∀ v old c, w_obj w !! v = Some (Own old c) → counted c).

(** What a call takes all entries out of: clearing does, and deleting a key or storing
    over it, for an object that is left with the container.  The counter is right
    afterwards if there was nothing to count. *)
Definition clears (w : world) (c : call) : option contents :=
  match c with
  | Call v HClear | Call v SClear => w_get w v
  | DbDelete key | DbStore key _ => w_db w !! key
  | _ => None
  end.
Definition keeps_count (w : world) (c : call) : Prop := match clears w c with Some c => counted (cleared c) | None => True end.
Fixpoint calls_keep_count (w : world) (cs : list call) : Prop :=
  match cs with [] => True | c :: cs => keeps_count w c ∧ calls_keep_count (rb_after order w c) cs end.

Lemma counted_method m v c r c' chs :
  counted c → (m = HClear ∨ m = SClear → counted (cleared c)) → method_spec order m v c = Some (r, c', chs) → counted c'.
Proof.
  intros Hc Hcl. destruct c as [[t|l|h|X] n]; destruct m; cbn [method_spec]; intros H; try discriminate; try (by injection H as <- <- <-); cbn [counted] in Hc; subst.
  - repeat case_match; by simplify_eq.
  - repeat case_match; by simplify_eq.
  - destruct (h !! k) as [t'|] eqn:Hk; injection H as <- <- <-; cbn [counted].
    + rewrite map_size_insert_Some by (by eexists). done.
    + rewrite atomic_inc_count, map_size_insert_None by done. f_equal. lia.
  - destruct (h !! k) as [t'|] eqn:Hk; injection H as <- <- <-; cbn [counted]; [|done].
    rewrite atomic_dec_count, (map_size_delete_Some k h) by (by eexists). f_equal.
    assert (size h ≠ 0%nat) by (intros ->%map_size_empty_iff; by rewrite lookup_empty in Hk). lia.
  - injection H as <- <- <-. apply Hcl. by left.
  - case_decide; injection H as <- <- <-; cbn [counted]; [done|]. rewrite atomic_inc_count, size_union, size_singleton by set_solver. f_equal. lia.
  - case_decide; injection H as <- <- <-; cbn [counted]; [|done].
    rewrite atomic_dec_count, size_difference, size_singleton by set_solver. f_equal.
    assert (size X ≠ 0%nat) by (intros ?%size_empty_inv; set_solver). lia.
  - injection H as <- <- <-. apply Hcl. by right.
Qed.

Lemma counted_get w v c : w_counted w → w_get w v = Some c → counted c.
Proof. intros [H1 H2]. unfold w_get. destruct (w_obj w !! v) as [[key|old c']|] eqn:E; [by apply H1| |done]. intros [= <-]. by eapply H2. Qed.

Lemma counted_put w v c : w_counted w → counted c → w_counted (w_put w v c).
Proof.
  intros [H1 H2] Hc. unfold w_put. destruct (w_obj w !! v) as [[key|old c']|]; [..|done]; split; cbn; try done.
  - intros key' c''. rewrite lookup_insert_Some. intros [[<- <-]|[_ ?]]; [done|by eapply H1].
  - intros v' old' c''. rewrite lookup_insert_Some. intros [[<- [= <- <-]]|[_ ?]]; [done|by eapply H2].
Qed.
Lemma counted_store w key c : w_counted w → counted c → w_counted (w_store key c w).
Proof. intros [H1 H2] Hc. split; cbn; [|done]. intros key' c'. rewrite lookup_insert_Some. intros [[<- <-]|[_ ?]]; [done|by eapply H1]. Qed.
Lemma counted_hold w v h : w_counted w → (∀ old c, h = Own old c → counted c) → w_counted (w_hold v h w).
Proof. intros [H1 H2] Hh. split; cbn; [done|]. intros v' old c. rewrite lookup_insert_Some. intros [[<- ?]|[_ ?]]; [by eapply Hh|by eapply H2]. Qed.
Lemma counted_new w h : w_counted w → (∀ old c, h = Own old c → counted c) → w_counted (w_new h w).
Proof. intros Hw Hh. by destruct (counted_hold w (w_num w) h Hw Hh). Qed.
Lemma counted_delete w key : w_counted w → (∀ c, w_db w !! key = Some c → counted (cleared c)) → w_counted (delete_spec order w key).1.
Proof.
  intros [H1 H2] Hk. unfold delete_spec. destruct (w_db w !! key) as [c|] eqn:E; [|done]. split; cbn.
  - intros key' c'. rewrite lookup_delete_Some. intros [_ ?]. by eapply H1.
  - intros v old c'. rewrite lookup_fmap. destruct (w_obj w !! v) as [h|] eqn:Hv; [|done]. cbn. intros [= Hh].
    destruct (decide (h = At key)); [injection Hh as <- <-; by apply Hk|]. subst h. by eapply H2.
Qed.

Lemma counted_after w c : w_counted w → keeps_count w c → w_counted (rb_after order w c).
Proof.
  intros Hw Hk. unfold rb_after, keeps_count in *. pose proof Hw as [H1 H2].
  destruct c as [| | |v m|key data|key|key| |v|b]; cbn [rb_spec clears fst snd] in *; try done.
  - apply counted_new; [done|by intros ? ? [= <- <-]].
  - apply counted_new; [done|by intros ? ? [= <- <-]].
  - apply counted_new; [done|by intros ? ? [= <- <-]].
  - destruct (w_get w v) as [c|] eqn:Hg; cbn [mbind option_bind]; [|done].
    destruct (method_spec order m v c) as [[[r c'] chs]|] eqn:Hm; cbn [fst snd]; [|done].
    apply counted_put; [done|]. eapply counted_method; [by eapply counted_get| |done]. by intros [->| ->].
  - assert (w_counted (delete_spec order w key).1) as Hd.
    { apply counted_delete; [done|]. intros c Hc. by rewrite Hc in Hk. }
    destruct (delete_spec order w key) as [w' js]. cbn [fst] in Hd.
    destruct data; cbn [fst snd]; try done.
    + destruct (w_db w !! key) as [[[] n]|] eqn:E; cbn [fst snd]; by apply counted_store.
    + destruct (w_obj w !! v) as [[|old c]|] eqn:Hv; cbn [fst snd]; try done.
      apply counted_store; [by apply counted_hold|by eapply H2].
  - destruct (w_db w !! key) as [[[] n]|] eqn:E; cbn [fst snd]; try done.
    all: destruct (obj_at w key); cbn [fst snd]; by try apply counted_new.
  - assert (w_counted (delete_spec order w key).1) as Hd.
    { apply counted_delete; [done|]. intros c Hc. by rewrite Hc in Hk. }
    by destruct (delete_spec order w key) as [w' js].
  - split; cbn; [done|]. intros v' old c. rewrite lookup_delete_Some. intros [_ ?]. by eapply H2.
Qed.

Lemma counted_calls w cs : w_counted w → calls_keep_count w cs → w_counted (foldl (rb_after order) w cs).
Proof. revert w. induction cs as [|c cs IH]; intros w Hw Hk; [done|]. destruct Hk. by apply IH; [apply counted_after|]. Qed.

(** Clearing an object and asking for its size. *)
Lemma clear_then_size s w v c clear size n :
  ok s w → w_get w v = Some c →
  (clear = HClear ∧ size = HSize ∧ ∃ h, c = (VHashmap h, n)) ∨ (clear = SClear ∧ size = SSize ∧ ∃ X, c = (VSet X, n)) →
  ∃ s', run_calls order [Call v clear; Call v size] s = Done (s', [Some (RObj v); Some (RInt n)]).
Proof.
  intros Hok Hg Hc.
  assert (w_get (w_put w v (cleared c)) v = Some (cleared c)) as Hput.
  { unfold w_get, w_put in *. destruct (w_obj w !! v) as [[key|old c']|] eqn:E; cbn; [|by rewrite lookup_insert_eq|done].
    by rewrite E, lookup_insert_eq. }
  assert (rb_replies order w [Call v clear; Call v size] = [Some (RObj v); Some (RInt n)] ∧ calls_allowed order w [Call v clear; Call v size])
    as [Hr Hal].
  { cbn [rb_replies calls_allowed allowed]. unfold rb_reply, rb_after. cbn [rb_spec]. rewrite Hg. cbn [mbind option_bind].
    destruct Hc as [(-> & -> & h & ->)|(-> & -> & X & ->)]; cbn [method_spec fst snd]; rewrite Hput; by cbn. }
  destruct (rb_calls_run order Horder s w _ Hok Hal) as (s' & E & _). exists s'. by rewrite E, Hr.
Qed.

(** C3: the objects of the extension are what the program sees.  Any sequence of allowed
    calls, with the collector between them, runs without a fault from a new server on;
    every call returns what [rb_spec] promises and queues the changes it promises.
    Afterwards each key of the database, and no other, has a container that holds its
    value, and each object wraps the container of the value it stands for.  Sizes: as
    long as no hash map or set whose counter is not zero is cleared, deleted or stored
    over, every counter is the number of entries, and [size] returns it.  Clearing is
    the exception, in the code and so in [rb_spec]: [size] after [clear] returns what the
    counter was before.  The comments of hashmap.h and set.h and the tests (test_set.rb,
    test_hashmap.rb) promise 0; this is a bug of the code and listed as a finding. *)
Theorem ruby_refines b cs :
  calls_allowed order (new_world b) cs →
  ∃ s, let w := foldl (rb_after order) (new_world b) cs in
    run_calls order cs (new_server b) = Done (s, rb_replies order (new_world b) cs) ∧
    sv_queue s = all_logged order (new_world b) cs ∧
    (∀ key, match w_db w !! key with
            | Some c => ∃ e x, sv_db s !! key = Some e ∧ sv_entries s !! e = Some x ∧ en_c x = c
            | None => sv_db s !! key = None
            end) ∧
    (∀ v c, w_get w v = Some c → ∃ e x, sv_objs s !! v = Some e ∧ sv_entries s !! e = Some x ∧ en_c x = c) ∧
    (calls_keep_count (new_world b) cs → w_counted w) ∧
    (∀ v h n, w_get w v = Some (VHashmap h, n) →
      ∃ s', run_calls order [Call v HClear; Call v HSize] s = Done (s', [Some (RObj v); Some (RInt n)])) ∧
    (∀ v X n, w_get w v = Some (VSet X, n) →
      ∃ s', run_calls order [Call v SClear; Call v SSize] s = Done (s', [Some (RObj v); Some (RInt n)])).
Proof.
  intros Hal. destruct (rb_calls_run order Horder _ _ cs (new_server_ok b) Hal) as (s & E & Hok & Hq). exists s. cbv zeta. split_and!; [done|done| | | | |].
  - intros key. destruct (w_db _ !! key) as [c|] eqn:Hc; [|by apply (ok_keys _ _ Hok)].
    destruct (ok_place _ _ (PKey key) c Hok Hc) as (e & x & ? & ? & ? & _). by exists e, x.
  - intros v c Hc. destruct (place_of_object _ _ v c Hok Hc) as (p & e & x & _ & _ & ? & ? & ? & _). by exists e, x.
  - apply counted_calls. by split.
  - intros v h n Hv. eapply clear_then_size; [done|exact Hv|]. left. by split_and!; [..|exists h].
  - intros v X n Hv. eapply clear_then_size; [done|exact Hv|]. right. by split_and!; [..|exists X].
Qed.

(** C8: stopping leaves nothing behind.  After any allowed calls, whatever the collector
    took in between, [Engine#exit] deletes every key without a fault and without queueing
    a change, in whatever order the keys are met; and when the collector has taken the
    objects that are left, in whatever order, no container and no copy of a key is left. *)
Theorem ruby_exit_frees b cs :
  calls_allowed order (new_world b) cs →
  ∃ s rs, run_calls order cs (new_server b) = Done (s, rs) ∧
    ∀ ks, (∀ key, is_Some (sv_db s !! key) → key ∈ ks) →
    ∃ s1, exit_soft order ks s = Done (s1, ()) ∧ sv_queue s1 = sv_queue s ∧ sv_db s1 = ∅ ∧
      ∀ vs, NoDup vs → (∀ v, v ∈ vs ↔ is_Some (sv_objs s1 !! v)) →
      ∃ s2 rs2, run_calls order (Collect <$> vs) s1 = Done (s2, rs2) ∧ sv_entries s2 = ∅ ∧ sv_strs s2 = ∅.
Proof.
  intros Hal. destruct (rb_calls_run order Horder _ _ cs (new_server_ok b) Hal) as (s & E & Hok & _). eexists s, _. split; [exact E|].
  intros ks Hks. destruct (exit_run _ _ ks Hok) as (s1 & w1 & E1 & Hok1 & Hdb & Hl & Hq).
  { intros key [c Hc]. apply Hks. destruct (ok_place _ _ (PKey key) c Hok Hc) as (e & x & ? & _). by eexists. }
  exists s1. split_and!; [done|done| |].
  - apply map_eq. intros key. rewrite lookup_empty. apply (ok_keys _ _ Hok1). by rewrite Hdb, lookup_empty.
  - intros vs Hnd Hvs. destruct (collect_all_run s1 w1 vs Hok1 Hl Hnd) as (s2 & w2 & rs & E2 & Hok2 & Hdb2 & Ho).
    + intros v. rewrite Hvs. destruct (w_obj w1 !! v) as [h|] eqn:Hv; [|by rewrite (ok_none _ _ Hok1 v Hv)]. split; [done|]. intros _.
      destruct h as [key|o c].
      * destruct (ok_at _ _ Hok1 v key Hv) as [[c Hc] _]. by rewrite Hdb, lookup_empty in Hc.
      * destruct (ok_place s1 w1 (PObj v) c Hok1) as (e & x & Ha & _); [by cbn; rewrite Hv|]. by eexists.
    + exists s2, rs. split; [done|]. apply (ok_empty s2 w2 Hok2); [congruence|done].
Qed.

(** ** What goes wrong *)

(** C26: a key whose object was collected cannot be deleted.  The container is freed, since
    neither the database nor an object needs it, and [raw_rb_db_delete] then writes
    [obj] of the container it has freed; the same happens when a text is stored over the
    key.  This is so after any allowed calls. *)
Theorem collected_delete_faults b cs key c :
  calls_allowed order (new_world b) cs →
  let w := foldl (rb_after order) (new_world b) cs in
  w_db w !! key = Some c → is_string c.1 = false → obj_at w key = None →
  ∃ s rs, run_calls order cs (new_server b) = Done (s, rs) ∧
    rb_db_delete order key s = Stuck ∧ ∀ t, rb_db_store order key (RString t) s = Stuck.
Proof.
  intros Hal w Hc Hty Hat. destruct (rb_calls_run order Horder _ _ cs (new_server_ok b) Hal) as (s & E & Hok & _). fold w in Hok.
  eexists s, _. split; [exact E|]. destruct (ok_place s w (PKey key) c Hok Hc) as (e & x & Hdb & Hx & <- & Hk & Hp). cbn in Hdb.
  rewrite Hty in Hp. destruct Hp as [_ Ho]. unfold object_ok in Ho.
  destruct (en_obj_released x) eqn:Hrel; [|destruct Ho as (v & _ & Hu); destruct (obj_at_None w key v Hat); by apply Hu].
  pose proof (raw_delete_collected order Horder (with_db (delete key (sv_db s)) s) e x (Some key) Hx Hty Hrel Hk) as Hst. split.
  - unfold rb_db_delete. run (eq_refl : db_remove key s = Done (with_db (delete key (sv_db s)) s, sv_db s !! key)). rewrite Hdb.
    by rewrite (stm_bind_stuck _ _ _ Hst).
  - intros t. unfold rb_db_store. run (eq_refl : db_remove key s = Done (with_db (delete key (sv_db s)) s, sv_db s !! key)). rewrite Hdb.
    apply stm_bind_stuck. unfold replace_entry. run (get_entry_run (with_db (delete key (sv_db s)) s) e x Hx).
    destruct Ho as [[v0 Hv0] _]. rewrite decide_False by congruence.
    destruct (en_c x) as [[t0|l|h|X] n]; [done|..]; by apply stm_bind_stuck.
Qed.

(** C28: a value that cannot be stored takes the old one with it.  [rb_db_store] deletes
    the key before it looks at the new value.  Given an integer, the call raises, but the
    text that was there is deleted, and the disk is told so; given [nil], it raises too,
    and the text is neither in the database nor released nor deleted from the disk,
    because [nil] is what [obj] of a text holds. *)
Theorem store_raises b cs key t n :
  calls_allowed order (new_world b) cs → w_db (foldl (rb_after order) (new_world b) cs) !! key = Some (VString t, n) →
  ∃ s rs, run_calls order cs (new_server b) = Done (s, rs) ∧
    (∀ m, ∃ s', rb_db_store order key (RInt m) s = Done (s', None) ∧ sv_db s' = delete key (sv_db s) ∧
      sv_queue s' = if sv_load s then sv_queue s ++ [Job STRING_DEL key None None] else sv_queue s) ∧
    ∃ s', rb_db_store order key Qnil s = Done (s', None) ∧ sv_db s' = delete key (sv_db s) ∧
      sv_entries s' = sv_entries s ∧ sv_queue s' = sv_queue s.
Proof.
  intros Hal Hc. destruct (rb_calls_run order Horder _ _ cs (new_server_ok b) Hal) as (s & E & Hok & _). eexists s, _. split; [exact E|].
  destruct (ok_place s _ (PKey key) _ Hok Hc) as (e & x & Hdb & Hx & Hcx & Hk & Hp). cbn in Hdb. rewrite Hcx in Hp. destruct Hp as [Hobj _].
  set (s0 := with_db (delete key (sv_db s)) s).
  assert (∀ data, rb_db_store order key data s = (rv ← replace_entry order key e data; match rv with Some rv => mret (Some rv) | None => store_new order key data end) s0) as Hst.
  { intros data. unfold rb_db_store. run (eq_refl : db_remove key s = Done (s0, sv_db s !! key)). by rewrite Hdb. }
  split.
  - intros m. rewrite Hst.
    assert (replace_entry order key e (RInt m) s0 = Done (gone e (en_key x) (queued [Job STRING_DEL key None None] s0), None)) as E1.
    { unfold replace_entry. run (get_entry_run s0 e x Hx). rewrite decide_False by congruence. rewrite Hcx.
      by run (raw_delete_string order s0 e x t n key Hx Hcx Hk). }
    run E1. eexists. by split_and!.
  - rewrite Hst. assert (replace_entry order key e Qnil s0 = Done (s0, None)) as E1.
    { unfold replace_entry. run (get_entry_run s0 e x Hx). by rewrite decide_True. }
    run E1. eexists. by split_and!.
Qed.

(** ** The disk *)

Lemma calls_tidy_app w cs1 cs2 :
  calls_tidy order w (cs1 ++ cs2) ↔ calls_tidy order w cs1 ∧ calls_tidy order (foldl (rb_after order) w cs1) cs2.
Proof. revert w. induction cs1 as [|c cs1 IH]; intros w; cbn [app calls_tidy foldl]; [tauto|]. rewrite IH. tauto. Qed.
Lemma all_logged_app w cs1 cs2 :
  all_logged order w (cs1 ++ cs2) = all_logged order w cs1 ++ all_logged order (foldl (rb_after order) w cs1) cs2.
Proof. revert w. induction cs1 as [|c cs1 IH]; intros w; cbn [app all_logged foldl]; [done|]. by rewrite IH, app_assoc. Qed.

Section Disk.
Context `{HT : SqliteTable DB} {HL : SqliteTableLaws DB}.

(** The table after the queue was written to an empty one. *)
Lemma written_rows cs (d : disk DB) :
  calls_allowed order (new_world true) cs → calls_tidy order (new_world true) cs → disk_rows d = [] →
  let w := foldl (rb_after order) (new_world true) cs in
  ∃ s, run_calls order cs (new_server true) = Done (s, rb_replies order (new_world true) cs) ∧ ok s w ∧ world_clean w ∧ sv_load s = true ∧
    sv_queue s = all_logged order (new_world true) cs ∧ Forall job_quote_free (sv_queue s) ∧ rows_hold w (disk_rows (foldl (apply_job sq_exec) d (sv_queue s))).
Proof.
  intros Hal Ht Hd w. destruct (rb_calls_run order Horder _ _ cs (new_server_ok true) Hal) as (s & E & Hok & Hq). exists s.
  destruct (calls_rows order Horder _ _ cs (new_server_ok true) Hal new_world_clean Ht eq_refl) as (Hw & Hl & _ & Hqf & Hrows).
  cbn in Hq. rewrite Hq. split_and!; try done; [by rewrite (ok_load _ _ Hok)|].
  eapply Hrows; [apply (new_world_holds true)|]. rewrite <-Hd. by apply foldl_rows.
Qed.

(** C7: a restart brings the objects back.  Run any allowed calls on a new server that
    queues changes, with the load state left on ([set_loadstate(false)] is not called),
    objects whose key is deleted only read, no quote in a key or a text, and values that
    an engine can hold (texts are C strings, the keys of a hash map or a set do not
    collide); let the
    worker write what is queued to an empty table; and let [Engine#start] load the rows
    of the table in a new server.  It loads without a fault and queues nothing, and each
    key that held a text, or a list, a hash map or a set that was not empty, holds it
    again, a list up to the order of its entries; no other key is there. *)
Theorem ruby_restart {D T I : Type} `{KV : KVStore D} {KL : KVStoreLaws D} `{KI : KeyIndex T I} {IL : KeyIndexLaws T I} cs (d : disk DB) b :
  calls_allowed order (new_world true) cs → calls_tidy order (new_world true) cs → disk_rows d = [] →
  let w := foldl (rb_after order) (new_world true) cs in
  (∀ key v, values w !! key = Some v → value_good (T := T) v) →
  ∃ s rs s', run_calls order cs (new_server true) = Done (s, rs) ∧
    start order (disk_rows (foldl (apply_job sq_exec) d (sv_queue s))) (new_server b) = Done (s', ()) ∧ sv_queue s' = [] ∧
    ∃ w', ok s' w' ∧ ∀ key, same_value (values w !! key ≫= kept) (values w' !! key).
Proof.
  intros Hal Ht Hd w Hg. destruct (written_rows cs d Hal Ht Hd) as (s & E & _ & Hw & _ & _ & _ & Hh).
  destruct (start_restores (D := D) (T := T) (I := I) order Horder w _ b Hw Hh Hg) as (s' & w' & E' & Hok' & _ & Hq' & Hv).
  exists s, (rb_replies order (new_world true) cs), s'. split_and!; [done|done|done|]. by exists w'.
Qed.

(** C29: a deleted key comes back.  An object keeps the name of the key it was stored
    under; a text that is pushed to a list after its key was deleted is written to the
    disk under that key, which the database does not have any more. *)
Theorem deleted_key_returns cs key v l n t (d : disk DB) :
  calls_allowed order (new_world true) cs → calls_tidy order (new_world true) cs → disk_rows d = [] →
  let w := foldl (rb_after order) (new_world true) cs in
  w_obj w !! v = Some (At key) → w_db w !! key = Some (VList l, n) → quote_free t →
  let cs' := cs ++ [DbDelete key; Call v (LPush t)] in
  calls_allowed order (new_world true) cs' ∧
  ∃ s rs, run_calls order cs' (new_server true) = Done (s, rs) ∧ sv_db s !! key = None ∧
    rows_at key (disk_rows (foldl (apply_job sq_exec) d (sv_queue s))) = [list_row key t].
Proof.
  intros Hal Ht Hd w Hv Hc Hqt cs'.
  destruct (written_rows cs d Hal Ht Hd) as (_ & _ & _ & Hwk & _). fold w in Hwk. assert (may_delete w key) as Hdel.
  { unfold may_delete. rewrite Hc. right. destruct (obj_at w key) eqn:Hat; [done|]. by destruct (obj_at_None w key v Hat). }
  set (w1 := (delete_spec order w key).1).
  assert (w_obj w1 !! v = Some (Own (Some key) (VList [], n))) as Hv1.
  { unfold w1, delete_spec. rewrite Hc. cbn. rewrite lookup_fmap, Hv. cbn. by rewrite decide_True. }
  assert (foldl (rb_after order) (new_world true) (cs ++ [DbDelete key]) = w1) as Hf1.
  { rewrite foldl_app. cbn [foldl]. fold w. unfold rb_after, w1. cbn [rb_spec]. by destruct (delete_spec order w key). }
  assert (calls_allowed order (new_world true) (cs ++ [DbDelete key])) as Hal1 by (by apply calls_allowed_app).
  assert (calls_tidy order (new_world true) (cs ++ [DbDelete key])) as Ht1 by (by apply calls_tidy_app).
  assert (cs' = (cs ++ [DbDelete key]) ++ [Call v (LPush t)]) as Hcs by by rewrite <-app_assoc.
  assert (calls_allowed order (new_world true) cs') as Hal'.
  { rewrite Hcs. apply calls_allowed_app. split; [done|]. rewrite Hf1. cbn. unfold w_get. rewrite Hv1. done. }
  split; [done|]. destruct (rb_calls_run order Horder _ _ cs' (new_server_ok true) Hal') as (s & E & Hok & Hq).
  exists s, (rb_replies order (new_world true) cs'). split; [exact E|].
  destruct (written_rows _ d Hal1 Ht1 Hd) as (s1 & E1 & Hok1 & Hw1 & Hl1 & Hq1 & Hqf & Hh). rewrite Hf1 in Hok1, Hw1, Hh.
  assert (foldl (rb_after order) (new_world true) cs' = w_put w1 v (VList [t], n) ∧ logged order w1 (Call v (LPush t)) = [Job LIST_ADD key None (Some t)]) as [Hf' Hlog].
  { rewrite Hcs, foldl_app, Hf1. cbn [foldl]. unfold logged, rb_after, rb_changes. cbn [rb_spec]. unfold w_get, w_key. rewrite Hv1. cbn.
    unfold w_put. rewrite Hv1. cbn. by rewrite <-(ok_load _ _ Hok1), Hl1. }
  rewrite Hf' in Hok. assert (w_db w1 !! key = None) as Hn by apply delete_spec_db. split.
  - apply (ok_keys _ _ Hok). unfold w_put. by rewrite Hv1.
  - cbn in Hq. rewrite Hq, Hcs, all_logged_app, Hf1, <-Hq1, foldl_app. cbn [all_logged]. rewrite Hlog, app_nil_r. cbn [foldl].
    set (d1 := foldl _ d (sv_queue s1)) in *.
    pose proof (apply_job_rows d1 (Job LIST_ADD key None (Some t)) ltac:(split_and!; [by apply (wc_db _ Hwk key _ Hc)|apply quote_free_empty|done])) as Hj.
    unfold job_rows in Hj. cbn [j_op j_key j_new default] in Hj. rewrite Hj, rows_at_app, rows_at_one, decide_True by done.
    specialize (Hh key). unfold rows_in in Hh. rewrite Hn in Hh. by apply Permutation_nil_r in Hh as ->.
Qed.

(** An object that is stored again doubles on disk.  When the object of a key is
    stored at that key once more, nothing changes in the database, but all its entries
    are queued for the disk again, and the old copy of the key is lost. *)
Lemma stored_twice cs key v l n (d : disk DB) :
  calls_allowed order (new_world true) cs → calls_tidy order (new_world true) cs → disk_rows d = [] →
  let w := foldl (rb_after order) (new_world true) cs in
  w_obj w !! v = Some (At key) → w_db w !! key = Some (VList l, n) →
  ∃ s rs s', run_calls order cs (new_server true) = Done (s, rs) ∧
    rb_db_store order key (RObj v) s = Done (s', Some (RObj v)) ∧ sv_db s' = sv_db s ∧ size (sv_strs s') = S (size (sv_strs s)) ∧
    rows_at key (disk_rows (foldl (apply_job sq_exec) d (sv_queue s'))) ≡ₚ list_row key <$> (l ++ l).
Proof.
  intros Hal Ht Hd w Hv Hc. destruct (written_rows cs d Hal Ht Hd) as (s & E & Hok & Hw & Hl & _ & Hqf & Hh). fold w in Hok, Hw, Hh.
  eexists s, _. destruct (ok_place s w (PKey key) _ Hok Hc) as (e & x & Hdb & Hx & Hcx & _ & Hp). cbn in Hdb. rewrite Hcx in Hp.
  destruct Hp as [Hin Ho]. assert (en_obj x = RObj v) as Hobj.
  { unfold object_ok in Ho. destruct (en_obj_released x); [by destruct (proj2 Ho v)|]. destruct Ho as (v0 & -> & Hu). apply Hu in Hv. congruence. }
  assert (sv_objs s !! v = Some e) as Hov by (destruct (ok_at _ _ Hok v key Hv); congruence).
  set (s0 := with_db (delete key (sv_db s)) s). set (s1 := entry_set e (put_intree true (put_obj (RObj v) x)) s0).
  assert (replace_entry order key e (RObj v) s0 = Done (s0, None)) as E1.
  { unfold replace_entry. run (get_entry_run s0 e x Hx). by rewrite decide_True. }
  assert (store_entry (RObj v) s0 = Done (s1, Some e)) as E2.
  { unfold store_entry. run (get_struct_run s0 _ _ Hov). run (set_entry_run s0 _ _ (put_obj (RObj v)) Hx).
    run (set_entry_run _ _ _ (put_intree true) (entry_set_lookup e (put_obj (RObj v) x) s0)). unfold s1. by rewrite entry_set_twice. }
  assert (sv_db s1 !! key = None) as Hn by apply lookup_delete_eq.
  pose proof (insert_entry_run order s1 e _ key (RObj v) (entry_set_lookup _ _ _) Hn) as E3. eexists. split; [exact E|]. split.
  - unfold rb_db_store. run (eq_refl : db_remove key s = Done (s0, sv_db s !! key)). rewrite Hdb. run E1. unfold store_new. run E2. by run E3.
  - cbn. split_and!.
    + by rewrite insert_delete_id.
    + apply map_size_insert_None. by apply (ok_brk _ _ Hok).
    + rewrite Hl, Hcx, foldl_app. set (d1 := foldl _ d (sv_queue s)) in *. cbn [fst jobs_of].
      destruct (store_rows order Horder key (VList l)) as [Hst Hg]; [by apply (wc_db _ Hw key _ Hc)..|].
      assert (Forall job_quote_free (list_add_job key <$> l)) as Hq2 by (eapply list.Forall_impl; [exact Hg|]; by intros j (_ & _ & ?)).
      assert (Forall is_add (list_add_job key <$> l)) as Hadd by apply (store_jobs_add key (VList l)).
      rewrite (add_rows _ _ _ Hadd (foldl_rows d1 _ Hq2)), rows_at_app, fmap_app. specialize (Hh key). unfold rows_in in Hh. rewrite Hc in Hh. rewrite Hh.
      apply Permutation_app; [done|]. pose proof (store_jobs_rows key (VList l)) as Hr. cbn [store_jobs] in Hr. rewrite Hr.
      rewrite rows_at_all; [done|]. intros r. apply (val_rows_key key (VList l)).
Qed.
End Disk.
End Theorems.
