(* ===== verification/RbWitness.v ===== *)
(** * A program on the Ruby extension

    Programs at which the theorems of [RbTheorems] apply; what they need is decided by
    evaluation. *)
From S2P Require Import Prelude Murmur Atomic Dict Skiplist SkiplistSpec KeyIndex Database Disk MiniSql DiskSpec Bio BioSpec Container Engine EngineSpec EngineLists EngineRun EnginePersist EngineLoad EngineStore EngineWitness RbObjects RbSpec RbRuns RbLifetimes RbServer RbEach RbDisk RbRestart RbTheorems.
Local Open Scope Z_scope.

#[local] Instance store : KVStore dict := dict_store (λ _, 0) dict_globals_init.
#[local] Instance store_laws : KVStoreLaws dict := dict_store_laws (λ _, 0) dict_globals_init.

(** ** Deciding what a program must see to *)

Abbreviation in_order := (elements : gset string → list string).

#[export] Instance may_delete_dec w key : Decision (may_delete w key).
Proof. unfold may_delete. destruct (w_db w !! key); apply _. Defined.
#[export] Instance unstored_dec (o : option holder) : Decision (∃ c, o = Some (Own None c)).
Proof.
  destruct o as [[key|[old|] c]|]; [right|right|left|right]; [by intros [? ?]|by intros [? ?]|by exists c|by intros [? ?]].
Defined.
#[export] Instance allowed_dec order w c : Decision (allowed order w c).
Proof. destruct c as [| | |v m|key []|key|key| |v|b]; cbn [allowed]; apply _. Defined.
#[export] Instance calls_allowed_dec order w cs : Decision (calls_allowed order w cs).
Proof. revert w. induction cs as [|c cs IH]; intros w; cbn [calls_allowed]; [apply _|]. apply and_dec; [apply _|apply IH]. Defined.

#[export] Instance quote_free_decision t : Decision (quote_free t).
Proof. unfold quote_free. apply _. Defined.
#[export] Instance method_clean_dec m : Decision (method_clean m).
Proof. destruct m; cbn [method_clean]; apply _. Defined.
#[export] Instance tidy_dec w c : Decision (tidy w c).
Proof.
  destruct c as [| | |v m|key []|key|key| |v|b]; cbn [tidy]; try apply _.
  destruct (w_obj w !! v) as [[|[|] ?]|]; apply _.
Defined.
#[export] Instance calls_tidy_dec order w cs : Decision (calls_tidy order w cs).
Proof. revert w. induction cs as [|c cs IH]; intros w; cbn [calls_tidy]; [apply _|]. apply and_dec; [apply _|apply IH]. Defined.

(** ** Programs *)

(** A list is stored and collected, and seen again as another object; a set is stored; a
    text is stored over another. *)
Definition prog : list call :=
  [ListNew; Call 1 (LPush "x"); DbStore "l" (RObj 1); Call 1 (LPush "y"); Collect 1; DbRef "l"; Call 2 (LPop 0);
   SetNew; Call 3 (SAdd "a"); DbStore "s" (RObj 3); DbStore "t" (RString "1"); DbStore "t" (RString "2"); DbDelete "s"; Collect 3].

Lemma prog_allowed b : calls_allowed in_order (new_world b) prog.
Proof. destruct b; decide_by_compute. Qed.
Lemma prog_tidy : calls_tidy in_order (new_world true) prog.
Proof. decide_by_compute. Qed.

Example prog_runs :
  (fst <$> (snd <$> match run_calls in_order prog (new_server true) with Done sr => Some (sr.1, (sr.2, ())) | _ => None end)) =
  Some (Some <$> [RObj 1; RObj 1; RObj 1; RObj 1; Qnil; RObj 2; RString "x"; RObj 3; RString "a"; RObj 3; RString "1"; RString "2"; RString "s"; Qnil]).
Proof. vm_compute. reflexivity. Qed.

Lemma ruby_refines_witness :
  ∃ s rs, run_calls in_order prog (new_server true) = Done (s, rs) ∧ length (sv_queue s) = 7%nat ∧ is_Some (sv_db s !! "l") ∧
    sv_db s !! "s" = None.
Proof.
  destruct (ruby_refines in_order (λ X, Permutation_refl _) true prog (prog_allowed true)) as (s & E & Hq & Hdb & _).
  eexists s, _. split; [exact E|]. split; [rewrite Hq; vm_compute; reflexivity|]. split.
  - specialize (Hdb "l"). vm_compute in Hdb. destruct Hdb as (e & x & He & _). by exists e.
  - specialize (Hdb "s"). vm_compute in Hdb. exact Hdb.
Defined.

(** After the program and [Engine#exit], the collector takes the object of the list. *)
Lemma ruby_exit_frees_witness :
  ∃ s rs s1 s2 rs2, run_calls in_order prog (new_server true) = Done (s, rs) ∧ exit_soft in_order ["l"; "t"] s = Done (s1, ()) ∧
    sv_db s1 = ∅ ∧ run_calls in_order (Collect <$> [2]) s1 = Done (s2, rs2) ∧ sv_entries s2 = ∅ ∧ sv_strs s2 = ∅.
Proof.
  destruct (ruby_exit_frees in_order (λ X, Permutation_refl _) true prog (prog_allowed true)) as (s & rs & E & H).
  assert (sv_db s = {["l" := 1; "t" := 5]}) as Hdb by (vm_compute in E; injection E as <- <-; vm_compute; reflexivity).
  destruct (H ["l"; "t"]) as (s1 & E1 & _ & Hdb1 & H1).
  { intros key. rewrite Hdb, lookup_insert_is_Some, lookup_singleton_is_Some. intros [<-|[_ <-]]; [by left|by right; left]. }
  assert (sv_objs s1 = {[2 := 1]}) as Hobj.
  { vm_compute in E. injection E as <- <-. vm_compute in E1. injection E1 as <-. vm_compute. reflexivity. }
  destruct (H1 [2]) as (s2 & rs2 & E2 & He & Hs).
  - apply NoDup_singleton.
  - intros v. rewrite Hobj, list_elem_of_singleton, lookup_singleton_is_Some. split; congruence.
  - exists s, rs, s1, s2, rs2. split; [exact E|]. split; [exact E1|]. split; [exact Hdb1|]. split; [exact E2|]. split; [exact He|exact Hs].
Defined.

(** The object of a list that is stored is collected. *)
Definition prog_collected : list call := [ListNew; DbStore "l" (RObj 1); Collect 1].

Lemma collected_delete_faults_witness :
  ∃ s rs, run_calls in_order prog_collected (new_server true) = Done (s, rs) ∧ rb_db_delete in_order "l" s = Stuck ∧
    ∀ t, rb_db_store in_order "l" (RString t) s = Stuck.
Proof.
  apply (collected_delete_faults in_order (λ X, Permutation_refl _) true prog_collected "l" (VList [], 0)).
  - decide_by_compute.
  - vm_compute. reflexivity.
  - reflexivity.
  - vm_compute. reflexivity.
Defined.

Lemma store_raises_witness :
  ∃ s rs s', run_calls in_order [DbStore "t" (RString "1")] (new_server true) = Done (s, rs) ∧
    rb_db_store in_order "t" (RInt 5) s = Done (s', None) ∧ sv_db s' = delete "t" (sv_db s).
Proof.
  destruct (store_raises in_order (λ X, Permutation_refl _) true [DbStore "t" (RString "1")] "t" "1" 0) as (s & rs & E & H & _);
    [decide_by_compute|vm_compute; reflexivity|].
  destruct (H 5) as (s' & E' & Hdb & _). exists s, rs, s'. split; [exact E|]. split; [exact E'|exact Hdb].
Defined.

Definition prog_list : list call := [ListNew; Call 1 (LPush "x"); DbStore "l" (RObj 1)].

Lemma deleted_key_returns_witness :
  calls_allowed in_order (new_world true) (prog_list ++ [DbDelete "l"; Call 1 (LPush "y")]) ∧
  ∃ s rs, run_calls in_order (prog_list ++ [DbDelete "l"; Call 1 (LPush "y")]) (new_server true) = Done (s, rs) ∧ sv_db s !! "l" = None ∧
    rows_at "l" (disk_rows (foldl (apply_job sq_exec) mini_disk (sv_queue s))) = [list_row "l" "y"].
Proof.
  apply (deleted_key_returns in_order (λ X, Permutation_refl _) prog_list "l" 1 ["x"] 0 "y" mini_disk).
  - decide_by_compute.
  - decide_by_compute.
  - reflexivity.
  - vm_compute. reflexivity.
  - vm_compute. reflexivity.
  - decide_by_compute.
Defined.

Lemma stored_twice_witness :
  ∃ s rs s', run_calls in_order prog_list (new_server true) = Done (s, rs) ∧
    rb_db_store in_order "l" (RObj 1) s = Done (s', Some (RObj 1)) ∧ sv_db s' = sv_db s ∧ size (sv_strs s') = S (size (sv_strs s)) ∧
    rows_at "l" (disk_rows (foldl (apply_job sq_exec) mini_disk (sv_queue s'))) ≡ₚ list_row "l" <$> (["x"] ++ ["x"]).
Proof.
  apply (stored_twice in_order (λ X, Permutation_refl _) prog_list "l" 1 ["x"] 0 mini_disk).
  - decide_by_compute.
  - decide_by_compute.
  - reflexivity.
  - vm_compute. reflexivity.
  - vm_compute. reflexivity.
Defined.

Lemma mini_empty : disk_rows mini_disk = [].
Proof. reflexivity. Qed.

Lemma ruby_restart_witness :
  ∃ s rs s' w', run_calls in_order prog (new_server true) = Done (s, rs) ∧
    start in_order (disk_rows (foldl (apply_job sq_exec) mini_disk (sv_queue s))) (new_server false) = Done (s', ()) ∧ ok s' w' ∧
    values w' !! "l" = Some (VList ["y"]) ∧ values w' !! "t" = Some (VString "2").
Proof.
  destruct (ruby_restart (D := dict) (T := keys_t) (I := skiplist_iterator) in_order (λ X, Permutation_refl _) prog mini_disk false (prog_allowed true) prog_tidy mini_empty)
    as (s & rs & s' & E & E' & _ & w' & Hok & Hv).
  - assert (values (foldl (rb_after in_order) (new_world true) prog) = {["l" := VList ["y"]; "t" := VString "2"]}) as -> by (vm_compute; reflexivity).
    intros key v [[<- <-]|[_ [<- <-]%lookup_singleton_Some]]%lookup_insert_Some; [|by apply nul_free_ok].
    constructor; [by apply nul_free_ok|constructor].
  - exists s, rs, s', w'. split; [exact E|]. split; [exact E'|]. split; [exact Hok|]. split.
    + specialize (Hv "l"). assert (values (foldl (rb_after in_order) (new_world true) prog) !! "l" = Some (VList ["y"])) as Hl by (vm_compute; reflexivity).
      rewrite Hl in Hv. cbn in Hv. destruct (values w' !! "l") as [[|l| |]|]; [done| |done..]. by apply Permutation_singleton_l in Hv as ->.
    + specialize (Hv "t"). assert (values (foldl (rb_after in_order) (new_world true) prog) !! "t" = Some (VString "2")) as Hl by (vm_compute; reflexivity).
      rewrite Hl in Hv. cbn in Hv. by destruct (values w' !! "t") as [[]|].
Defined.

(** A hash map with two entries. *)
Definition prog_map : list call := [HashmapNew; Call 1 (HStore "a" "1"); Call 1 (HStore "b" "2")].

(** A block that looks its key up. *)
Definition look_block (key : string) (v : VALUE) : list call := [Call 1 (HRef key)].

Lemma look_block_keeps w k x c : w_get w 1 = Some (VHashmap {["a" := "1"; "b" := "2"]}, 2) → c ∈ look_block k x →
  allowed in_order w c ∧ w_get (rb_after in_order w c) 1 = Some (VHashmap {["a" := "1"; "b" := "2"]}, 2).
Proof.
  intros Hg ->%list_elem_of_singleton. unfold rb_after. cbn [allowed rb_spec]. rewrite Hg. cbn [mbind option_bind method_spec fst snd].
  split; [by eexists|]. by eapply w_get_put.
Qed.

Lemma ruby_each_witness :
  ∃ s rs s', run_calls in_order prog_map (new_server true) = Done (s, rs) ∧
    rb_hashmap_each in_order 3 1 look_block s = Done (s', Some (RObj 1)) ∧
    rb_hashmap_each in_order 2 1 (λ k _, [Call 1 (HDelete k)]) s = Stuck ∧
    rb_hashmap_each in_order 2 1 (λ k _, [Call 1 (HDelete k); Call 1 (HStore k "again")]) s = Stuck.
Proof.
  destruct (ruby_each in_order (λ X, Permutation_refl _) true prog_map 1 {["a" := "1"; "b" := "2"]} 2) as (s & rs & E & H1 & _ & H3).
  - decide_by_compute.
  - vm_compute. reflexivity.
  - destruct (H1 look_block (λ w, w_get w 1 = Some (VHashmap {["a" := "1"; "b" := "2"]}, 2))) as (s' & rs' & E1 & _).
    + vm_compute. reflexivity.
    + intros w Hw. by eexists _, _.
    + intros w k x c. apply look_block_keeps.
    + destruct (H3 ltac:(done) 0%nat) as [E2 E3]. exists s, rs, s'. split; [exact E|]. split; [exact E1|]. split; [exact E2|apply E3].
Defined.
